(** * MTProtoPy: a shallow embedding of [Docker/mtprotopy/mtprotopy.py]

    The proxy's byte-level pipeline is embedded as pure functions over
    [list byte]; Python exceptions are the [Raise] branch of [outcome];
    module-level mutable state is threaded explicitly. *)

From Stdlib Require Import ZArith QArith Qround Lia.
From Stdlib.Strings Require Import Byte.
From stdpp Require Import base option list strings gmap.

Local Open Scope Z_scope.

#[local] Set Default Proof Using "Type".

(** ** Python values used by the proxy *)

#[global] Instance byte_eq_dec : EqDecision byte := Byte.byte_eq_dec.

Abbreviation bytes := (list byte).

Inductive exn :=
| OverflowError
| IncompleteReadError
| ValueError
| TypeError
| IndexError
| ZeroDivisionError.

Inductive outcome (A : Type) :=
| Ret (a : A)
| Raise (e : exn).
Arguments Ret {A} a.
Arguments Raise {A} e.

#[global] Instance outcome_ret : MRet outcome := fun A a => Ret a.
#[global] Instance outcome_bind : MBind outcome := fun A B f m =>
  match m with
  | Ret a => f a
  | Raise e => Raise e
  end.

(** [len(b)] *)
Definition len {A} (b : list A) : Z := Z.of_nat (length b).

(** [b[i:j]] for [0 <= i <= j] *)
Definition slice (i j : nat) (b : bytes) : bytes := take (j - i) (drop i b).

Definition b2z (b : byte) : Z := Z.of_N (Byte.to_N b).

Definition z2b (z : Z) : byte :=
  match Byte.of_N (Z.to_N (z mod 256)) with
  | Some b => b
  | None => x00
  end.

(** Little-endian digits, as [int.to_bytes] and [int.from_bytes] lay them out. *)
Fixpoint le_bytes (n : nat) (x : Z) : bytes :=
  match n with
  | O => []
  | S k => z2b (x mod 256) :: le_bytes k (x / 256)
  end.

Fixpoint le_value (b : bytes) : Z :=
  match b with
  | [] => 0
  | x :: r => b2z x + 256 * le_value r
  end.

(** [int.to_bytes(x, n, "little")]: raises [OverflowError] out of range. *)
Definition int_to_bytes_le (x : Z) (n : nat) : outcome bytes :=
  if decide (0 <= x < 256 ^ Z.of_nat n) then Ret (le_bytes n x)
  else Raise OverflowError.

(** [int.to_bytes(x, n, "little", signed=True)] *)
Definition int_to_bytes_le_signed (x : Z) (n : nat) : outcome bytes :=
  if decide (- (256 ^ Z.of_nat n / 2) <= x < 256 ^ Z.of_nat n / 2)
  then Ret (le_bytes n (x mod 256 ^ Z.of_nat n))
  else Raise OverflowError.

(** [int.to_bytes(x, n, "big")] *)
Definition int_to_bytes_be (x : Z) (n : nat) : outcome bytes :=
  b ← int_to_bytes_le x n; mret (rev b).

(** [int.from_bytes(b, "little")] *)
Definition int_from_bytes_le (b : bytes) : Z := le_value b.

(** [int.from_bytes(b, "little", signed=True)] *)
Definition int_from_bytes_le_signed (b : bytes) : Z :=
  let u := le_value b in
  if decide (b ≠ [] ∧ 256 ^ len b / 2 <= u) then u - 256 ^ len b else u.

(** [int.from_bytes(b, "big")] *)
Definition int_from_bytes_be (b : bytes) : Z := le_value (rev b).

(** [b * k] (bytes repetition; [k <= 0] gives the empty string) *)
Definition bytes_repeat (b : bytes) (k : Z) : bytes :=
  concat (replicate (Z.to_nat k) b).

(** [b.startswith(p)] *)
Definition startswith (b p : bytes) : bool :=
  bool_decide (take (length p) b = p).

(** ** Constants *)

Definition SKIP_LEN : nat := 8.
Definition PREKEY_LEN : nat := 32.
Definition KEY_LEN : nat := 32.
Definition IV_LEN : nat := 16.
Definition HANDSHAKE_LEN : nat := 64.
Definition TLS_HANDSHAKE_LEN : nat := 1 + 2 + 2 + 512.
Definition PROTO_TAG_POS : nat := 56.
Definition DC_IDX_POS : nat := 60.

Definition PROTO_TAG_ABRIDGED : bytes := [xef; xef; xef; xef].
Definition PROTO_TAG_INTERMEDIATE : bytes := [xee; xee; xee; xee].
Definition PROTO_TAG_SECURE : bytes := [xdd; xdd; xdd; xdd].

Definition CBC_PADDING : Z := 16.
Definition PADDING_FILLER : bytes := [x04; x00; x00; x00].

Definition MIN_MSG_LEN : Z := 12.
Definition MAX_MSG_LEN : Z := 2 ^ 24.

(** ** [binascii.crc32]: CRC-32 (IEEE 802.3), reflected, bit at a time *)

Definition CRC_POLY : Z := 0xEDB88320.

Definition crc_shift (c : Z) : Z :=
  if Z.testbit c 0 then Z.lxor (Z.shiftr c 1) CRC_POLY else Z.shiftr c 1.

Definition crc_byte (c : Z) (b : byte) : Z :=
  Nat.iter 8 crc_shift (Z.lxor c (b2z b)).

Definition crc32 (data : bytes) : Z :=
  Z.lxor (fold_left crc_byte data 0xFFFFFFFF) 0xFFFFFFFF.

(** ** Byte sources

    The transport under a reader is the sequence of bytes the peer sends;
    [readexactly] raises [IncompleteReadError] when the peer closes first
    (asyncio's [StreamReader.readexactly]). *)

Definition readexactly (up : bytes) (n : Z) : outcome (bytes * bytes) :=
  if decide (n < 0) then Raise ValueError
  else if decide (n <= len up) then Ret (take (Z.to_nat n) up, drop (Z.to_nat n) up)
  else Raise IncompleteReadError.

(** ** MTProtoFrameStreamReader (FULL framing) *)

Record MTProtoFrameStreamReader := {
  fsr_upstream : bytes;
  fsr_seq_no : Z
}.

(** The [while msg_len == 4] loop that skips paddings.  Every turn consumes
    four bytes, so [length up] turns always suffice; with no turns left the
    transport is exhausted and [readexactly] raises. *)
Fixpoint skip_paddings (fuel : nat) (msg_len_bytes : bytes) (up : bytes)
  : outcome (bytes * bytes) :=
  if decide (int_from_bytes_le msg_len_bytes = 4) then
    match fuel with
    | O => Raise IncompleteReadError
    | S fuel' =>
        '(msg_len_bytes', up') ← readexactly up 4;
        skip_paddings fuel' msg_len_bytes' up'
    end
  else Ret (msg_len_bytes, up).

(** [MTProtoFrameStreamReader.read]: returns the payload, or [b""] when the
    frame is refused. *)
Definition MTProtoFrameStreamReader_read (r : MTProtoFrameStreamReader)
  : outcome (bytes * MTProtoFrameStreamReader) :=
  '(msg_len_bytes, up) ← readexactly (fsr_upstream r) 4;
  '(msg_len_bytes, up) ← skip_paddings (length up) msg_len_bytes up;
  let msg_len := int_from_bytes_le msg_len_bytes in
  let len_is_bad := bool_decide (msg_len mod len PADDING_FILLER ≠ 0) in
  if negb (bool_decide (MIN_MSG_LEN <= msg_len <= MAX_MSG_LEN)) || len_is_bad then
    Ret ([], {| fsr_upstream := up; fsr_seq_no := fsr_seq_no r |})
  else
    '(msg_seq_bytes, up) ← readexactly up 4;
    let msg_seq := int_from_bytes_le_signed msg_seq_bytes in
    if decide (msg_seq ≠ fsr_seq_no r) then
      Ret ([], {| fsr_upstream := up; fsr_seq_no := fsr_seq_no r |})
    else
      let seq_no := fsr_seq_no r + 1 in
      match readexactly up (msg_len - 4 - 4 - 4) with
      | Raise e => Raise e
      | Ret (data, up) =>
          match readexactly up 4 with
          | Raise e => Raise e
          | Ret (checksum_bytes, up) =>
              let checksum := int_from_bytes_le checksum_bytes in
              let computed_checksum :=
                crc32 (msg_len_bytes ++ msg_seq_bytes ++ data) in
              if decide (computed_checksum ≠ checksum) then
                Ret ([], {| fsr_upstream := up; fsr_seq_no := seq_no |})
              else Ret (data, {| fsr_upstream := up; fsr_seq_no := seq_no |})
          end
      end.

(** ** MTProtoCompactFrameStreamReader (ABRIDGED framing) *)

(** The [extra] option set handed along with a message; a key that is
    absent reads as false under [extra.get]. *)
Record extra := {
  QUICKACK_FLAG : bool;
  SIMPLE_ACK : bool
}.

Definition no_extra : extra := {| QUICKACK_FLAG := false; SIMPLE_ACK := false |}.

Definition MTProtoCompactFrameStreamReader_read (up : bytes)
  : outcome (bytes * extra * bytes) :=
  '(msg_len_bytes, up) ← readexactly up 1;
  let msg_len := int_from_bytes_le msg_len_bytes in
  let quickack := bool_decide (msg_len >= 0x80) in
  let msg_len := if quickack then msg_len - 0x80 else msg_len in
  '(msg_len, up) ←
    (if decide (msg_len = 0x7F) then
       '(msg_len_bytes, up) ← readexactly up 3;
       Ret (int_from_bytes_le msg_len_bytes, up)
     else Ret (msg_len, up));
  let msg_len := msg_len * 4 in
  '(data, up) ← readexactly up msg_len;
  Ret (data, {| QUICKACK_FLAG := quickack; SIMPLE_ACK := false |}, up).

(** ** MTProtoIntermediateFrameStreamReader and
       MTProtoSecureIntermediateFrameStreamReader *)

(** The length word as both readers take it apart: the payload length to
    read and the [extra] they report. *)
Definition intermediate_length (msg_len : Z) : Z * extra :=
  if decide (msg_len > 0x80000000)
  then (msg_len - 0x80000000, {| QUICKACK_FLAG := true; SIMPLE_ACK := false |})
  else (msg_len, no_extra).

Definition MTProtoIntermediateFrameStreamReader_read (up : bytes)
  : outcome (bytes * extra * bytes) :=
  '(msg_len_bytes, up) ← readexactly up 4;
  let msg_len := int_from_bytes_le msg_len_bytes in
  let '(msg_len, extra) := intermediate_length msg_len in
  '(data, up) ← readexactly up msg_len;
  Ret (data, extra, up).

Definition MTProtoSecureIntermediateFrameStreamReader_read (up : bytes)
  : outcome (bytes * extra * bytes) :=
  '(msg_len_bytes, up) ← readexactly up 4;
  let msg_len := int_from_bytes_le msg_len_bytes in
  let '(msg_len, extra) := intermediate_length msg_len in
  '(data, up) ← readexactly up msg_len;
  let data :=
    if decide (msg_len mod 4 ≠ 0) then
      let cut_border := msg_len - msg_len mod 4 in
      take (Z.to_nat cut_border) data
    else data in
  Ret (data, extra, up).

(** ** Writers

    Every writer adapter wraps an upstream writer and answers [write]; the
    adapters call [self.upstream.write(data)] with one argument, so the
    upstream always sees the default, empty [extra]. *)

(** What [write] returns: [None] from the asyncio transport, an [int] from
    an adapter that refuses the message. *)
Inductive pyret :=
| PyNone
| PyInt (z : Z).

Class StreamWriter (W : Type) :=
  write : W -> bytes -> extra -> outcome (pyret * W).

(** asyncio's [StreamWriter]: the bytes handed to the transport so far. *)
#[global] Instance transport_write : StreamWriter bytes :=
  fun sent data _ => Ret (PyNone, sent ++ data).

(** The cipher objects returned by [create_aes_ctr] and [create_aes_cbc]:
    [encrypt] and [decrypt] advance the cipher's own state. *)
Class Cipher (C : Type) := {
  encrypt : C -> bytes -> bytes * C;
  decrypt : C -> bytes -> bytes * C
}.

(** *** CryptoWrappedStreamWriter *)

Record CryptoWrappedStreamWriter (U C : Type) := {
  cw_upstream : U;
  cw_encryptor : C;
  cw_block_size : Z
}.
Arguments cw_upstream {U C} _.
Arguments cw_encryptor {U C} _.
Arguments cw_block_size {U C} _.

Definition CryptoWrappedStreamWriter_write {U C} `{StreamWriter U} `{Cipher C}
    (w : CryptoWrappedStreamWriter U C) (data : bytes) (_ : extra)
  : outcome (pyret * CryptoWrappedStreamWriter U C) :=
  if decide (cw_block_size w = 0) then Raise ZeroDivisionError
  else if decide (len data mod cw_block_size w ≠ 0) then Ret (PyInt 0, w)
  else
    let '(q, e) := encrypt (cw_encryptor w) data in
    '(r, u) ← write (cw_upstream w) q no_extra;
    Ret (r, {| cw_upstream := u; cw_encryptor := e;
               cw_block_size := cw_block_size w |}).

#[global] Instance CryptoWrappedStreamWriter_writer {U C} `{StreamWriter U} `{Cipher C}
  : StreamWriter (CryptoWrappedStreamWriter U C) := CryptoWrappedStreamWriter_write.

(** *** MTProtoFrameStreamWriter (FULL framing) *)

Record MTProtoFrameStreamWriter (U : Type) := {
  fsw_upstream : U;
  fsw_seq_no : Z
}.
Arguments fsw_upstream {U} _.
Arguments fsw_seq_no {U} _.

Definition MTProtoFrameStreamWriter_write {U} `{StreamWriter U}
    (w : MTProtoFrameStreamWriter U) (msg : bytes) (_ : extra)
  : outcome (pyret * MTProtoFrameStreamWriter U) :=
  len_bytes ← int_to_bytes_le (len msg + 4 + 4 + 4) 4;
  seq_bytes ← int_to_bytes_le_signed (fsw_seq_no w) 4;
  let seq_no := fsw_seq_no w + 1 in
  let msg_without_checksum := len_bytes ++ seq_bytes ++ msg in
  checksum ← int_to_bytes_le (crc32 msg_without_checksum) 4;
  let full_msg := msg_without_checksum ++ checksum in
  let padding :=
    bytes_repeat PADDING_FILLER ((- len full_msg) mod CBC_PADDING / len PADDING_FILLER) in
  '(r, u) ← write (fsw_upstream w) (full_msg ++ padding) no_extra;
  Ret (r, {| fsw_upstream := u; fsw_seq_no := seq_no |}).

#[global] Instance MTProtoFrameStreamWriter_writer {U} `{StreamWriter U}
  : StreamWriter (MTProtoFrameStreamWriter U) := MTProtoFrameStreamWriter_write.

(** *** MTProtoCompactFrameStreamWriter (ABRIDGED framing) *)

(** [bytes([n])] *)
Definition bytes_of_int (n : Z) : outcome bytes :=
  if decide (0 <= n < 256) then Ret [z2b n] else Raise ValueError.

Definition MTProtoCompactFrameStreamWriter_write {U} `{StreamWriter U}
    (upstream : U) (data : bytes) (extra : extra) : outcome (pyret * U) :=
  let SMALL_PKT_BORDER := 0x7F in
  let LARGE_PKT_BORGER := 256 ^ 3 in
  if decide (len data mod 4 ≠ 0) then Ret (PyInt 0, upstream)
  else if SIMPLE_ACK extra then write upstream (rev data) no_extra
  else
    let len_div_four := len data / 4 in
    if decide (len_div_four < SMALL_PKT_BORDER) then
      b ← bytes_of_int len_div_four;
      write upstream (b ++ data) no_extra
    else if decide (len_div_four < LARGE_PKT_BORGER) then
      l ← int_to_bytes_le len_div_four 3;
      write upstream ([x7f] ++ l ++ data) no_extra
    else Ret (PyInt 0, upstream).

(** *** ProxyReqStreamWriter (RPC envelope) *)

Record ProxyReqStreamWriter (U : Type) := {
  prw_upstream : U;
  remote_ip_port : bytes;
  our_ip_port : bytes;
  out_conn_id : bytes;
  proto_tag : bytes
}.
Arguments prw_upstream {U} _.
Arguments remote_ip_port {U} _.
Arguments our_ip_port {U} _.
Arguments out_conn_id {U} _.
Arguments proto_tag {U} _.

Definition FLAG_NOT_ENCRYPTED : Z := 0x2.
Definition FLAG_HAS_AD_TAG : Z := 0x8.
Definition FLAG_MAGIC : Z := 0x1000.
Definition FLAG_EXTMODE2 : Z := 0x20000.
Definition FLAG_PAD : Z := 0x8000000.
Definition FLAG_INTERMEDIATE : Z := 0x20000000.
Definition FLAG_ABRIDGED : Z := 0x40000000.
Definition FLAG_QUICKACK : Z := 0x80000000.

(** The [flags] word of the envelope, as [write] accumulates it. *)
Definition ProxyReq_flags (proto_tag msg : bytes) (extra : extra) : Z :=
  let flags := Z.lor (Z.lor FLAG_HAS_AD_TAG FLAG_MAGIC) FLAG_EXTMODE2 in
  let flags :=
    if decide (proto_tag = PROTO_TAG_ABRIDGED) then Z.lor flags FLAG_ABRIDGED
    else if decide (proto_tag = PROTO_TAG_INTERMEDIATE) then Z.lor flags FLAG_INTERMEDIATE
    else if decide (proto_tag = PROTO_TAG_SECURE)
         then Z.lor flags (Z.lor FLAG_INTERMEDIATE FLAG_PAD)
    else flags in
  let flags := if QUICKACK_FLAG extra then Z.lor flags FLAG_QUICKACK else flags in
  let flags :=
    if startswith msg (bytes_repeat [x00] 8) then Z.lor flags FLAG_NOT_ENCRYPTED
    else flags in
  flags.

(** [ad_tag] is [config["mtproto"]["ad_tag"]], read at every write. *)
Definition ProxyReqStreamWriter_write {U} `{StreamWriter U} (ad_tag : bytes)
    (w : ProxyReqStreamWriter U) (msg : bytes) (extra : extra)
  : outcome (pyret * ProxyReqStreamWriter U) :=
  let RPC_PROXY_REQ := [xee; xf1; xce; x36] in
  let EXTRA_SIZE := [x18; x00; x00; x00] in
  let PROXY_TAG := [xae; x26; x1e; xdb] in
  let FOUR_BYTES_ALIGNER := [x00; x00; x00] in
  if decide (len msg mod 4 ≠ 0) then Ret (PyInt 0, w)
  else
    let flags := ProxyReq_flags (proto_tag w) msg extra in
    flag_bytes ← int_to_bytes_le flags 4;
    let full_msg := RPC_PROXY_REQ ++ flag_bytes ++ out_conn_id w in
    let full_msg :=
      full_msg ++ remote_ip_port w ++ our_ip_port w ++ EXTRA_SIZE ++ PROXY_TAG in
    ad_tag_len ← bytes_of_int (len ad_tag);
    let full_msg := full_msg ++ ad_tag_len ++ ad_tag ++ FOUR_BYTES_ALIGNER in
    let full_msg := full_msg ++ msg in
    '(r, u) ← write (prw_upstream w) full_msg no_extra;
    Ret (r, {| prw_upstream := u; remote_ip_port := remote_ip_port w;
               our_ip_port := our_ip_port w; out_conn_id := out_conn_id w;
               proto_tag := proto_tag w |}).

(** ** Proxy state

    The module-level dictionaries the handshake engine and the orchestrator
    update, the bytes the client still has to deliver, and the observable
    actions of the connection so far. *)

Record user := {
  name : string;
  secret : bytes;                   (* [bytes.fromhex(user["secret"])] *)
  max_tcp_conns : option Z;
  expiration_date : option string;
  data_quota : option Z
}.

Record config := {
  proxy_protocol : bool;
  replay_check_len : Z;
  client_ips_len : Z;
  ignore_time_skew : bool;
  use_middle_proxy : bool;
  fast_mode : bool;
  mask : bool
}.

Inductive event :=
| ClientWrite (data : bytes)          (* [writer.write] on the client socket *)
| DrainClient                         (* bad client: read and drop until EOF *)
| CoverTunnel (handshake : bytes)     (* bad client: replay to the mask host, then splice *)
| TgHandshake (direct : bool) (tag : bytes) (dc_idx : Z)
                                      (* dial a DC or a middle proxy and shake hands *)
| Splice (username : string)          (* the two relay tasks run *)
| TgAbort.                            (* [writer_tg.transport.abort()] *)

Record world := {
  used_handshakes : list bytes;       (* OrderedDict, oldest key first *)
  client_ips : list string;           (* OrderedDict, oldest key first *)
  last_client_ips : gset string;
  last_clients_with_time_skew : gmap string Z;
  last_clients_with_same_handshake : gmap string Z;
  stats : gmap string Z;
  user_stats : gmap string (gmap string Z);
  clt_in : bytes;
  trace : list event
}.

(** What one connection finds around it: socket facts, the clock, the flags
    the maintenance tasks own, the random draws, and whether Telegram answers. *)
Record conn_env := {
  is_closing : bool;
  peername : option (string * Z);
  now : Q;                            (* [time.time()] *)
  now_skew : Q;                       (* [time.time()], read again for a skew *)
  is_time_skewed : bool;
  disable_middle_proxy : bool;
  x25519_public_key : bytes;          (* [gen_x25519_public_key()] *)
  http_data : bytes;                  (* [myrandom.getrandbytes(fake_cert_len)] *)
  tg_answers : bool;
  session_duration : Q
}.

Definition M (A : Type) : Type := world -> outcome A * world.

#[global] Instance M_ret : MRet M := fun A a w => (Ret a, w).
#[global] Instance M_bind : MBind M := fun A B f m w =>
  match m w with
  | (Ret a, w') => f a w'
  | (Raise e, w') => (Raise e, w')
  end.

Definition lift {A} (o : outcome A) : M A := fun w => (o, w).

Definition get_world : M world := fun w => (Ret w, w).

Definition set_used_handshakes (d : list bytes) : M unit := fun w =>
  (Ret (), {| used_handshakes := d; client_ips := client_ips w;
              last_client_ips := last_client_ips w;
              last_clients_with_time_skew := last_clients_with_time_skew w;
              last_clients_with_same_handshake := last_clients_with_same_handshake w;
              stats := stats w; user_stats := user_stats w;
              clt_in := clt_in w; trace := trace w |}).

Definition set_client_ips (d : list string) (l : gset string) : M unit := fun w =>
  (Ret (), {| used_handshakes := used_handshakes w; client_ips := d;
              last_client_ips := l;
              last_clients_with_time_skew := last_clients_with_time_skew w;
              last_clients_with_same_handshake := last_clients_with_same_handshake w;
              stats := stats w; user_stats := user_stats w;
              clt_in := clt_in w; trace := trace w |}).

Definition set_last_clients_with_time_skew (d : gmap string Z) : M unit := fun w =>
  (Ret (), {| used_handshakes := used_handshakes w; client_ips := client_ips w;
              last_client_ips := last_client_ips w;
              last_clients_with_time_skew := d;
              last_clients_with_same_handshake := last_clients_with_same_handshake w;
              stats := stats w; user_stats := user_stats w;
              clt_in := clt_in w; trace := trace w |}).

Definition set_last_clients_with_same_handshake (d : gmap string Z) : M unit := fun w =>
  (Ret (), {| used_handshakes := used_handshakes w; client_ips := client_ips w;
              last_client_ips := last_client_ips w;
              last_clients_with_time_skew := last_clients_with_time_skew w;
              last_clients_with_same_handshake := d;
              stats := stats w; user_stats := user_stats w;
              clt_in := clt_in w; trace := trace w |}).

Definition set_stats (d : gmap string Z) : M unit := fun w =>
  (Ret (), {| used_handshakes := used_handshakes w; client_ips := client_ips w;
              last_client_ips := last_client_ips w;
              last_clients_with_time_skew := last_clients_with_time_skew w;
              last_clients_with_same_handshake := last_clients_with_same_handshake w;
              stats := d; user_stats := user_stats w;
              clt_in := clt_in w; trace := trace w |}).

Definition set_user_stats (d : gmap string (gmap string Z)) : M unit := fun w =>
  (Ret (), {| used_handshakes := used_handshakes w; client_ips := client_ips w;
              last_client_ips := last_client_ips w;
              last_clients_with_time_skew := last_clients_with_time_skew w;
              last_clients_with_same_handshake := last_clients_with_same_handshake w;
              stats := stats w; user_stats := d;
              clt_in := clt_in w; trace := trace w |}).

(** The world once the client socket has delivered all but [b]. *)
Definition with_clt_in (b : bytes) (w : world) : world :=
  {| used_handshakes := used_handshakes w; client_ips := client_ips w;
     last_client_ips := last_client_ips w;
     last_clients_with_time_skew := last_clients_with_time_skew w;
     last_clients_with_same_handshake := last_clients_with_same_handshake w;
     stats := stats w; user_stats := user_stats w;
     clt_in := b; trace := trace w |}.

Definition set_clt_in (b : bytes) : M unit := fun w => (Ret (), with_clt_in b w).

Definition emit (e : event) : M unit := fun w =>
  (Ret (), {| used_handshakes := used_handshakes w; client_ips := client_ips w;
              last_client_ips := last_client_ips w;
              last_clients_with_time_skew := last_clients_with_time_skew w;
              last_clients_with_same_handshake := last_clients_with_same_handshake w;
              stats := stats w; user_stats := user_stats w;
              clt_in := clt_in w; trace := trace w ++ [e] |}).

(** [await reader.readexactly(n)] on the client socket *)
Definition clt_readexactly (n : Z) : M bytes :=
  w ← get_world;
  '(data, rest) ← lift (readexactly (clt_in w) n);
  set_clt_in rest;;
  mret data.

(** A [collections.Counter]: a missing key counts 0. *)
Definition counter_get (c : gmap string Z) (k : string) : Z := default 0 (c !! k).

Definition counter_add (k : string) (v : Z) (c : gmap string Z) : gmap string Z :=
  <[k := counter_get c k + v]> c.

(** [update_stats(k=v)] *)
Definition update_stats (k : string) (v : Z) : M unit :=
  w ← get_world; set_stats (counter_add k v (stats w)).

(** [update_user_stats(user, k=v)]; [user_stats] is a
    [defaultdict(Counter)]. *)
Definition update_user_stats (user : string) (k : string) (v : Z) : M unit :=
  w ← get_world;
  set_user_stats
    (<[user := counter_add k v (default ∅ (user_stats w !! user))]> (user_stats w)).

(** *** The bounded, insertion-ordered caches *)

(** [while len(d) >= limit: d.popitem(last=False)].  The loop is only entered
    under [limit > 0], where it removes at most [len(d)] keys. *)
Fixpoint popitem_while {K} (fuel : nat) (limit : Z) (d : list K) : list K :=
  match fuel with
  | O => d
  | S fuel' =>
      if decide (len d >= limit) then popitem_while fuel' limit (tail d) else d
  end.

(** [d[k] = True] on an [OrderedDict]: a new key goes last, a key already
    there keeps its place. *)
Definition od_set `{EqDecision K} (k : K) (d : list K) : list K :=
  if decide (k ∈ d) then d else d ++ [k].

(** The replay-cache update of both handshake functions. *)
Definition remember_handshake (cfg : config) (fingerprint : bytes) : M unit :=
  if decide (replay_check_len cfg > 0) then
    w ← get_world;
    let d := popitem_while (length (used_handshakes w)) (replay_check_len cfg)
               (used_handshakes w) in
    set_used_handshakes (od_set fingerprint d)
  else mret ().

(** The client-IP cache update of both handshake functions. *)
Definition remember_client_ip (cfg : config) (ip : string) : M unit :=
  if decide (client_ips_len cfg > 0) then
    w ← get_world;
    let d := popitem_while (length (client_ips w)) (client_ips_len cfg) (client_ips w) in
    if decide (ip ∉ d) then set_client_ips (d ++ [ip]) ({[ip]} ∪ last_client_ips w)
    else set_client_ips d (last_client_ips w)
  else mret ().

(** *** handle_bad_client *)

Definition handle_bad_client (cfg : config) (env : conn_env) (handshake : option bytes)
  : M unit :=
  update_stats "connects_bad" 1;;
  if is_closing env then mret ()
  else
    match handshake with
    | Some h => if negb (mask cfg) then emit DrainClient else emit (CoverTunnel h)
    | None => emit DrainClient
    end.

(** *** FakeTLSStreamReader *)

(** [FakeTLSStreamReader.read(n, ignore_buf=True)]: the next ApplicationData
    record, skipping ChangeCipherSpec records.  Every record takes at least
    five bytes, so [length up] turns suffice. *)
Fixpoint FakeTLSStreamReader_read (fuel : nat) (up : bytes) : outcome (bytes * bytes) :=
  match fuel with
  | O => Raise IncompleteReadError
  | S fuel' =>
      '(tls_rec_type, up) ← readexactly up 1;
      if negb (bool_decide (tls_rec_type ∈ [[x14]; [x17]])) then Ret ([], up)
      else
        '(version, up) ← readexactly up 2;
        if decide (version ≠ [x03; x03]) then Ret ([], up)
        else
          '(data_len_bytes, up) ← readexactly up 2;
          let data_len := int_from_bytes_be data_len_bytes in
          '(data, up) ← readexactly up data_len;
          if decide (tls_rec_type = [x14]) then FakeTLSStreamReader_read fuel' up
          else Ret (data, up)
  end.

(** [FakeTLSStreamReader.readexactly(n)]: result, new [buf], rest of the
    transport. *)
Fixpoint FakeTLSStreamReader_readexactly (fuel : nat) (buf up : bytes) (n : Z)
  : outcome (bytes * bytes * bytes) :=
  if decide (len buf < n) then
    match fuel with
    | O => Raise IncompleteReadError
    | S fuel' =>
        '(tls_data, up) ← FakeTLSStreamReader_read (length up) up;
        if decide (tls_data = []) then Ret ([], buf, up)
        else FakeTLSStreamReader_readexactly fuel' (buf ++ tls_data) up n
    end
  else Ret (take (Z.to_nat n) buf, drop (Z.to_nat n) buf, up).

(** ** Limits on a user

    [filter(...)] gives a lazy iterator over the matching user dicts.  [key in
    it] on an iterator walks it, comparing [key] with each item it yields,
    and leaves it after the first equal item (or exhausted). *)

(** [key == item] for a [str] key and a user's [dict]: never equal. *)
Definition str_eq_dict (key : string) (item : user) : bool := false.

Fixpoint iter_contains (key : string) (it : list user) : bool * list user :=
  match it with
  | [] => (false, [])
  | item :: rest =>
      if str_eq_dict key item then (true, rest) else iter_contains key rest
  end.

(** ** Duration buckets *)

Definition STAT_DURATION_BUCKETS : list (Q * string) :=
  [(1 # 10, "0.1"); (1 # 2, "0.5"); (1, "1"); (2, "2"); (5, "5"); (15, "15");
   (60, "60"); (300, "300"); (600, "600"); (1800, "1800");
   (inject_Z (2 ^ 31 - 1), "2147483647")]%Q.

(** [for bucket in STAT_DURATION_BUCKETS: if duration <= bucket: break] *)
Fixpoint duration_bucket (duration : Q) (buckets : list (Q * string)) (bucket : string)
  : string :=
  match buckets with
  | [] => bucket
  | (b, label) :: rest =>
      if Qle_bool duration b then label else duration_bucket duration rest label
  end.

Definition update_durations (duration : Q) : M unit :=
  update_stats
    ("connects_with_duration_le_" +:+ duration_bucket duration STAT_DURATION_BUCKETS "")
    1.


(** *** MTProtoIntermediateFrameStreamWriter *)

Definition MTProtoIntermediateFrameStreamWriter_write {U} `{StreamWriter U}
    (upstream : U) (data : bytes) (extra : extra) : outcome (pyret * U) :=
  if SIMPLE_ACK extra then write upstream data no_extra
  else
    len_bytes ← int_to_bytes_le (len data) 4;
    write upstream (len_bytes ++ data) no_extra.

(** *** MTProtoSecureIntermediateFrameStreamWriter *)

(** [padding_len] is the draw [myrandom.randrange(MAX_PADDING_LEN)] and
    [padding] the draw [myrandom.getrandbytes(padding_len)]. *)
Definition MTProtoSecureIntermediateFrameStreamWriter_write {U} `{StreamWriter U}
    (padding_len : Z) (padding : bytes)
    (upstream : U) (data : bytes) (extra : extra) : outcome (pyret * U) :=
  if SIMPLE_ACK extra then write upstream data no_extra
  else
    padded_data_len_bytes ← int_to_bytes_le (len data + padding_len) 4;
    write upstream (padded_data_len_bytes ++ data ++ padding) no_extra.

(** *** FakeTLSStreamWriter *)

(** [range(0, stop, step)] for a positive [step] *)
Definition range_from_0 (stop step : Z) : list Z :=
  (fun i => Z.of_nat i * step) <$> seq 0 (Z.to_nat ((stop + step - 1) / step)).

(** [for start in range(0, len(data), MAX_CHUNK_SIZE): ...]; what the two
    upstream writes return is dropped. *)
Fixpoint FakeTLSStreamWriter_chunks {U} `{StreamWriter U} (MAX_CHUNK_SIZE : Z)
    (starts : list Z) (data : bytes) (upstream : U) : outcome U :=
  match starts with
  | [] => Ret upstream
  | start :: starts' =>
      let end_ := Z.min (start + MAX_CHUNK_SIZE) (len data) in
      rec_len ← int_to_bytes_be (end_ - start) 2;
      '(_, upstream) ← write upstream ([x17; x03; x03] ++ rec_len) no_extra;
      '(_, upstream) ←
        write upstream (slice (Z.to_nat start) (Z.to_nat end_) data) no_extra;
      FakeTLSStreamWriter_chunks MAX_CHUNK_SIZE starts' data upstream
  end.

Definition FakeTLSStreamWriter_write {U} `{StreamWriter U}
    (upstream : U) (data : bytes) (_ : extra) : outcome (pyret * U) :=
  let MAX_CHUNK_SIZE := 16384 + 24 in
  upstream ←
    FakeTLSStreamWriter_chunks MAX_CHUNK_SIZE (range_from_0 (len data) MAX_CHUNK_SIZE)
      data upstream;
  Ret (PyInt (len data), upstream).

(** The wire image of ApplicationData records, to state what the FakeTLS
    writer sends. *)
Definition tls_app_record (chunk : bytes) : bytes :=
  [x17; x03; x03] ++ rev (le_bytes 2 (len chunk)) ++ chunk.

Definition tls_app_records (chunks : list bytes) : bytes :=
  concat (tls_app_record <$> chunks).

(** [data[start:end]] of the writer's loop body *)
Definition tls_chunk (MAX_CHUNK_SIZE : Z) (data : bytes) (start : Z) : bytes :=
  slice (Z.to_nat start) (Z.to_nat (Z.min (start + MAX_CHUNK_SIZE) (len data))) data.

(** ** Readers as [tg_connect_reader_to_writer] sees them *)

(** What a reader's [read] returns: [bytes], or a [(bytes, extra)] tuple. *)
Inductive pyread :=
| Data (data : bytes)
| DataExtra (data : bytes) (extra : extra).

Class StreamReader (R : Type) :=
  read : R -> outcome (pyread * R).

Definition MTProtoFrameStreamReader_reader : StreamReader MTProtoFrameStreamReader :=
  fun r => '(data, r) ← MTProtoFrameStreamReader_read r; Ret (Data data, r).

Definition MTProtoCompactFrameStreamReader_reader : StreamReader bytes :=
  fun up =>
    '(data, extra, up) ← MTProtoCompactFrameStreamReader_read up;
    Ret (DataExtra data extra, up).

Definition MTProtoIntermediateFrameStreamReader_reader : StreamReader bytes :=
  fun up =>
    '(data, extra, up) ← MTProtoIntermediateFrameStreamReader_read up;
    Ret (DataExtra data extra, up).

Definition MTProtoSecureIntermediateFrameStreamReader_reader : StreamReader bytes :=
  fun up =>
    '(data, extra, up) ← MTProtoSecureIntermediateFrameStreamReader_read up;
    Ret (DataExtra data extra, up).

(** *** ProxyReqStreamReader *)

Definition RPC_PROXY_ANS : bytes := [x0d; xda; x03; x44].
Definition RPC_CLOSE_EXT : bytes := [xa2; x34; xb6; x5e].
Definition RPC_SIMPLE_ACK : bytes := [x9b; x40; xac; x3b].

(** [len(data)] and [data[i:j]] on what the upstream reader returned; a tuple
    has two items and its slices are tuples. *)
Definition ProxyReqStreamReader_read {R} `{StreamReader R} (upstream : R)
  : outcome (pyread * R) :=
  '(data, upstream) ← read upstream;
  match data with
  | DataExtra _ _ => Ret (Data [], upstream)
  | Data data =>
      if decide (len data < 4) then Ret (Data [], upstream)
      else
        let ans_type := take 4 data in
        if decide (ans_type = RPC_CLOSE_EXT) then Ret (Data [], upstream)
        else if decide (ans_type = RPC_PROXY_ANS) then
          let conn_data := drop 16 data in
          Ret (Data conn_data, upstream)
        else if decide (ans_type = RPC_SIMPLE_ACK) then
          let confirm := slice 12 16 data in
          Ret (DataExtra confirm {| QUICKACK_FLAG := false; SIMPLE_ACK := true |},
               upstream)
        else Ret (Data [], upstream)
  end.

(** ** tg_connect_reader_to_writer *)

(** [user_stats[user][k]] *)
Definition user_stat (w : world) (user k : string) : Z :=
  counter_get (default ∅ (user_stats w !! user)) k.

(** [if isinstance(data, tuple): data, extra = data; else: extra = {}] *)
Definition unpack_read (r : pyread) : bytes * extra :=
  match r with
  | Data data => (data, no_extra)
  | DataExtra data extra => (data, extra)
  end.

(** How a relay task ends: the reader and the writer as it leaves them, and
    whether it sent [write_eof]. *)
Record relay_end (R W : Type) := {
  re_reader : R;
  re_writer : W;
  re_eof : bool
}.
Arguments re_reader {R W} _.
Arguments re_writer {R W} _.
Arguments re_eof {R W} _.

(** The [while True] loop, for at most [fuel] messages; [None] when the task
    is still relaying after them.  [asyncio.IncompleteReadError] ends the
    task silently, any other exception escapes it. *)
Fixpoint tg_connect_reader_to_writer {R W} `{StreamReader R} `{StreamWriter W}
    (fuel : nat) (rd : R) (wr : W) (user : string) (is_upstream : bool)
  : M (option (relay_end R W)) :=
  match fuel with
  | O => mret None
  | S fuel' =>
      match read rd with
      | Raise IncompleteReadError =>
          mret (Some {| re_reader := rd; re_writer := wr; re_eof := false |})
      | Raise e => lift (Raise e)
      | Ret (data, rd) =>
          let '(data, extra) := unpack_read data in
          if decide (data = []) then
            mret (Some {| re_reader := rd; re_writer := wr; re_eof := true |})
          else
            (if is_upstream then
               update_user_stats user "octets_from_client" (len data);;
               update_user_stats user "msgs_from_client" 1
             else
               update_user_stats user "octets_to_client" (len data);;
               update_user_stats user "msgs_to_client" 1);;
            match write wr data extra with
            | Raise IncompleteReadError =>
                mret (Some {| re_reader := rd; re_writer := wr; re_eof := false |})
            | Raise e => lift (Raise e)
            | Ret (_, wr) => tg_connect_reader_to_writer fuel' rd wr user is_upstream
            end
      end
  end.

(** [relays rd wr msgs rd' wr']: the reader hands over the messages [msgs],
    none of them empty, one after the other, and the writer takes them. *)
Inductive relays {R W} `{StreamReader R} `{StreamWriter W}
  : R -> W -> list bytes -> R -> W -> Prop :=
| relays_nil rd wr : relays rd wr [] rd wr
| relays_cons rd wr r data extra rd1 ret wr1 msgs rd' wr' :
    read rd = Ret (r, rd1) ->
    unpack_read r = (data, extra) ->
    data <> [] ->
    write wr data extra = Ret (ret, wr1) ->
    relays rd1 wr1 msgs rd' wr' ->
    relays rd wr (data :: msgs) rd' wr'.

(** How the reader stops the loop at [rd]: it raises
    [asyncio.IncompleteReadError], or it hands over nothing. *)
Definition relay_stops {R} `{StreamReader R} (rd rd' : R) (eof : bool) : Prop :=
  (read rd = Raise IncompleteReadError /\ rd' = rd /\ eof = false)
  \/ (exists r, read rd = Ret (r, rd') /\ (unpack_read r).1 = [] /\ eof = true).

(** ** The TLS ClientHello sent to the mask host *)

(** [gen_x25519_public_key()]; [n] is the draw [myrandom.randrange(P)]. *)
Definition gen_x25519_public_key (n : Z) : outcome bytes :=
  let P := 2 ^ 255 - 19 in
  int_to_bytes_le ((n * n) mod P) 32.

(** [gen_tls_client_hello_msg(server_name)]; [random] and [session_id] are
    the two draws [myrandom.getrandbytes(32)], [n] the draw of
    [gen_x25519_public_key], and [server_name] the name already encoded
    ([server_name.encode("ascii")], one byte per character). *)
Definition gen_tls_client_hello_msg (random session_id : bytes) (n : Z)
    (server_name : bytes) : outcome bytes :=
  let msg :=
    [x16; x03; x01; x02; x00; x01; x00; x01; xfc; x03; x03] ++ random in
  let msg := msg ++ [x20] ++ session_id in
  let msg :=
    msg ++ [x00; x22; x4a; x4a; x13; x01; x13; x02; x13; x03; xc0; x2b; xc0; x2f;
            xc0; x2c; xc0; x30; xcc; xa9] in
  let msg :=
    msg ++ [xcc; xa8; xc0; x13; xc0; x14; x00; x9c; x00; x9d; x00; x2f; x00; x35;
            x00; x0a; x01; x00; x01; x91] in
  let msg := msg ++ [xda; xda; x00; x00; x00; x00] in
  l5 ← int_to_bytes_be (len server_name + 5) 2;
  let msg := msg ++ l5 in
  l3 ← int_to_bytes_be (len server_name + 3) 2;
  let msg := msg ++ l3 ++ [x00] in
  l0 ← int_to_bytes_be (len server_name) 2;
  let msg := msg ++ l0 ++ server_name in
  let msg :=
    msg ++ [x00; x17; x00; x00; xff; x01; x00; x01; x00; x00; x0a; x00; x0a; x00;
            x08; xaa; xaa; x00; x1d; x00] in
  let msg :=
    msg ++ [x17; x00; x18; x00; x0b; x00; x02; x01; x00; x00; x23; x00; x00; x00;
            x10; x00; x0e; x00; x0c; x02] in
  let msg :=
    msg ++ [x68; x32; x08; x68; x74; x74; x70; x2f; x31; x2e; x31; x00; x05; x00;
            x05; x01; x00; x00; x00; x00] in
  let msg :=
    msg ++ [x00; x0d; x00; x14; x00; x12; x04; x03; x08; x04; x04; x01; x05; x03;
            x08; x05; x05; x01; x08; x06] in
  let msg :=
    msg ++ [x06; x01; x02; x01; x00; x12; x00; x00; x00; x33; x00; x2b; x00; x29;
            xaa; xaa; x00; x01; x00; x00] in
  key ← gen_x25519_public_key n;
  let msg := msg ++ [x1d; x00; x20] ++ key in
  let msg :=
    msg ++ [x00; x2d; x00; x02; x01; x01; x00; x2b; x00; x0b; x0a; xba; xba; x03;
            x04; x03; x03; x03; x02; x03] in
  let msg :=
    msg ++ [x01; x00; x1b; x00; x03; x02; x00; x02; x3a; x3a; x00; x01; x00; x00;
            x15] in
  pad_len ← int_to_bytes_be (517 - len msg - 2) 2;
  let msg := msg ++ pad_len in
  let msg := msg ++ bytes_repeat [x00] (517 - len msg) in
  Ret msg.

(** ** The certificate length taken from the mask host *)

(** [get_tls_record(reader)] of [get_encrypted_cert]: the record type and
    the record, [(0, b"")] for another TLS version or when the stream ends
    first. *)
Definition get_tls_record (up : bytes) : outcome ((Z * bytes) * bytes) :=
  let attempt :=
    '(first, up) ← readexactly up 1;
    record_type ←
      match first !! 0%nat with
      | Some b => Ret (b2z b)
      | None => Raise IndexError
      end;
    '(tls_version, up) ← readexactly up 2;
    if decide (tls_version ≠ [x03; x03]) then Ret ((0, []), up)
    else
      '(record_len_bytes, up) ← readexactly up 2;
      let record_len := int_from_bytes_be record_len_bytes in
      '(record, up) ← readexactly up record_len;
      Ret ((record_type, record), up) in
  match attempt with
  | Raise IncompleteReadError => Ret ((0, []), [])
  | other => other
  end.

(** [get_encrypted_cert], from the host's reply to the ClientHello on. *)
Definition get_encrypted_cert (reply : bytes) : outcome bytes :=
  '((record1_type, record1), up) ← get_tls_record reply;
  if decide (record1_type ≠ 22) then Ret []
  else
    '((record2_type, record2), up) ← get_tls_record up;
    if decide (record2_type ≠ 20) then Ret []
    else
      '((record3_type, record3), up) ← get_tls_record up;
      if decide (record3_type ≠ 23) then Ret [] else Ret record3.

Definition MIN_CERT_LEN : Z := 1024.

(** What one turn of [get_mask_host_cert_len] makes of [fake_cert_len],
    given the certificate record it got. *)
Definition update_fake_cert_len (fake_cert_len : Z) (cert : bytes) : Z :=
  if decide (cert ≠ []) then
    if decide (len cert < MIN_CERT_LEN) then fake_cert_len
    else if decide (len cert ≠ fake_cert_len) then len cert
    else fake_cert_len
  else fake_cert_len.

(** A stand-in cipher that keeps the key and the counter it was created
    with and, like [FakeCipher], hands the data on unchanged. *)
#[global] Instance KeyedFakeCipher : Cipher (bytes * Z) :=
  {| encrypt := fun c data => (data, c); decrypt := fun c data => (data, c) |}.


(** ** TgConnectionPool *)

(** A connection task of the pool as [get_connection] finds it: not done,
    done with an exception, or done with a connection whose transport is
    closing or not. *)
Inductive task_state :=
| TaskPending
| TaskFailed
| TaskDone (is_closing : bool).

(** Tasks are told apart by a number, [asyncio.ensure_future] hands out the
    next one; a pool is keyed by host, port and [init_func], a function
    told by its name or [None]. *)
Record TgConnectionPool := {
  pools : gmap (string * Z * option string) (list nat);
  next_task : nat
}.

Definition MAX_CONNS_IN_POOL : Z := 64.

(** [while len(self.pools[key]) < MAX_CONNS_IN_POOL: ... append(connect_task)];
    every turn adds a task, so [MAX_CONNS_IN_POOL] turns suffice. *)
Fixpoint register_loop (fuel : nat) (tasks : list nat) (next : nat) : list nat * nat :=
  match fuel with
  | O => (tasks, next)
  | S fuel' =>
      if decide (len tasks < MAX_CONNS_IN_POOL)
      then register_loop fuel' (tasks ++ [next]) (S next)
      else (tasks, next)
  end.

Definition register_host_port (key : string * Z * option string) (p : TgConnectionPool)
  : TgConnectionPool :=
  let tasks := default [] (pools p !! key) in
  let '(tasks, next) :=
    register_loop (Z.to_nat MAX_CONNS_IN_POOL) tasks (next_task p) in
  {| pools := <[key := tasks]> (pools p); next_task := next |}.

(** [l.remove(x)]: the first [x] goes, [ValueError] when there is none. *)
Fixpoint list_remove (x : nat) (l : list nat) : outcome (list nat) :=
  match l with
  | [] => Raise ValueError
  | y :: l' => if decide (y = x) then Ret l' else l'' ← list_remove x l'; Ret (y :: l'')
  end.

(** [for task in self.pools[key][::]: ...] over the copy [snapshot], with
    the pool's list [tasks] and [ret] as they stand. *)
Fixpoint get_connection_loop (state : nat -> task_state) (snapshot tasks : list nat)
    (ret : option nat) : outcome (list nat * option nat) :=
  match snapshot with
  | [] => Ret (tasks, ret)
  | task :: snapshot' =>
      match state task with
      | TaskPending => get_connection_loop state snapshot' tasks ret
      | TaskFailed =>
          tasks ← list_remove task tasks;
          get_connection_loop state snapshot' tasks ret
      | TaskDone true =>
          tasks ← list_remove task tasks;
          get_connection_loop state snapshot' tasks ret
      | TaskDone false =>
          match ret with
          | None =>
              tasks ← list_remove task tasks;
              get_connection_loop state snapshot' tasks (Some task)
          | Some _ => get_connection_loop state snapshot' tasks ret
          end
      end
  end.

(** What [get_connection] returns: the connection of a finished task of the
    pool, or one that it opens on the spot. *)
Inductive pool_conn :=
| Pooled (task : nat)
| Opened.

Definition get_connection (state : nat -> task_state) (key : string * Z * option string)
    (p : TgConnectionPool) : outcome (pool_conn * TgConnectionPool) :=
  let p := register_host_port key p in
  let tasks := default [] (pools p !! key) in
  '(tasks, ret) ← get_connection_loop state tasks tasks None;
  let p := {| pools := <[key := tasks]> (pools p); next_task := next_task p |} in
  let p := register_host_port key p in
  match ret with
  | Some task => Ret (Pooled task, p)
  | None => Ret (Opened, p)
  end.

(** A finished task whose connection can be handed out. *)
Definition task_usable (state : nat -> task_state) (task : nat) : Prop :=
  state task = TaskDone false.

(** What every pool of a [TgConnectionPool] looks like between two calls:
    at most [MAX_CONNS_IN_POOL] tasks, each one once, all of them handed out
    by [asyncio.ensure_future] before. *)
Definition pool_ok (p : TgConnectionPool) : Prop :=
  forall key tasks,
    pools p !! key = Some tasks ->
    NoDup tasks /\ len tasks <= MAX_CONNS_IN_POOL
    /\ Forall (fun t => (t < next_task p)%nat) tasks.

(** A pool of three tasks: the first failed, the second and the third
    connected. *)
Definition sample_pool_key : string * Z * option string :=
  ("149.154.175.50"%string, 443, None).

Definition sample_pool : TgConnectionPool :=
  {| pools := {[ sample_pool_key := [0; 1; 2]%nat ]}; next_task := 3 |}.

Definition sample_task_state (t : nat) : task_state :=
  match t with
  | 0%nat => TaskFailed
  | 1%nat | 2%nat => TaskDone false
  | _ => TaskPending
  end.


(** ** The users' secrets

    A Python [str] is taken as its characters, one [ascii] each; a character
    beyond ASCII would come as the bytes of its UTF-8 encoding, none of which
    is a hexadecimal digit. *)

(** The characters [0], [+] and [-]. *)
Definition char_0 : Ascii.ascii := Ascii.ascii_of_nat 48.
Definition char_plus : Ascii.ascii := Ascii.ascii_of_nat 43.
Definition char_minus : Ascii.ascii := Ascii.ascii_of_nat 45.

(** [[0-9a-fA-F]] *)
Definition is_hex_digit (c : Ascii.ascii) : bool :=
  let n := Ascii.nat_of_ascii c in
  ((48 <=? n) && (n <=? 57) || (97 <=? n) && (n <=? 102) || (65 <=? n) && (n <=? 70))%nat.

(** [re.fullmatch("[0-9a-fA-F]{32}", s)] *)
Definition fullmatch_hex32 (s : list Ascii.ascii) : bool :=
  (length s =? 32)%nat && forallb is_hex_digit s.

(** [re.sub(r"[^0-9a-fA-F]", "", s)] *)
Definition sub_non_hex (s : list Ascii.ascii) : list Ascii.ascii :=
  List.filter is_hex_digit s.

(** [s.zfill(width)]: zeros on the left, after a leading sign. *)
Definition zfill (width : nat) (s : list Ascii.ascii) : list Ascii.ascii :=
  let zeros := replicate (width - length s) char_0 in
  match s with
  | c :: s' =>
      if (Ascii.eqb c char_plus || Ascii.eqb c char_minus)%bool then c :: zeros ++ s' else zeros ++ s
  | [] => zeros
  end.

(** The loop of [init_config] over the users, for one secret. *)
Definition init_config_secret (secret : list Ascii.ascii) : list Ascii.ascii :=
  if negb (fullmatch_hex32 secret) then
    let fixed_secret := take 32 (zfill 32 (sub_non_hex secret)) in
    fixed_secret
  else secret.

(** The value of a hexadecimal digit. *)
Definition hex_value (c : Ascii.ascii) : option Z :=
  let n := Ascii.nat_of_ascii c in
  if ((48 <=? n) && (n <=? 57))%nat then Some (Z.of_nat n - 48)
  else if ((97 <=? n) && (n <=? 102))%nat then Some (Z.of_nat n - 87)
  else if ((65 <=? n) && (n <=? 70))%nat then Some (Z.of_nat n - 55)
  else None.

(** ASCII whitespace: space, [\t], [\n], [\v], [\f], [\r]. *)
Definition is_ascii_space (c : Ascii.ascii) : bool :=
  let n := Ascii.nat_of_ascii c in
  ((n =? 32) || (9 <=? n) && (n <=? 13))%nat.

(** [bytes.fromhex(s)]: two digits a byte, whitespace between the bytes is
    skipped, [ValueError] on anything else. *)
Fixpoint bytes_fromhex (s : list Ascii.ascii) : outcome bytes :=
  match s with
  | [] => Ret []
  | c :: s' =>
      if is_ascii_space c then bytes_fromhex s'
      else
        match hex_value c, s' with
        | Some hi, d :: s'' =>
            match hex_value d with
            | Some lo => b ← bytes_fromhex s''; Ret (z2b (16 * hi + lo) :: b)
            | None => Raise ValueError
            end
        | _, _ => Raise ValueError
        end
  end.

(** ** get_srv_time *)

(** The two globals [get_srv_time] writes and its local flag. *)
Record time_sync := {
  ts_is_time_skewed : bool;
  ts_disable_middle_proxy : bool;
  ts_want_to_reenable_advertising : bool
}.

Definition MAX_TIME_SKEW : Q := 30.

(** [headers.split(b"\r\n")], [line] being the bytes of the line so far. *)
Fixpoint split_crlf (line b : bytes) : list bytes :=
  match b with
  | [] => [line]
  | c :: b' =>
      match c, b' with
      | x0d, x0a :: b'' => line :: split_crlf [] b''
      | _, _ => split_crlf (line ++ [c]) b'
      end
  end.

(** The body of the loop for a [Date: ] line, [total_seconds] being
    [(now_time - srv_time).total_seconds()]. *)
Definition get_srv_time_date (use_middle_proxy : bool) (total_seconds : Q)
    (st : time_sync) : time_sync :=
  let is_time_skewed := negb (Qle_bool total_seconds MAX_TIME_SKEW) in
  if is_time_skewed && use_middle_proxy && negb (ts_disable_middle_proxy st) then
    {| ts_is_time_skewed := is_time_skewed;
       ts_disable_middle_proxy := true;
       ts_want_to_reenable_advertising := true |}
  else if negb is_time_skewed && ts_want_to_reenable_advertising st then
    {| ts_is_time_skewed := is_time_skewed;
       ts_disable_middle_proxy := false;
       ts_want_to_reenable_advertising := false |}
  else
    {| ts_is_time_skewed := is_time_skewed;
       ts_disable_middle_proxy := ts_disable_middle_proxy st;
       ts_want_to_reenable_advertising := ts_want_to_reenable_advertising st |}.

(** [for line in headers.split(b"\r\n"): ...].  [total_seconds k line] is
    what decoding the date of the [k]-th [Date: ] line, parsing it and
    subtracting it from [utcnow()] gives; when that raises, the rest of the
    lines is left out. *)
Fixpoint get_srv_time_lines (total_seconds : nat -> bytes -> outcome Q)
    (use_middle_proxy : bool) (lines : list bytes) (k : nat) (st : time_sync)
  : nat * time_sync :=
  match lines with
  | [] => (k, st)
  | line :: lines' =>
      if negb (startswith line [x44; x61; x74; x65; x3a; x20]) then   (* b"Date: " *)
        get_srv_time_lines total_seconds use_middle_proxy lines' k st
      else
        let line := drop 6 line in
        match total_seconds k line with
        | Ret secs =>
            get_srv_time_lines total_seconds use_middle_proxy lines' (S k)
              (get_srv_time_date use_middle_proxy secs st)
        | Raise _ => (S k, st)
        end
  end.

(** The turns of [while True], one for each answer of [make_https_req]: the
    headers, or an exception. *)
Fixpoint get_srv_time_loop (total_seconds : nat -> bytes -> outcome Q)
    (use_middle_proxy : bool) (replies : list (outcome bytes)) (k : nat)
    (st : time_sync) : time_sync :=
  match replies with
  | [] => st
  | Ret headers :: replies' =>
      let '(k, st) :=
        get_srv_time_lines total_seconds use_middle_proxy (split_crlf [] headers) k st in
      get_srv_time_loop total_seconds use_middle_proxy replies' k st
  | Raise _ :: replies' =>
      get_srv_time_loop total_seconds use_middle_proxy replies' k st
  end.

(** [get_srv_time] after the given answers, from the globals as it finds
    them. *)
Definition get_srv_time (total_seconds : nat -> bytes -> outcome Q)
    (use_middle_proxy : bool) (replies : list (outcome bytes))
    (is_time_skewed disable_middle_proxy : bool) : time_sync :=
  let want_to_reenable_advertising := false in
  get_srv_time_loop total_seconds use_middle_proxy replies 0
    {| ts_is_time_skewed := is_time_skewed;
       ts_disable_middle_proxy := disable_middle_proxy;
       ts_want_to_reenable_advertising := want_to_reenable_advertising |}.

(** *** CryptoWrappedStreamReader *)

Record CryptoWrappedStreamReader (C : Type) := {
  cr_upstream : bytes;
  cr_decryptor : C;
  cr_block_size : Z;
  cr_buf : bytes
}.
Arguments cr_upstream {C} _.
Arguments cr_decryptor {C} _.
Arguments cr_block_size {C} _.
Arguments cr_buf {C} _.

(** [b[:n]] and [b[n:]], a negative [n] counting from the end *)
Definition slice_to (n : Z) (b : bytes) : bytes :=
  if decide (0 <= n) then take (Z.to_nat n) b else take (Z.to_nat (len b + n)) b.

Definition slice_from (n : Z) (b : bytes) : bytes :=
  if decide (0 <= n) then drop (Z.to_nat n) b else drop (Z.to_nat (len b + n)) b.

Definition CryptoWrappedStreamReader_readexactly {C} `{Cipher C}
    (r : CryptoWrappedStreamReader C) (n : Z)
  : outcome (bytes * CryptoWrappedStreamReader C) :=
  r ← (if decide (n > len (cr_buf r)) then
         let to_read := n - len (cr_buf r) in
         if decide (cr_block_size r = 0) then Raise ZeroDivisionError
         else
           let needed_till_full_block := (- to_read) mod cr_block_size r in
           let to_read_block_aligned := to_read + needed_till_full_block in
           '(data, up) ← readexactly (cr_upstream r) to_read_block_aligned;
           let '(plain, d) := decrypt (cr_decryptor r) data in
           Ret {| cr_upstream := up; cr_decryptor := d;
                  cr_block_size := cr_block_size r; cr_buf := cr_buf r ++ plain |}
       else Ret r);
  let ret := slice_to n (cr_buf r) in
  Ret (ret, {| cr_upstream := cr_upstream r; cr_decryptor := cr_decryptor r;
               cr_block_size := cr_block_size r; cr_buf := slice_from n (cr_buf r) |}).

(** One [readexactly] after the other, for the lengths [ns]. *)
Fixpoint CryptoWrappedStreamReader_readexactly_each {C} `{Cipher C}
    (r : CryptoWrappedStreamReader C) (ns : list Z)
  : outcome (list bytes * CryptoWrappedStreamReader C) :=
  match ns with
  | [] => Ret ([], r)
  | n :: ns' =>
      '(data, r) ← CryptoWrappedStreamReader_readexactly r n;
      '(rest, r) ← CryptoWrappedStreamReader_readexactly_each r ns';
      Ret (data :: rest, r)
  end.

(** [decrypt] called on one chunk after the other: the plaintexts in a row
    and the cipher as it is left. *)
Fixpoint decrypt_each {C} `{Cipher C} (d : C) (chunks : list bytes) : bytes * C :=
  match chunks with
  | [] => ([], d)
  | chunk :: chunks' =>
      let '(plain, d) := decrypt d chunk in
      let '(rest, d) := decrypt_each d chunks' in
      (plain ++ rest, d)
  end.

(** [sum(ns)] *)
Definition sum_Z (ns : list Z) : Z := foldr Z.add 0 ns.

(** *** MyRandom *)

(** The encryptor, the buffer, and how many times [super().getrandbits] has
    been called. *)
Record MyRandom (C : Type) := {
  mr_encryptor : C;
  mr_buffer : bytes;
  mr_drawn : nat
}.
Arguments mr_encryptor {C} _.
Arguments mr_buffer {C} _.
Arguments mr_drawn {C} _.

(** [while n > len(self.buffer): ...] of [getrandbytes], [super_getrandbits i]
    being what the [i]-th call of [super().getrandbits(chunk_size * 8)]
    returns; [None] when [fuel] turns did not end the loop. *)
Fixpoint MyRandom_fill {C} `{Cipher C} (fuel : nat) (super_getrandbits : nat -> Z)
    (r : MyRandom C) (n : Z) : option (outcome (MyRandom C)) :=
  let chunk_size := 512%nat in
  if decide (n > len (mr_buffer r)) then
    match fuel with
    | O => None
    | S fuel' =>
        match int_to_bytes_be (super_getrandbits (mr_drawn r)) chunk_size with
        | Ret data =>
            let '(q, e) := encrypt (mr_encryptor r) data in
            MyRandom_fill fuel' super_getrandbits
              {| mr_encryptor := e; mr_buffer := mr_buffer r ++ q;
                 mr_drawn := S (mr_drawn r) |} n
        | Raise e => Some (Raise e)
        end
    end
  else Some (Ret r).

Definition MyRandom_getrandbytes {C} `{Cipher C} (fuel : nat) (super_getrandbits : nat -> Z)
    (r : MyRandom C) (n : Z) : option (outcome (bytes * MyRandom C)) :=
  match MyRandom_fill fuel super_getrandbits r n with
  | Some (Ret r) =>
      let result := slice_to n (mr_buffer r) in
      Some (Ret (result, {| mr_encryptor := mr_encryptor r;
                            mr_buffer := slice_from n (mr_buffer r);
                            mr_drawn := mr_drawn r |}))
  | Some (Raise e) => Some (Raise e)
  | None => None
  end.

Definition MyRandom_getrandbits {C} `{Cipher C} (fuel : nat) (super_getrandbits : nat -> Z)
    (r : MyRandom C) (k : Z) : option (outcome (Z * MyRandom C)) :=
  let numbytes := (k + 7) / 8 in
  match MyRandom_getrandbytes fuel super_getrandbits r numbytes with
  | Some (Ret (b, r)) => Some (Ret (Z.shiftr (int_from_bytes_be b) (numbytes * 8 - k), r))
  | Some (Raise e) => Some (Raise e)
  | None => None
  end.

(** [encrypt] called on one chunk after the other: the ciphertexts in a row
    and the cipher as it is left. *)
Fixpoint encrypt_each {C} `{Cipher C} (e : C) (chunks : list bytes) : bytes * C :=
  match chunks with
  | [] => ([], e)
  | chunk :: chunks' =>
      let '(q, e) := encrypt e chunk in
      let '(rest, e) := encrypt_each e chunks' in
      (q ++ rest, e)
  end.

(** ** handle_proxy_protocol *)

Module ProxyProtocol.

Definition PROXY_SIGNATURE : bytes := [x50; x52; x4f; x58; x59; x20].   (* b"PROXY " *)
Definition PROXY_MIN_LEN : Z := 6.
Definition PROXY_TCP4 : bytes := [x54; x43; x50; x34].
Definition PROXY_TCP6 : bytes := [x54; x43; x50; x36].
Definition PROXY_UNKNOWN : bytes := [x55; x4e; x4b; x4e; x4f; x57; x4e].

Definition PROXY2_SIGNATURE : bytes :=
  [x0d; x0a; x0d; x0a; x00; x0d; x0a; x51; x55; x49; x54; x0a].
Definition PROXY2_MIN_LEN : Z := 16.
Definition PROXY2_AF_UNSPEC : Z := 0x0.
Definition PROXY2_AF_INET : Z := 0x1.
Definition PROXY2_AF_INET6 : Z := 0x2.

(** [b.split(b" ")], [word] being the bytes of the word so far. *)
Fixpoint split_space (word b : bytes) : list bytes :=
  match b with
  | [] => [word]
  | c :: b' => if decide (c = x20) then word :: split_space [] b'
               else split_space (word ++ [c]) b'
  end.

(** [b.decode("ascii")]: [UnicodeDecodeError], a [ValueError], on a byte
    above 0x7f. *)
Definition decode_ascii (b : bytes) : outcome string :=
  if forallb (fun c => b2z c <? 0x80) b then Ret (String.string_of_list_byte b)
  else Raise ValueError.

(** [b[i]] for [0 <= i] *)
Definition byte_at (b : bytes) (i : nat) : outcome Z :=
  match b !! i with
  | Some c => Ret (b2z c)
  | None => Raise IndexError
  end.

Section Library.

(** [await reader.readuntil(b"\r\n")]: the bytes up to the separator with the
    separator, and the bytes left; [int(s)]; [socket.inet_ntop(family, b)],
    the family given as whether it is [AF_INET6]. *)
Variable readuntil_crlf : bytes -> outcome (bytes * bytes).
Variable int_of_str : string -> outcome Z.
Variable inet_ntop : bool -> bytes -> outcome string.

(** The result is the peer to go on with, [None] for [False], and the bytes
    the reader has left. *)
Definition handle_proxy_protocol (up : bytes) (peer : string * Z)
  : outcome (option (string * Z) * bytes) :=
  '(header, up) ← readexactly up PROXY_MIN_LEN;
  if startswith header PROXY_SIGNATURE then
    (* proxy header v1 *)
    '(line, up) ← readuntil_crlf up;
    let header := header ++ line in
    match split_space [] (take (length header - 2) header) with
    | _ :: proxy_fam :: proxy_addr =>
        if bool_decide (proxy_fam ∈ [PROXY_TCP4; PROXY_TCP6]) then
          match proxy_addr with
          | [a0; _; a2; _] =>
              src_addr ← decode_ascii a0;
              port_str ← decode_ascii a2;
              src_port ← int_of_str port_str;
              Ret (Some (src_addr, src_port), up)
          | _ => Ret (None, up)
          end
        else if decide (proxy_fam = PROXY_UNKNOWN) then Ret (Some peer, up)
        else Ret (None, up)
    | _ => Raise ValueError
    end
  else
    '(more, up) ← readexactly up (PROXY2_MIN_LEN - PROXY_MIN_LEN);
    let header := header ++ more in
    if startswith header PROXY2_SIGNATURE then
      (* proxy header v2 *)
      proxy_ver ← byte_at header 12;
      if decide (Z.land proxy_ver 0xF0 ≠ 0x20) then Ret (None, up)
      else
        let proxy_len := int_from_bytes_be (slice 14 16 header) in
        '(proxy_addr, up) ← readexactly up proxy_len;
        if decide (proxy_ver = 0x21) then
          fam_byte ← byte_at header 13;
          let proxy_fam := Z.shiftr fam_byte 4 in
          if decide (proxy_fam = PROXY2_AF_INET) then
            if decide (proxy_len >= (4 + 2) * 2) then
              src_addr ← inet_ntop false (slice 0 4 proxy_addr);
              let src_port := int_from_bytes_be (slice 8 10 proxy_addr) in
              Ret (Some (src_addr, src_port), up)
            else Ret (None, up)
          else if decide (proxy_fam = PROXY2_AF_INET6) then
            if decide (proxy_len >= (16 + 2) * 2) then
              src_addr ← inet_ntop true (slice 0 16 proxy_addr);
              let src_port := int_from_bytes_be (slice 32 34 proxy_addr) in
              Ret (Some (src_addr, src_port), up)
            else Ret (None, up)
          else if decide (proxy_fam = PROXY2_AF_UNSPEC) then Ret (Some peer, up)
          else Ret (None, up)
        else if decide (proxy_ver = 0x20) then Ret (Some peer, up)
        else Ret (None, up)
    else Ret (None, up).

End Library.

End ProxyProtocol.

(** ** The [proxy] table of the configuration and do_middleproxy_handshake *)

Module MiddleProxy.

(** The values of a configuration table. *)
#[warnings="-register-all"]
Inductive pyval :=
| PyBool (b : bool)
| PyInteger (z : Z)
| PyStr (s : string)
| PyTuple (l : list pyval)
| PyNone.

(** Truth value of a configuration value. *)
Definition pyval_truthy (v : pyval) : bool :=
  match v with
  | PyBool b => b
  | PyInteger z => negb (z =? 0)
  | PyStr s => negb (String.eqb s "")
  | PyTuple l => negb (bool_decide (l = []))
  | PyNone => false
  end.

(** What the two functions can be left with. *)
Inductive error :=
| KeyError (key : string)
| SystemExit
| IndexError
| ConnectionRefusedError
| ConnectionAbortedError
| OSError
| TimeoutError
| OtherError.

(** [d.setdefault(k, v)] *)
Definition setdefault (k : string) (v : pyval) (d : gmap string pyval) : gmap string pyval :=
  match d !! k with
  | Some _ => d
  | None => <[k := v]> d
  end.

(** The lines of [init_config] on [config["proxy"]], from the table as
    [toml.load] gives it.  [domain] is [config["server"]["domain"]],
    [ad_tag_len] is [len(config["mtproto"]["ad_tag"])], the two periods are
    the draws of [random.randrange], [has_ipv6] is [socket.has_ipv6]. *)
Definition init_config_proxy (domain : option string) (ad_tag_len : Z)
    (get_cert_len_period client_handshake_timeout : Z) (has_ipv6 : bool)
    (proxy : gmap string pyval) : error + gmap string pyval :=
  let proxy := setdefault "caddy_reverse_proxy" (PyBool false) proxy in
  match
    (if pyval_truthy (default PyNone (proxy !! "caddy_reverse_proxy")) then
       match domain with
       | None => inl (KeyError "domain")
       | Some d => if String.eqb d "" then inl SystemExit else inr ()
       end
     else inr ())
  with
  | inl e => inl e
  | inr _ =>
      let proxy := setdefault "proxy_protocol" (PyBool false) proxy in
      let proxy := setdefault "use_middle_proxy" (PyBool (ad_tag_len =? 16)) proxy in
      let proxy := setdefault "fast_mode" (PyBool false) proxy in
      let proxy := setdefault "replay_check_len" (PyInteger 65536) proxy in
      let proxy := setdefault "ignore_time_skew" (PyBool false) proxy in
      let proxy := setdefault "client_ips_len" (PyInteger 131072) proxy in
      let proxy := setdefault "stats_print_period" (PyInteger 60) proxy in
      let proxy := setdefault "proxy_info_update_period" (PyInteger (24 * 60 * 60)) proxy in
      let proxy := setdefault "get_time_period" (PyInteger (10 * 60)) proxy in
      let proxy := setdefault "get_cert_len_period" (PyInteger get_cert_len_period) proxy in
      let proxy :=
        setdefault "to_clt_bufsize"
          (PyTuple [PyInteger 16384; PyInteger 100; PyInteger 131072]) proxy in
      let proxy := setdefault "to_tg_bufsize" (PyInteger 65536) proxy in
      let proxy := setdefault "client_keepalive" (PyInteger (10 * 60)) proxy in
      let proxy :=
        setdefault "client_handshake_timeout" (PyInteger client_handshake_timeout) proxy in
      let proxy := setdefault "client_ack_timeout" (PyInteger (5 * 60)) proxy in
      let proxy := setdefault "tg_connect_timeout" (PyInteger 10) proxy in
      let proxy := setdefault "listen_addr_ipv4" (PyStr "0.0.0.0") proxy in
      let proxy := setdefault "listen_addr_ipv6" (PyStr "::") proxy in
      let proxy := setdefault "listen_unix_sock" (PyStr "") proxy in
      let proxy := setdefault "prefer_ipv6" (PyBool has_ipv6) proxy in
      inr proxy
  end.

(** [my_ip_info]: an address, or [None]. *)
Record ip_info := {
  ipv4 : option string;
  ipv6 : option string
}.

Definition ip_truthy (ip : option string) : bool :=
  match ip with
  | Some s => negb (String.eqb s "")
  | None => false
  end.

(** [do_middleproxy_handshake].  [randbelow n] is the index that
    [myrandom.choice] draws in a list of [n] items; [get_connection addr port]
    is what [tg_connection_pool.get_connection(addr, port,
    middleproxy_handshake)] gives or raises; the result is [None] for
    [False], or the connection, which the source wraps in a
    [ProxyReqStreamReader] and a [ProxyReqStreamWriter]. *)
Definition do_middleproxy_handshake {conn : Type}
    (proxy : gmap string pyval) (my_ip_info : ip_info)
    (TG_MIDDLE_PROXIES_V4 TG_MIDDLE_PROXIES_V6 : gmap Z (list (string * Z)))
    (randbelow : nat -> nat) (get_connection : string -> Z -> error + conn)
    (dc_idx : Z) : error + option conn :=
  match
    (if ip_truthy (ipv6 my_ip_info) then
       match proxy !! "PREFER_IPV6" with
       | Some prefer => inr (pyval_truthy prefer || negb (ip_truthy (ipv4 my_ip_info)))
       | None => inl (KeyError "PREFER_IPV6")
       end
     else inr false)
  with
  | inl e => inl e
  | inr use_ipv6_tg =>
      let proxies := if use_ipv6_tg then TG_MIDDLE_PROXIES_V6 else TG_MIDDLE_PROXIES_V4 in
      match proxies !! dc_idx with
      | None => inr None
      | Some l =>
          match l with
          | [] => inl IndexError
          | _ :: _ =>
              match l !! randbelow (length l) with
              | None => inl IndexError
              | Some (addr, port) =>
                  match get_connection addr port with
                  | inr ret => inr (Some ret)
                  | inl ConnectionRefusedError => inr None
                  | inl ConnectionAbortedError => inr None
                  | inl OSError => inr None
                  | inl TimeoutError => inr None
                  | inl e => inl e
                  end
              end
          end
      end
  end.

End MiddleProxy.

(** ** Binary64 arithmetic

    A Python [float] that is a number is taken as the rational it stands
    for; an operation on floats gives the exact result rounded to the nearest
    binary64 number, ties to even.  Infinities and NaN do not arise from the
    differences and quotients taken here. *)

(** [floor(log2(x))] for [0 < x] *)
Definition Qlog2 (x : Q) : Z :=
  let e := Z.log2 (Qnum x) - Z.log2 (Zpos (Qden x)) in
  if Qle_bool (Qpower 2 e) x then e else e - 1.

(** The integer nearest to [x], the even one of two. *)
Definition Qround_half_even (x : Q) : Z :=
  let f := Qfloor x in
  let r := (x - inject_Z f)%Q in
  if Qle_bool r (1 # 2) then
    if Qle_bool (1 # 2) r then (if Z.even f then f else f + 1) else f
  else f + 1.

(** 53 significant bits, exponents from -1022 on. *)
Definition binary64_round (x : Q) : Q :=
  if Qeq_bool x 0 then 0%Q
  else
    let e := Z.max (Qlog2 (if Qle_bool 0 x then x else - x)%Q) (-1022) in
    let ulp := Qpower 2 (e - 52) in
    (inject_Z (Qround_half_even (x / ulp)) * ulp)%Q.

(** [math.trunc(x)] *)
Definition Qtrunc (x : Q) : Z := Z.quot (Qnum x) (Zpos (Qden x)).

(** C's [fmod(x, y)] for [y <> 0]: exact, with the sign of [x]. *)
Definition float_fmod (x y : Q) : Q := (x - y * inject_Z (Qtrunc (x / y)))%Q.

(** [vx // wx] on floats for [wx <> 0], as CPython computes it: the quotient
    of [vx - fmod(vx, wx)] by [wx], one less when the remainder has not the
    sign of [wx], snapped to the nearest integral value. *)
Definition float_floordiv (vx wx : Q) : Q :=
  let mod_ := float_fmod vx wx in
  let div := binary64_round (binary64_round (vx - mod_) / wx) in
  let div :=
    if negb (Qeq_bool mod_ 0)
       && negb (Bool.eqb (negb (Qle_bool 0 wx)) (negb (Qle_bool 0 mod_)))
    then binary64_round (div - 1) else div in
  if negb (Qeq_bool div 0) then
    let floordiv := inject_Z (Qfloor div) in
    if negb (Qle_bool (binary64_round (div - floordiv)) (1 # 2))
    then binary64_round (floordiv + 1) else floordiv
  else 0%Q.

(** [(t - timestamp) // 60] for a float [t] and an [int] timestamp, which
    the subtraction first turns into a float.  The result is a float with an
    integral value, given here as that integer. *)
Definition time_skew_minutes (t : Q) (timestamp : Z) : Z :=
  Qfloor
    (float_floordiv (binary64_round (t - binary64_round (inject_Z timestamp))) 60).

(** ** Sample data for the extended checks *)

Definition sample_secret : list Ascii.ascii := String.list_ascii_of_string "0xbeef".

(** [Date: x], then an empty line. *)
Definition sample_headers : bytes :=
  [x44; x61; x74; x65; x3a; x20; x78; x0d; x0a; x0d; x0a].

Definition sample_crypto_reader : CryptoWrappedStreamReader (bytes * Z) :=
  {| cr_upstream := replicate 48 x07; cr_decryptor := ([], 0);
     cr_block_size := 16; cr_buf := [] |}.

Definition sample_random : MyRandom (bytes * Z) :=
  {| mr_encryptor := ([], 0); mr_buffer := []; mr_drawn := 0 |}.

Definition sample_balancer_cfg : config :=
  {| proxy_protocol := true; replay_check_len := 65536; client_ips_len := 131072;
     ignore_time_skew := false; use_middle_proxy := false; fast_mode := false;
     mask := true |}.

(** The address block of a version 2 header: 192.0.2.1:49152 to
    198.51.100.7:443. *)
Definition sample_proxy2_src : bytes := [xc0; x00; x02; x01].
Definition sample_proxy2_dst : bytes := [xc6; x33; x64; x07].
Definition sample_proxy2_header : bytes :=
  ProxyProtocol.PROXY2_SIGNATURE ++ [x21; x11] ++ [x00; x0c]
  ++ (sample_proxy2_src ++ sample_proxy2_dst ++ [xc0; x00] ++ [x01; xbb] ++ []) ++ [xef].

(** [TCP4 192.0.2.1 198.51.100.7 49152 443] and the end of the line. *)
Definition sample_proxy1_src : bytes := [x31; x39; x32; x2e; x30; x2e; x32; x2e; x31].
Definition sample_proxy1_dst : bytes :=
  [x31; x39; x38; x2e; x35; x31; x2e; x31; x30; x30; x2e; x37].
Definition sample_proxy1_sport : bytes := [x34; x39; x31; x35; x32].
Definition sample_proxy1_dport : bytes := [x34; x34; x33].
Definition sample_proxy1_line : bytes :=
  ProxyProtocol.PROXY_TCP4 ++ [x20] ++ sample_proxy1_src ++ [x20] ++ sample_proxy1_dst
  ++ [x20] ++ sample_proxy1_sport ++ [x20] ++ sample_proxy1_dport ++ [x0d; x0a].

(** Stand-ins for the library: the line is the sample line, the port and the
    address are the sample's. *)
Definition sample_readuntil_crlf (up : bytes) : outcome (bytes * bytes) :=
  Ret (take (length sample_proxy1_line) up, drop (length sample_proxy1_line) up).
Definition sample_int_of_str (s : string) : outcome Z := Ret 49152.
Definition sample_inet_ntop (v6 : bool) (b : bytes) : outcome string := Ret "192.0.2.1"%string.

(** A host with both addresses. *)
Definition sample_ip_info : MiddleProxy.ip_info :=
  {| MiddleProxy.ipv4 := Some "198.51.100.7"%string;
     MiddleProxy.ipv6 := Some "2001:db8::7"%string |}.
(** ** Stand-ins for the cryptographic library

    [FakeCipher] is the source's own [FakeEncryptor]/[FakeDecryptor]; the
    constant digests serve to run the engine on concrete connections. *)

#[global] Instance FakeCipher : Cipher unit :=
  {| encrypt := fun c data => (data, c); decrypt := fun c data => (data, c) |}.

Definition zero_digest (n : nat) (_ : bytes) : bytes := replicate n x00.

Definition zero_hmac (_ _ : bytes) : bytes := replicate 32 x00.

Definition no_proxy_protocol (up : bytes) (peer : string * Z)
  : outcome (option (string * Z) * bytes) := Ret (Some peer, up).

(** ** The engine, over the cryptographic library *)

Section Engine.

Context {C : Type} {cipher : Cipher C}.

(** [create_aes_ctr(key, iv)], [hashlib.sha256(m).digest()],
    [hashlib.md5(m).digest()], [hashlib.sha1(m).digest()] and
    [hmac.new(key, msg, hashlib.sha256).digest()]. *)
Variable create_aes_ctr : bytes -> Z -> C.
Variable sha256 : bytes -> bytes.
Variable md5 : bytes -> bytes.
Variable sha1 : bytes -> bytes.
Variable hmac_sha256 : bytes -> bytes -> bytes.

(** [handle_proxy_protocol(reader, peer)]: the PROXY v1/v2 header parser,
    from the bytes the client has yet to deliver to the rewritten peer (or
    [False]) and the bytes left. *)
Variable handle_proxy_protocol :
  bytes -> string * Z -> outcome (option (string * Z) * bytes).

(** *** get_middleproxy_aes_key_and_iv *)

(** Truth value of an optional [bytes] argument: [None] and [b""] are false. *)
Definition truthy (b : option bytes) : bool :=
  match b with
  | Some (_ :: _) => true
  | _ => false
  end.

Definition get_middleproxy_aes_key_and_iv
    (nonce_srv nonce_clt clt_ts : bytes) (srv_ip : option bytes)
    (clt_port purpose : bytes) (clt_ip : option bytes)
    (srv_port middleproxy_secret : bytes) (clt_ipv6 srv_ipv6 : option bytes)
  : bytes * bytes :=
  let EMPTY_IP := [x00; x00; x00; x00] in
  let '(clt_ip, srv_ip) :=
    if negb (truthy clt_ip) || negb (truthy srv_ip) then (EMPTY_IP, EMPTY_IP)
    else (default [] clt_ip, default [] srv_ip) in
  let s :=
    nonce_srv ++ nonce_clt ++ clt_ts ++ srv_ip ++ clt_port ++ purpose ++ clt_ip
      ++ srv_port in
  let s := s ++ middleproxy_secret ++ nonce_srv in
  let s :=
    if truthy clt_ipv6 && truthy srv_ipv6
    then s ++ default [] clt_ipv6 ++ default [] srv_ipv6
    else s in
  let s := s ++ nonce_clt in
  let md5_sum := md5 (drop 1 s) in
  let sha1_sum := sha1 s in
  let key := take 12 md5_sum ++ sha1_sum in
  let iv := md5 (drop 2 s) in
  (key, iv).

(** The derivation in the specification's words, to compare with the code:
    [s] = serverNonce, clientNonce, cryptoTs, srvIp, cltPort, purpose, cltIp,
    srvPort, middleProxySecret, serverNonce, then the IPv6 pair when present,
    then clientNonce; key = MD5(s[1:])[0:12] || SHA1(s), iv = MD5(s[2:]). *)
Definition spec_middleproxy_key_and_iv
    (serverNonce clientNonce cryptoTs srvIp cltPort purpose cltIp srvPort
       middleProxySecret : bytes) (ipv6 : option (bytes * bytes))
  : bytes * bytes :=
  let s :=
    serverNonce ++ clientNonce ++ cryptoTs ++ srvIp ++ cltPort ++ purpose ++ cltIp
      ++ srvPort ++ middleProxySecret ++ serverNonce
      ++ match ipv6 with
         | Some (cltIPv6, srvIPv6) => cltIPv6 ++ srvIPv6
         | None => []
         end
      ++ clientNonce in
  (take 12 (md5 (drop 1 s)) ++ sha1 s, md5 (drop 2 s)).

(** *** handle_fake_tls_handshake *)

Definition TIME_SKEW_MIN : Z := -20 * 60.
Definition TIME_SKEW_MAX : Z := 10 * 60.

Definition TLS_VERS : bytes := [x03; x03].
Definition TLS_CIPHERSUITE : bytes := [x13; x01].
Definition TLS_CHANGE_CIPHER : bytes := [x14] ++ TLS_VERS ++ [x00; x01; x01].
Definition TLS_APP_HTTP2_HDR : bytes := [x17] ++ TLS_VERS.

Definition DIGEST_LEN : nat := 32.
Definition DIGEST_HALFLEN : nat := 16.
Definition DIGEST_POS : nat := 11.

Definition SESSION_ID_LEN_POS : nat := DIGEST_POS + DIGEST_LEN.
Definition SESSION_ID_POS : nat := SESSION_ID_LEN_POS + 1.

(** [FakeTLSStreamReader(reader)]: the wrapper's own buffer. *)
Record FakeTLSStreamReader := { ftr_buf : bytes }.

(** [bytes(a[i] ^ b[i] for i in range(DIGEST_LEN))] on two digests *)
Definition xor_bytes (a b : bytes) : bytes :=
  zip_with (fun x y => z2b (Z.lxor (b2z x) (b2z y))) a b.

Definition Qlt_bool (x y : Q) : bool := negb (Qle_bool y x).

(** The ClientHello digest, exclusive-ored with the HMAC of the ClientHello
    whose digest field is zeroed, under one user's secret. *)
Definition xored_digest (secret handshake : bytes) : bytes :=
  let digest := slice DIGEST_POS (DIGEST_POS + DIGEST_LEN) handshake in
  let msg :=
    take DIGEST_POS handshake ++ bytes_repeat [x00] (Z.of_nat DIGEST_LEN)
      ++ drop (DIGEST_POS + DIGEST_LEN) handshake in
  let computed_digest := hmac_sha256 secret msg in
  xor_bytes digest computed_digest.

Definition digest_good (xored : bytes) : bool :=
  startswith xored (bytes_repeat [x00] (Z.of_nat DIGEST_LEN - 4)).

(** [int.from_bytes(xored_digest[-4:], "little")] *)
Definition digest_timestamp (xored : bytes) : Z :=
  int_from_bytes_le (drop (length xored - 4) xored).

Definition client_time_is_ok (env : conn_env) (timestamp : Z) : bool :=
  Qlt_bool (inject_Z TIME_SKEW_MIN) (now env - inject_Z timestamp)
  && Qlt_bool (now env - inject_Z timestamp) (inject_Z TIME_SKEW_MAX).

Definition accept_bad_time (cfg : config) (env : conn_env) (timestamp : Z) : bool :=
  let client_time_is_small := bool_decide (timestamp < 60 * 60 * 24 * 1000) in
  ignore_time_skew cfg || is_time_skewed env || client_time_is_small.

(** [last_clients_with_time_skew[peer[0]] = (time.time() - timestamp) // 60],
    on floats and with the clock read again. *)
Definition record_time_skew (env : conn_env) (peer : string * Z) (timestamp : Z)
  : M unit :=
  w ← get_world;
  set_last_clients_with_time_skew
    (<[peer.1 := time_skew_minutes (now_skew env) timestamp]>
       (last_clients_with_time_skew w)).

(** The tail of the loop body, once digest and time are accepted: build and
    send the ServerHello, remember the digest and the client, wrap the
    streams. *)
Definition fake_tls_accept (cfg : config) (env : conn_env) (peer : string * Z)
    (digest : bytes) (sess_id_len : byte) (sess_id tls_extensions secret : bytes)
  : M (option FakeTLSStreamReader) :=
  let http_data := http_data env in
  let srv_hello :=
    TLS_VERS ++ bytes_repeat [x00] (Z.of_nat DIGEST_LEN) ++ [sess_id_len] ++ sess_id in
  let srv_hello := srv_hello ++ TLS_CIPHERSUITE ++ [x00] ++ tls_extensions in
  rec_len ← lift (int_to_bytes_be (len srv_hello + 4) 2);
  let hello_pkt := [x16] ++ TLS_VERS ++ rec_len in
  msg_len ← lift (int_to_bytes_be (len srv_hello) 3);
  let hello_pkt := hello_pkt ++ [x02] ++ msg_len ++ srv_hello in
  let hello_pkt := hello_pkt ++ TLS_CHANGE_CIPHER ++ TLS_APP_HTTP2_HDR in
  data_len ← lift (int_to_bytes_be (len http_data) 2);
  let hello_pkt := hello_pkt ++ data_len ++ http_data in
  let computed_digest := hmac_sha256 secret (digest ++ hello_pkt) in
  let hello_pkt :=
    take DIGEST_POS hello_pkt ++ computed_digest
      ++ drop (DIGEST_POS + DIGEST_LEN) hello_pkt in
  emit (ClientWrite hello_pkt);;
  remember_handshake cfg (take DIGEST_HALFLEN digest);;
  remember_client_ip cfg peer.1;;
  mret (Some {| ftr_buf := [] |}).

(** [for user in users: ...] of [handle_fake_tls_handshake] *)
Fixpoint fake_tls_users_loop (cfg : config) (env : conn_env) (peer : string * Z)
    (handshake : bytes) (sess_id_len : byte) (sess_id tls_extensions : bytes)
    (users : list user) : M (option FakeTLSStreamReader) :=
  match users with
  | [] => mret None
  | user :: users' =>
      let secret := secret user in
      let digest := slice DIGEST_POS (DIGEST_POS + DIGEST_LEN) handshake in
      let xored_digest := xored_digest secret handshake in
      if negb (digest_good xored_digest) then
        fake_tls_users_loop cfg env peer handshake sess_id_len sess_id
          tls_extensions users'
      else
        let timestamp := digest_timestamp xored_digest in
        if negb (client_time_is_ok env timestamp)
           && negb (accept_bad_time cfg env timestamp) then
          record_time_skew env peer timestamp;;
          fake_tls_users_loop cfg env peer handshake sess_id_len sess_id
            tls_extensions users'
        else
          fake_tls_accept cfg env peer digest sess_id_len sess_id tls_extensions
            secret
  end.

Definition handle_fake_tls_handshake (cfg : config) (env : conn_env)
    (users : list user) (handshake : bytes) (peer : string * Z)
  : M (option FakeTLSStreamReader) :=
  let tls_extensions := [x00; x2e] ++ [x00; x33; x00; x24] ++ [x00; x1d; x00; x20] in
  let tls_extensions :=
    tls_extensions ++ x25519_public_key env ++ [x00; x2b; x00; x02; x03; x04] in
  let digest := slice DIGEST_POS (DIGEST_POS + DIGEST_LEN) handshake in
  w ← get_world;
  if decide (take DIGEST_HALFLEN digest ∈ used_handshakes w) then
    set_last_clients_with_same_handshake
      (counter_add peer.1 1 (last_clients_with_same_handshake w));;
    mret None
  else
    match handshake !! SESSION_ID_LEN_POS with
    | None => lift (Raise IndexError)
    | Some sess_id_len =>
        let sess_id :=
          slice SESSION_ID_POS (SESSION_ID_POS + Z.to_nat (b2z sess_id_len)) handshake in
        fake_tls_users_loop cfg env peer handshake sess_id_len sess_id
          tls_extensions users
    end.

(** *** handle_handshake *)

Definition TLS_START_BYTES : bytes :=
  [x16; x03; x01; x02; x00; x01; x00; x01; xfc; x03; x03].

(** What [handle_handshake] returns for an accepted client: the wrapped
    streams (the FakeTLS buffer and the two ciphers), the protocol tag, the
    user name, the DC index, [enc_key + enc_iv] and the peer. *)
Record client_data := {
  cd_tls : FakeTLSStreamReader;
  cd_decryptor : C;
  cd_encryptor : C;
  cd_proto_tag : bytes;
  cd_username : string;
  cd_dc_idx : Z;
  cd_enc_key_and_iv : bytes;
  cd_peer : string * Z
}.

(** [for expected_byte in TLS_START_BYTES: ...]: read byte by byte, stop at
    the first byte that differs. *)
Fixpoint read_tls_start (expected : bytes) (handshake : bytes) : M (bool * bytes) :=
  match expected with
  | [] => mret (true, handshake)
  | expected_byte :: expected' =>
      b ← clt_readexactly 1;
      let handshake := handshake ++ b in
      if decide (last handshake ≠ Some expected_byte) then mret (false, handshake)
      else read_tls_start expected' handshake
  end.

(** [for user in users: ...] of [handle_handshake] *)
Fixpoint handshake_users_loop (cfg : config) (peer : string * Z)
    (tls : FakeTLSStreamReader) (handshake : bytes) (users : list user)
  : M (option client_data) :=
  let dec_prekey_and_iv := slice SKIP_LEN (SKIP_LEN + PREKEY_LEN + IV_LEN) handshake in
  let dec_prekey := take PREKEY_LEN dec_prekey_and_iv in
  let dec_iv := drop PREKEY_LEN dec_prekey_and_iv in
  let enc_prekey_and_iv :=
    rev (slice SKIP_LEN (SKIP_LEN + PREKEY_LEN + IV_LEN) handshake) in
  let enc_prekey := take PREKEY_LEN enc_prekey_and_iv in
  let enc_iv := drop PREKEY_LEN enc_prekey_and_iv in
  match users with
  | [] => mret None
  | user :: users' =>
      let secret := secret user in
      let dec_key := sha256 (dec_prekey ++ secret) in
      let decryptor := create_aes_ctr dec_key (int_from_bytes_be dec_iv) in
      let enc_key := sha256 (enc_prekey ++ secret) in
      let encryptor := create_aes_ctr enc_key (int_from_bytes_be enc_iv) in
      let '(decrypted, decryptor) := decrypt decryptor handshake in
      let proto_tag := slice PROTO_TAG_POS (PROTO_TAG_POS + 4) decrypted in
      if negb (bool_decide (proto_tag ∈
                 [PROTO_TAG_ABRIDGED; PROTO_TAG_INTERMEDIATE; PROTO_TAG_SECURE]))
      then handshake_users_loop cfg peer tls handshake users'
      else
        let dc_idx :=
          int_from_bytes_le_signed (slice DC_IDX_POS (DC_IDX_POS + 2) decrypted) in
        remember_handshake cfg dec_prekey_and_iv;;
        remember_client_ip cfg peer.1;;
        mret (Some {| cd_tls := tls; cd_decryptor := decryptor;
                      cd_encryptor := encryptor; cd_proto_tag := proto_tag;
                      cd_username := name user; cd_dc_idx := dc_idx;
                      cd_enc_key_and_iv := enc_key ++ enc_iv; cd_peer := peer |})
  end.

(** The obfuscated handshake on the 64-byte inner block: replay guard, then
    one attempt per user. *)
Definition handle_obfuscated_handshake (cfg : config) (env : conn_env)
    (users : list user) (peer : string * Z) (tls : FakeTLSStreamReader)
    (handshake : bytes) : M (option client_data) :=
  let dec_prekey_and_iv := slice SKIP_LEN (SKIP_LEN + PREKEY_LEN + IV_LEN) handshake in
  w ← get_world;
  if decide (dec_prekey_and_iv ∈ used_handshakes w) then
    set_last_clients_with_same_handshake
      (counter_add peer.1 1 (last_clients_with_same_handshake w));;
    handle_bad_client cfg env (Some handshake);;
    mret None
  else
    r ← handshake_users_loop cfg peer tls handshake users;
    match r with
    | Some cd => mret (Some cd)
    | None => handle_bad_client cfg env (Some handshake);; mret None
    end.

(** [handle_handshake] from the probe detection on: read the first bytes,
    take the FakeTLS path when they are [TLS_START_BYTES], hand the client to
    [handle_bad_client] otherwise. *)
Definition probe_and_handshake (cfg : config) (env : conn_env) (users : list user)
    (peer : string * Z) : M (option client_data) :=
  '(is_tls_handshake, handshake) ← read_tls_start TLS_START_BYTES [];
  if (is_tls_handshake : bool) then
    rest ← clt_readexactly (Z.of_nat TLS_HANDSHAKE_LEN - len handshake);
    let handshake := handshake ++ rest in
    tls_handshake_result ← handle_fake_tls_handshake cfg env users handshake peer;
    match tls_handshake_result with
    | None => handle_bad_client cfg env (Some handshake);; mret None
    | Some tls =>
        w ← get_world;
        '(handshake, buf, rest) ←
          lift (FakeTLSStreamReader_readexactly (length (clt_in w)) (ftr_buf tls)
                  (clt_in w) (Z.of_nat HANDSHAKE_LEN));
        set_clt_in rest;;
        handle_obfuscated_handshake cfg env users peer {| ftr_buf := buf |} handshake
    end
  else handle_bad_client cfg env (Some handshake);; mret None.

Definition handle_handshake (cfg : config) (env : conn_env) (users : list user)
  : M (option client_data) :=
  if is_closing env || bool_decide (peername env = None) then mret None
  else
    let peer := default ("unknown ip", 0) (peername env) in
    peer ←
      (if proxy_protocol cfg then
         w ← get_world;
         '(peer, rest) ← lift (handle_proxy_protocol (clt_in w) peer);
         set_clt_in rest;;
         mret peer
       else mret (Some peer));
    match peer with
    | None => handle_bad_client cfg env None;; mret None
    | Some peer => probe_and_handshake cfg env users peer
    end.

(** *** handle_client *)

(** [do_direct_handshake] and [do_middleproxy_handshake]: the dial and the
    handshake with Telegram, reduced to the fact that they happen and to
    whether they succeed ([fast_mode] only changes the key material that
    [do_direct_handshake] sends). *)
Definition do_tg_handshake (env : conn_env) (connect_directly : bool)
    (proto_tag : bytes) (dc_idx : Z) : M bool :=
  emit (TgHandshake connect_directly proto_tag dc_idx);;
  mret (tg_answers env).

(** The per-user limit checks of [handle_client]:
    [(tcp_limit_hit, user_expired, user_data_quota_hit)]. *)
Definition user_limits_hit (users : list user) (username : string)
  : M (bool * bool * bool) :=
  let user := filter (fun users_list => name users_list = username) users in
  let '(found, user) := iter_contains "max_tcp_conns" user in
  tcp_limit_hit ← (if found then lift (Raise TypeError) else mret false);
  let '(found, user) := iter_contains "expiration_date" user in
  user_expired ← (if found then lift (Raise TypeError) else mret false);
  let '(found, user) := iter_contains "data_quota" user in
  user_data_quota_hit ← (if found then lift (Raise TypeError) else mret false);
  mret (tcp_limit_hit, user_expired, user_data_quota_hit).

(** [handle_client] from the accepted handshake on.  Socket options and the
    replacement of the ciphers in fast mode leave the state modelled here
    alone and are left out. *)
Definition serve_client (cfg : config) (env : conn_env) (users : list user)
    (clt_data : client_data) : M unit :=
  let proto_tag := cd_proto_tag clt_data in
  let username := cd_username clt_data in
  let dc_idx := cd_dc_idx clt_data in
  update_user_stats username "connects" 1;;
  let connect_directly := negb (use_middle_proxy cfg) || disable_middle_proxy env in
  tg_data ← do_tg_handshake env connect_directly proto_tag dc_idx;
  if negb tg_data then mret ()
  else if negb connect_directly
          && negb (bool_decide (proto_tag ∈
                     [PROTO_TAG_ABRIDGED; PROTO_TAG_INTERMEDIATE; PROTO_TAG_SECURE]))
  then mret ()
  else
    update_user_stats username "curr_connects" 1;;
    '(tcp_limit_hit, user_expired, user_data_quota_hit) ← user_limits_hit users username;
    (if negb tcp_limit_hit && negb user_expired && negb user_data_quota_hit then
       emit (Splice username);;
       update_durations (session_duration env)
     else mret ());;
    update_user_stats username "curr_connects" (-1);;
    emit TgAbort.

(** [handle_client], for a handshake that ends within
    [client_handshake_timeout]. *)
Definition handle_client (cfg : config) (env : conn_env) (users : list user) : M unit :=
  update_stats "connects_all" 1;;
  clt_data ← handle_handshake cfg env users;
  match clt_data with
  | None => mret ()
  | Some clt_data => serve_client cfg env users clt_data
  end.

(** Events that put bytes on a connection to Telegram. *)
Definition is_tg_event (e : event) : bool :=
  match e with
  | TgHandshake _ _ _ | Splice _ => true
  | _ => false
  end.

(** The Telegram events of a trace. *)
Definition tg_events (w : world) : list event := filter is_tg_event (trace w).

(** A computation that leaves a projection of the world alone, whatever it
    returns. *)
Definition preserves {A X} (proj : world -> X) (m : M A) : Prop :=
  forall w r w', m w = (r, w') -> proj w' = proj w.

(** The replay cache after remembering [fingerprint]: the oldest keys go
    until fewer than [replay_check_len] are left, then the fingerprint is
    added last; nothing changes when [replay_check_len] is not positive. *)
Definition remembered (cfg : config) (fingerprint : bytes) (d : list bytes)
  : list bytes :=
  if decide (replay_check_len cfg > 0)
  then drop (length d - (Z.to_nat (replay_check_len cfg) - 1)) d ++ [fingerprint]
  else d.


(** ** Invariants of the proxy state *)

(** A computation that keeps [I] true of the world, however it ends. *)
Definition maintains {A} (I : world -> Prop) (m : M A) : Prop :=
  forall w r w', m w = (r, w') -> I w -> I w'.

(** The state changes the handshake engine is made of. *)
Record engine_steps (cfg : config) (I : world -> Prop) : Prop := {
  step_clt_in : forall b, maintains I (set_clt_in b);
  step_stats : forall d, maintains I (set_stats d);
  step_skew : forall d, maintains I (set_last_clients_with_time_skew d);
  step_same : forall d, maintains I (set_last_clients_with_same_handshake d);
  step_emit : forall e, maintains I (emit e);
  step_handshake : forall fingerprint, maintains I (remember_handshake cfg fingerprint);
  step_client_ip : forall ip, maintains I (remember_client_ip cfg ip)
}.

(** An insertion-ordered cache within its configured size; a size that is
    not positive switches the cache off. *)
Definition cache_ok {K} (limit : Z) (d : list K) : Prop :=
  NoDup d /\ (limit > 0 -> len d <= limit).

(** Both caches within their sizes, and no address reported as new that is
    not cached. *)
Definition caches_ok (cfg : config) (w : world) : Prop :=
  cache_ok (replay_check_len cfg) (used_handshakes w)
  /\ cache_ok (client_ips_len cfg) (client_ips w).

(** ** do_direct_handshake *)

Definition RESERVED_NONCE_FIRST_CHARS : list bytes := [[xef]].

Definition RESERVED_NONCE_BEGININGS : list bytes :=
  [[x48; x45; x41; x44]; [x50; x4f; x53; x54]; [x47; x45; x54; x20];
   [xee; xee; xee; xee]; [xdd; xdd; xdd; xdd]; [x16; x03; x01; x02]].

Definition RESERVED_NONCE_CONTINUES : list bytes := [[x00; x00; x00; x00]].

(** The [while True] loop that draws the nonce.  [draws] are the successive
    results of [myrandom.getrandbytes(HANDSHAKE_LEN)]; [None] when all of
    them are refused and the loop goes on drawing. *)
Fixpoint draw_nonce (draws : list bytes) : option bytes :=
  match draws with
  | [] => None
  | rnd :: draws' =>
      if bool_decide (take 1 rnd ∈ RESERVED_NONCE_FIRST_CHARS) then draw_nonce draws'
      else if bool_decide (take 4 rnd ∈ RESERVED_NONCE_BEGININGS) then draw_nonce draws'
      else if bool_decide (slice 4 8 rnd ∈ RESERVED_NONCE_CONTINUES)
           then draw_nonce draws'
      else Some rnd
  end.

(** [b[i:j] = v] on a [bytearray], for [i <= j] *)
Definition set_slice (i j : nat) (v b : bytes) : bytes := take i b ++ v ++ drop j b.

(** What [do_direct_handshake] sends to the datacenter and the two ciphers
    it wraps the connection in. *)
Record tg_link := {
  tl_sent : bytes;
  tl_decryptor : C;
  tl_encryptor : C
}.

(** [do_direct_handshake] from the drawn nonce [rnd] on. *)
Definition direct_handshake_packet (rnd proto_tag : bytes)
    (dec_key_and_iv : option bytes) : tg_link :=
  let rnd := set_slice PROTO_TAG_POS (PROTO_TAG_POS + 4) proto_tag rnd in
  let rnd :=
    if truthy dec_key_and_iv
    then set_slice SKIP_LEN (SKIP_LEN + KEY_LEN + IV_LEN)
           (rev (default [] dec_key_and_iv)) rnd
    else rnd in
  let dec_key_and_iv := rev (slice SKIP_LEN (SKIP_LEN + KEY_LEN + IV_LEN) rnd) in
  let dec_key := take KEY_LEN dec_key_and_iv in
  let dec_iv := drop KEY_LEN dec_key_and_iv in
  let decryptor := create_aes_ctr dec_key (int_from_bytes_be dec_iv) in
  let enc_key_and_iv := slice SKIP_LEN (SKIP_LEN + KEY_LEN + IV_LEN) rnd in
  let enc_key := take KEY_LEN enc_key_and_iv in
  let enc_iv := drop KEY_LEN enc_key_and_iv in
  let encryptor := create_aes_ctr enc_key (int_from_bytes_be enc_iv) in
  let '(encrypted, encryptor) := encrypt encryptor rnd in
  let rnd_enc := take PROTO_TAG_POS rnd ++ drop PROTO_TAG_POS encrypted in
  {| tl_sent := rnd_enc; tl_decryptor := decryptor; tl_encryptor := encryptor |}.

(** The handshake with the datacenter as [handle_client] asks for it when it
    connects directly: with the client's [enc_key + enc_iv] in fast mode. *)
Definition direct_handshake_for (cfg : config) (rnd : bytes) (clt_data : client_data)
  : tg_link :=
  if fast_mode cfg then
    direct_handshake_packet rnd (cd_proto_tag clt_data)
      (Some (cd_enc_key_and_iv clt_data))
  else direct_handshake_packet rnd (cd_proto_tag clt_data) None.
(** ** Sample data: frames, a FakeTLS client, a proxy with one user *)

Definition sample_payload : bytes := [x01; x02; x03; x04; x05; x06; x07; x08].

(** A payload that itself holds a frame with sequence number 16. *)
Definition nested_payload : bytes :=
  le_bytes 4 16 ++ [x00; x00; x00; x00]
    ++ le_bytes 4 (crc32 (le_bytes 4 16 ++ le_bytes 4 16 ++ [x00; x00; x00; x00])).

(** A ClientHello of 517 bytes whose digest field is 28 zero bytes and the
    timestamp 1700000000, with a 32-byte session id. *)
Definition sample_hello : bytes :=
  TLS_START_BYTES ++ replicate 28 x00 ++ [x00; xf1; x53; x65] ++ [x20]
    ++ replicate 32 x07 ++ replicate 441 x00.

(** A 64-byte obfuscated handshake: ABRIDGED tag, DC index 2. *)
Definition sample_inner : bytes :=
  replicate 8 x01 ++ replicate 48 x02 ++ [xef; xef; xef; xef] ++ [x02; x00]
    ++ [x00; x00].

(** The FakeTLS client's bytes: ClientHello, then the inner handshake in one
    ApplicationData record. *)
Definition sample_client : bytes :=
  sample_hello ++ [x17; x03; x03; x00; x40] ++ sample_inner.

Definition sample_world (used : list bytes) (input : bytes) : world :=
  {| used_handshakes := used; client_ips := []; last_client_ips := ∅;
     last_clients_with_time_skew := ∅; last_clients_with_same_handshake := ∅;
     stats := ∅; user_stats := ∅; clt_in := input; trace := [] |}.

Definition sample_cfg : config :=
  {| proxy_protocol := false; replay_check_len := 65536; client_ips_len := 131072;
     ignore_time_skew := false; use_middle_proxy := false; fast_mode := false;
     mask := true |}.

Definition sample_env (t : Q) : conn_env :=
  {| is_closing := false; peername := Some ("198.51.100.7", 51000); now := t;
     now_skew := t;
     is_time_skewed := false; disable_middle_proxy := false;
     x25519_public_key := replicate 32 x09; http_data := replicate 1024 x0a;
     tg_answers := true; session_duration := 3 |}.

(** A user allowed no connection at all. *)
Definition sample_user : user :=
  {| name := "tg"; secret := replicate 15 x00 ++ [x01]; max_tcp_conns := Some 0;
     expiration_date := None; data_quota := None |}.

(** * Properties *)

Example crc32_check_value :
  crc32 [x31; x32; x33; x34; x35; x36; x37; x38; x39] = 0xCBF43926.
Proof. vm_compute. reflexivity. Qed.


(** ** Bytes and integers *)

Lemma b2z_range b : 0 <= b2z b < 256.
Proof.
  unfold b2z. pose proof (Byte.to_N_bounded b). lia.
Qed.

Lemma z2b_b2z b : z2b (b2z b) = b.
Proof.
  unfold z2b. rewrite Z.mod_small by apply b2z_range.
  unfold b2z. rewrite N2Z.id, Byte.of_to_N. reflexivity.
Qed.

Lemma b2z_z2b z : b2z (z2b z) = z mod 256.
Proof.
  unfold z2b.
  pose proof (Z.mod_pos_bound z 256 ltac:(lia)) as Hz.
  destruct (Byte.of_N (Z.to_N (z mod 256))) as [b|] eqn:E.
  - apply Byte.to_of_N in E. unfold b2z. rewrite E. lia.
  - apply Byte.of_N_None_iff in E. lia.
Qed.

Lemma b2z_inj a b : b2z a = b2z b -> a = b.
Proof.
  intros H. rewrite <- (z2b_b2z a), <- (z2b_b2z b). congruence.
Qed.

Lemma length_le_bytes n x : length (le_bytes n x) = n.
Proof.
  revert x. induction n as [|n IH]; intros x; simpl; [reflexivity|].
  rewrite IH. reflexivity.
Qed.

Lemma le_value_range b : 0 <= le_value b < 256 ^ len b.
Proof.
  unfold len. induction b as [|x r IH].
  - simpl. lia.
  - cbn [le_value length]. rewrite Nat2Z.inj_succ, Z.pow_succ_r by lia.
    pose proof (b2z_range x). lia.
Qed.

Lemma le_value_le_bytes n x : le_value (le_bytes n x) = x mod 256 ^ Z.of_nat n.
Proof.
  revert x. induction n as [|n IH]; intros x.
  - simpl. rewrite Z.mod_1_r. reflexivity.
  - cbn [le_bytes le_value]. rewrite IH, b2z_z2b.
    rewrite Z.mod_mod by lia.
    rewrite Nat2Z.inj_succ, Z.pow_succ_r by lia.
    rewrite Z.rem_mul_r by lia. reflexivity.
Qed.

Lemma le_bytes_le_value b : le_bytes (length b) (le_value b) = b.
Proof.
  induction b as [|x r IH]; [reflexivity|].
  cbn [length le_bytes le_value].
  pose proof (b2z_range x) as Hx.
  replace (b2z x + 256 * le_value r) with (b2z x + le_value r * 256) by lia.
  rewrite Z_mod_plus_full, Z_div_plus_full by lia.
  rewrite Z.mod_small, Z.div_small by lia.
  rewrite Z.add_0_l.
  rewrite z2b_b2z, IH. reflexivity.
Qed.

Lemma le_value_inj a b : length a = length b -> le_value a = le_value b -> a = b.
Proof.
  intros Hl Hv. rewrite <- (le_bytes_le_value a), <- (le_bytes_le_value b).
  rewrite Hl, Hv. reflexivity.
Qed.

Lemma int_from_to_bytes_le x n :
  0 <= x < 256 ^ Z.of_nat n ->
  int_to_bytes_le x n = Ret (le_bytes n x) /\ int_from_bytes_le (le_bytes n x) = x.
Proof.
  intros Hx. unfold int_to_bytes_le, int_from_bytes_le.
  rewrite decide_True by assumption. split; [reflexivity|].
  rewrite le_value_le_bytes. apply Z.mod_small. assumption.
Qed.

Lemma int_from_bytes_le_signed_inj a b :
  length a = length b ->
  int_from_bytes_le_signed a = int_from_bytes_le_signed b -> a = b.
Proof.
  intros Hl. unfold int_from_bytes_le_signed, len. rewrite Hl.
  pose proof (le_value_range a) as Ha. pose proof (le_value_range b) as Hb.
  unfold len in *. rewrite Hl in Ha.
  intros H. apply le_value_inj; [assumption|].
  destruct b as [|y b'].
  - destruct a; [reflexivity | discriminate].
  - destruct a as [|x a']; [discriminate|].
    set (m := 256 ^ Z.of_nat (length (y :: b'))) in *.
    assert (0 < m) by (apply Z.pow_pos_nonneg; lia).
    assert (m / 2 * 2 = m) as Hm.
    { unfold m. cbn [length]. rewrite Nat2Z.inj_succ, Z.pow_succ_r by lia.
      replace (256 * 256 ^ Z.of_nat (length b')) with (128 * 256 ^ Z.of_nat (length b') * 2) by lia.
      rewrite Z.div_mul by lia. lia. }
    repeat case_decide; lia.
Qed.

Lemma int_from_to_bytes_le_signed x :
  - 2 ^ 31 <= x < 2 ^ 31 ->
  int_to_bytes_le_signed x 4 = Ret (le_bytes 4 (x mod 2 ^ 32))
  /\ int_from_bytes_le_signed (le_bytes 4 (x mod 2 ^ 32)) = x.
Proof.
  intros Hx. unfold int_to_bytes_le_signed, int_from_bytes_le_signed.
  change (256 ^ Z.of_nat 4) with (2 ^ 32). change (2 ^ 32 / 2) with (2 ^ 31).
  rewrite decide_True by assumption. split; [reflexivity|].
  unfold len. rewrite length_le_bytes, le_value_le_bytes.
  change (256 ^ Z.of_nat 4) with (2 ^ 32). change (2 ^ 32 / 2) with (2 ^ 31).
  rewrite Z.mod_mod by lia.
  destruct (decide (0 <= x)) as [Hp|Hn].
  - rewrite Z.mod_small by lia. rewrite decide_False; [reflexivity|].
    intros [_ ?]. lia.
  - replace (x mod 2 ^ 32) with (x + 2 ^ 32).
    + rewrite decide_True; [lia|]. split; [discriminate | lia].
    + symmetry. rewrite <- (Z.mod_add x 1 (2 ^ 32)) by lia.
      apply Z.mod_small. lia.
Qed.

(** ** CRC-32 *)

Lemma lxor_range32 a b :
  0 <= a < 2 ^ 32 -> 0 <= b < 2 ^ 32 -> 0 <= Z.lxor a b < 2 ^ 32.
Proof.
  intros Ha Hb.
  assert (0 <= Z.lxor a b) as Hnn by (apply Z.lxor_nonneg; lia).
  split; [assumption|].
  destruct (decide (Z.lxor a b = 0)) as [->|Hne]; [lia|].
  apply Z.log2_lt_pow2; [lia|].
  pose proof (Z.log2_lxor a b ltac:(lia) ltac:(lia)) as Hl.
  assert (Z.log2 a < 32).
  { destruct (decide (a = 0)) as [->|]; [simpl; lia|].
    apply Z.log2_lt_pow2; lia. }
  assert (Z.log2 b < 32).
  { destruct (decide (b = 0)) as [->|]; [simpl; lia|].
    apply Z.log2_lt_pow2; lia. }
  lia.
Qed.

Lemma shiftr1_range c : 0 <= c < 2 ^ 32 -> 0 <= Z.shiftr c 1 < 2 ^ 31.
Proof.
  intros Hc. rewrite Z.shiftr_div_pow2 by lia. change (2 ^ 1) with 2.
  split; [apply Z.div_pos; lia|].
  apply Z.div_lt_upper_bound; lia.
Qed.

Lemma crc_shift_range c : 0 <= c < 2 ^ 32 -> 0 <= crc_shift c < 2 ^ 32.
Proof.
  intros Hc. pose proof (shiftr1_range c Hc). unfold crc_shift.
  destruct (Z.testbit c 0).
  - apply lxor_range32; [lia | unfold CRC_POLY; lia].
  - lia.
Qed.

Lemma testbit31_small x : 0 <= x < 2 ^ 31 -> Z.testbit x 31 = false.
Proof.
  intros Hx. destruct (decide (x = 0)) as [->|]; [apply Z.bits_0|].
  apply Z.bits_above_log2; [lia|].
  apply Z.log2_lt_pow2; lia.
Qed.

Lemma crc_shift_top c :
  0 <= c < 2 ^ 32 -> Z.testbit (crc_shift c) 31 = Z.testbit c 0.
Proof.
  intros Hc. pose proof (shiftr1_range c Hc) as Hs. unfold crc_shift.
  destruct (Z.testbit c 0) eqn:E.
  - rewrite Z.lxor_spec, testbit31_small by assumption. reflexivity.
  - apply testbit31_small. assumption.
Qed.

Lemma crc_shift_inj c d :
  0 <= c < 2 ^ 32 -> 0 <= d < 2 ^ 32 -> crc_shift c = crc_shift d -> c = d.
Proof.
  intros Hc Hd H.
  assert (Z.testbit c 0 = Z.testbit d 0) as Hb.
  { rewrite <- (crc_shift_top c), <- (crc_shift_top d) by assumption.
    rewrite H. reflexivity. }
  assert (Z.shiftr c 1 = Z.shiftr d 1) as Hs.
  { unfold crc_shift in H. rewrite <- Hb in H.
    destruct (Z.testbit c 0); [|assumption].
    apply (f_equal (fun v => Z.lxor v CRC_POLY)) in H.
    rewrite !Z.lxor_assoc, !Z.lxor_nilpotent, !Z.lxor_0_r in H. assumption. }
  apply Z.bits_inj'. intros n Hn.
  destruct (decide (n = 0)) as [->|Hn0]; [assumption|].
  replace n with ((n - 1) + 1) by lia.
  rewrite <- !Z.shiftr_spec by lia. rewrite Hs. reflexivity.
Qed.

Lemma crc_iter_range k c :
  0 <= c < 2 ^ 32 -> 0 <= Nat.iter k crc_shift c < 2 ^ 32.
Proof.
  intros Hc. induction k as [|k IH]; [assumption|].
  cbn [Nat.iter]. apply crc_shift_range. assumption.
Qed.

Lemma crc_iter_inj k c d :
  0 <= c < 2 ^ 32 -> 0 <= d < 2 ^ 32 ->
  Nat.iter k crc_shift c = Nat.iter k crc_shift d -> c = d.
Proof.
  intros Hc Hd. induction k as [|k IH]; [trivial|].
  cbn [Nat.iter]. intros H. apply IH.
  apply crc_shift_inj; [apply crc_iter_range .. |]; assumption.
Qed.

Lemma b2z_range32 b : 0 <= b2z b < 2 ^ 32.
Proof. pose proof (b2z_range b). lia. Qed.

Lemma crc_byte_range c b : 0 <= c < 2 ^ 32 -> 0 <= crc_byte c b < 2 ^ 32.
Proof.
  intros Hc. apply crc_iter_range, lxor_range32; [assumption | apply b2z_range32].
Qed.

(** One step of the register is injective in the pair (register, byte) up to
    their exclusive or. *)
Lemma crc_byte_inj c d a b :
  0 <= c < 2 ^ 32 -> 0 <= d < 2 ^ 32 ->
  crc_byte c a = crc_byte d b -> Z.lxor c (b2z a) = Z.lxor d (b2z b).
Proof.
  intros Hc Hd H. unfold crc_byte in H.
  eapply crc_iter_inj; [| | exact H];
    apply lxor_range32; auto using b2z_range32.
Qed.

Lemma crc_fold_range data c :
  0 <= c < 2 ^ 32 -> 0 <= fold_left crc_byte data c < 2 ^ 32.
Proof.
  revert c. induction data as [|b r IH]; intros c Hc; [assumption|].
  cbn [fold_left]. apply IH, crc_byte_range, Hc.
Qed.

Lemma crc_fold_inj data c d :
  0 <= c < 2 ^ 32 -> 0 <= d < 2 ^ 32 ->
  fold_left crc_byte data c = fold_left crc_byte data d -> c = d.
Proof.
  revert c d. induction data as [|b r IH]; intros c d Hc Hd H; [assumption|].
  cbn [fold_left] in H. apply IH in H; [| apply crc_byte_range; assumption ..].
  apply crc_byte_inj in H; [|assumption ..].
  apply (f_equal (fun v => Z.lxor v (b2z b))) in H.
  rewrite !Z.lxor_assoc, !Z.lxor_nilpotent, !Z.lxor_0_r in H. assumption.
Qed.

Lemma crc32_range data : 0 <= crc32 data < 2 ^ 32.
Proof.
  unfold crc32. apply lxor_range32; [|lia].
  apply crc_fold_range. lia.
Qed.

(** Changing one byte of a message always changes its CRC-32. *)
Lemma crc32_detects_byte pre x y post :
  x <> y -> crc32 (pre ++ x :: post) <> crc32 (pre ++ y :: post).
Proof.
  intros Hxy H. unfold crc32 in H.
  apply (f_equal (fun v => Z.lxor v 0xFFFFFFFF)) in H.
  rewrite !Z.lxor_assoc, !Z.lxor_nilpotent, !Z.lxor_0_r in H.
  rewrite !fold_left_app in H. cbn [fold_left] in H.
  set (s := fold_left crc_byte pre 4294967295) in *.
  assert (0 <= s < 2 ^ 32) as Hs by (apply crc_fold_range; lia).
  apply crc_fold_inj in H; [| apply crc_byte_range; assumption ..].
  apply crc_byte_inj in H; [|assumption ..].
  apply (f_equal (Z.lxor s)) in H.
  rewrite <- !Z.lxor_assoc, !Z.lxor_nilpotent, !Z.lxor_0_l in H.
  apply Hxy, b2z_inj, H.
Qed.

(** ** FULL framing *)

Lemma readexactly_app a r n :
  n = len a -> readexactly (a ++ r) n = Ret (a, r).
Proof.
  intros ->. unfold readexactly, len.
  rewrite decide_False by lia.
  rewrite decide_True by (rewrite length_app; lia).
  rewrite Nat2Z.id, take_app_length, drop_app_length. reflexivity.
Qed.

Lemma skip_paddings_done fuel b up :
  int_from_bytes_le b <> 4 -> skip_paddings fuel b up = Ret (b, up).
Proof.
  intros H. destruct fuel; simpl; rewrite decide_False by assumption; reflexivity.
Qed.

(** Enough turns: any two bounds above the remaining length give the same run. *)
Lemma skip_paddings_fuel_irrel f1 f2 b up :
  (length up <= f1)%nat -> (length up <= f2)%nat ->
  skip_paddings f1 b up = skip_paddings f2 b up.
Proof.
  revert f2 b up. induction f1 as [|f1 IH]; intros f2 b up H1 H2.
  - destruct up; [|simpl in H1; lia].
    destruct f2; [reflexivity|]. simpl. case_decide; reflexivity.
  - destruct f2 as [|f2].
    + destruct up; [|simpl in H2; lia].
      simpl. case_decide; reflexivity.
    + cbn [skip_paddings]. case_decide; [|reflexivity].
      unfold readexactly. case_decide; [reflexivity|].
      case_decide; [|reflexivity].
      cbn [mbind outcome_bind].
      assert (length (drop (Z.to_nat 4) up) + 4 <= length up)%nat as Hd.
      { rewrite length_drop. unfold len in *. lia. }
      apply IH; lia.
Qed.

Lemma skip_paddings_fuel fuel b up :
  (length up <= fuel)%nat ->
  skip_paddings fuel b up = skip_paddings (length up) b up.
Proof. intros H. apply skip_paddings_fuel_irrel; lia. Qed.

(** What [read] does on a buffer that starts with one well-delimited frame. *)
Lemma read_frame_shape lb sb data cb rest seq :
  length lb = 4%nat -> length sb = 4%nat -> length cb = 4%nat ->
  int_from_bytes_le lb <> 4 ->
  MIN_MSG_LEN <= int_from_bytes_le lb <= MAX_MSG_LEN ->
  int_from_bytes_le lb mod 4 = 0 ->
  len data = int_from_bytes_le lb - 12 ->
  MTProtoFrameStreamReader_read
    {| fsr_upstream := lb ++ sb ++ data ++ cb ++ rest; fsr_seq_no := seq |}
  = if decide (int_from_bytes_le_signed sb ≠ seq) then
      Ret ([], {| fsr_upstream := data ++ cb ++ rest; fsr_seq_no := seq |})
    else if decide (crc32 (lb ++ sb ++ data) ≠ int_from_bytes_le cb) then
      Ret ([], {| fsr_upstream := rest; fsr_seq_no := seq + 1 |})
    else Ret (data, {| fsr_upstream := rest; fsr_seq_no := seq + 1 |}).
Proof.
  intros Hlb Hsb Hcb Hne Hrange Hmod Hdata.
  unfold MTProtoFrameStreamReader_read. cbn [fsr_upstream fsr_seq_no].
  rewrite readexactly_app by (unfold len; lia).
  cbn [mbind outcome_bind].
  rewrite skip_paddings_done by assumption.
  cbn [mbind outcome_bind].
  rewrite bool_decide_true by assumption.
  rewrite bool_decide_false by (change (len PADDING_FILLER) with 4; lia).
  cbn [negb orb].
  rewrite readexactly_app by (unfold len; lia).
  cbn [mbind outcome_bind].
  case_decide; [reflexivity|].
  rewrite readexactly_app by lia.
  rewrite readexactly_app by (unfold len; lia).
  reflexivity.
Qed.

Lemma write_frame_shape up seq msg :
  len msg + 12 < 2 ^ 32 -> - 2 ^ 31 <= seq < 2 ^ 31 ->
  let lb := le_bytes 4 (len msg + 12) in
  let sb := le_bytes 4 (seq mod 2 ^ 32) in
  let cb := le_bytes 4 (crc32 (lb ++ sb ++ msg)) in
  MTProtoFrameStreamWriter_write {| fsw_upstream := up; fsw_seq_no := seq |} msg no_extra
  = Ret (PyNone,
         {| fsw_upstream :=
              up ++ ((lb ++ sb ++ msg) ++ cb)
                 ++ bytes_repeat PADDING_FILLER
                      ((- len ((lb ++ sb ++ msg) ++ cb)) mod CBC_PADDING / len PADDING_FILLER);
            fsw_seq_no := seq + 1 |}).
Proof.
  intros Hlen Hseq lb sb cb. unfold MTProtoFrameStreamWriter_write.
  cbn [fsw_upstream fsw_seq_no].
  replace (len msg + 4 + 4 + 4) with (len msg + 12) by lia.
  destruct (int_from_to_bytes_le (len msg + 12) 4) as [-> _].
  { change (256 ^ Z.of_nat 4) with (2 ^ 32). unfold len in *. lia. }
  destruct (int_from_to_bytes_le_signed seq Hseq) as [-> _].
  cbn [mbind outcome_bind].
  destruct (int_from_to_bytes_le (crc32 (lb ++ sb ++ msg)) 4) as [Hc _].
  { apply crc32_range. }
  fold lb sb. rewrite Hc. reflexivity.
Qed.

Lemma insert_differs (l : bytes) j b b' :
  l !! j = Some b -> b' <> b -> <[j:=b']> l <> l.
Proof.
  intros Hj Hb Heq. apply (f_equal (fun x => x !! j)) in Heq.
  rewrite list_lookup_insert_eq in Heq by (eapply lookup_lt_Some; eassumption).
  congruence.
Qed.

Lemma insert_as_middle (l : bytes) j b b' :
  l !! j = Some b ->
  l = take j l ++ b :: drop (S j) l /\ <[j:=b']> l = take j l ++ b' :: drop (S j) l.
Proof.
  intros Hj. split.
  - symmetry. apply take_drop_middle. assumption.
  - apply insert_take_drop. eapply lookup_lt_Some; eassumption.
Qed.

(** One frame, written and read back, with every single-byte change of its
    sequence number, payload or checksum. *)
Lemma full_frame_laws (P : bytes) (n : Z) (rest : bytes) :
  len P mod 4 = 0 -> len P <= 2 ^ 24 - 12 -> - 2 ^ 31 <= n < 2 ^ 31 ->
  exists frame,
    MTProtoFrameStreamWriter_write {| fsw_upstream := []; fsw_seq_no := n |} P no_extra
    = Ret (PyNone, {| fsw_upstream := frame; fsw_seq_no := n + 1 |})
    /\ (exists k,
          MTProtoFrameStreamReader_read
            {| fsr_upstream := frame ++ rest; fsr_seq_no := n |}
          = Ret (P, {| fsr_upstream := bytes_repeat PADDING_FILLER k ++ rest;
                       fsr_seq_no := n + 1 |}))
    /\ (forall (i : nat) (b b' : byte),
          (4 <= i < 12 + length P)%nat -> frame !! i = Some b -> b' <> b ->
          exists r',
            MTProtoFrameStreamReader_read
              {| fsr_upstream := <[i:=b']> frame ++ rest; fsr_seq_no := n |}
            = Ret ([], r')).
Proof.
  intros Hmod Hmax Hn.
  pose proof (write_frame_shape [] n P) as Hw. cbv zeta in Hw.
  set (lb := le_bytes 4 (len P + 12)) in *.
  set (sb := le_bytes 4 (n mod 2 ^ 32)) in *.
  set (cb := le_bytes 4 (crc32 (lb ++ sb ++ P))) in *.
  set (pad := bytes_repeat PADDING_FILLER _) in *.
  assert (0 <= len P) as Hnn by (unfold len; lia).
  assert (length lb = 4%nat) as Hlb by apply length_le_bytes.
  assert (length sb = 4%nat) as Hsb by apply length_le_bytes.
  assert (length cb = 4%nat) as Hcb by apply length_le_bytes.
  assert (int_from_bytes_le lb = len P + 12) as Hlv.
  { apply int_from_to_bytes_le. change (256 ^ Z.of_nat 4) with (2 ^ 32). lia. }
  assert (int_from_bytes_le_signed sb = n) as Hsv
    by apply (int_from_to_bytes_le_signed n Hn).
  assert (int_from_bytes_le cb = crc32 (lb ++ sb ++ P)) as Hcv.
  { apply int_from_to_bytes_le. apply crc32_range. }
  assert (forall sb' data cb',
    length sb' = 4%nat -> length cb' = 4%nat -> length data = length P ->
    MTProtoFrameStreamReader_read
      {| fsr_upstream := lb ++ sb' ++ data ++ cb' ++ pad ++ rest; fsr_seq_no := n |}
    = if decide (int_from_bytes_le_signed sb' ≠ n) then
        Ret ([], {| fsr_upstream := data ++ cb' ++ pad ++ rest; fsr_seq_no := n |})
      else if decide (crc32 (lb ++ sb' ++ data) ≠ int_from_bytes_le cb') then
        Ret ([], {| fsr_upstream := pad ++ rest; fsr_seq_no := n + 1 |})
      else Ret (data, {| fsr_upstream := pad ++ rest; fsr_seq_no := n + 1 |}))
    as Hread.
  { intros sb' data cb' Hsb' Hcb' Hd.
    apply read_frame_shape; try assumption; rewrite ?Hlv.
    - lia.
    - unfold MIN_MSG_LEN, MAX_MSG_LEN. lia.
    - replace (len P + 12) with (len P + 3 * 4) by lia.
      rewrite Z_mod_plus_full. assumption.
    - unfold len in *. lia. }
  exists (([] ++ ((lb ++ sb ++ P) ++ cb) ++ pad)). split; [apply Hw; lia|].
  cbn [app]. split.
  - exists ((- len ((lb ++ sb ++ P) ++ cb)) mod CBC_PADDING / len PADDING_FILLER).
    fold pad. rewrite <- !app_assoc.
    rewrite Hread by trivial.
    rewrite decide_False by (intros H; apply H, Hsv).
    rewrite decide_False by (intros H; apply H; symmetry; apply Hcv).
    reflexivity.
  - intros i b b' Hi Hlook Hb.
    rewrite <- !app_assoc in Hlook. rewrite <- !app_assoc.
    rewrite lookup_app_r in Hlook by lia.
    rewrite insert_app_r_alt by lia. rewrite Hlb in *.
    destruct (decide (i - 4 < 4)%nat) as [Hs|Hs].
    + (* sequence number *)
      rewrite lookup_app_l in Hlook by lia.
      rewrite insert_app_l by lia. rewrite <- !app_assoc.
      rewrite Hread by (rewrite ?length_insert; trivial).
      rewrite decide_True; [eauto|].
      intros Heq. rewrite <- Hsv in Heq.
      apply int_from_bytes_le_signed_inj in Heq; [|rewrite length_insert; lia].
      eapply insert_differs; eassumption.
    + rewrite lookup_app_r in Hlook by lia.
      rewrite insert_app_r_alt by lia. rewrite Hsb in *.
      destruct (decide (i - 4 - 4 < length P)%nat) as [Hp|Hp].
      * (* payload *)
        rewrite lookup_app_l in Hlook by lia.
        rewrite insert_app_l by lia. rewrite <- !app_assoc.
        rewrite Hread by (rewrite ?length_insert; trivial).
        case_decide; [eauto|].
        rewrite decide_True; [eauto|].
        rewrite Hcv.
        destruct (insert_as_middle P (i - 4 - 4) b b' Hlook) as [HP HP'].
        rewrite HP'. clear HP'. revert HP.
        generalize (take (i - 4 - 4) P) (drop (S (i - 4 - 4)) P).
        intros p0 p1 HP. rewrite HP.
        rewrite !(app_assoc lb), !(app_assoc (lb ++ sb)).
        apply crc32_detects_byte. assumption.
      * (* checksum *)
        rewrite lookup_app_r in Hlook by lia.
        rewrite insert_app_r_alt by lia.
        rewrite lookup_app_l in Hlook by lia.
        rewrite insert_app_l by lia. rewrite <- !app_assoc.
        rewrite Hread by (rewrite ?length_insert; trivial).
        rewrite decide_False by (intros H; apply H, Hsv).
        rewrite decide_True; [eauto|].
        rewrite <- Hcv. intros Heq.
        apply le_value_inj in Heq; [|rewrite length_insert; lia].
        symmetry in Heq. eapply insert_differs; eassumption.
Qed.

(** C4 (amended).  A payload whose length is a multiple of 4 and at most
    2^24 - 12, written by the FULL framing writer at a sequence number [n]
    that fits a signed 32-bit integer, is read back exactly by the FULL
    framing reader expecting [n]; the reader then expects [n + 1] and is left
    at the writer's padding.  Changing any byte of the sequence number, of
    the payload or of the checksum makes the reader return the empty
    result [b""] instead of a payload. *)
Theorem full_framing_roundtrip (P : bytes) (n : Z) (rest : bytes) :
  len P mod 4 = 0 -> len P <= 2 ^ 24 - 12 -> - 2 ^ 31 <= n < 2 ^ 31 ->
  exists frame,
    MTProtoFrameStreamWriter_write {| fsw_upstream := []; fsw_seq_no := n |} P no_extra
    = Ret (PyNone, {| fsw_upstream := frame; fsw_seq_no := n + 1 |})
    /\ (exists k,
          MTProtoFrameStreamReader_read
            {| fsr_upstream := frame ++ rest; fsr_seq_no := n |}
          = Ret (P, {| fsr_upstream := bytes_repeat PADDING_FILLER k ++ rest;
                       fsr_seq_no := n + 1 |}))
    /\ (forall (i : nat) (b b' : byte),
          (4 <= i < 12 + length P)%nat -> frame !! i = Some b -> b' <> b ->
          exists r',
            MTProtoFrameStreamReader_read
              {| fsr_upstream := <[i:=b']> frame ++ rest; fsr_seq_no := n |}
            = Ret ([], r')).
Proof. apply full_frame_laws. Qed.


(** The writer only appends to its transport. *)
Lemma write_frame_appends up seq msg :
  MTProtoFrameStreamWriter_write {| fsw_upstream := up; fsw_seq_no := seq |} msg no_extra
  = '(r, w) ← MTProtoFrameStreamWriter_write
                {| fsw_upstream := []; fsw_seq_no := seq |} msg no_extra;
    Ret (r, {| fsw_upstream := up ++ fsw_upstream w; fsw_seq_no := fsw_seq_no w |}).
Proof.
  unfold MTProtoFrameStreamWriter_write. cbn [fsw_upstream fsw_seq_no].
  destruct (int_to_bytes_le (len msg + 4 + 4 + 4) 4); [|reflexivity].
  destruct (int_to_bytes_le_signed seq 4); [|reflexivity].
  cbn [mbind outcome_bind].
  destruct (int_to_bytes_le _ 4); reflexivity.
Qed.

Lemma read_skips_one_filler rest seq :
  MTProtoFrameStreamReader_read
    {| fsr_upstream := PADDING_FILLER ++ rest; fsr_seq_no := seq |}
  = MTProtoFrameStreamReader_read {| fsr_upstream := rest; fsr_seq_no := seq |}.
Proof.
  unfold MTProtoFrameStreamReader_read. cbn [fsr_upstream fsr_seq_no].
  rewrite readexactly_app by reflexivity.
  cbn [mbind outcome_bind].
  destruct (length rest) as [|f] eqn:El.
  - destruct rest; [|discriminate]. reflexivity.
  - cbn [skip_paddings]. rewrite decide_True by reflexivity.
    destruct (readexactly rest 4) as [[b up]|e] eqn:Er; [|reflexivity].
    cbn [mbind outcome_bind].
    rewrite (skip_paddings_fuel f); [reflexivity|].
    unfold readexactly in Er. repeat case_decide; try discriminate.
    inversion Er; subst. rewrite length_drop. lia.
Qed.

(** C9.  The FULL framing reader skips any number of leading filler words
    [04 00 00 00] before it parses a length field: reading a transport that
    starts with [k] fillers is reading the transport without them.  Hence two
    frames written one after the other, the first followed by its padding to
    a 16-byte multiple, are read back one after the other. *)
Theorem full_reader_skips_padding :
  (forall (k : nat) (rest : bytes) (seq : Z),
      MTProtoFrameStreamReader_read
        {| fsr_upstream := bytes_repeat PADDING_FILLER (Z.of_nat k) ++ rest;
           fsr_seq_no := seq |}
      = MTProtoFrameStreamReader_read {| fsr_upstream := rest; fsr_seq_no := seq |})
  /\ (forall (P1 P2 : bytes) (n : Z),
        len P1 mod 4 = 0 -> len P1 <= 2 ^ 24 - 12 ->
        len P2 mod 4 = 0 -> len P2 <= 2 ^ 24 - 12 ->
        - 2 ^ 31 <= n < 2 ^ 31 - 1 ->
        exists w1 w2 r1 r2,
          MTProtoFrameStreamWriter_write
            {| fsw_upstream := []; fsw_seq_no := n |} P1 no_extra = Ret (PyNone, w1)
          /\ MTProtoFrameStreamWriter_write w1 P2 no_extra = Ret (PyNone, w2)
          /\ MTProtoFrameStreamReader_read
               {| fsr_upstream := fsw_upstream w2; fsr_seq_no := n |} = Ret (P1, r1)
          /\ MTProtoFrameStreamReader_read r1 = Ret (P2, r2)
          /\ fsr_seq_no r2 = n + 2).
Proof.
  assert (forall (k : nat) rest seq,
    MTProtoFrameStreamReader_read
      {| fsr_upstream := bytes_repeat PADDING_FILLER (Z.of_nat k) ++ rest;
         fsr_seq_no := seq |}
    = MTProtoFrameStreamReader_read {| fsr_upstream := rest; fsr_seq_no := seq |})
    as Hskip.
  { intros k rest seq. unfold bytes_repeat. rewrite Nat2Z.id.
    induction k as [|k IH]; [reflexivity|].
    cbn [replicate concat]. rewrite <- app_assoc, read_skips_one_filler. exact IH. }
  split; [exact Hskip|].
  intros P1 P2 n Hm1 Hl1 Hm2 Hl2 Hn.
  destruct (full_frame_laws P2 (n + 1) [] Hm2 Hl2 ltac:(lia))
    as (f2 & Hw2 & [k2 Hr2] & _).
  destruct (full_frame_laws P1 n f2 Hm1 Hl1 ltac:(lia))
    as (f1 & Hw1 & [k1 Hr1] & _).
  eexists _, _, _, _. split; [exact Hw1|]. split.
  { rewrite write_frame_appends, Hw2. reflexivity. }
  cbn [fsw_upstream]. split; [exact Hr1|].
  split.
  - assert (0 <= k1 \/ k1 < 0) as [Hk|Hk] by lia.
    + rewrite <- (Z2Nat.id k1) by lia. rewrite Hskip.
      rewrite app_nil_r in Hr2. rewrite Hr2. reflexivity.
    + unfold bytes_repeat. rewrite Z2Nat.nonpos by lia. cbn [replicate concat app].
      rewrite app_nil_r in Hr2. rewrite Hr2. reflexivity.
  - cbn [fsr_seq_no]. lia.
Qed.

(** ** Intermediate framing: the length word *)

Lemma intermediate_length_above L :
  L > 2 ^ 31 ->
  intermediate_length L
  = (L - 2 ^ 31, {| QUICKACK_FLAG := true; SIMPLE_ACK := false |}).
Proof.
  intros HL. unfold intermediate_length.
  change 0x80000000 with (2 ^ 31). rewrite decide_True by lia. reflexivity.
Qed.

Lemma intermediate_length_upto L :
  L <= 2 ^ 31 -> intermediate_length L = (L, no_extra).
Proof.
  intros HL. unfold intermediate_length.
  change 0x80000000 with (2 ^ 31). rewrite decide_False by lia. reflexivity.
Qed.

(** The readers at the length word [00 00 00 80], next to the ABRIDGED
    reader at its length byte [80]. *)
Lemma intermediate_readers_at_boundary :
  intermediate_length (2 ^ 31) = (2 ^ 31, no_extra)
  /\ (forall rest, len rest < 2 ^ 31 ->
        MTProtoIntermediateFrameStreamReader_read ([x00; x00; x00; x80] ++ rest)
        = Raise IncompleteReadError
        /\ MTProtoSecureIntermediateFrameStreamReader_read ([x00; x00; x00; x80] ++ rest)
           = Raise IncompleteReadError)
  /\ (forall rest,
        MTProtoCompactFrameStreamReader_read ([x80] ++ rest)
        = Ret ([], {| QUICKACK_FLAG := true; SIMPLE_ACK := false |}, rest)).
Proof.
  split; [reflexivity|]. split.
  - intros rest Hrest.
    unfold MTProtoIntermediateFrameStreamReader_read,
      MTProtoSecureIntermediateFrameStreamReader_read.
    rewrite (readexactly_app [x00; x00; x00; x80]) by reflexivity.
    cbn [mbind outcome_bind].
    change (int_from_bytes_le [x00; x00; x00; x80]) with (2 ^ 31).
    rewrite intermediate_length_upto by lia.
    unfold readexactly. rewrite decide_False by lia.
    rewrite decide_False by lia. split; reflexivity.
  - intros rest. unfold MTProtoCompactFrameStreamReader_read.
    rewrite (readexactly_app [x80]) by reflexivity.
    cbn [mbind outcome_bind].
    change (int_from_bytes_le [x80]) with 128.
    rewrite bool_decide_true by lia.
    rewrite decide_False by lia. cbn [mbind outcome_bind].
    unfold readexactly. rewrite decide_False by lia.
    rewrite decide_True by (unfold len; lia).
    reflexivity.
Qed.

(** C7.  At the length word [00 00 00 80] (L = 2^31) the INTERMEDIATE and
    SECURE-INTERMEDIATE readers report no QUICKACK and ask the transport for
    2^31 payload bytes, where L >= 2^31 calls for QUICKACK and an empty
    payload; the ABRIDGED reader, on its one-byte length word [80], does
    report QUICKACK with an empty payload. *)
Theorem intermediate_quickack_boundary :
  intermediate_length (2 ^ 31) = (2 ^ 31, no_extra)
  /\ MTProtoIntermediateFrameStreamReader_read [x00; x00; x00; x80]
     = Raise IncompleteReadError
  /\ MTProtoSecureIntermediateFrameStreamReader_read [x00; x00; x00; x80]
     = Raise IncompleteReadError
  /\ MTProtoCompactFrameStreamReader_read [x80]
     = Ret ([], {| QUICKACK_FLAG := true; SIMPLE_ACK := false |}, []).
Proof.
  destruct intermediate_readers_at_boundary as (Hl & Hi & Hc).
  split; [exact Hl|].
  destruct (Hi [] ltac:(reflexivity)) as [H1 H2].
  specialize (Hc []). cbn [app] in H1, H2, Hc.
  rewrite H1, H2, Hc. auto.
Qed.

(** ** Misaligned writes *)

(** C10.  A payload whose length is not a multiple of 4 makes
    [MTProtoCompactFrameStreamWriter.write] and [ProxyReqStreamWriter.write]
    return 0, and a payload whose length is not a multiple of the block size
    makes [CryptoWrappedStreamWriter.write] return 0; in each case the writer
    and its upstream are left as they were: nothing is passed upstream. *)
Theorem misaligned_writes_rejected :
  (forall (U : Type) (SW : StreamWriter U) (upstream : U) (data : bytes) (e : extra),
      len data mod 4 <> 0 ->
      MTProtoCompactFrameStreamWriter_write upstream data e = Ret (PyInt 0, upstream))
  /\ (forall (U : Type) (SW : StreamWriter U) (ad_tag : bytes)
        (w : ProxyReqStreamWriter U) (msg : bytes) (e : extra),
        len msg mod 4 <> 0 ->
        ProxyReqStreamWriter_write ad_tag w msg e = Ret (PyInt 0, w))
  /\ (forall (U K : Type) (SW : StreamWriter U) (CK : Cipher K)
        (w : CryptoWrappedStreamWriter U K) (data : bytes) (e : extra),
        cw_block_size w <> 0 ->
        len data mod cw_block_size w <> 0 ->
        CryptoWrappedStreamWriter_write w data e = Ret (PyInt 0, w)).
Proof.
  split; [|split].
  - intros U SW upstream data e Hd. unfold MTProtoCompactFrameStreamWriter_write.
    rewrite decide_True by assumption. reflexivity.
  - intros U SW ad_tag w msg e Hd. unfold ProxyReqStreamWriter_write.
    rewrite decide_True by assumption. reflexivity.
  - intros U K SW CK w data e Hb Hd. unfold CryptoWrappedStreamWriter_write.
    rewrite decide_False by assumption.
    rewrite decide_True by assumption. reflexivity.
Qed.

(** ** RPC envelope flags *)

Lemma startswith_true b p : take (length p) b = p -> startswith b p = true.
Proof. intros H. unfold startswith. apply bool_decide_eq_true. assumption. Qed.

(** C6.  With the ABRIDGED protocol tag, a 4-byte-aligned payload whose
    first eight bytes are zero and no QUICKACK in [extra], the envelope's
    flags word is HAS_AD_TAG | MAGIC | EXTMODE2 | ABRIDGED | NOT_ENCRYPTED
    = 0x4002100A, and that word, little-endian, is what [write] hands
    upstream after the RPC_PROXY_REQ tag. *)
Theorem proxy_req_flags_abridged (U : Type) (SW : StreamWriter U) (ad_tag : bytes)
    (w : ProxyReqStreamWriter U) (msg : bytes) (e : extra) :
  proto_tag w = PROTO_TAG_ABRIDGED ->
  len msg mod 4 = 0 ->
  take 8 msg = replicate 8 x00 ->
  QUICKACK_FLAG e = false ->
  len ad_tag < 256 ->
  ProxyReq_flags (proto_tag w) msg e
  = Z.lor (Z.lor (Z.lor (Z.lor FLAG_HAS_AD_TAG FLAG_MAGIC) FLAG_EXTMODE2) FLAG_ABRIDGED)
      FLAG_NOT_ENCRYPTED
  /\ ProxyReq_flags (proto_tag w) msg e
     = Z.lor 0x8 (Z.lor 0x1000 (Z.lor 0x20000 (Z.lor 0x40000000 0x2)))
  /\ ProxyReqStreamWriter_write ad_tag w msg e
     = '(r, u) ← write (prw_upstream w)
                   ([xee; xf1; xce; x36] ++ [x0a; x10; x02; x40] ++ out_conn_id w
                      ++ remote_ip_port w ++ our_ip_port w ++ [x18; x00; x00; x00]
                      ++ [xae; x26; x1e; xdb] ++ [z2b (len ad_tag)] ++ ad_tag
                      ++ [x00; x00; x00] ++ msg) no_extra;
       Ret (r, {| prw_upstream := u; remote_ip_port := remote_ip_port w;
                  our_ip_port := our_ip_port w; out_conn_id := out_conn_id w;
                  proto_tag := proto_tag w |}).
Proof.
  intros Htag Hlen Hzero Hq Had.
  assert (ProxyReq_flags (proto_tag w) msg e = 0x4002100A) as Hflags.
  { unfold ProxyReq_flags. rewrite Htag, Hq.
    rewrite decide_True by reflexivity.
    rewrite startswith_true by exact Hzero. reflexivity. }
  split; [rewrite Hflags; reflexivity|].
  split; [rewrite Hflags; reflexivity|].
  unfold ProxyReqStreamWriter_write.
  rewrite decide_False by (intros H; apply H; assumption).
  rewrite Hflags. change (int_to_bytes_le 0x4002100A 4) with (Ret [x0a; x10; x02; x40]).
  cbn [mbind outcome_bind].
  unfold bytes_of_int. rewrite decide_True by (unfold len in *; lia).
  cbn [mbind outcome_bind].
  rewrite <- !app_assoc. reflexivity.
Qed.

(** ** Middle-proxy key derivation *)

(** C5.  For IPv4 endpoints that are present, the code's key and IV are the
    specification's: with [s] laid out as stated (the IPv6 pair appended
    exactly when both IPv6 endpoints are present), key = MD5(s[1:])[0:12] ||
    SHA1(s) and iv = MD5(s[2:]), for any [purpose]; with a 16-byte MD5 and a
    20-byte SHA-1 the key has 32 bytes and the IV 16.  When an IPv4 endpoint
    is absent both are taken as [00 00 00 00]. *)
Theorem middleproxy_key_and_iv_formula
    (nonce_srv nonce_clt clt_ts clt_port purpose srv_port middleproxy_secret : bytes)
    (srv_ip clt_ip : option bytes) (clt_ipv6 srv_ipv6 : option bytes) :
  (forall m, length (md5 m) = 16%nat) ->
  (forall m, length (sha1 m) = 20%nat) ->
  let ipv6 :=
    match clt_ipv6, srv_ipv6 with
    | Some (a :: c6), Some (b :: s6) => Some (a :: c6, b :: s6)
    | _, _ => None
    end in
  let derived :=
    get_middleproxy_aes_key_and_iv nonce_srv nonce_clt clt_ts srv_ip clt_port purpose
      clt_ip srv_port middleproxy_secret clt_ipv6 srv_ipv6 in
  (forall srvIp cltIp,
      srv_ip = Some srvIp -> clt_ip = Some cltIp -> srvIp <> [] -> cltIp <> [] ->
      derived
      = spec_middleproxy_key_and_iv nonce_srv nonce_clt clt_ts srvIp clt_port purpose
          cltIp srv_port middleproxy_secret ipv6)
  /\ (truthy srv_ip = false \/ truthy clt_ip = false ->
      derived
      = spec_middleproxy_key_and_iv nonce_srv nonce_clt clt_ts [x00; x00; x00; x00]
          clt_port purpose [x00; x00; x00; x00] srv_port middleproxy_secret ipv6)
  /\ length derived.1 = 32%nat
  /\ length derived.2 = 16%nat.
Proof.
  intros Hmd5 Hsha1 ipv6 derived.
  assert ((if truthy clt_ipv6 && truthy srv_ipv6
           then default [] clt_ipv6 ++ default [] srv_ipv6 else [])
          = match ipv6 with Some (c6, s6) => c6 ++ s6 | None => [] end) as H6.
  { unfold ipv6. destruct clt_ipv6 as [[|a c6]|], srv_ipv6 as [[|b s6]|]; reflexivity. }
  assert (forall srvIp cltIp,
    (let '(clt_ip0, srv_ip0) := (cltIp, srvIp) in
     let s := nonce_srv ++ nonce_clt ++ clt_ts ++ srv_ip0 ++ clt_port ++ purpose
                ++ clt_ip0 ++ srv_port in
     let s := s ++ middleproxy_secret ++ nonce_srv in
     let s := if truthy clt_ipv6 && truthy srv_ipv6
              then s ++ default [] clt_ipv6 ++ default [] srv_ipv6 else s in
     let s := s ++ nonce_clt in
     (take 12 (md5 (drop 1 s)) ++ sha1 s, md5 (drop 2 s)))
    = spec_middleproxy_key_and_iv nonce_srv nonce_clt clt_ts srvIp clt_port purpose
        cltIp srv_port middleproxy_secret ipv6) as Hshape.
  { intros srvIp cltIp. unfold spec_middleproxy_key_and_iv. rewrite <- H6.
    cbv zeta. destruct (truthy clt_ipv6 && truthy srv_ipv6);
      rewrite <- ?app_assoc, ?app_nil_l; reflexivity. }
  split; [|split; [|split]].
  - intros srvIp cltIp -> -> Hs Hc. unfold derived, get_middleproxy_aes_key_and_iv.
    destruct srvIp; [congruence|]. destruct cltIp; [congruence|].
    cbn [truthy negb orb default]. apply Hshape.
  - intros Habsent. unfold derived, get_middleproxy_aes_key_and_iv.
    replace (negb (truthy clt_ip) || negb (truthy srv_ip)) with true
      by (destruct Habsent as [-> | ->]; destruct (truthy clt_ip); reflexivity).
    apply Hshape.
  - unfold derived, get_middleproxy_aes_key_and_iv.
    destruct (negb (truthy clt_ip) || negb (truthy srv_ip)); cbn [fst];
      rewrite length_app, length_take, Hmd5, Hsha1; reflexivity.
  - unfold derived, get_middleproxy_aes_key_and_iv.
    destruct (negb (truthy clt_ip) || negb (truthy srv_ip)); cbn [snd]; apply Hmd5.
Qed.

(** ** The state monad *)

Lemma bind_inv {A B} (m : M A) (f : A -> M B) w r w' :
  (m ≫= f) w = (r, w') ->
  (exists e, m w = (Raise e, w') /\ r = Raise e)
  \/ (exists a w1, m w = (Ret a, w1) /\ f a w1 = (r, w')).
Proof.
  unfold mbind, M_bind. destruct (m w) as [[a|e] w1] eqn:Em; intros H.
  - right. eauto.
  - left. inversion H; subst. eauto.
Qed.

Lemma bind_ret_l {A B} (m : M A) (f : A -> M B) w a w1 :
  m w = (Ret a, w1) -> (m ≫= f) w = f a w1.
Proof. intros Hm. unfold mbind, M_bind. rewrite Hm. reflexivity. Qed.

Lemma preserves_ret {A X} (proj : world -> X) (a : A) : preserves proj (mret a).
Proof. intros w r w' H. inversion H; subst. reflexivity. Qed.

Lemma preserves_lift {A X} (proj : world -> X) (o : outcome A) : preserves proj (lift o).
Proof. intros w r w' H. inversion H; subst. reflexivity. Qed.

Lemma preserves_get {X} (proj : world -> X) : preserves proj get_world.
Proof. intros w r w' H. inversion H; subst. reflexivity. Qed.

Lemma preserves_bind {A B X} (proj : world -> X) (m : M A) (f : A -> M B) :
  preserves proj m -> (forall a, preserves proj (f a)) -> preserves proj (m ≫= f).
Proof.
  intros Hm Hf w r w' H. apply bind_inv in H as [(e & H & _)|(a & w1 & H1 & H2)].
  - eapply Hm; eassumption.
  - rewrite (Hf a _ _ _ H2). eapply Hm; eassumption.
Qed.

Lemma preserves_if {A X} (proj : world -> X) (b : bool) (m1 m2 : M A) :
  preserves proj m1 -> preserves proj m2 -> preserves proj (if b then m1 else m2).
Proof. destruct b; trivial. Qed.

Lemma preserves_decide {A X} (proj : world -> X) (P : Prop) `{Decision P} (m1 m2 : M A) :
  preserves proj m1 -> preserves proj m2 ->
  preserves proj (if decide P then m1 else m2).
Proof. destruct (decide P); trivial. Qed.

Lemma preserves_tg_emit e : is_tg_event e = false -> preserves tg_events (emit e).
Proof.
  intros He w r w' H. inversion H; subst. unfold tg_events. cbn [trace].
  rewrite filter_app, filter_cons_False by (rewrite He; exact id).
  apply app_nil_r.
Qed.

Lemma preserves_used_emit e : preserves used_handshakes (emit e).
Proof. intros w r w' H. inversion H; subst. reflexivity. Qed.

Lemma preserves_tg_set_used d : preserves tg_events (set_used_handshakes d).
Proof. intros w r w' H. inversion H; subst. reflexivity. Qed.

Lemma preserves_tg_set_client_ips d l : preserves tg_events (set_client_ips d l).
Proof. intros w r w' H. inversion H; subst. reflexivity. Qed.

Lemma preserves_used_set_client_ips d l : preserves used_handshakes (set_client_ips d l).
Proof. intros w r w' H. inversion H; subst. reflexivity. Qed.

Lemma preserves_tg_set_skew d : preserves tg_events (set_last_clients_with_time_skew d).
Proof. intros w r w' H. inversion H; subst. reflexivity. Qed.

Lemma preserves_used_set_skew d :
  preserves used_handshakes (set_last_clients_with_time_skew d).
Proof. intros w r w' H. inversion H; subst. reflexivity. Qed.

Lemma preserves_tg_set_same d :
  preserves tg_events (set_last_clients_with_same_handshake d).
Proof. intros w r w' H. inversion H; subst. reflexivity. Qed.

Lemma preserves_used_set_same d :
  preserves used_handshakes (set_last_clients_with_same_handshake d).
Proof. intros w r w' H. inversion H; subst. reflexivity. Qed.

Lemma preserves_tg_set_stats d : preserves tg_events (set_stats d).
Proof. intros w r w' H. inversion H; subst. reflexivity. Qed.

Lemma preserves_used_set_stats d : preserves used_handshakes (set_stats d).
Proof. intros w r w' H. inversion H; subst. reflexivity. Qed.

Lemma preserves_tg_set_user_stats d : preserves tg_events (set_user_stats d).
Proof. intros w r w' H. inversion H; subst. reflexivity. Qed.

Lemma preserves_used_set_user_stats d : preserves used_handshakes (set_user_stats d).
Proof. intros w r w' H. inversion H; subst. reflexivity. Qed.

Lemma preserves_tg_set_clt_in b : preserves tg_events (set_clt_in b).
Proof. intros w r w' H. inversion H; subst. reflexivity. Qed.

Lemma preserves_used_set_clt_in b : preserves used_handshakes (set_clt_in b).
Proof. intros w r w' H. inversion H; subst. reflexivity. Qed.

Create HintDb keeps discriminated.

#[local] Hint Resolve preserves_ret preserves_lift preserves_get
  preserves_used_emit preserves_tg_set_used preserves_tg_set_client_ips
  preserves_used_set_client_ips preserves_tg_set_skew preserves_used_set_skew
  preserves_tg_set_same preserves_used_set_same preserves_tg_set_stats
  preserves_used_set_stats preserves_tg_set_user_stats preserves_used_set_user_stats
  preserves_tg_set_clt_in preserves_used_set_clt_in : keeps.

(** Takes a goal [preserves proj m] apart along the shape of [m]. *)
Ltac keeps :=
  repeat first
    [ apply preserves_bind; [|intros ?]
    | apply preserves_if
    | apply preserves_decide
    | apply preserves_tg_emit; reflexivity
    | solve [auto with keeps]
    | match goal with
      | |- preserves _ (match ?x with _ => _ end) => destruct x
      | |- preserves _ (let '(_, _) := ?x in _) => destruct x
      end ].

(** ** The replay cache *)

Lemma popitem_while_drop {K} (fuel : nat) (limit : Z) (d : list K) :
  limit > 0 -> (length d <= fuel)%nat ->
  popitem_while fuel limit d = drop (length d - (Z.to_nat limit - 1)) d.
Proof.
  intros Hl. revert d. induction fuel as [|fuel IH]; intros d Hf.
  - destruct d; [|simpl in Hf; lia]. reflexivity.
  - cbn [popitem_while]. unfold len. case_decide as Hd.
    + destruct d as [|x d']; [simpl in Hd; lia|].
      cbn [tail]. rewrite IH by (simpl in Hf; lia).
      cbn [length] in *.
      replace (S (length d') - (Z.to_nat limit - 1))%nat
        with (S (length d' - (Z.to_nat limit - 1))) by lia.
      reflexivity.
    + replace (length d - (Z.to_nat limit - 1))%nat with O by lia. reflexivity.
Qed.

Lemma od_set_fresh (k : bytes) (d : list bytes) : k ∉ d -> od_set k d = d ++ [k].
Proof. intros H. unfold od_set. rewrite decide_False by assumption. reflexivity. Qed.

Lemma remember_handshake_run cfg fp w :
  exists w',
    remember_handshake cfg fp w = (Ret (), w')
    /\ trace w' = trace w /\ clt_in w' = clt_in w
    /\ (fp ∉ used_handshakes w ->
        used_handshakes w' = remembered cfg fp (used_handshakes w)).
Proof.
  unfold remember_handshake, remembered.
  destruct (decide (replay_check_len cfg > 0)) as [Hr|Hr].
  - eexists. split; [reflexivity|]. cbn [trace clt_in used_handshakes].
    repeat split. intros Hfp.
    rewrite popitem_while_drop by lia.
    apply od_set_fresh. intros Hin. apply Hfp.
    eapply subseteq_drop, Hin.
  - eexists. split; [reflexivity|]. auto.
Qed.

Lemma remember_client_ip_run cfg ip w :
  exists w',
    remember_client_ip cfg ip w = (Ret (), w')
    /\ trace w' = trace w /\ clt_in w' = clt_in w
    /\ used_handshakes w' = used_handshakes w.
Proof.
  unfold remember_client_ip.
  destruct (decide (client_ips_len cfg > 0)).
  - cbv [mbind M_bind get_world]. case_decide; eexists; (split; [reflexivity|]); auto.
  - eexists. split; [reflexivity|]. auto.
Qed.

Lemma update_stats_run k v w :
  exists w',
    update_stats k v w = (Ret (), w')
    /\ trace w' = trace w /\ clt_in w' = clt_in w
    /\ used_handshakes w' = used_handshakes w
    /\ stats w' = counter_add k v (stats w)
    /\ last_clients_with_same_handshake w' = last_clients_with_same_handshake w.
Proof. eexists. split; [reflexivity|]. auto 10. Qed.

(** What [handle_bad_client] leaves behind: one more bad connect, and the
    client drained or tunnelled to the mask host. *)
Lemma handle_bad_client_run cfg env h w :
  exists w',
    handle_bad_client cfg env h w = (Ret (), w')
    /\ clt_in w' = clt_in w
    /\ used_handshakes w' = used_handshakes w
    /\ stats w' = counter_add "connects_bad" 1 (stats w)
    /\ trace w'
       = trace w ++ (if is_closing env then []
                     else match h with
                          | Some h => if mask cfg then [CoverTunnel h] else [DrainClient]
                          | None => [DrainClient]
                          end)
    /\ last_clients_with_same_handshake w' = last_clients_with_same_handshake w.
Proof.
  unfold handle_bad_client.
  destruct (update_stats_run "connects_bad" 1 w)
    as (w1 & H1 & Ht & Hc & Hu & Hs & Hl).
  rewrite (bind_ret_l _ _ _ _ _ H1).
  destruct (is_closing env).
  - eexists. split; [reflexivity|]. rewrite app_nil_r. auto 10.
  - destruct h as [h|]; [destruct (mask cfg)|]; cbn [negb];
      (eexists; split; [reflexivity|]);
      cbn [trace clt_in used_handshakes stats last_clients_with_same_handshake];
      rewrite Ht; auto 10.
Qed.

Lemma filter_tg_none evs :
  Forall (fun e => is_tg_event e = false) evs -> filter is_tg_event evs = [].
Proof.
  induction 1 as [|e evs He _ IH]; [reflexivity|].
  rewrite filter_cons_False; [exact IH|].
  rewrite He. exact id.
Qed.

Lemma tg_events_app w w' evs :
  trace w' = trace w ++ evs -> Forall (fun e => is_tg_event e = false) evs ->
  tg_events w' = tg_events w.
Proof.
  intros Ht Hevs. unfold tg_events. rewrite Ht, filter_app.
  rewrite (filter_tg_none evs) by assumption. apply app_nil_r.
Qed.

(** ** The FakeTLS handshake *)

Lemma lift_inv {A} (o : outcome A) w r w' : lift o w = (r, w') -> r = o /\ w' = w.
Proof. intros H. inversion H; subst. auto. Qed.

(** Splits a run [(lift o ≫= f) w = (r, w')] into the exception of [o] and
    the run of [f] on its value. *)
Ltac lift_step H a :=
  let e := fresh "e" in
  let w1 := fresh "w" in
  let H1 := fresh "H" in
  apply bind_inv in H as [(e & H & ->)|(a & w1 & H1 & H)];
  [apply lift_inv in H as [H ->]; left; eauto
  |apply lift_inv in H1 as [H1 ->]; clear H1].

Lemma fake_tls_accept_inv cfg env peer digest sl sid ext sec w r w' :
  fake_tls_accept cfg env peer digest sl sid ext sec w = (r, w') ->
  (exists e, r = Raise e /\ w' = w)
  \/ (r = Ret (Some {| ftr_buf := [] |})
      /\ clt_in w' = clt_in w
      /\ (exists pkt, trace w' = trace w ++ [ClientWrite pkt])
      /\ (take DIGEST_HALFLEN digest ∉ used_handshakes w ->
          used_handshakes w'
          = remembered cfg (take DIGEST_HALFLEN digest) (used_handshakes w))).
Proof.
  unfold fake_tls_accept. intros H.
  lift_step H rec_len. lift_step H msg_len. lift_step H data_len.
  right. revert H.
  match goal with |- context [emit ?e] => set (ev := e) end.
  assert (exists we, emit ev w = (Ret (), we) /\ trace we = trace w ++ [ev]
                     /\ clt_in we = clt_in w
                     /\ used_handshakes we = used_handshakes w)
    as (we & He & Hte & Hce & Hue) by (eexists; split; [reflexivity|]; auto).
  rewrite (bind_ret_l _ _ _ _ _ He).
  destruct (remember_handshake_run cfg (take DIGEST_HALFLEN digest) we)
    as (wh & Hh & Hth & Hch & Huh).
  rewrite (bind_ret_l _ _ _ _ _ Hh).
  destruct (remember_client_ip_run cfg peer.1 wh) as (wc & Hc & Htc & Hcc & Huc).
  rewrite (bind_ret_l _ _ _ _ _ Hc).
  intros H. inversion H; subst. split; [reflexivity|].
  split; [congruence|]. split.
  - exists (match ev with ClientWrite p => p | _ => [] end).
    rewrite Htc, Hth, Hte. reflexivity.
  - intros Hfp. rewrite Huc, Huh by (rewrite Hue; exact Hfp). rewrite Hue. reflexivity.
Qed.

Lemma record_time_skew_run env peer timestamp w :
  exists w',
    record_time_skew env peer timestamp w = (Ret (), w')
    /\ trace w' = trace w /\ clt_in w' = clt_in w
    /\ used_handshakes w' = used_handshakes w
    /\ last_clients_with_time_skew w'
       = <[peer.1 := time_skew_minutes (now_skew env) timestamp]>
           (last_clients_with_time_skew w).
Proof. eexists. split; [reflexivity|]. auto. Qed.

(** The loop over the users either refuses the client, leaving cache and
    trace alone, or accepts it once: ServerHello written, digest remembered. *)
Lemma fake_tls_users_loop_inv cfg env peer handshake sl sid ext users w r w' :
  fake_tls_users_loop cfg env peer handshake sl sid ext users w = (r, w') ->
  clt_in w' = clt_in w
  /\ match r with
     | Ret (Some tls) =>
         tls = {| ftr_buf := [] |}
         /\ (exists pkt, trace w' = trace w ++ [ClientWrite pkt])
         /\ (take DIGEST_HALFLEN (slice DIGEST_POS (DIGEST_POS + DIGEST_LEN) handshake)
               ∉ used_handshakes w ->
             used_handshakes w'
             = remembered cfg
                 (take DIGEST_HALFLEN
                    (slice DIGEST_POS (DIGEST_POS + DIGEST_LEN) handshake))
                 (used_handshakes w))
     | _ => trace w' = trace w /\ used_handshakes w' = used_handshakes w
     end.
Proof.
  revert w. induction users as [|user users IH]; intros w H.
  - inversion H; subst. auto.
  - cbn [fake_tls_users_loop] in H.
    destruct (negb (digest_good _)); [apply IH, H|].
    destruct (negb (client_time_is_ok _ _) && negb (accept_bad_time _ _ _)).
    + destruct (record_time_skew_run env peer
                  (digest_timestamp (xored_digest (secret user) handshake)) w)
        as (ws & Hs & Hts & Hcs & Hus & _).
      rewrite (bind_ret_l _ _ _ _ _ Hs) in H.
      apply IH in H. rewrite Hts, Hcs, Hus in H. exact H.
    + apply fake_tls_accept_inv in H
        as [(e & -> & ->)|(-> & Hc & Ht & Hu)]; auto.
Qed.

Lemma handle_fake_tls_handshake_replayed cfg env users handshake peer w :
  take DIGEST_HALFLEN (slice DIGEST_POS (DIGEST_POS + DIGEST_LEN) handshake)
    ∈ used_handshakes w ->
  exists w',
    handle_fake_tls_handshake cfg env users handshake peer w = (Ret None, w')
    /\ used_handshakes w' = used_handshakes w
    /\ trace w' = trace w
    /\ clt_in w' = clt_in w
    /\ last_clients_with_same_handshake w'
       = counter_add peer.1 1 (last_clients_with_same_handshake w).
Proof.
  intros Hin. unfold handle_fake_tls_handshake.
  cbv [mbind M_bind get_world]. rewrite decide_True by exact Hin.
  eexists. split; [reflexivity|]. auto.
Qed.

Lemma handle_fake_tls_handshake_inv cfg env users handshake peer w r w' :
  handle_fake_tls_handshake cfg env users handshake peer w = (r, w') ->
  clt_in w' = clt_in w
  /\ match r with
     | Ret (Some tls) =>
         let fp :=
           take DIGEST_HALFLEN (slice DIGEST_POS (DIGEST_POS + DIGEST_LEN) handshake) in
         tls = {| ftr_buf := [] |}
         /\ (fp ∉ used_handshakes w)
         /\ used_handshakes w' = remembered cfg fp (used_handshakes w)
         /\ (exists pkt, trace w' = trace w ++ [ClientWrite pkt])
     | _ => trace w' = trace w /\ used_handshakes w' = used_handshakes w
     end.
Proof.
  unfold handle_fake_tls_handshake. intros H.
  apply bind_inv in H as [(e & H & _)|(w0 & w1 & H0 & H)]; [discriminate|].
  inversion H0; subst w0 w1; clear H0.
  case_decide as Hin.
  - inversion H; subst. auto.
  - destruct (handshake !! SESSION_ID_LEN_POS) as [sl|].
    + apply fake_tls_users_loop_inv in H as [Hc H]. split; [exact Hc|].
      destruct r as [[tls|]|e]; [|exact H..].
      destruct H as (Htls & Hpkt & Hused). cbv zeta. auto.
    + inversion H; subst. auto.
Qed.

(** ** The obfuscated handshake *)

Lemma handshake_users_loop_inv cfg peer tls handshake users w r w' :
  handshake_users_loop cfg peer tls handshake users w = (r, w') ->
  clt_in w' = clt_in w /\ trace w' = trace w
  /\ match r with
     | Ret (Some cd) =>
         let fp := slice SKIP_LEN (SKIP_LEN + PREKEY_LEN + IV_LEN) handshake in
         fp ∉ used_handshakes w ->
         used_handshakes w' = remembered cfg fp (used_handshakes w)
     | Ret None => used_handshakes w' = used_handshakes w
     | Raise _ => False
     end.
Proof.
  revert w. induction users as [|user users IH]; intros w H.
  - inversion H; subst. auto.
  - cbn [handshake_users_loop] in H. cbv zeta in H.
    destruct (decrypt _ handshake) as [decrypted decryptor].
    destruct (negb _); [apply IH, H|].
    match type of H with
    | context [remember_handshake cfg ?fp] =>
        destruct (remember_handshake_run cfg fp w) as (wh & Hh & Hth & Hch & Huh)
    end.
    rewrite (bind_ret_l _ _ _ _ _ Hh) in H.
    destruct (remember_client_ip_run cfg peer.1 wh) as (wc & Hc & Htc & Hcc & Huc).
    rewrite (bind_ret_l _ _ _ _ _ Hc) in H.
    inversion H; subst. repeat split; try congruence.
    cbv zeta. intros Hfp. rewrite Huc. apply Huh, Hfp.
Qed.

Lemma handle_obfuscated_handshake_replayed cfg env users peer tls handshake w :
  slice SKIP_LEN (SKIP_LEN + PREKEY_LEN + IV_LEN) handshake ∈ used_handshakes w ->
  exists w',
    handle_obfuscated_handshake cfg env users peer tls handshake w = (Ret None, w')
    /\ used_handshakes w' = used_handshakes w
    /\ clt_in w' = clt_in w
    /\ last_clients_with_same_handshake w'
       = counter_add peer.1 1 (last_clients_with_same_handshake w)
    /\ trace w'
       = trace w ++ (if is_closing env then []
                     else if mask cfg then [CoverTunnel handshake] else [DrainClient]).
Proof.
  intros Hin. unfold handle_obfuscated_handshake.
  rewrite (bind_ret_l _ _ w w w) by reflexivity.
  rewrite decide_True by exact Hin.
  match goal with
  | |- context [set_last_clients_with_same_handshake ?d] =>
      assert (exists ws, set_last_clients_with_same_handshake d w = (Ret (), ws)
                /\ trace ws = trace w /\ clt_in ws = clt_in w
                /\ used_handshakes ws = used_handshakes w
                /\ last_clients_with_same_handshake ws = d)
        as (ws & Hs & Hts & Hcs & Hus & Hds)
        by (eexists; split; [reflexivity|]; auto)
  end.
  rewrite (bind_ret_l _ _ _ _ _ Hs).
  destruct (handle_bad_client_run cfg env (Some handshake) ws)
    as (wb & Hb & Hcb & Hub & Hsb & Htb & Hlb).
  rewrite (bind_ret_l _ _ _ _ _ Hb).
  eexists. split; [reflexivity|].
  rewrite Hub, Hus, Hcb, Hcs, Htb, Hts, Hlb, Hds.
  repeat split; trivial.
Qed.

Lemma handle_obfuscated_handshake_inv cfg env users peer tls handshake w r w' :
  handle_obfuscated_handshake cfg env users peer tls handshake w = (r, w') ->
  match r with
  | Ret (Some cd) =>
      let fp := slice SKIP_LEN (SKIP_LEN + PREKEY_LEN + IV_LEN) handshake in
      (fp ∉ used_handshakes w)
      /\ used_handshakes w' = remembered cfg fp (used_handshakes w)
      /\ trace w' = trace w /\ clt_in w' = clt_in w
  | Ret None => used_handshakes w' = used_handshakes w /\ tg_events w' = tg_events w
  | Raise _ => False
  end.
Proof.
  intros H.
  destruct (decide (slice SKIP_LEN (SKIP_LEN + PREKEY_LEN + IV_LEN) handshake
                      ∈ used_handshakes w)) as [Hin|Hin].
  - destruct (handle_obfuscated_handshake_replayed cfg env users peer tls handshake w Hin)
      as (w1 & H1 & Hu & _ & _ & Ht).
    rewrite H1 in H. inversion H; subst. split; [exact Hu|].
    eapply tg_events_app; [exact Ht|].
    destruct (is_closing env); [constructor|].
    destruct (mask cfg); repeat constructor.
  - unfold handle_obfuscated_handshake in H.
    rewrite (bind_ret_l _ _ w w w) in H by reflexivity.
    rewrite decide_False in H by exact Hin.
    apply bind_inv in H as [(e & H & ->)|(a & w1 & H1 & H)].
    + apply handshake_users_loop_inv in H as (_ & _ & []).
    + apply handshake_users_loop_inv in H1 as (Hc & Ht & Hr).
      destruct a as [cd|].
      * inversion H; subst. cbv zeta. auto.
      * destruct (handle_bad_client_run cfg env (Some handshake) w1)
          as (wb & Hb & Hcb & Hub & Hsb & Htb & _).
        rewrite (bind_ret_l _ _ _ _ _ Hb) in H. inversion H; subst.
        split; [congruence|].
        transitivity (tg_events w1); [|unfold tg_events; congruence].
        eapply tg_events_app; [exact Htb|].
        destruct (is_closing env); [constructor|].
        destruct (mask cfg); repeat constructor.
Qed.

(** ** What the handshake engine leaves alone *)

Lemma keeps_update_stats {X} (proj : world -> X) k v :
  (forall d, preserves proj (set_stats d)) -> preserves proj (update_stats k v).
Proof. intros Hs. unfold update_stats. keeps; apply Hs. Qed.

Lemma keeps_clt_readexactly {X} (proj : world -> X) n :
  (forall b, preserves proj (set_clt_in b)) -> preserves proj (clt_readexactly n).
Proof. intros Hs. unfold clt_readexactly. keeps; apply Hs. Qed.

Lemma keeps_read_tls_start {X} (proj : world -> X) expected acc :
  (forall b, preserves proj (set_clt_in b)) ->
  preserves proj (read_tls_start expected acc).
Proof.
  intros Hs. revert acc. induction expected as [|e expected IH]; intros acc.
  - apply preserves_ret.
  - cbn [read_tls_start]. apply preserves_bind; [apply keeps_clt_readexactly, Hs|].
    intros b. apply preserves_decide; [apply preserves_ret | apply IH].
Qed.

Lemma keeps_tg_bad_client cfg env h : preserves tg_events (handle_bad_client cfg env h).
Proof.
  intros w r w' H.
  destruct (handle_bad_client_run cfg env h w) as (wb & Hb & _ & _ & _ & Ht & _).
  rewrite Hb in H. inversion H; subst.
  eapply tg_events_app; [exact Ht|].
  destruct (is_closing env); [constructor|].
  destruct h; [destruct (mask cfg)|]; repeat constructor.
Qed.

Lemma keeps_tg_fake_tls cfg env users handshake peer :
  preserves tg_events (handle_fake_tls_handshake cfg env users handshake peer).
Proof.
  intros w r w' H. apply handle_fake_tls_handshake_inv in H as [_ H].
  destruct r as [[tls|]|e]; try (unfold tg_events; destruct H as [-> _]; reflexivity).
  destruct H as (_ & _ & _ & pkt & Ht).
  eapply tg_events_app; [exact Ht|]. repeat constructor.
Qed.

Lemma keeps_tg_obfuscated cfg env users peer tls handshake :
  preserves tg_events (handle_obfuscated_handshake cfg env users peer tls handshake).
Proof.
  intros w r w' H. apply handle_obfuscated_handshake_inv in H.
  destruct r as [[cd|]|e]; [| |contradiction].
  - destruct H as (_ & _ & Ht & _). unfold tg_events. rewrite Ht. reflexivity.
  - apply H.
Qed.

Lemma keeps_tg_probe cfg env users peer :
  preserves tg_events (probe_and_handshake cfg env users peer).
Proof.
  unfold probe_and_handshake.
  apply preserves_bind; [apply keeps_read_tls_start; auto with keeps|].
  intros [is_tls handshake]. destruct is_tls.
  - apply preserves_bind; [apply keeps_clt_readexactly; auto with keeps|].
    intros rest. apply preserves_bind; [apply keeps_tg_fake_tls|].
    intros [tls|].
    + apply preserves_bind; [apply preserves_get|]. intros w0.
      apply preserves_bind; [apply preserves_lift|]. intros [[hs buf] up].
      apply preserves_bind; [apply preserves_tg_set_clt_in|]. intros _.
      apply keeps_tg_obfuscated.
    + apply preserves_bind; [apply keeps_tg_bad_client|]. intros ?. keeps.
  - apply preserves_bind; [apply keeps_tg_bad_client|]. intros ?. keeps.
Qed.

Lemma keeps_tg_handshake cfg env users :
  preserves tg_events (handle_handshake cfg env users).
Proof.
  unfold handle_handshake. apply preserves_if; [keeps|].
  apply preserves_bind; [keeps|].
  intros [peer|].
  - apply keeps_tg_probe.
  - apply preserves_bind; [apply keeps_tg_bad_client|]. intros ?. keeps.
Qed.

(** ** Reading the first bytes *)

Lemma with_clt_in_same w : with_clt_in (clt_in w) w = w.
Proof. destruct w. reflexivity. Qed.

Lemma with_clt_in_twice a b w : with_clt_in b (with_clt_in a w) = with_clt_in b w.
Proof. reflexivity. Qed.

Lemma clt_readexactly_app a rest w :
  clt_in w = a ++ rest -> clt_readexactly (len a) w = (Ret a, with_clt_in rest w).
Proof.
  intros Hin. unfold clt_readexactly.
  cbv [mbind M_bind get_world lift]. rewrite Hin.
  rewrite readexactly_app by reflexivity. reflexivity.
Qed.

Lemma clt_readexactly_inv n w r w' :
  clt_readexactly n w = (r, w') ->
  match r with
  | Ret a => len a = n /\ clt_in w = a ++ clt_in w' /\ w' = with_clt_in (clt_in w') w
  | Raise _ => w' = w
  end.
Proof.
  unfold clt_readexactly. cbv [mbind M_bind get_world lift].
  unfold readexactly. repeat case_decide; intros Hrun; inversion Hrun; subst; trivial.
  unfold with_clt_in at 1 3. cbn [clt_in]. rewrite take_drop. unfold len in *.
  rewrite length_take. repeat split. lia.
Qed.

Lemma read_tls_start_match expected acc rest w :
  clt_in w = expected ++ rest ->
  read_tls_start expected acc w = (Ret (true, acc ++ expected), with_clt_in rest w).
Proof.
  revert acc w. induction expected as [|e expected IH]; intros acc w Hin.
  - cbn [read_tls_start]. rewrite app_nil_r. simpl in Hin. subst rest.
    rewrite with_clt_in_same. reflexivity.
  - cbn [read_tls_start].
    rewrite (bind_ret_l _ _ _ _ _ (clt_readexactly_app [e] (expected ++ rest) w Hin)).
    rewrite decide_False by (rewrite last_snoc; intros H; apply H; reflexivity).
    rewrite (IH (acc ++ [e]) (with_clt_in (expected ++ rest) w)) by reflexivity.
    rewrite <- app_assoc. reflexivity.
Qed.

Lemma read_tls_start_mismatch expected acc pre b rest w :
  clt_in w = pre ++ b :: rest ->
  pre = take (length pre) expected ->
  expected !! length pre <> Some b ->
  (length pre < length expected)%nat ->
  read_tls_start expected acc w = (Ret (false, acc ++ pre ++ [b]), with_clt_in rest w).
Proof.
  revert acc pre w. induction expected as [|e expected IH]; intros acc pre w Hin Hpre Hb Hl.
  - simpl in Hl. lia.
  - cbn [read_tls_start]. destruct pre as [|p pre].
    + simpl in Hin.
      rewrite (bind_ret_l _ _ _ _ _ (clt_readexactly_app [b] rest w Hin)).
      rewrite decide_True; [reflexivity|].
      rewrite last_snoc. simpl in Hb. congruence.
    + simpl in Hpre. injection Hpre as -> Hpre.
      simpl in Hin.
      rewrite (bind_ret_l _ _ _ _ _
                 (clt_readexactly_app [e] (pre ++ b :: rest) w Hin)).
      rewrite decide_False by (rewrite last_snoc; intros H; apply H; reflexivity).
      rewrite (IH (acc ++ [e]) pre (with_clt_in (pre ++ b :: rest) w));
        [rewrite <- app_assoc; reflexivity | reflexivity | exact Hpre
        | exact Hb | simpl in Hl; lia].
Qed.

Lemma read_tls_start_true_inv expected acc w h w' :
  read_tls_start expected acc w = (Ret (true, h), w') ->
  h = acc ++ expected /\ clt_in w = expected ++ clt_in w'
  /\ w' = with_clt_in (clt_in w') w.
Proof.
  revert acc w. induction expected as [|e expected IH]; intros acc w H.
  - inversion H; subst. rewrite app_nil_r, with_clt_in_same. auto.
  - cbn [read_tls_start] in H.
    apply bind_inv in H as [(x & _ & Hx)|(b & w1 & H1 & H)]; [discriminate|].
    apply clt_readexactly_inv in H1 as (Hlen & Hin & Hw1).
    case_decide as Hlast; [inversion H|].
    destruct b as [|b0 [|b1 b2]]; [discriminate Hlen | | unfold len in Hlen; simpl in Hlen; lia].
    rewrite last_snoc in Hlast.
    assert (b0 = e) as -> by congruence.
    apply IH in H as (-> & Hin' & Hw').
    rewrite <- app_assoc. split; [reflexivity|].
    rewrite Hin, Hin'. split; [reflexivity|].
    rewrite Hw', Hw1. reflexivity.
Qed.

(** ** The FakeTLS record reader: enough turns *)

Lemma readexactly_inv up n a r :
  readexactly up n = Ret (a, r) -> 0 <= n /\ len a = n /\ up = a ++ r.
Proof.
  unfold readexactly. repeat case_decide; intros Hrun; inversion Hrun; subst.
  unfold len in *. rewrite length_take, take_drop. repeat split; lia.
Qed.

Lemma readexactly_rest_le up n a r :
  readexactly up n = Ret (a, r) -> (length r + Z.to_nat n = length up)%nat.
Proof.
  intros Hrun. apply readexactly_inv in Hrun as (Hn & Hlen & ->).
  rewrite length_app. unfold len in Hlen. lia.
Qed.

(** Splits on the next [readexactly] of a run, keeping how much it consumed. *)
Ltac next_read :=
  match goal with
  | |- context [readexactly ?up ?n] =>
      let E := fresh "E" in
      destruct (readexactly up n) as [[? ?]|?] eqn:E;
      [apply readexactly_rest_le in E|]; cbn [mbind outcome_bind]
  | H : context [readexactly ?up ?n] |- _ =>
      let E := fresh "E" in
      destruct (readexactly up n) as [[? ?]|?] eqn:E;
      [apply readexactly_rest_le in E|]; cbn [mbind outcome_bind] in H
  end.

(** A record that is read takes bytes from the transport. *)
Lemma FakeTLSStreamReader_read_shrinks fuel up d up' :
  FakeTLSStreamReader_read fuel up = Ret (d, up') -> (length up' < length up)%nat.
Proof.
  revert up. induction fuel as [|fuel IH]; intros up Hrun; [discriminate|].
  cbn [FakeTLSStreamReader_read] in Hrun.
  next_read; [|discriminate]. change (Z.to_nat 1) with 1%nat in *.
  destruct (negb _); [inversion Hrun; subst; lia|].
  next_read; [|discriminate].
  case_decide; [inversion Hrun; subst; lia|].
  next_read; [|discriminate].
  next_read; [|discriminate].
  case_decide.
  - apply IH in Hrun. lia.
  - inversion Hrun; subst. lia.
Qed.

Lemma FakeTLSStreamReader_read_fuel f1 f2 up :
  (length up <= f1)%nat -> (length up <= f2)%nat ->
  FakeTLSStreamReader_read f1 up = FakeTLSStreamReader_read f2 up.
Proof.
  revert f2 up. induction f1 as [|f1 IH]; intros f2 up H1 H2.
  - destruct up; [|simpl in H1; lia]. destruct f2; reflexivity.
  - destruct f2 as [|f2].
    + destruct up; [|simpl in H2; lia]. reflexivity.
    + cbn [FakeTLSStreamReader_read].
      next_read; [|reflexivity]. change (Z.to_nat 1) with 1%nat in *.
      destruct (negb _); [reflexivity|].
      next_read; [|reflexivity].
      case_decide; [reflexivity|].
      next_read; [|reflexivity].
      next_read; [|reflexivity].
      case_decide; [|reflexivity].
      apply IH; lia.
Qed.

Lemma FakeTLSStreamReader_readexactly_fuel f1 f2 buf up n :
  (length up <= f1)%nat -> (length up <= f2)%nat ->
  FakeTLSStreamReader_readexactly f1 buf up n
  = FakeTLSStreamReader_readexactly f2 buf up n.
Proof.
  revert f2 buf up. induction f1 as [|f1 IH]; intros f2 buf up H1 H2.
  - destruct up; [|simpl in H1; lia].
    destruct f2; cbn [FakeTLSStreamReader_readexactly]; case_decide; reflexivity.
  - destruct f2 as [|f2].
    + destruct up; [|simpl in H2; lia].
      cbn [FakeTLSStreamReader_readexactly]. case_decide; reflexivity.
    + cbn [FakeTLSStreamReader_readexactly]. case_decide; [|reflexivity].
      destruct (FakeTLSStreamReader_read (length up) up) as [[d up']|e] eqn:E;
        [|reflexivity].
      apply FakeTLSStreamReader_read_shrinks in E.
      cbn [mbind outcome_bind]. case_decide; [reflexivity|].
      apply IH; lia.
Qed.

(** ** From an accepted client back to its two handshakes *)

Lemma bad_client_then_none_inv {A} cfg env h w (x : A) w' :
  (handle_bad_client cfg env h;; mret None) w = (Ret (Some x), w') -> False.
Proof.
  destruct (handle_bad_client_run cfg env h w) as (wb & Hb & _).
  rewrite (bind_ret_l _ _ _ _ _ Hb). discriminate.
Qed.

Lemma probe_accept_inv cfg env users peer w cd w' :
  probe_and_handshake cfg env users peer w = (Ret (Some cd), w') ->
  exists hello inner buf rest wb,
    length hello = TLS_HANDSHAKE_LEN
    /\ take (length TLS_START_BYTES) hello = TLS_START_BYTES
    /\ clt_in w = hello ++ clt_in wb
    /\ handle_fake_tls_handshake cfg env users hello peer (with_clt_in (clt_in wb) w)
       = (Ret (Some {| ftr_buf := [] |}), wb)
    /\ FakeTLSStreamReader_readexactly (length (clt_in wb)) [] (clt_in wb)
         (Z.of_nat HANDSHAKE_LEN)
       = Ret (inner, buf, rest)
    /\ handle_obfuscated_handshake cfg env users peer {| ftr_buf := buf |} inner
         (with_clt_in rest wb)
       = (Ret (Some cd), w').
Proof.
  unfold probe_and_handshake. intros H.
  apply bind_inv in H as [(x & _ & Hx)|([is_tls h] & w1 & H1 & H)]; [discriminate|].
  destruct is_tls; [|apply bad_client_then_none_inv in H; contradiction].
  apply read_tls_start_true_inv in H1 as (-> & Hin1 & Hw1).
  apply bind_inv in H as [(x & _ & Hx)|(tail & w2 & H2 & H)]; [discriminate|].
  apply clt_readexactly_inv in H2 as (Hlen & Hin2 & Hw2).
  apply bind_inv in H as [(x & _ & Hx)|(res & w3 & H3 & H)]; [discriminate|].
  destruct res as [tls|]; [|apply bad_client_then_none_inv in H; contradiction].
  pose proof (handle_fake_tls_handshake_inv _ _ _ _ _ _ _ _ H3) as [Hc3 (-> & _)].
  apply bind_inv in H as [(x & _ & Hx)|(w3' & w4 & H4 & H)]; [discriminate|].
  inversion H4; subst w3' w4; clear H4.
  apply bind_inv in H as [(x & _ & Hx)|([[inner buf] rest] & w5 & H5 & H)];
    [discriminate|].
  apply lift_inv in H5 as [H5 ->].
  rewrite (bind_ret_l _ _ _ _ (with_clt_in rest w3)) in H by reflexivity.
  exists ([] ++ TLS_START_BYTES ++ tail), inner, buf, rest, w3.
  cbn [ftr_buf] in H5. cbn [app] in *.
  assert (with_clt_in (clt_in w3) w = w2) as Hwa.
  { rewrite Hc3, Hw2, Hw1. reflexivity. }
  rewrite Hwa. split; [|split; [|split; [|split; [|split]]]]; try assumption.
  - rewrite length_app. unfold len in Hlen.
    change (length TLS_START_BYTES) with 11%nat in *.
    unfold TLS_HANDSHAKE_LEN in *. lia.
  - apply take_app_length.
  - rewrite Hin1, Hin2, Hc3. rewrite <- app_assoc. reflexivity.
  - symmetry. exact H5.
Qed.

Lemma handle_handshake_accept_inv cfg env users w cd w' :
  handle_handshake cfg env users w = (Ret (Some cd), w') ->
  exists peer rest,
    probe_and_handshake cfg env users peer (with_clt_in rest w) = (Ret (Some cd), w')
    /\ (proxy_protocol cfg = false -> rest = clt_in w).
Proof.
  unfold handle_handshake. intros H.
  destruct (is_closing env || bool_decide (peername env = None)); [discriminate|].
  apply bind_inv in H as [(x & _ & Hx)|(peer & w1 & H1 & H)]; [discriminate|].
  destruct peer as [peer|]; [|apply bad_client_then_none_inv in H; contradiction].
  exists peer, (clt_in w1).
  destruct (proxy_protocol cfg).
  - apply bind_inv in H1 as [(x & _ & Hx)|(w0 & w0' & H0 & H1)]; [discriminate|].
    inversion H0; subst w0 w0'; clear H0.
    apply bind_inv in H1 as [(x & _ & Hx)|([p rest] & w2 & H2 & H1)]; [discriminate|].
    apply lift_inv in H2 as [_ ->].
    inversion H1; subst. split; [exact H | discriminate].
  - inversion H1; subst. rewrite with_clt_in_same. split; [exact H | reflexivity].
Qed.

(** ** The replay guard *)

(** C1.  (1) A ClientHello whose digest's first 16 bytes are in the replay
    cache is refused by [handle_fake_tls_handshake], whatever the secrets; on
    a connection without PROXY header such a client is handed to
    [handle_bad_client] and nothing else happens.  (2) An inner handshake
    whose 48-byte key and IV are in the cache is handed to
    [handle_bad_client], whatever the secrets.  (3) When [handle_handshake]
    accepts a client, the client went through both handshakes: neither
    fingerprint was in the cache, each was added last after the oldest entries
    were evicted down to fewer than [replay_check_len] (the cache being left
    alone when [replay_check_len] is not positive), and no Telegram event has
    happened yet.  The first fingerprint is that of the 517 bytes the client
    sent first, the second that of the 64 bytes the FakeTLS reader delivered
    next.  (4) A connection has Telegram events only if [handle_handshake]
    accepted its client, and they all come after. *)
Theorem replay_guard :
  (forall cfg env users hello peer w,
      take DIGEST_HALFLEN (slice DIGEST_POS (DIGEST_POS + DIGEST_LEN) hello)
        ∈ used_handshakes w ->
      (exists w',
          handle_fake_tls_handshake cfg env users hello peer w = (Ret None, w')
          /\ used_handshakes w' = used_handshakes w /\ trace w' = trace w)
      /\ (forall rest,
             is_closing env = false -> peername env = Some peer ->
             proxy_protocol cfg = false ->
             clt_in w = hello ++ rest ->
             length hello = TLS_HANDSHAKE_LEN ->
             take (length TLS_START_BYTES) hello = TLS_START_BYTES ->
             exists w',
               handle_client cfg env users w = (Ret (), w')
               /\ used_handshakes w' = used_handshakes w
               /\ trace w'
                  = trace w ++ [if mask cfg then CoverTunnel hello else DrainClient]))
  /\ (forall cfg env users peer tls inner w,
        slice SKIP_LEN (SKIP_LEN + PREKEY_LEN + IV_LEN) inner ∈ used_handshakes w ->
        exists w',
          handle_obfuscated_handshake cfg env users peer tls inner w = (Ret None, w')
          /\ used_handshakes w' = used_handshakes w
          /\ trace w'
             = trace w ++ (if is_closing env then []
                           else if mask cfg then [CoverTunnel inner]
                                else [DrainClient]))
  /\ (forall cfg env users w cd wd,
        handle_handshake cfg env users w = (Ret (Some cd), wd) ->
        exists peer hello inner buf wa wb wc,
          let fp_tls :=
            take DIGEST_HALFLEN (slice DIGEST_POS (DIGEST_POS + DIGEST_LEN) hello) in
          let fp := slice SKIP_LEN (SKIP_LEN + PREKEY_LEN + IV_LEN) inner in
          used_handshakes wa = used_handshakes w
          /\ length hello = TLS_HANDSHAKE_LEN
          /\ (proxy_protocol cfg = false -> clt_in w = hello ++ clt_in wa)
          /\ handle_fake_tls_handshake cfg env users hello peer wa
             = (Ret (Some {| ftr_buf := [] |}), wb)
          /\ (fp_tls ∉ used_handshakes wa)
          /\ used_handshakes wb = remembered cfg fp_tls (used_handshakes wa)
          /\ FakeTLSStreamReader_readexactly (length (clt_in wb)) [] (clt_in wb)
               (Z.of_nat HANDSHAKE_LEN)
             = Ret (inner, buf, clt_in wc)
          /\ used_handshakes wc = used_handshakes wb
          /\ handle_obfuscated_handshake cfg env users peer {| ftr_buf := buf |}
               inner wc
             = (Ret (Some cd), wd)
          /\ (fp ∉ used_handshakes wc)
          /\ used_handshakes wd = remembered cfg fp (used_handshakes wc)
          /\ tg_events wd = tg_events w)
  /\ (forall cfg env users w r w',
        handle_client cfg env users w = (r, w') ->
        tg_events w' <> tg_events w ->
        exists w0 cd wd,
          used_handshakes w0 = used_handshakes w
          /\ clt_in w0 = clt_in w
          /\ tg_events w0 = tg_events w
          /\ handle_handshake cfg env users w0 = (Ret (Some cd), wd)
          /\ serve_client cfg env users cd wd = (r, w')).
Proof.
  split; [|split; [|split]].
  - intros cfg env users hello peer w Hin.
    destruct (handle_fake_tls_handshake_replayed cfg env users hello peer w Hin)
      as (w1 & H1 & Hu1 & Ht1 & _).
    split; [eauto|].
    intros rest Hcl Hpeer Hpp Hclt Hlen Hstart.
    unfold handle_client.
    destruct (update_stats_run "connects_all" 1 w)
      as (w0 & H0 & Ht0 & Hc0 & Hu0 & _).
    rewrite (bind_ret_l _ _ _ _ _ H0).
    assert (exists wb,
      handle_handshake cfg env users w0 = (Ret None, wb)
      /\ used_handshakes wb = used_handshakes w
      /\ trace wb = trace w ++ [if mask cfg then CoverTunnel hello else DrainClient])
      as (wb & Hhs & Hub & Htb).
    { unfold handle_handshake. rewrite Hcl, Hpeer, Hpp.
      rewrite bool_decide_false by discriminate. cbn [orb default].
      rewrite (bind_ret_l _ _ w0 (Some peer) w0) by reflexivity.
      unfold probe_and_handshake.
      assert (hello = TLS_START_BYTES ++ drop (length TLS_START_BYTES) hello) as Hhello.
      { rewrite <- Hstart at 1. symmetry. apply take_drop. }
      set (tail := drop (length TLS_START_BYTES) hello) in *.
      assert (clt_in w0 = TLS_START_BYTES ++ tail ++ rest) as Hclt0.
      { rewrite Hc0, Hclt, Hhello, <- app_assoc. reflexivity. }
      erewrite bind_ret_l by (apply (read_tls_start_match _ [] _ _ Hclt0)).
      cbn [app].
      assert (Z.of_nat TLS_HANDSHAKE_LEN - len TLS_START_BYTES = len tail) as ->.
      { unfold len, tail. rewrite length_drop, Hlen. reflexivity. }
      erewrite bind_ret_l by (apply (clt_readexactly_app tail rest); reflexivity).
      rewrite <- Hhello.
      destruct (handle_fake_tls_handshake_replayed cfg env users hello peer
                  (with_clt_in rest (with_clt_in (tail ++ rest) w0)))
        as (w2 & H2 & Hu2 & Ht2 & _);
        [cbn [with_clt_in used_handshakes]; congruence|].
      rewrite (bind_ret_l _ _ _ _ _ H2).
      destruct (handle_bad_client_run cfg env (Some hello) w2)
        as (wb & Hb & _ & Hub & _ & Htb & _).
      rewrite (bind_ret_l _ _ _ _ _ Hb).
      eexists. split; [reflexivity|].
      rewrite Hub, Hu2, Htb, Ht2, Hcl. cbn [with_clt_in used_handshakes trace].
      rewrite Hu0, Ht0. split; [reflexivity|]. destruct (mask cfg); reflexivity. }
    rewrite (bind_ret_l _ _ _ _ _ Hhs).
    eexists. split; [reflexivity|]. auto.
  - intros cfg env users peer tls inner w Hin.
    destruct (handle_obfuscated_handshake_replayed cfg env users peer tls inner w Hin)
      as (w1 & H1 & Hu1 & _ & _ & Ht1).
    eauto.
  - intros cfg env users w cd wd H1.
    pose proof (keeps_tg_handshake _ _ _ _ _ _ H1) as Htg1.
    apply handle_handshake_accept_inv in H1 as (peer & rest0 & H1 & Hrest0).
    apply probe_accept_inv in H1
      as (hello & inner & buf & rest & wb & Hlen & _ & Hin & Htls & Hread & Hobf).
    pose proof (handle_fake_tls_handshake_inv _ _ _ _ _ _ _ _ Htls)
      as (_ & _ & Hfp1 & Hused1 & _).
    pose proof (handle_obfuscated_handshake_inv _ _ _ _ _ _ _ _ _ Hobf)
      as (Hfp2 & Hused2 & _).
    exists peer, hello, inner, buf.
    exists (with_clt_in (clt_in wb) (with_clt_in rest0 w)), wb, (with_clt_in rest wb).
    cbv zeta.
    split; [reflexivity|]. split; [exact Hlen|]. split.
    { intros Hpp. cbn [with_clt_in clt_in] in Hin |- *.
      rewrite <- Hin. symmetry. exact (Hrest0 Hpp). }
    split; [exact Htls|]. split; [exact Hfp1|]. split; [exact Hused1|].
    split; [exact Hread|]. split; [reflexivity|]. split; [exact Hobf|].
    split; [exact Hfp2|]. split; [exact Hused2|exact Htg1].
  - intros cfg env users w r w' H Htg.
    unfold handle_client in H.
    destruct (update_stats_run "connects_all" 1 w)
      as (w0 & H0 & Ht0 & Hc0 & Hu0 & _).
    rewrite (bind_ret_l _ _ _ _ _ H0) in H.
    assert (tg_events w0 = tg_events w) as Htg0
      by (unfold tg_events; rewrite Ht0; reflexivity).
    apply bind_inv in H as [(e & H & _)|(res & w1 & H1 & H)].
    { apply keeps_tg_handshake in H. congruence. }
    pose proof (keeps_tg_handshake _ _ _ _ _ _ H1) as Htg1.
    destruct res as [cd|]; [|inversion H; subst; congruence].
    exists w0, cd, w1. auto.
Qed.

(** ** The FakeTLS time window *)

Lemma Qlt_bool_iff x y : Qlt_bool x y = true <-> (x < y)%Q.
Proof.
  unfold Qlt_bool. rewrite negb_true_iff. split.
  - intros H. apply Qnot_le_lt. intros Hle. apply Qle_bool_iff in Hle. congruence.
  - intros H. destruct (Qle_bool y x) eqn:E; [|reflexivity].
    apply Qle_bool_iff in E. exfalso. eapply Qlt_not_le; eassumption.
Qed.

Lemma client_time_is_ok_iff env timestamp :
  client_time_is_ok env timestamp = true
  <-> (inject_Z (-20 * 60) < now env - inject_Z timestamp)%Q
      /\ (now env - inject_Z timestamp < inject_Z (10 * 60))%Q.
Proof.
  unfold client_time_is_ok. rewrite andb_true_iff, !Qlt_bool_iff. reflexivity.
Qed.

Lemma accept_bad_time_iff cfg env timestamp :
  accept_bad_time cfg env timestamp = true
  <-> ignore_time_skew cfg = true \/ is_time_skewed env = true
      \/ timestamp < 86400000.
Proof.
  unfold accept_bad_time. rewrite !orb_true_iff, bool_decide_eq_true.
  change (60 * 60 * 24 * 1000) with 86400000. tauto.
Qed.

(** ** Clients that do not start with the ClientHello prefix *)

(** C2 (amended).  When the first bytes of a client differ from the 11-byte
    prefix, the engine stops reading at the first differing byte and hands
    the client, with the bytes read so far, to [handle_bad_client]: it
    returns no session, tries no user secret and leaves the replay cache
    alone. *)
Theorem non_tls_client_rejected cfg env users peer w pre b rest :
  clt_in w = pre ++ b :: rest ->
  pre = take (length pre) TLS_START_BYTES ->
  TLS_START_BYTES !! length pre <> Some b ->
  (length pre < length TLS_START_BYTES)%nat ->
  exists w',
    probe_and_handshake cfg env users peer w = (Ret None, w')
    /\ clt_in w' = rest
    /\ used_handshakes w' = used_handshakes w
    /\ stats w' = counter_add "connects_bad" 1 (stats w)
    /\ trace w'
       = trace w ++ (if is_closing env then []
                     else if mask cfg then [CoverTunnel (pre ++ [b])]
                          else [DrainClient]).
Proof.
  intros Hin Hpre Hb Hl. unfold probe_and_handshake.
  rewrite (bind_ret_l _ _ _ _ _
             (read_tls_start_mismatch _ [] _ _ _ _ Hin Hpre Hb Hl)).
  cbn [app].
  destruct (handle_bad_client_run cfg env (Some (pre ++ [b])) (with_clt_in rest w))
    as (wb & Hbc & Hcb & Hub & Hsb & Htb & _).
  rewrite (bind_ret_l _ _ _ _ _ Hbc).
  eexists. split; [reflexivity|]. auto.
Qed.

(** ** Limits on a user *)

Lemma iter_contains_never key it : iter_contains key it = (false, []).
Proof. induction it as [|item it IH]; [reflexivity|]. exact IH. Qed.

(** The limit checks never fire, whatever the user's record and counters say. *)
Lemma user_limits_never_hit users username w :
  user_limits_hit users username w = (Ret (false, false, false), w).
Proof.
  unfold user_limits_hit. rewrite iter_contains_never.
  cbn [iter_contains]. reflexivity.
Qed.

Lemma update_user_stats_run user k v w :
  exists w',
    update_user_stats user k v w = (Ret (), w')
    /\ trace w' = trace w /\ used_handshakes w' = used_handshakes w.
Proof. eexists. split; [reflexivity|]. auto. Qed.

(** Once Telegram has answered, the relay runs for every accepted client. *)
Lemma serve_client_splices cfg env users cd w :
  tg_answers env = true ->
  cd_proto_tag cd ∈ [PROTO_TAG_ABRIDGED; PROTO_TAG_INTERMEDIATE; PROTO_TAG_SECURE] ->
  exists w',
    serve_client cfg env users cd w = (Ret (), w')
    /\ trace w'
       = trace w
           ++ [TgHandshake (negb (use_middle_proxy cfg) || disable_middle_proxy env)
                 (cd_proto_tag cd) (cd_dc_idx cd);
               Splice (cd_username cd); TgAbort].
Proof.
  intros Htg Htag. unfold serve_client.
  destruct (update_user_stats_run (cd_username cd) "connects" 1 w)
    as (w1 & H1 & Ht1 & _).
  rewrite (bind_ret_l _ _ _ _ _ H1).
  set (direct := negb (use_middle_proxy cfg) || disable_middle_proxy env).
  assert (exists w2, do_tg_handshake env direct (cd_proto_tag cd) (cd_dc_idx cd) w1
                     = (Ret true, w2)
                     /\ trace w2 = trace w1
                                     ++ [TgHandshake direct (cd_proto_tag cd) (cd_dc_idx cd)])
    as (w2 & H2 & Ht2).
  { unfold do_tg_handshake. rewrite Htg. eexists. split; reflexivity. }
  rewrite (bind_ret_l _ _ _ _ _ H2). cbn [negb].
  rewrite bool_decide_true by exact Htag. rewrite andb_false_r.
  destruct (update_user_stats_run (cd_username cd) "curr_connects" 1 w2)
    as (w3 & H3 & Ht3 & _).
  rewrite (bind_ret_l _ _ _ _ _ H3).
  rewrite (bind_ret_l _ _ _ _ _ (user_limits_never_hit users (cd_username cd) w3)).
  cbn [negb andb].
  assert (exists w4, (emit (Splice (cd_username cd));;
                      update_durations (session_duration env)) w3 = (Ret (), w4)
                     /\ trace w4 = trace w3 ++ [Splice (cd_username cd)])
    as (w4 & H4 & Ht4).
  { unfold update_durations.
    match goal with
    | |- context [update_stats ?k 1] =>
        destruct (update_stats_run k 1
                    (emit (Splice (cd_username cd)) w3).2) as (w4 & H4 & Ht4 & _)
    end.
    exists w4. split; [|rewrite Ht4; reflexivity].
    erewrite bind_ret_l by reflexivity. exact H4. }
  rewrite (bind_ret_l _ _ _ _ _ H4).
  destruct (update_user_stats_run (cd_username cd) "curr_connects" (-1) w4)
    as (w5 & H5 & Ht5 & _).
  rewrite (bind_ret_l _ _ _ _ _ H5).
  eexists. split; [reflexivity|]. cbn [trace].
  rewrite Ht5, Ht4, Ht3, Ht2, Ht1, <- !app_assoc. reflexivity.
Qed.

(** ** What remembering a fingerprint does to the cache *)

Lemma remembered_room cfg fp d :
  replay_check_len cfg > 0 -> len d < replay_check_len cfg ->
  remembered cfg fp d = d ++ [fp].
Proof.
  intros Hpos Hroom. unfold remembered. rewrite decide_True by assumption.
  unfold len in Hroom.
  replace (length d - (Z.to_nat (replay_check_len cfg) - 1))%nat with O by lia.
  reflexivity.
Qed.

Lemma remembered_full cfg fp d :
  replay_check_len cfg > 0 -> replay_check_len cfg <= len d ->
  exists evicted kept,
    d = evicted ++ kept
    /\ len kept = replay_check_len cfg - 1
    /\ remembered cfg fp d = kept ++ [fp].
Proof.
  intros Hpos Hfull. unfold remembered. rewrite decide_True by assumption.
  unfold len in *.
  exists (take (length d - (Z.to_nat (replay_check_len cfg) - 1)) d),
         (drop (length d - (Z.to_nat (replay_check_len cfg) - 1)) d).
  split; [symmetry; apply take_drop|]. split; [|reflexivity].
  rewrite length_drop. lia.
Qed.

Lemma remembered_off cfg fp d :
  replay_check_len cfg <= 0 -> remembered cfg fp d = d.
Proof.
  intros Hoff. unfold remembered. rewrite decide_False by lia. reflexivity.
Qed.

(** * Framing, record layer and relay *)

(** ** ABRIDGED, INTERMEDIATE and SECURE framing *)

Lemma length_int_to_bytes_le x n b : int_to_bytes_le x n = Ret b -> length b = n.
Proof.
  unfold int_to_bytes_le. case_decide; [|discriminate].
  intros [= <-]. apply length_le_bytes.
Qed.

Lemma int_from_bytes_le_single n : 0 <= n < 256 -> int_from_bytes_le [z2b n] = n.
Proof.
  intros Hn. unfold int_from_bytes_le. cbn [le_value].
  rewrite b2z_z2b, Z.mod_small by lia. lia.
Qed.

(** One ABRIDGED frame, written and read back. *)
Lemma compact_frame_laws (sent data rest : bytes) :
  len data mod 4 = 0 -> len data / 4 < 256 ^ 3 ->
  exists frame,
    MTProtoCompactFrameStreamWriter_write sent data no_extra = Ret (PyNone, sent ++ frame)
    /\ len frame = len data + (if decide (len data / 4 < 0x7F) then 1 else 4)
    /\ MTProtoCompactFrameStreamReader_read (frame ++ rest) = Ret (data, no_extra, rest).
Proof.
  intros Hmod Hlarge.
  assert (0 <= len data / 4) as Hpos by (apply Z.div_pos; unfold len; lia).
  assert (len data / 4 * 4 = len data) as Hmul.
  { pose proof (Z.div_mod (len data) 4 ltac:(lia)). lia. }
  unfold MTProtoCompactFrameStreamWriter_write.
  rewrite decide_False by lia. cbn [SIMPLE_ACK no_extra].
  destruct (decide (len data / 4 < 0x7F)) as [Hsmall|Hbig].
  - exists ([z2b (len data / 4)] ++ data).
    unfold bytes_of_int. rewrite decide_True by lia.
    cbn [mbind outcome_bind]. split; [reflexivity|]. split.
    { unfold len. rewrite length_app. cbn [length]. lia. }
    unfold MTProtoCompactFrameStreamReader_read.
    rewrite <- app_assoc.
    rewrite readexactly_app by reflexivity. cbn [mbind outcome_bind].
    rewrite int_from_bytes_le_single by lia.
    rewrite bool_decide_false by lia.
    rewrite decide_False by lia. cbn [mbind outcome_bind].
    rewrite readexactly_app by lia. reflexivity.
  - rewrite decide_True by assumption.
    destruct (int_from_to_bytes_le (len data / 4) 3) as [Hw Hr].
    { change (256 ^ Z.of_nat 3) with (256 ^ 3). lia. }
    exists ([x7f] ++ le_bytes 3 (len data / 4) ++ data).
    rewrite Hw. cbn [mbind outcome_bind]. split; [reflexivity|]. split.
    { unfold len. rewrite !length_app, length_le_bytes. cbn [length]. lia. }
    unfold MTProtoCompactFrameStreamReader_read.
    rewrite <- !app_assoc.
    rewrite readexactly_app by reflexivity. cbn [mbind outcome_bind].
    change (int_from_bytes_le [x7f]) with 0x7F.
    rewrite bool_decide_false by lia.
    rewrite decide_True by reflexivity.
    rewrite readexactly_app by (unfold len; rewrite length_le_bytes; reflexivity).
    cbn [mbind outcome_bind]. rewrite Hr.
    rewrite readexactly_app by lia. reflexivity.
Qed.

(** X1.  A payload whose length is a multiple of 4 and below 4 * 256^3,
    written by [MTProtoCompactFrameStreamWriter.write] without SIMPLE_ACK,
    reaches the transport as one frame of 1 + len bytes (length word below
    0x7F) or 4 + len bytes, and [MTProtoCompactFrameStreamReader.read] reads
    that frame back as the payload, with no QUICKACK, and stops right after
    it. *)
Theorem abridged_roundtrip (sent data rest : bytes) :
  len data mod 4 = 0 -> len data / 4 < 256 ^ 3 ->
  exists frame,
    MTProtoCompactFrameStreamWriter_write sent data no_extra = Ret (PyNone, sent ++ frame)
    /\ len frame = len data + (if decide (len data / 4 < 0x7F) then 1 else 4)
    /\ MTProtoCompactFrameStreamReader_read (frame ++ rest) = Ret (data, no_extra, rest).
Proof. apply compact_frame_laws. Qed.

(** X2.  A payload of at most 2^31 bytes written by
    [MTProtoIntermediateFrameStreamWriter.write] without SIMPLE_ACK reaches
    the transport as its length in four little-endian bytes followed by the
    payload, and [MTProtoIntermediateFrameStreamReader.read] reads it back
    as the payload, with no QUICKACK, and stops right after it. *)
Theorem intermediate_roundtrip (sent data rest : bytes) :
  len data <= 2 ^ 31 ->
  MTProtoIntermediateFrameStreamWriter_write sent data no_extra
    = Ret (PyNone, sent ++ le_bytes 4 (len data) ++ data)
  /\ MTProtoIntermediateFrameStreamReader_read (le_bytes 4 (len data) ++ data ++ rest)
     = Ret (data, no_extra, rest).
Proof.
  intros Hlen.
  destruct (int_from_to_bytes_le (len data) 4) as [Hw Hr].
  { change (256 ^ Z.of_nat 4) with (2 ^ 32). unfold len in *. lia. }
  split.
  - unfold MTProtoIntermediateFrameStreamWriter_write. cbn [SIMPLE_ACK no_extra].
    rewrite Hw. reflexivity.
  - unfold MTProtoIntermediateFrameStreamReader_read.
    rewrite readexactly_app by (unfold len; rewrite length_le_bytes; reflexivity).
    cbn [mbind outcome_bind]. rewrite Hr.
    unfold intermediate_length. rewrite decide_False by lia.
    rewrite readexactly_app by reflexivity. reflexivity.
Qed.

(** X3.  Whatever padding of fewer than four bytes
    [MTProtoSecureIntermediateFrameStreamWriter.write] draws, a payload whose
    length is a multiple of 4 is read back by
    [MTProtoSecureIntermediateFrameStreamReader.read] without the padding:
    the reader returns exactly the payload and stops right after the
    frame. *)
Theorem secure_roundtrip (padding_len : Z) (padding sent data rest : bytes) :
  0 <= padding_len < 4 -> len padding = padding_len ->
  len data mod 4 = 0 -> len data + padding_len <= 2 ^ 31 ->
  let frame := le_bytes 4 (len data + padding_len) ++ data ++ padding in
  MTProtoSecureIntermediateFrameStreamWriter_write padding_len padding sent data no_extra
    = Ret (PyNone, sent ++ frame)
  /\ MTProtoSecureIntermediateFrameStreamReader_read (frame ++ rest)
     = Ret (data, no_extra, rest).
Proof.
  intros Hp Hpl Hmod Hlen frame. subst frame.
  destruct (int_from_to_bytes_le (len data + padding_len) 4) as [Hw Hr].
  { change (256 ^ Z.of_nat 4) with (2 ^ 32). unfold len in *. lia. }
  split.
  - unfold MTProtoSecureIntermediateFrameStreamWriter_write. cbn [SIMPLE_ACK no_extra].
    rewrite Hw. reflexivity.
  - unfold MTProtoSecureIntermediateFrameStreamReader_read.
    rewrite <- !app_assoc.
    rewrite readexactly_app by (unfold len; rewrite length_le_bytes; reflexivity).
    cbn [mbind outcome_bind]. rewrite Hr.
    unfold intermediate_length. rewrite decide_False by lia.
    rewrite (app_assoc data padding rest).
    rewrite readexactly_app by (unfold len in *; rewrite length_app; lia).
    cbn [mbind outcome_bind].
    assert ((len data + padding_len) mod 4 = padding_len) as Hm.
    { pose proof (Z.div_mod (len data) 4 ltac:(lia)) as Hd.
      replace (len data + padding_len) with (padding_len + len data / 4 * 4) by lia.
      rewrite Z_mod_plus_full. apply Z.mod_small. lia. }
    rewrite Hm.
    destruct (decide (padding_len ≠ 0)) as [Hne|He].
    + replace (len data + padding_len - padding_len) with (len data) by lia.
      unfold len. rewrite Nat2Z.id, take_app_length. reflexivity.
    + assert (padding = []) as ->.
      { destruct padding; [reflexivity|]. unfold len in Hpl. simpl in Hpl. lia. }
      rewrite app_nil_r. reflexivity.
Qed.

(** X4.  Whatever the stream holds, a payload returned by
    [MTProtoSecureIntermediateFrameStreamReader.read] has a length that is a
    multiple of 4: the bytes beyond the last whole word of a frame are cut
    off, be they padding or not. *)
Theorem secure_reader_word_aligned (up data rest : bytes) (e : extra) :
  MTProtoSecureIntermediateFrameStreamReader_read up = Ret (data, e, rest) ->
  len data mod 4 = 0.
Proof.
  unfold MTProtoSecureIntermediateFrameStreamReader_read.
  destruct (readexactly up 4) as [[lb up1]|] eqn:E1; [|discriminate].
  cbn [mbind outcome_bind].
  destruct (intermediate_length (int_from_bytes_le lb)) as [msg_len ex].
  destruct (readexactly up1 msg_len) as [[d up2]|] eqn:E2; [|discriminate].
  cbn [mbind outcome_bind].
  apply readexactly_inv in E2 as (Hn & Hd & _).
  intros [= <- <- <-].
  case_decide as Hc.
  - unfold len in *. rewrite length_take.
    pose proof (Z.mod_pos_bound msg_len 4 ltac:(lia)).
    pose proof (Z.div_mod msg_len 4 ltac:(lia)).
    replace (Z.of_nat (Z.to_nat (msg_len - msg_len mod 4) `min` length d))
      with (msg_len / 4 * 4) by lia.
    apply Z_mod_mult.
  - rewrite Hd. exact Hc.
Qed.

(** ** The FakeTLS record layer *)

Lemma int_from_to_bytes_be x n :
  0 <= x < 256 ^ Z.of_nat n ->
  int_to_bytes_be x n = Ret (rev (le_bytes n x))
  /\ int_from_bytes_be (rev (le_bytes n x)) = x.
Proof.
  intros Hx. destruct (int_from_to_bytes_le x n Hx) as [Hw Hr].
  unfold int_to_bytes_be, int_from_bytes_be. rewrite Hw, rev_involutive.
  split; [reflexivity | exact Hr].
Qed.

(** One ApplicationData record is read back as its payload. *)
Lemma FakeTLSStreamReader_read_record fuel chunk rest :
  len chunk < 65536 ->
  FakeTLSStreamReader_read (S fuel) (tls_app_record chunk ++ rest) = Ret (chunk, rest).
Proof.
  intros Hc. unfold tls_app_record.
  destruct (int_from_to_bytes_be (len chunk) 2) as [_ Hr].
  { change (256 ^ Z.of_nat 2) with 65536. unfold len in *. lia. }
  cbn [FakeTLSStreamReader_read].
  change ([x17; x03; x03] ++ ?t) with ([x17] ++ [x03; x03] ++ t).
  rewrite <- !app_assoc.
  rewrite readexactly_app by reflexivity. cbn [mbind outcome_bind].
  rewrite bool_decide_true by (apply list_elem_of_In; right; left; reflexivity).
  cbn [negb].
  rewrite readexactly_app by reflexivity. cbn [mbind outcome_bind].
  rewrite decide_False by (intros H; apply H; reflexivity).
  rewrite readexactly_app
    by (unfold len; rewrite length_rev, length_le_bytes; reflexivity).
  cbn [mbind outcome_bind]. rewrite Hr.
  rewrite readexactly_app by reflexivity. cbn [mbind outcome_bind].
  rewrite decide_False by discriminate. reflexivity.
Qed.

(** Records read one after the other fill the buffer up to the request. *)
Lemma FakeTLSStreamReader_readexactly_records chunks : forall fuel buf rest n,
  Forall (fun c => c <> [] /\ len c < 65536) chunks ->
  n = len buf + len (concat chunks) ->
  (length chunks <= fuel)%nat ->
  FakeTLSStreamReader_readexactly fuel buf (tls_app_records chunks ++ rest) n
  = Ret (buf ++ concat chunks, [], rest).
Proof.
  induction chunks as [|c cs IH]; intros fuel buf rest n Hall Hn Hfuel.
  - cbn [concat] in *. rewrite app_nil_r. unfold tls_app_records. cbn [fmap list_fmap concat app].
    assert (n = len buf) as -> by (unfold len in *; simpl in Hn; lia).
    destruct fuel; cbn [FakeTLSStreamReader_readexactly];
      rewrite decide_False by lia; unfold len;
      rewrite Nat2Z.id, firstn_all, drop_all; reflexivity.
  - apply Forall_cons in Hall as [[Hne Hlt] Hall].
    destruct fuel as [|fuel]; [simpl in Hfuel; lia|].
    cbn [FakeTLSStreamReader_readexactly].
    assert (0 < len c) as Hpos.
    { destruct c; [congruence|]. unfold len. simpl. lia. }
    cbn [concat] in Hn. unfold len in Hn. rewrite length_app in Hn.
    rewrite decide_True by (unfold len in *; lia).
    unfold tls_app_records. cbn [fmap list_fmap concat].
    fold (tls_app_records cs). rewrite <- app_assoc.
    assert (length (tls_app_record c ++ tls_app_records cs ++ rest)
            = S (length ([x03; x03] ++ rev (le_bytes 2 (len c)) ++ c
                           ++ tls_app_records cs ++ rest))) as ->.
    { unfold tls_app_record. rewrite <- !app_assoc. reflexivity. }
    rewrite FakeTLSStreamReader_read_record by assumption.
    cbn [mbind outcome_bind]. rewrite decide_False by assumption.
    rewrite IH; [|assumption| |simpl in Hfuel; lia].
    + cbn [concat]. rewrite <- app_assoc. reflexivity.
    + unfold len. rewrite length_app. lia.
Qed.

Lemma length_slice i j (b : bytes) :
  (i <= j)%nat -> (j <= length b)%nat -> length (slice i j b) = (j - i)%nat.
Proof.
  intros Hij Hj. unfold slice. rewrite length_take, length_drop. lia.
Qed.

Lemma tls_chunk_length M data start :
  0 < M -> 0 <= start <= len data ->
  len (tls_chunk M data start) = Z.min (start + M) (len data) - start.
Proof.
  intros HM Hs. unfold tls_chunk, len in *. rewrite length_slice; lia.
Qed.

Lemma FakeTLSStreamWriter_chunks_run M data : 0 < M < 65536 -> forall starts sent,
  Forall (fun start => 0 <= start <= len data) starts ->
  FakeTLSStreamWriter_chunks M starts data sent
  = Ret (sent ++ tls_app_records (tls_chunk M data <$> starts)).
Proof.
  intros HM. induction starts as [|start starts IH]; intros sent Hall.
  - cbn. rewrite app_nil_r. reflexivity.
  - apply Forall_cons in Hall as [Hs Hall].
    cbn [FakeTLSStreamWriter_chunks].
    pose proof (tls_chunk_length M data start ltac:(lia) Hs) as Hlen.
    rewrite <- Hlen.
    destruct (int_from_to_bytes_be (len (tls_chunk M data start)) 2) as [Hw _].
    { change (256 ^ Z.of_nat 2) with 65536. rewrite Hlen. lia. }
    rewrite Hw. cbn [mbind outcome_bind write transport_write].
    unfold write, transport_write. cbn [mbind outcome_bind].
    rewrite IH by assumption.
    unfold tls_app_records. cbn [fmap list_fmap concat].
    unfold tls_app_record at 2. unfold tls_chunk at 3.
    rewrite <- !app_assoc. reflexivity.
Qed.

(** The starts of the loop lie within the data, one chunk apart. *)
Lemma range_from_0_bounds stop step :
  0 < step -> 0 <= stop ->
  Forall (fun start => 0 <= start < stop) (range_from_0 stop step).
Proof.
  intros Hstep Hstop. unfold range_from_0. apply Forall_fmap, Forall_forall.
  intros i Hi. apply elem_of_seq in Hi. cbn.
  assert (Z.of_nat i < (stop + step - 1) / step) as Hlt by lia.
  assert (Z.of_nat i + 1 <= (stop + step - 1) / step) as Hle by lia.
  pose proof (Z.mul_div_le (stop + step - 1) step Hstep).
  split; [lia|]. nia.
Qed.

(** The chunks, in order, make up the data. *)
Lemma tls_chunks_concat M data m :
  0 < M -> (Z.of_nat m - 1) * M < len data \/ m = 0%nat ->
  concat (tls_chunk M data <$> ((fun i => Z.of_nat i * M) <$> seq 0 m))
  = take (Z.to_nat (Z.min (Z.of_nat m * M) (len data))) data.
Proof.
  intros HM. induction m as [|m IH]; intros Hm.
  - cbn [seq fmap list_fmap concat].
    replace (Z.to_nat (Z.min (Z.of_nat 0 * M) (len data))) with 0%nat
      by (unfold len; lia).
    reflexivity.
  - rewrite seq_S, !fmap_app, concat_app. cbn [fmap list_fmap concat plus].
    rewrite app_nil_r.
    destruct Hm as [Hm|Hm]; [|discriminate].
    rewrite IH.
    2:{ destruct m; [right; reflexivity|left]. unfold len in *. nia. }
    replace (Z.min (Z.of_nat m * M) (len data)) with (Z.of_nat m * M)
      by (unfold len in *; lia).
    unfold tls_chunk, slice.
    rewrite take_take_drop. f_equal. unfold len in *. nia.
Qed.

Lemma tls_app_records_length chunks :
  len (tls_app_records chunks) = 5 * len chunks + len (concat chunks).
Proof.
  unfold tls_app_records, len. induction chunks as [|c cs IH]; [reflexivity|].
  cbn [fmap list_fmap concat length] in *. unfold tls_app_record at 1.
  rewrite !length_app, length_rev, length_le_bytes. cbn [length]. lia.
Qed.

(** Every chunk of the writer's loop but the last is full. *)
Lemma tls_chunks_sizes M data :
  0 < M ->
  let chunks := tls_chunk M data <$> range_from_0 (len data) M in
  Forall (fun chunk => 0 < len chunk <= M) chunks
  /\ (forall i chunk,
        chunks !! i = Some chunk -> (S i < length chunks)%nat -> len chunk = M).
Proof.
  intros HM chunks.
  assert (0 <= len data) as HL by (unfold len; lia).
  assert (0 <= (len data + M - 1) / M) as Hm0 by (apply Z.div_pos; lia).
  pose proof (range_from_0_bounds (len data) M HM HL) as Hstarts.
  split.
  - unfold chunks. apply Forall_fmap. eapply Forall_impl; [exact Hstarts|].
    cbn. intros start Hs.
    rewrite (tls_chunk_length M data start HM) by lia. lia.
  - intros i chunk Hi Hnext. unfold chunks, range_from_0 in Hi, Hnext.
    rewrite !length_fmap, length_seq in Hnext.
    rewrite !list_lookup_fmap in Hi.
    rewrite lookup_seq_lt in Hi by lia. cbn in Hi. injection Hi as <-.
    assert (Z.of_nat i + 2 <= (len data + M - 1) / M) as Hle by lia.
    pose proof (Z.mul_div_le (len data + M - 1) M HM) as Hdiv.
    assert ((Z.of_nat i + 1) * M < len data) as Hfull by nia.
    rewrite (tls_chunk_length M data (Z.of_nat i * M) HM) by nia. lia.
Qed.

(** X5.  [FakeTLSStreamWriter.write] returns [len(data)] and sends the data
    as ApplicationData records, each the header 17 03 03, the payload length
    in two big-endian bytes and the payload: the payloads are the data cut
    into pieces of 16408 bytes, the last one shorter when the length is no
    multiple, none for empty data.  [FakeTLSStreamReader.readexactly] asked
    for [len(data)] bytes of these records returns the data, with an empty
    buffer and the transport right after the last record. *)
Theorem fake_tls_roundtrip (sent data rest : bytes) :
  exists chunks records,
    records
    = concat ((fun chunk => [x17; x03; x03] ++ rev (le_bytes 2 (len chunk)) ++ chunk)
                <$> chunks)
    /\ FakeTLSStreamWriter_write sent data no_extra = Ret (PyInt (len data), sent ++ records)
    /\ concat chunks = data
    /\ Forall (fun chunk => 0 < len chunk <= 16408) chunks
    /\ (forall i chunk,
          chunks !! i = Some chunk -> (S i < length chunks)%nat -> len chunk = 16408)
    /\ len records = len data + 5 * ((len data + 16407) / 16408)
    /\ FakeTLSStreamReader_readexactly (length (records ++ rest)) [] (records ++ rest)
         (len data)
       = Ret (data, [], rest).
Proof.
  set (M := 16408).
  set (starts := range_from_0 (len data) M).
  set (chunks := tls_chunk M data <$> starts).
  assert (0 <= len data) as HL by (unfold len; lia).
  pose proof (range_from_0_bounds (len data) M ltac:(lia) HL) as Hstarts.
  fold starts in Hstarts.
  assert (0 <= (len data + M - 1) / M) as Hm0 by (apply Z.div_pos; lia).
  assert (concat chunks = data) as Hcat.
  { unfold chunks, starts, range_from_0. rewrite tls_chunks_concat; [|lia|].
    - rewrite Z2Nat.id by assumption.
      pose proof (Z.mul_succ_div_gt (len data + M - 1) M ltac:(lia)).
      rewrite Z.min_r by lia.
      unfold len. rewrite Nat2Z.id. apply firstn_all.
    - rewrite Z2Nat.id by assumption.
      pose proof (Z.mul_div_le (len data + M - 1) M ltac:(lia)).
      destruct (decide ((len data + M - 1) / M = 0)) as [E|E]; [right; lia|left; lia]. }
  assert (length chunks = Z.to_nat ((len data + M - 1) / M)) as Hcount.
  { unfold chunks, starts, range_from_0. rewrite !length_fmap, length_seq. reflexivity. }
  assert (len (tls_app_records chunks) = len data + 5 * ((len data + 16407) / 16408))
    as Hlen.
  { rewrite tls_app_records_length, Hcat. unfold len at 1. rewrite Hcount.
    rewrite Z2Nat.id by assumption. unfold M.
    replace (len data + 16408 - 1) with (len data + 16407) by lia. lia. }
  destruct (tls_chunks_sizes M data ltac:(unfold M; lia)) as [Hsizes Hfull].
  fold starts in Hsizes, Hfull. fold chunks in Hsizes, Hfull.
  exists chunks, (tls_app_records chunks).
  split; [reflexivity|].
  split; [|split; [exact Hcat|split; [exact Hsizes|split; [exact Hfull|
          split; [exact Hlen|]]]]].
  - unfold FakeTLSStreamWriter_write. change (16384 + 24) with M. fold starts.
    rewrite (FakeTLSStreamWriter_chunks_run M data ltac:(lia)).
    + reflexivity.
    + eapply Forall_impl; [exact Hstarts|]. cbn. intros; lia.
  - rewrite FakeTLSStreamReader_readexactly_records.
    + rewrite Hcat. reflexivity.
    + unfold chunks. apply Forall_fmap. eapply Forall_impl; [exact Hstarts|].
      cbn. intros start Hs.
      pose proof (tls_chunk_length M data start ltac:(lia) ltac:(lia)) as Hc.
      split; [|lia].
      intros E. rewrite E in Hc. unfold len in Hc at 1. simpl in Hc. lia.
    + rewrite Hcat. unfold len. simpl. lia.
    + rewrite length_app. unfold len in Hlen at 1.
      assert (Z.of_nat (length chunks) = (len data + 16407) / 16408) as Hc'.
      { rewrite Hcount, Z2Nat.id by assumption. unfold M. f_equal. lia. }
      lia.
Qed.

(** ** The relay tasks *)

Lemma update_user_stats_stat user k v w :
  exists w',
    update_user_stats user k v w = (Ret (), w')
    /\ forall u' k',
         user_stat w' u' k'
         = user_stat w u' k' + (if decide (u' = user /\ k' = k) then v else 0).
Proof.
  eexists. split; [reflexivity|]. intros u' k'.
  unfold user_stat. cbn [user_stats].
  destruct (decide (u' = user)) as [->|Hu].
  - rewrite lookup_insert_eq. cbn [default]. unfold counter_add, counter_get, id.
    destruct (decide (k' = k)) as [->|Hk].
    + rewrite lookup_insert_eq, decide_True by auto. reflexivity.
    + rewrite lookup_insert_ne, decide_False by (try intros [_ ?]; congruence). lia.
  - rewrite lookup_insert_ne, decide_False by (try intros [? _]; congruence). lia.
Qed.

(** X6.  A relay task whose reader hands over the non-empty messages
    [msgs] and then stops, and whose writer takes each of them, ends without
    an exception once it has passed on every message: it sends [write_eof]
    exactly when the reader stopped by handing over nothing rather than by
    [IncompleteReadError], and it has added the messages' total length to the
    user's octet counter of its direction and their number to the user's
    message counter; every other counter of every user is as before. *)
Theorem relay_accounting {R W} {SR : StreamReader R} {SW : StreamWriter W}
    (rd rd' rd_end : R) (wr wr' : W) (msgs : list bytes) (eof : bool)
    (user : string) (is_upstream : bool) (fuel : nat) (w : world) :
  relays rd wr msgs rd' wr' ->
  relay_stops rd' rd_end eof ->
  (length msgs < fuel)%nat ->
  exists w',
    tg_connect_reader_to_writer fuel rd wr user is_upstream w
    = (Ret (Some {| re_reader := rd_end; re_writer := wr'; re_eof := eof |}), w')
    /\ forall u k,
         user_stat w' u k
         = user_stat w u k
           + (if decide (u = user
                         /\ k = if is_upstream then "octets_from_client"
                                else "octets_to_client")
              then len (concat msgs) else 0)
           + (if decide (u = user
                         /\ k = if is_upstream then "msgs_from_client"
                                else "msgs_to_client")
              then len msgs else 0).
Proof.
  intros Hrel Hstop. revert fuel w.
  induction Hrel as [rd wr|rd wr r data extra rd1 ret wr1 msgs rd' wr' Hrd Hun Hne Hwr Hrel IH];
    intros fuel w Hfuel.
  - destruct fuel as [|fuel]; [simpl in Hfuel; lia|].
    exists w. split.
    + cbn [tg_connect_reader_to_writer].
      destruct Hstop as [(Hr & -> & ->)|(r & Hr & He & ->)]; rewrite Hr; [reflexivity|].
      destruct (unpack_read r) as [d e]. cbn [fst] in He. subst d.
      rewrite decide_True by reflexivity. reflexivity.
    + intros u k. cbn [concat]. unfold len. cbn [length].
      repeat case_decide; lia.
  - destruct fuel as [|fuel]; [simpl in Hfuel; lia|].
    cbn [tg_connect_reader_to_writer]. rewrite Hrd, Hun.
    rewrite decide_False by assumption.
    set (ko := if is_upstream then "octets_from_client" else "octets_to_client").
    set (km := if is_upstream then "msgs_from_client" else "msgs_to_client").
    destruct (update_user_stats_stat user ko (len data) w) as (w1 & H1 & Hs1).
    destruct (update_user_stats_stat user km 1 w1) as (w2 & H2 & Hs2).
    assert ((if is_upstream
             then update_user_stats user "octets_from_client" (len data);;
                  update_user_stats user "msgs_from_client" 1
             else update_user_stats user "octets_to_client" (len data);;
                  update_user_stats user "msgs_to_client" 1) w = (Ret (), w2)) as H12.
    { unfold ko, km in *. destruct is_upstream;
        rewrite (bind_ret_l _ _ _ _ _ H1); exact H2. }
    rewrite (bind_ret_l _ _ _ _ _ H12). rewrite Hwr.
    destruct (IH Hstop fuel w2 ltac:(simpl in Hfuel; lia)) as (w' & Hrun & Hs').
    exists w'. split; [exact Hrun|].
    intros u k. rewrite Hs', Hs2, Hs1. cbn [concat]. unfold len.
    rewrite length_app. cbn [length].
    fold ko km.
    assert (ko <> km) as Hkk by (unfold ko, km; destruct is_upstream; discriminate).
    repeat case_decide; try lia; intuition congruence.
Qed.

(** ** The RPC answers of a middle proxy *)

(** What [ProxyReqStreamReader.read] makes of a message of the FULL reader. *)
Lemma ProxyReqStreamReader_read_frame (r r' : MTProtoFrameStreamReader) (msg : bytes) :
  MTProtoFrameStreamReader_read r = Ret (msg, r') ->
  4 <= len msg ->
  ProxyReqStreamReader_read (H := MTProtoFrameStreamReader_reader) r
  = if decide (take 4 msg = RPC_CLOSE_EXT) then Ret (Data [], r')
    else if decide (take 4 msg = RPC_PROXY_ANS) then Ret (Data (drop 16 msg), r')
    else if decide (take 4 msg = RPC_SIMPLE_ACK) then
      Ret (DataExtra (slice 12 16 msg) {| QUICKACK_FLAG := false; SIMPLE_ACK := true |}, r')
    else Ret (Data [], r').
Proof.
  intros Hr Hlen. unfold ProxyReqStreamReader_read, read.
  unfold MTProtoFrameStreamReader_reader at 1. rewrite Hr.
  cbn [mbind outcome_bind]. rewrite decide_False by lia. reflexivity.
Qed.

(** X7.  The downlink through a middle proxy: an RPC_PROXY_ANS message
    (tag, four flag bytes, eight connection-id bytes, then the data) that
    arrives in one FULL frame with the expected sequence number is unwrapped
    by [ProxyReqStreamReader.read] over [MTProtoFrameStreamReader] to the
    data alone, and that data, written to an ABRIDGED client by
    [MTProtoCompactFrameStreamWriter.write], is read back by the ABRIDGED
    reader unchanged. *)
Theorem middle_proxy_downlink (flags conn_id conn_data : bytes) (n : Z)
    (tg_rest sent clt_rest : bytes) :
  len flags = 4 -> len conn_id = 8 ->
  len conn_data mod 4 = 0 -> len conn_data <= 2 ^ 24 - 28 ->
  - 2 ^ 31 <= n < 2 ^ 31 ->
  exists tg_frame rd' clt_frame,
    MTProtoFrameStreamWriter_write {| fsw_upstream := []; fsw_seq_no := n |}
      (RPC_PROXY_ANS ++ flags ++ conn_id ++ conn_data) no_extra
    = Ret (PyNone, {| fsw_upstream := tg_frame; fsw_seq_no := n + 1 |})
    /\ ProxyReqStreamReader_read (H := MTProtoFrameStreamReader_reader)
         {| fsr_upstream := tg_frame ++ tg_rest; fsr_seq_no := n |}
       = Ret (Data conn_data, rd')
    /\ fsr_seq_no rd' = n + 1
    /\ MTProtoCompactFrameStreamWriter_write sent conn_data no_extra
       = Ret (PyNone, sent ++ clt_frame)
    /\ MTProtoCompactFrameStreamReader_read (clt_frame ++ clt_rest)
       = Ret (conn_data, no_extra, clt_rest).
Proof.
  intros Hf Hc Hmod Hlen Hn.
  set (msg := RPC_PROXY_ANS ++ flags ++ conn_id ++ conn_data).
  assert (len msg = 16 + len conn_data) as Hmsg.
  { unfold msg, len in *. rewrite !length_app. cbn [length RPC_PROXY_ANS]. lia. }
  destruct (full_frame_laws msg n tg_rest) as (tg_frame & Hw & (k & Hr) & _).
  { rewrite Hmsg. replace (16 + len conn_data) with (len conn_data + 4 * 4) by lia.
    rewrite Z_mod_plus_full. assumption. }
  { rewrite Hmsg. lia. }
  { assumption. }
  destruct (compact_frame_laws sent conn_data clt_rest) as (clt_frame & Hcw & _ & Hcr).
  { assumption. }
  { apply Z.div_lt_upper_bound; lia. }
  exists tg_frame, {| fsr_upstream := bytes_repeat PADDING_FILLER k ++ tg_rest;
                      fsr_seq_no := n + 1 |}, clt_frame.
  split; [exact Hw|]. split; [|split; [reflexivity|split; assumption]].
  rewrite (ProxyReqStreamReader_read_frame _ _ _ Hr) by (rewrite Hmsg; unfold len; lia).
  assert (take 4 msg = RPC_PROXY_ANS) as Ht by reflexivity.
  rewrite Ht. rewrite decide_False by discriminate.
  rewrite decide_True by reflexivity.
  unfold msg. do 2 f_equal.
  rewrite !app_assoc. rewrite drop_app_length'; [reflexivity|].
  unfold len in *. rewrite !length_app. cbn [length RPC_PROXY_ANS]. lia.
Qed.

(** X8.  An RPC_SIMPLE_ACK message (tag, eight connection-id bytes, four
    confirmation bytes) that arrives in one FULL frame is turned by
    [ProxyReqStreamReader.read] into the confirmation with SIMPLE_ACK set;
    the client writers then send it bare, with no length word and no
    padding: byte-reversed by the ABRIDGED writer, as it is by the
    INTERMEDIATE and SECURE writers. *)
Theorem simple_ack_reaches_client (conn_id confirm : bytes) (n : Z)
    (tg_rest sent : bytes) (padding_len : Z) (padding : bytes) :
  len conn_id = 8 -> len confirm = 4 -> - 2 ^ 31 <= n < 2 ^ 31 ->
  let ack := {| QUICKACK_FLAG := false; SIMPLE_ACK := true |} in
  exists tg_frame rd',
    MTProtoFrameStreamWriter_write {| fsw_upstream := []; fsw_seq_no := n |}
      (RPC_SIMPLE_ACK ++ conn_id ++ confirm) no_extra
    = Ret (PyNone, {| fsw_upstream := tg_frame; fsw_seq_no := n + 1 |})
    /\ ProxyReqStreamReader_read (H := MTProtoFrameStreamReader_reader)
         {| fsr_upstream := tg_frame ++ tg_rest; fsr_seq_no := n |}
       = Ret (DataExtra confirm ack, rd')
    /\ MTProtoCompactFrameStreamWriter_write sent confirm ack
       = Ret (PyNone, sent ++ rev confirm)
    /\ MTProtoIntermediateFrameStreamWriter_write sent confirm ack
       = Ret (PyNone, sent ++ confirm)
    /\ MTProtoSecureIntermediateFrameStreamWriter_write padding_len padding sent
         confirm ack
       = Ret (PyNone, sent ++ confirm).
Proof.
  intros Hc Hf Hn ack.
  set (msg := RPC_SIMPLE_ACK ++ conn_id ++ confirm).
  assert (len msg = 16) as Hmsg.
  { unfold msg, len in *. rewrite !length_app. cbn [length RPC_SIMPLE_ACK]. lia. }
  destruct (full_frame_laws msg n tg_rest) as (tg_frame & Hw & (k & Hr) & _).
  { rewrite Hmsg. reflexivity. }
  { rewrite Hmsg. lia. }
  { assumption. }
  exists tg_frame, {| fsr_upstream := bytes_repeat PADDING_FILLER k ++ tg_rest;
                      fsr_seq_no := n + 1 |}.
  split; [exact Hw|]. split; [|split; [|split; reflexivity]].
  - rewrite (ProxyReqStreamReader_read_frame _ _ _ Hr) by (rewrite Hmsg; lia).
    assert (take 4 msg = RPC_SIMPLE_ACK) as Ht by reflexivity.
    rewrite Ht. rewrite !decide_False by discriminate.
    rewrite decide_True by reflexivity.
    unfold msg, slice. do 2 f_equal.
    rewrite !app_assoc. rewrite drop_app_length'.
    + unfold ack. f_equal. apply firstn_all2. unfold len in Hf. lia.
    + unfold len in *. rewrite !length_app. cbn [length RPC_SIMPLE_ACK]. lia.
  - unfold MTProtoCompactFrameStreamWriter_write.
    rewrite decide_False by (rewrite Hf; intros H; apply H; reflexivity).
    reflexivity.
Qed.


(** ** The uplink to a middle proxy *)

Lemma bytes_repeat_length (b : bytes) (k : Z) :
  0 <= k -> len (bytes_repeat b k) = len b * k.
Proof.
  intros Hk. unfold bytes_repeat, len.
  rewrite <- (Z2Nat.id k) at 2 by assumption.
  induction (Z.to_nat k) as [|n IH]; cbn [replicate concat length]; [lia|].
  rewrite length_app. lia.
Qed.

(** A FULL frame and its padding fill whole CBC blocks. *)
Lemma full_frame_padded_length (full_msg : bytes) :
  len full_msg mod 4 = 0 ->
  len (full_msg
         ++ bytes_repeat PADDING_FILLER
              ((- len full_msg) mod CBC_PADDING / len PADDING_FILLER)) mod 16 = 0.
Proof.
  intros Hmod. change CBC_PADDING with 16. change (len PADDING_FILLER) with 4.
  pose proof (Z.mod_pos_bound (- len full_msg) 16 ltac:(lia)) as Hb.
  assert (0 <= (- len full_msg) mod 16 / 4) as Hk by (apply Z.div_pos; lia).
  unfold len at 1. rewrite length_app. rewrite Nat2Z.inj_add.
  fold (len full_msg).
  fold (len (bytes_repeat PADDING_FILLER ((- len full_msg) mod 16 / 4))).
  rewrite bytes_repeat_length by assumption. change (len PADDING_FILLER) with 4.
  pose proof (Z.div_mod (len full_msg) 4 ltac:(lia)) as Hd4.
  pose proof (Z.div_mod (- len full_msg) 16 ltac:(lia)) as Hd16.
  assert ((- len full_msg) mod 16 mod 4 = 0) as Hm4.
  { replace ((- len full_msg) mod 16)
      with ((- (len full_msg / 4) - 4 * ((- len full_msg) / 16)) * 4) by lia.
    apply Z_mod_mult. }
  pose proof (Z.div_mod ((- len full_msg) mod 16) 4 ltac:(lia)) as Hd.
  replace (4 * ((- len full_msg) mod 16 / 4)) with ((- len full_msg) mod 16) by lia.
  replace (len full_msg + (- len full_msg) mod 16)
    with ((- ((- len full_msg) / 16)) * 16) by lia.
  apply Z_mod_mult.
Qed.

Lemma ProxyReq_flags_range tag msg e : 0 <= ProxyReq_flags tag msg e < 2 ^ 32.
Proof.
  unfold ProxyReq_flags.
  repeat case_decide; destruct (QUICKACK_FLAG e); destruct (startswith msg _);
    vm_compute; split; congruence.
Qed.

(** The FULL writer over any upstream: one upstream write of the frame and
    its padding, whole CBC blocks when the message is made of whole words. *)
Lemma write_frame_upstream {U} `{StreamWriter U} (u : U) seq msg :
  len msg + 12 < 2 ^ 32 -> - 2 ^ 31 <= seq < 2 ^ 31 ->
  exists frame,
    len frame = len msg + 12 + 4 * ((- (len msg + 12)) mod 16 / 4)
    /\ (len msg mod 4 = 0 -> len frame mod 16 = 0)
    /\ MTProtoFrameStreamWriter_write {| fsw_upstream := u; fsw_seq_no := seq |} msg
         no_extra
       = '(r, u') ← write u frame no_extra;
         Ret (r, {| fsw_upstream := u'; fsw_seq_no := seq + 1 |}).
Proof.
  intros Hlen Hseq.
  set (lb := le_bytes 4 (len msg + 12)).
  set (sb := le_bytes 4 (seq mod 2 ^ 32)).
  set (cb := le_bytes 4 (crc32 (lb ++ sb ++ msg))).
  set (full := (lb ++ sb ++ msg) ++ cb).
  assert (len full = len msg + 12) as Hfull.
  { unfold full, lb, sb, cb, len. rewrite !length_app, !length_le_bytes. lia. }
  exists (full ++ bytes_repeat PADDING_FILLER
                    ((- len full) mod CBC_PADDING / len PADDING_FILLER)).
  split; [|split].
  - unfold len at 1. rewrite length_app, Nat2Z.inj_add.
    fold (len full).
    fold (len (bytes_repeat PADDING_FILLER
                 ((- len full) mod CBC_PADDING / len PADDING_FILLER))).
    change CBC_PADDING with 16. change (len PADDING_FILLER) with 4.
    pose proof (Z.mod_pos_bound (- len full) 16 ltac:(lia)) as Hb.
    rewrite bytes_repeat_length by (apply Z.div_pos; lia).
    change (len PADDING_FILLER) with 4. rewrite Hfull. reflexivity.
  - intros Hmod. apply full_frame_padded_length. rewrite Hfull.
    replace (len msg + 12) with (len msg + 3 * 4) by lia.
    rewrite Z_mod_plus_full. exact Hmod.
  - unfold MTProtoFrameStreamWriter_write. cbn [fsw_upstream fsw_seq_no].
    replace (len msg + 4 + 4 + 4) with (len msg + 12) by lia.
    destruct (int_from_to_bytes_le (len msg + 12) 4) as [-> _].
    { change (256 ^ Z.of_nat 4) with (2 ^ 32). unfold len in *. lia. }
    destruct (int_from_to_bytes_le_signed seq Hseq) as [-> _].
    cbn [mbind outcome_bind].
    destruct (int_from_to_bytes_le (crc32 (lb ++ sb ++ msg)) 4) as [Hc _].
    { apply crc32_range. }
    fold lb sb. rewrite Hc. reflexivity.
Qed.

(** X12.  The uplink through a middle proxy, [ProxyReqStreamWriter] over
    [MTProtoFrameStreamWriter] over [CryptoWrappedStreamWriter] with 16-byte
    blocks: for a message and an [ad_tag] made of whole 32-bit words (the
    address fields as [__init__] builds them, 20 bytes each, and an 8-byte
    connection id), the envelope, framed and padded, reaches the cipher as
    whole blocks, so the cipher layer never refuses the write: the transport
    receives the encryption of one frame of [len(msg) + len(ad_tag) + 80]
    bytes rounded up to a multiple of 16, and the sequence number advances
    by one. *)
Theorem middle_proxy_uplink_aligned {K} {CK : Cipher K}
    (ad_tag msg sent rip oip cid tag : bytes) (e : extra) (enc : K) (seq : Z) :
  len msg mod 4 = 0 -> len ad_tag mod 4 = 0 -> len ad_tag < 256 ->
  len rip = 20 -> len oip = 20 -> len cid = 8 ->
  len msg + len ad_tag + 80 < 2 ^ 32 -> - 2 ^ 31 <= seq < 2 ^ 31 ->
  exists frame,
    len frame mod 16 = 0
    /\ len msg + len ad_tag + 80 <= len frame < len msg + len ad_tag + 80 + 16
    /\ ProxyReqStreamWriter_write ad_tag
         {| prw_upstream :=
              {| fsw_upstream :=
                   {| cw_upstream := sent; cw_encryptor := enc; cw_block_size := 16 |};
                 fsw_seq_no := seq |};
            remote_ip_port := rip; our_ip_port := oip; out_conn_id := cid;
            proto_tag := tag |} msg e
       = Ret (PyNone,
              {| prw_upstream :=
                   {| fsw_upstream :=
                        {| cw_upstream := sent ++ (encrypt enc frame).1;
                           cw_encryptor := (encrypt enc frame).2;
                           cw_block_size := 16 |};
                      fsw_seq_no := seq + 1 |};
                 remote_ip_port := rip; our_ip_port := oip; out_conn_id := cid;
                 proto_tag := tag |}).
Proof.
  intros Hmsg Htag Htag256 Hrip Hoip Hcid Hlen Hseq.
  unfold ProxyReqStreamWriter_write.
  cbn [prw_upstream remote_ip_port our_ip_port out_conn_id proto_tag].
  rewrite decide_False by (intros Hx; apply Hx; exact Hmsg).
  destruct (int_from_to_bytes_le (ProxyReq_flags tag msg e) 4) as [-> _].
  { apply ProxyReq_flags_range. }
  cbn [mbind outcome_bind].
  unfold bytes_of_int. rewrite decide_True by (unfold len in *; lia).
  cbn [mbind outcome_bind].
  match goal with |- context [write _ ?m no_extra] => set (envelope := m) end.
  assert (len envelope = len msg + len ad_tag + 68) as Henv.
  { unfold envelope, len in *. rewrite !length_app, length_le_bytes.
    cbn [length]. lia. }
  destruct (write_frame_upstream
              {| cw_upstream := sent; cw_encryptor := enc; cw_block_size := 16 |}
              seq envelope) as (frame & Hflen & Hal & Hw).
  { rewrite Henv. lia. }
  { assumption. }
  exists frame.
  assert (len envelope mod 4 = 0) as Henv4.
  { rewrite Henv.
    pose proof (Z.div_mod (len msg) 4 ltac:(lia)).
    pose proof (Z.div_mod (len ad_tag) 4 ltac:(lia)).
    replace (len msg + len ad_tag + 68)
      with ((len msg / 4 + len ad_tag / 4 + 17) * 4) by lia.
    apply Z_mod_mult. }
  specialize (Hal Henv4).
  split; [exact Hal|]. split.
  { rewrite Hflen, Henv.
    pose proof (Z.mod_pos_bound (- (len msg + len ad_tag + 68 + 12)) 16 ltac:(lia)).
    pose proof (Z.mul_div_le (- (len msg + len ad_tag + 68 + 12) mod 16) 4 ltac:(lia)).
    pose proof (Z.div_pos (- (len msg + len ad_tag + 68 + 12) mod 16) 4
                  ltac:(lia) ltac:(lia)).
    lia. }
  unfold write at 1, MTProtoFrameStreamWriter_writer. rewrite Hw.
  unfold write at 1, CryptoWrappedStreamWriter_writer, CryptoWrappedStreamWriter_write.
  cbn [cw_block_size cw_encryptor cw_upstream].
  rewrite decide_False by discriminate.
  rewrite decide_False by (intros Hx; apply Hx; exact Hal).
  destruct (encrypt enc frame) as [q enc']. reflexivity.
Qed.

(** ** The ClientHello for the mask host *)

Lemma gen_x25519_public_key_run n :
  gen_x25519_public_key n = Ret (le_bytes 32 ((n * n) mod (2 ^ 255 - 19))).
Proof.
  unfold gen_x25519_public_key, int_to_bytes_le.
  pose proof (Z.mod_pos_bound (n * n) (2 ^ 255 - 19) ltac:(lia)) as Hb.
  assert (2 ^ 255 - 19 < 256 ^ Z.of_nat 32) as Hp by (vm_compute; reflexivity).
  rewrite decide_True by lia. reflexivity.
Qed.

Lemma int_to_bytes_be_cases x n :
  (0 <= x < 256 ^ Z.of_nat n /\ int_to_bytes_be x n = Ret (rev (le_bytes n x)))
  \/ (~ 0 <= x < 256 ^ Z.of_nat n /\ int_to_bytes_be x n = Raise OverflowError).
Proof.
  unfold int_to_bytes_be, int_to_bytes_le. case_decide; [left|right]; auto.
Qed.

Lemma len_app {A} (a b : list A) : len (a ++ b) = len a + len b.
Proof. unfold len. rewrite length_app. lia. Qed.

(** X13.  [gen_tls_client_hello_msg] returns a message of exactly 517
    bytes, which begins with the 11 bytes the proxy itself takes for a
    FakeTLS ClientHello and carries the first random draw where the digest
    is looked for, as long as the server name has at most 216 bytes; with a
    longer name the padding length is negative and [int.to_bytes] raises
    [OverflowError]. *)
Theorem gen_tls_client_hello_msg_length (random session_id : bytes) (n : Z)
    (server_name : bytes) :
  len random = 32 -> len session_id = 32 ->
  (len server_name <= 216 ->
   exists msg,
     gen_tls_client_hello_msg random session_id n server_name = Ret msg
     /\ len msg = 517
     /\ take 11 msg = TLS_START_BYTES
     /\ slice 11 43 msg = random)
  /\ (216 < len server_name ->
      gen_tls_client_hello_msg random session_id n server_name = Raise OverflowError).
Proof.
  intros Hr Hs. unfold gen_tls_client_hello_msg.
  rewrite gen_x25519_public_key_run.
  assert (0 <= len server_name) as Hsn by (unfold len; lia).
  split.
  - intros Hlen.
    destruct (int_from_to_bytes_be (len server_name + 5) 2) as [-> _];
      [change (256 ^ Z.of_nat 2) with 65536; lia|].
    destruct (int_from_to_bytes_be (len server_name + 3) 2) as [-> _];
      [change (256 ^ Z.of_nat 2) with 65536; lia|].
    destruct (int_from_to_bytes_be (len server_name) 2) as [-> _];
      [change (256 ^ Z.of_nat 2) with 65536; lia|].
    cbn [mbind outcome_bind].
    match goal with
    | |- context [int_to_bytes_be (517 - len ?m - 2) 2] => set (body := m)
    end.
    assert (len body = 299 + len server_name) as Hbody.
    { unfold body, len in *.
      rewrite !length_app, !length_rev, !length_le_bytes. cbn [length]. lia. }
    rewrite Hbody.
    destruct (int_from_to_bytes_be (517 - (299 + len server_name) - 2) 2) as [-> _];
      [change (256 ^ Z.of_nat 2) with 65536; lia|].
    cbn [mbind outcome_bind]. eexists. split; [reflexivity|]. split; [|split].
    + assert (len (body ++ rev (le_bytes 2 (517 - (299 + len server_name) - 2)))
              = 301 + len server_name) as Hall.
      { rewrite len_app, Hbody. unfold len.
        rewrite length_rev, length_le_bytes. lia. }
      rewrite len_app, Hall, bytes_repeat_length by lia.
      change (len [x00]) with 1. lia.
    + unfold body. rewrite <- !app_assoc. reflexivity.
    + unfold body, slice. rewrite <- !app_assoc. cbn [app drop].
      change (43 - 11)%nat with 32%nat. rewrite drop_0.
      rewrite take_app_length'; [reflexivity|]. unfold len in Hr. lia.
  - intros Hlen.
    destruct (int_to_bytes_be_cases (len server_name + 5) 2) as [[_ ->]|[_ ->]];
      [|reflexivity].
    destruct (int_to_bytes_be_cases (len server_name + 3) 2) as [[_ ->]|[_ ->]];
      [|reflexivity].
    destruct (int_to_bytes_be_cases (len server_name) 2) as [[_ ->]|[_ ->]];
      [|reflexivity].
    cbn [mbind outcome_bind].
    match goal with
    | |- context [int_to_bytes_be (517 - len ?m - 2) 2] => set (body := m)
    end.
    assert (len body = 299 + len server_name) as Hbody.
    { unfold body, len in *.
      rewrite !length_app, !length_rev, !length_le_bytes. cbn [length]. lia. }
    destruct (int_to_bytes_be_cases (517 - len body - 2) 2) as [[Hx _]|[_ ->]];
      [lia|reflexivity].
Qed.

(** ** Session durations *)

(** The loop leaves [bucket] at the first bucket the duration does not
    exceed, and at the last one when it exceeds them all. *)
Lemma duration_bucket_first_fit (duration : Q) buckets dflt :
  buckets <> [] ->
  exists pre b post,
    buckets = pre ++ (b, duration_bucket duration buckets dflt) :: post
    /\ Forall (fun bl => ~ (duration <= bl.1)%Q) pre
    /\ ((duration <= b)%Q \/ post = []).
Proof.
  revert dflt. induction buckets as [|[b l] rest IH]; intros dflt Hne; [congruence|].
  cbn [duration_bucket]. destruct (Qle_bool duration b) eqn:E.
  - exists [], b, rest. split; [reflexivity|]. split; [constructor|].
    left. apply Qle_bool_iff, E.
  - assert (~ (duration <= b)%Q) as Hnb.
    { intros Hle. apply Qle_bool_iff in Hle. congruence. }
    destruct rest as [|x rest'].
    + exists [], b, []. split; [reflexivity|]. split; [constructor|]. right. reflexivity.
    + destruct (IH l ltac:(discriminate)) as (pre & b' & post & Heq & Hpre & Hfit).
      exists ((b, l) :: pre), b', post. split; [rewrite Heq at 1; reflexivity|].
      split; [constructor; assumption | exact Hfit].
Qed.

(** X18.  [update_durations] adds one to exactly one counter, the one of
    the first bucket of [STAT_DURATION_BUCKETS] that the duration does not
    exceed; a duration above the last bucket, 2147483647 seconds, is counted
    under that last bucket. *)
Theorem update_durations_first_fit (duration : Q) (w : world) :
  exists pre b label post w',
    STAT_DURATION_BUCKETS = pre ++ (b, label) :: post
    /\ Forall (fun bl => ~ (duration <= bl.1)%Q) pre
    /\ ((duration <= b)%Q \/ (post = [] /\ label = "2147483647"))
    /\ update_durations duration w = (Ret (), w')
    /\ stats w' = counter_add ("connects_with_duration_le_" +:+ label) 1 (stats w)
    /\ user_stats w' = user_stats w /\ trace w' = trace w.
Proof.
  destruct (duration_bucket_first_fit duration STAT_DURATION_BUCKETS "")
    as (pre & b & post & Heq & Hpre & Hfit); [discriminate|].
  exists pre, b, (duration_bucket duration STAT_DURATION_BUCKETS ""), post.
  eexists. split; [exact Heq|]. split; [exact Hpre|]. split.
  - destruct Hfit as [Hfit | ->]; [left; exact Hfit|right]. split; [reflexivity|].
    assert (snd <$> last STAT_DURATION_BUCKETS = Some "2147483647") as Hlast
      by reflexivity.
    rewrite Heq, last_app in Hlast. cbn [last fmap option_fmap option_map snd] in Hlast.
    congruence.
  - split; [reflexivity|]. auto.
Qed.

(** ** The connection pool *)

Lemma register_loop_run fuel : forall tasks next,
  (Z.to_nat MAX_CONNS_IN_POOL - length tasks <= fuel)%nat ->
  register_loop fuel tasks next
  = (tasks ++ seq next (Z.to_nat MAX_CONNS_IN_POOL - length tasks),
     (next + (Z.to_nat MAX_CONNS_IN_POOL - length tasks))%nat).
Proof.
  change (Z.to_nat MAX_CONNS_IN_POOL) with 64%nat.
  induction fuel as [|fuel IH]; intros tasks next Hfuel.
  - cbn [register_loop]. replace (64 - length tasks)%nat with 0%nat by lia.
    cbn [seq]. rewrite app_nil_r, Nat.add_0_r. reflexivity.
  - cbn [register_loop]. unfold len, MAX_CONNS_IN_POOL. case_decide as Hlt.
    + rewrite IH by (rewrite length_app; cbn [length]; lia).
      rewrite length_app. cbn [length].
      replace (64 - length tasks)%nat with (S (64 - (length tasks + 1))) by lia.
      cbn [seq]. rewrite <- app_assoc. cbn [app]. f_equal. lia.
    + replace (64 - length tasks)%nat with 0%nat by lia.
      cbn [seq]. rewrite app_nil_r, Nat.add_0_r. reflexivity.
Qed.

Lemma list_remove_middle x (pre post : list nat) :
  x ∉ pre -> list_remove x (pre ++ x :: post) = Ret (pre ++ post).
Proof.
  induction pre as [|y pre IH]; intros Hx; cbn [app list_remove].
  - rewrite decide_True by reflexivity. reflexivity.
  - rewrite decide_False by (intros ->; apply Hx; left).
    rewrite IH by (intros H; apply Hx; right; exact H). reflexivity.
Qed.

Lemma get_connection_loop_app state : forall s1 s2 tasks ret,
  get_connection_loop state (s1 ++ s2) tasks ret
  = '(tasks, ret) ← get_connection_loop state s1 tasks ret;
    get_connection_loop state s2 tasks ret.
Proof.
  induction s1 as [|t s1 IH]; intros s2 tasks ret; cbn [app get_connection_loop].
  - reflexivity.
  - destruct (state t) as [| |[|]].
    + apply IH.
    + destruct (list_remove t tasks); cbn [mbind outcome_bind]; [apply IH | reflexivity].
    + destruct (list_remove t tasks); cbn [mbind outcome_bind]; [apply IH | reflexivity].
    + destruct ret; [apply IH|].
      destruct (list_remove t tasks); cbn [mbind outcome_bind]; [apply IH | reflexivity].
Qed.

(** Tasks that are not done are passed over. *)
Lemma get_connection_loop_pending state : forall snapshot tasks ret,
  Forall (fun t => state t = TaskPending) snapshot ->
  get_connection_loop state snapshot tasks ret = Ret (tasks, ret).
Proof.
  induction snapshot as [|t snapshot IH]; intros tasks ret Hall; cbn [get_connection_loop].
  - reflexivity.
  - apply Forall_cons in Hall as [-> Hall]. apply IH, Hall.
Qed.

(** The loop keeps the order, drops every failed or closing task and takes
    out the first usable one when none is held yet. *)
Lemma get_connection_loop_run state : forall snapshot kept rest ret,
  NoDup (kept ++ snapshot ++ rest) ->
  exists kept' ret',
    get_connection_loop state snapshot (kept ++ snapshot ++ rest) ret
    = Ret (kept ++ kept' ++ rest, ret')
    /\ sublist kept' snapshot
    /\ Forall (fun t => state t = TaskPending \/ state t = TaskDone false) kept'
    /\ Forall (fun t => state t = TaskPending
                        \/ (state t = TaskDone false /\ ret' <> Some t) -> t ∈ kept')
         snapshot
    /\ match ret with
       | Some r => ret' = Some r
       | None =>
           match ret' with
           | Some t =>
               (t ∉ kept')
               /\ exists pre post,
                    snapshot = pre ++ t :: post
                    /\ task_usable state t
                    /\ Forall (fun x => ~ task_usable state x) pre
           | None => Forall (fun x => ~ task_usable state x) snapshot
           end
       end.
Proof.
  unfold task_usable.
  induction snapshot as [|t snapshot IH]; intros kept rest ret Hnd.
  - exists [], ret. cbn [get_connection_loop app]. split; [reflexivity|].
    split; [constructor|]. split; [constructor|]. split; [constructor|].
    destruct ret; [reflexivity | constructor].
  - cbn [app] in Hnd.
    assert (t ∉ kept) as Htk.
    { apply NoDup_app in Hnd as (_ & Hd & _). intros Hin. apply (Hd t Hin). left. }
    assert (NoDup (kept ++ snapshot ++ rest)) as Hnd_drop.
    { apply NoDup_app in Hnd as (Hk & Hd & Hs). apply NoDup_app.
      split; [exact Hk|]. split.
      - intros x Hx Hxs. apply (Hd x Hx). right. exact Hxs.
      - apply NoDup_cons in Hs as [_ Hs]. exact Hs. }
    assert (NoDup ((kept ++ [t]) ++ snapshot ++ rest)) as Hnd_keep
      by (rewrite <- app_assoc; exact Hnd).
    assert (t ∉ snapshot) as Hts.
    { apply NoDup_app in Hnd as (_ & _ & Hs). apply NoDup_cons in Hs as [Hs _].
      intros Hin. apply Hs, elem_of_app. left. exact Hin. }
    cbn [get_connection_loop app].
    destruct (state t) as [| |[|]] eqn:Est.
    + (* not done: the task stays *)
      destruct (IH (kept ++ [t]) rest ret Hnd_keep)
        as (k' & r' & Hrun & Hsub & Hst & Hp & Hret).
      rewrite <- !app_assoc in Hrun. cbn [app] in Hrun.
      exists (t :: k'), r'. split; [exact Hrun|].
      split; [apply sublist_skip, Hsub|].
      split; [constructor; [left; exact Est | exact Hst]|].
      split.
      { constructor; [intros _; left|].
        eapply Forall_impl; [exact Hp|]. cbn. intros x Hx Hpx. right. apply Hx, Hpx. }
      destruct ret as [r|]; [exact Hret|].
      destruct r' as [u|].
      * destruct Hret as (Hu & pre & post & -> & Hus & Hpre). split.
        { intros Hin. apply elem_of_cons in Hin as [->|Hin]; [|exact (Hu Hin)].
          congruence. }
        exists (t :: pre), post. split; [reflexivity|]. split; [exact Hus|].
        constructor; [congruence | exact Hpre].
      * constructor; [congruence | exact Hret].
    + (* an exception: the task goes *)
      rewrite list_remove_middle by exact Htk. cbn [mbind outcome_bind].
      destruct (IH kept rest ret Hnd_drop) as (k' & r' & Hrun & Hsub & Hst & Hp & Hret).
      exists k', r'. split; [exact Hrun|].
      split; [apply sublist_cons, Hsub|]. split; [exact Hst|].
      split; [constructor; [intros [?|[? _]]; congruence | exact Hp]|].
      destruct ret as [r|]; [exact Hret|].
      destruct r' as [u|].
      * destruct Hret as (Hu & pre & post & -> & Hus & Hpre). split; [exact Hu|].
        exists (t :: pre), post. split; [reflexivity|]. split; [exact Hus|].
        constructor; [congruence | exact Hpre].
      * constructor; [congruence | exact Hret].
    + (* a closing transport: the task goes *)
      rewrite list_remove_middle by exact Htk. cbn [mbind outcome_bind].
      destruct (IH kept rest ret Hnd_drop) as (k' & r' & Hrun & Hsub & Hst & Hp & Hret).
      exists k', r'. split; [exact Hrun|].
      split; [apply sublist_cons, Hsub|]. split; [exact Hst|].
      split; [constructor; [intros [?|[? _]]; congruence | exact Hp]|].
      destruct ret as [r|]; [exact Hret|].
      destruct r' as [u|].
      * destruct Hret as (Hu & pre & post & -> & Hus & Hpre). split; [exact Hu|].
        exists (t :: pre), post. split; [reflexivity|]. split; [exact Hus|].
        constructor; [congruence | exact Hpre].
      * constructor; [congruence | exact Hret].
    + (* a usable connection *)
      destruct ret as [r|].
      * destruct (IH (kept ++ [t]) rest (Some r) Hnd_keep)
          as (k' & r' & Hrun & Hsub & Hst & Hp & Hret).
        rewrite <- !app_assoc in Hrun. cbn [app] in Hrun.
        exists (t :: k'), r'. split; [exact Hrun|].
        split; [apply sublist_skip, Hsub|].
        split; [constructor; [right; exact Est | exact Hst]|].
        split; [|exact Hret].
        constructor; [intros _; left|].
        eapply Forall_impl; [exact Hp|]. cbn. intros x Hx Hpx. right. apply Hx, Hpx.
      * rewrite list_remove_middle by exact Htk. cbn [mbind outcome_bind].
        destruct (IH kept rest (Some t) Hnd_drop)
          as (k' & r' & Hrun & Hsub & Hst & Hp & ->).
        exists k', (Some t). split; [exact Hrun|].
        split; [apply sublist_cons, Hsub|]. split; [exact Hst|].
        split; [constructor; [intros [?|[_ ?]]; congruence | exact Hp]|].
        split.
        { intros Hin. apply Hts. eapply elem_of_submseteq; [exact Hin|].
          apply sublist_submseteq, Hsub. }
        exists [], snapshot. split; [reflexivity|]. split; [exact Est | constructor].
Qed.

Lemma register_host_port_run key p :
  len (default [] (pools p !! key)) <= MAX_CONNS_IN_POOL ->
  let tasks := default [] (pools p !! key) in
  let n := (Z.to_nat MAX_CONNS_IN_POOL - length tasks)%nat in
  register_host_port key p
  = {| pools := <[key := tasks ++ seq (next_task p) n]> (pools p);
       next_task := (next_task p + n)%nat |}.
Proof.
  intros _ tasks n. unfold register_host_port. fold tasks.
  rewrite register_loop_run by lia. reflexivity.
Qed.

(** What [get_connection] does to a pool whose fresh tasks have not run
    yet. *)
Lemma get_connection_run state key p :
  pool_ok p ->
  (forall t, (next_task p <= t)%nat -> state t = TaskPending) ->
  let tasks0 := default [] (pools p !! key) in
  exists c kept fresh,
    get_connection state key p
    = Ret (c, {| pools := <[key := kept ++ fresh]> (pools p);
                 next_task := (next_task p + length fresh)%nat |})
    /\ fresh = seq (next_task p) (length fresh)
    /\ length (kept ++ fresh) = Z.to_nat MAX_CONNS_IN_POOL
    /\ sublist kept tasks0
    /\ Forall (fun t => state t = TaskPending \/ state t = TaskDone false) kept
    /\ Forall (fun t => state t = TaskPending
                        \/ (state t = TaskDone false /\ c <> Pooled t) -> t ∈ kept)
         tasks0
    /\ match c with
       | Pooled t =>
           (t ∉ kept)
           /\ exists pre post,
                tasks0 = pre ++ t :: post
                /\ task_usable state t
                /\ Forall (fun x => ~ task_usable state x) pre
       | Opened => Forall (fun x => ~ task_usable state x) tasks0
       end.
Proof.
  intros Hok Hfresh tasks0.
  assert (NoDup tasks0 /\ len tasks0 <= MAX_CONNS_IN_POOL
          /\ Forall (fun t => (t < next_task p)%nat) tasks0) as (Hnd & Hlen & Hold).
  { unfold tasks0. destruct (pools p !! key) as [tasks|] eqn:Hkey; cbn [default].
    - exact (Hok key tasks Hkey).
    - split; [constructor|]. split; [unfold len, MAX_CONNS_IN_POOL; cbn; lia | constructor]. }
  unfold len, MAX_CONNS_IN_POOL in Hlen.
  set (n1 := (64 - length tasks0)%nat).
  set (fresh1 := seq (next_task p) n1).
  assert (NoDup (tasks0 ++ fresh1)) as Hnd1.
  { apply NoDup_app. split; [exact Hnd|]. split; [|apply NoDup_seq].
    intros x Hx Hxf. apply elem_of_seq in Hxf.
    rewrite Forall_forall in Hold. specialize (Hold x Hx). lia. }
  destruct (get_connection_loop_run state tasks0 [] fresh1 None Hnd1)
    as (kept & ret & Hrun & Hsub & Hst & Hkeep & Hret).
  cbn [app] in Hrun.
  assert (length kept <= length tasks0)%nat as Hklen by (apply sublist_length, Hsub).
  set (n2 := (64 - length (kept ++ fresh1))%nat).
  exists (match ret with Some t => Pooled t | None => Opened end),
    kept, (fresh1 ++ seq (next_task p + n1) n2).
  assert (length fresh1 = n1) as Hf1 by apply length_seq.
  split.
  { unfold get_connection.
    rewrite register_host_port_run by (fold tasks0; unfold len, MAX_CONNS_IN_POOL; lia).
    fold tasks0. change (Z.to_nat MAX_CONNS_IN_POOL) with 64%nat.
    fold n1. fold fresh1. cbn [pools next_task].
    rewrite lookup_insert_eq. cbn [default]. unfold id.
    rewrite get_connection_loop_app, Hrun. cbn [mbind outcome_bind].
    rewrite get_connection_loop_pending.
    2:{ apply Forall_forall. intros x Hx. apply elem_of_seq in Hx. apply Hfresh. lia. }
    cbn [mbind outcome_bind].
    rewrite register_host_port_run; cbn [pools next_task];
      rewrite lookup_insert_eq; cbn [default]; unfold id.
    2:{ unfold len, MAX_CONNS_IN_POOL. rewrite length_app. lia. }
    change (Z.to_nat MAX_CONNS_IN_POOL) with 64%nat. fold n2.
    rewrite !insert_insert_eq, <- app_assoc, length_app, length_seq, Hf1, Nat.add_assoc.
    destruct ret; reflexivity. }
  split.
  { rewrite length_app, length_seq, Hf1. unfold fresh1. rewrite <- seq_app. reflexivity. }
  split.
  { unfold n2. rewrite !length_app, length_seq.
    change (Z.to_nat MAX_CONNS_IN_POOL) with 64%nat. lia. }
  split; [exact Hsub|]. split; [exact Hst|].
  split.
  { eapply Forall_impl; [exact Hkeep|]. cbn. intros x Hx [Hp|[Hu Hne]]; apply Hx.
    - left. exact Hp.
    - right. split; [exact Hu|]. intros ->. apply Hne. reflexivity. }
  destruct ret as [t|]; exact Hret.
Qed.

(** X19. On a pool with at most 64 distinct tasks per key, the tasks it
    creates not having run yet, [get_connection] does not raise: it hands
    out the first task of the key's pool, in pool order, that is done
    without an exception and whose transport is not closing, and takes that
    task out of the pool; it opens a connection of its own only when the
    pool has no such task. *)
Theorem get_connection_first_usable state key p :
  pool_ok p ->
  (forall t, (next_task p <= t)%nat -> state t = TaskPending) ->
  exists c p',
    get_connection state key p = Ret (c, p')
    /\ match c with
       | Pooled t =>
           (t ∉ default [] (pools p' !! key))
           /\ exists pre post,
                default [] (pools p !! key) = pre ++ t :: post
                /\ task_usable state t
                /\ Forall (fun x => ~ task_usable state x) pre
       | Opened =>
           Forall (fun x => ~ task_usable state x) (default [] (pools p !! key))
       end.
Proof.
  intros Hok Hfresh.
  destruct (get_connection_run state key p Hok Hfresh)
    as (c & kept & fresh & Hrun & Hseq & _ & _ & _ & _ & Hc).
  eexists c, _. split; [exact Hrun|].
  destruct c as [t|]; [|exact Hc].
  destruct Hc as (Hnot & pre & post & Heq & Hus & Hpre).
  split; [|exists pre, post; auto].
  cbn [pools]. rewrite lookup_insert_eq. cbn [default]. unfold id.
  intros Hin. apply elem_of_app in Hin as [Hin|Hin]; [exact (Hnot Hin)|].
  rewrite Hseq in Hin. apply elem_of_seq in Hin.
  specialize (Hfresh t ltac:(lia)). unfold task_usable in Hus. congruence.
Qed.

(** X20. [get_connection] keeps the pool well formed and refills it: the
    key's pool ends with exactly 64 distinct tasks, none of them failed or
    with a closing transport; every task of it that was still connecting,
    and every usable one but the one handed out, stays; and the pools of the
    other keys are left as they were. *)
Theorem get_connection_refills_pool state key p :
  pool_ok p ->
  (forall t, (next_task p <= t)%nat -> state t = TaskPending) ->
  exists c p',
    get_connection state key p = Ret (c, p')
    /\ pool_ok p'
    /\ len (default [] (pools p' !! key)) = MAX_CONNS_IN_POOL
    /\ Forall (fun t => state t = TaskPending \/ state t = TaskDone false)
         (default [] (pools p' !! key))
    /\ Forall (fun t => state t = TaskPending
                        \/ (state t = TaskDone false /\ c <> Pooled t)
                        -> t ∈ default [] (pools p' !! key))
         (default [] (pools p !! key))
    /\ forall key', key' <> key -> pools p' !! key' = pools p !! key'.
Proof.
  intros Hok Hfresh.
  destruct (get_connection_run state key p Hok Hfresh)
    as (c & kept & fresh & Hrun & Hseq & Hlen & Hsub & Hst & Hkeep & _).
  assert (Forall (fun t => (t < next_task p)%nat) (default [] (pools p !! key))) as Hold.
  { destruct (pools p !! key) as [tasks|] eqn:Hkey; cbn [default]; [|constructor].
    apply (Hok key tasks Hkey). }
  assert (NoDup (default [] (pools p !! key))) as Hnd.
  { destruct (pools p !! key) as [tasks|] eqn:Hkey; cbn [default]; [|constructor].
    apply (Hok key tasks Hkey). }
  eexists c, _. split; [exact Hrun|].
  cbn [pools next_task]. rewrite lookup_insert_eq. cbn [default]. unfold id.
  split.
  { intros key' tasks Hkey'. cbn [pools next_task] in *.
    destruct (decide (key' = key)) as [->|Hne].
    - rewrite lookup_insert_eq in Hkey'. injection Hkey' as <-.
      split.
      { apply NoDup_app. split; [eapply sublist_NoDup; eassumption|].
        split; [|rewrite Hseq; apply NoDup_seq].
        intros x Hx Hxf. rewrite Hseq in Hxf. apply elem_of_seq in Hxf.
        rewrite Forall_forall in Hold.
        assert (x ∈ default [] (pools p !! key)) as Hx0
          by (eapply elem_of_submseteq; [exact Hx | apply sublist_submseteq, Hsub]).
        specialize (Hold x Hx0). lia. }
      split; [unfold len; rewrite Hlen; unfold MAX_CONNS_IN_POOL; lia|].
      apply Forall_app. split.
      + apply Forall_forall. intros x Hx. rewrite Forall_forall in Hold.
        assert (x ∈ default [] (pools p !! key)) as Hx0
          by (eapply elem_of_submseteq; [exact Hx | apply sublist_submseteq, Hsub]).
        specialize (Hold x Hx0). lia.
      + apply Forall_forall. intros x Hx. rewrite Hseq in Hx.
        apply elem_of_seq in Hx. lia.
    - rewrite lookup_insert_ne in Hkey' by congruence.
      destruct (Hok key' tasks Hkey') as (Hn & Hl & Ho).
      split; [exact Hn|]. split; [exact Hl|].
      eapply Forall_impl; [exact Ho|]. cbn. intros; lia. }
  split; [unfold len; rewrite Hlen; reflexivity|].
  split.
  { apply Forall_app. split; [exact Hst|].
    apply Forall_forall. intros x Hx. rewrite Hseq in Hx. apply elem_of_seq in Hx.
    left. apply Hfresh. lia. }
  split.
  { eapply Forall_impl; [exact Hkeep|]. cbn. intros x Hx Hp.
    apply elem_of_app. left. apply Hx. exact Hp. }
  intros key' Hne. apply lookup_insert_ne. congruence.
Qed.

(** ** The users' secrets *)

Lemma is_hex_digit_value c :
  is_hex_digit c = true ->
  is_ascii_space c = false /\ exists v, hex_value c = Some v.
Proof.
  destruct c as [[] [] [] [] [] [] [] []]; cbv; try discriminate;
    intros _; (split; [reflexivity | eexists; reflexivity]).
Qed.

Lemma bytes_fromhex_digits : forall (k : nat) (s : list Ascii.ascii),
  length s = (2 * k)%nat ->
  forallb is_hex_digit s = true ->
  exists b, bytes_fromhex s = Ret b /\ length b = k.
Proof.
  induction k as [|k IH]; intros s Hlen Hhex.
  - destruct s; [|discriminate]. exists []. split; reflexivity.
  - destruct s as [|c [|d s]]; try (cbn in Hlen; lia).
    cbn [forallb] in Hhex. apply andb_prop in Hhex as [Hc Hhex].
    apply andb_prop in Hhex as [Hd Hhex].
    destruct (is_hex_digit_value c Hc) as (Hsp & hi & Hhi).
    destruct (is_hex_digit_value d Hd) as (_ & lo & Hlo).
    destruct (IH s) as (b & Hb & Hbl); [cbn in Hlen; lia | exact Hhex |].
    exists (z2b (16 * hi + lo) :: b). cbn [bytes_fromhex].
    rewrite Hsp, Hhi, Hlo, Hb. split; [reflexivity | cbn; lia].
Qed.

Lemma forallb_sub_non_hex s : forallb is_hex_digit (sub_non_hex s) = true.
Proof.
  unfold sub_non_hex. induction s as [|c s IH]; [reflexivity|].
  cbn [List.filter]. destruct (is_hex_digit c) eqn:Hc; [|exact IH].
  cbn [forallb]. rewrite Hc, IH. reflexivity.
Qed.

(** After the digits are picked out no sign is left, so [zfill] pads on the
    very left. *)
Lemma zfill_sub_non_hex s :
  zfill 32 (sub_non_hex s)
  = replicate (32 - length (sub_non_hex s)) char_0 ++ sub_non_hex s.
Proof.
  unfold zfill. pose proof (forallb_sub_non_hex s) as Hhex.
  destruct (sub_non_hex s) as [|c h]; [rewrite app_nil_r; reflexivity|].
  cbn [forallb] in Hhex. apply andb_prop in Hhex as [Hc _].
  destruct (Ascii.eqb c char_plus) eqn:Hp.
  { apply Ascii.eqb_eq in Hp. subst c. discriminate. }
  destruct (Ascii.eqb c char_minus) eqn:Hm.
  { apply Ascii.eqb_eq in Hm. subst c. discriminate. }
  reflexivity.
Qed.

Lemma forallb_replicate_zero n : forallb is_hex_digit (replicate n char_0) = true.
Proof. induction n as [|n IH]; [reflexivity|]. cbn [replicate forallb]. exact IH. Qed.

Lemma forallb_take {A} (f : A -> bool) n (l : list A) :
  forallb f l = true -> forallb f (take n l) = true.
Proof.
  revert n. induction l as [|x l IH]; intros [|n] H; try reflexivity.
  cbn [take forallb] in *. apply andb_prop in H as [-> H]. exact (IH n H).
Qed.

(** X21. Whatever string a user's secret is in [users.toml], after
    [init_config] it is 32 hexadecimal digits, and [bytes.fromhex] turns it
    into 16 bytes without raising.  A well-formed secret is kept; otherwise
    the hexadecimal digits of the string are kept in their order, zeros are
    put before them when they are fewer than 32, and what follows the 32nd
    is dropped. *)
Theorem init_config_secret_normalised (secret : list Ascii.ascii) :
  fullmatch_hex32 (init_config_secret secret) = true
  /\ (exists b, bytes_fromhex (init_config_secret secret) = Ret b /\ length b = 16%nat)
  /\ (fullmatch_hex32 secret = true -> init_config_secret secret = secret)
  /\ (fullmatch_hex32 secret = false ->
      (length (sub_non_hex secret) <= 32)%nat ->
      init_config_secret secret
      = replicate (32 - length (sub_non_hex secret)) char_0 ++ sub_non_hex secret)
  /\ (fullmatch_hex32 secret = false ->
      (32 <= length (sub_non_hex secret))%nat ->
      init_config_secret secret = take 32 (sub_non_hex secret)).
Proof.
  set (fixed := init_config_secret secret). set (digits := sub_non_hex secret).
  assert (fullmatch_hex32 fixed = true) as Hfull.
  { unfold fixed, init_config_secret.
    destruct (fullmatch_hex32 secret) eqn:Hs; cbn [negb]; [exact Hs|].
    rewrite zfill_sub_non_hex. unfold fullmatch_hex32.
    apply andb_true_intro. split.
    - apply Nat.eqb_eq. rewrite length_take, length_app, length_replicate. lia.
    - apply forallb_take. rewrite forallb_app, forallb_replicate_zero.
      apply forallb_sub_non_hex. }
  split; [exact Hfull|].
  split.
  { unfold fullmatch_hex32 in Hfull. apply andb_prop in Hfull as [Hlen Hhex].
    apply Nat.eqb_eq in Hlen. apply (bytes_fromhex_digits 16); assumption. }
  unfold fixed, init_config_secret, digits.
  split; [intros ->; reflexivity|].
  split; intros -> Hlen; cbn [negb]; rewrite zfill_sub_non_hex.
  - apply firstn_all2. rewrite length_app, length_replicate. lia.
  - replace (32 - length (sub_non_hex secret))%nat with 0%nat by lia. reflexivity.
Qed.

(** ** The clock check *)

(** What every [Date: ] line keeps, the whole loop keeps. *)
Lemma get_srv_time_lines_inv (P : time_sync -> Prop) total_seconds use_middle_proxy :
  (forall secs st, P st -> P (get_srv_time_date use_middle_proxy secs st)) ->
  forall lines k st,
    P st -> P (get_srv_time_lines total_seconds use_middle_proxy lines k st).2.
Proof.
  intros Hstep. induction lines as [|line lines IH]; intros k st HP;
    cbn [get_srv_time_lines]; [exact HP|].
  destruct (negb (startswith line _)); [apply IH, HP|].
  destruct (total_seconds k (drop 6 line)) as [secs|e]; [|exact HP].
  apply IH, Hstep, HP.
Qed.

Lemma get_srv_time_loop_inv (P : time_sync -> Prop) total_seconds use_middle_proxy :
  (forall secs st, P st -> P (get_srv_time_date use_middle_proxy secs st)) ->
  forall replies k st,
    P st -> P (get_srv_time_loop total_seconds use_middle_proxy replies k st).
Proof.
  intros Hstep. induction replies as [|[headers|e] replies IH]; intros k st HP;
    cbn [get_srv_time_loop]; [exact HP | | apply IH, HP].
  pose proof (get_srv_time_lines_inv P total_seconds use_middle_proxy Hstep
                (split_crlf [] headers) k st HP) as Hl.
  destruct (get_srv_time_lines _ _ _ _ _) as [k' st']. apply IH, Hl.
Qed.

(** X22. [get_srv_time] re-enables the middle proxy only after having
    disabled it itself: when it starts with the middle proxy disabled (as
    [init_ip_info] leaves it when no address is found), the middle proxy
    stays disabled whatever the time server answers; with
    [use_middle_proxy] off it never touches the flag; and started with both
    globals off and [use_middle_proxy] on, it keeps [disable_middle_proxy]
    equal to [is_time_skewed]. *)
Theorem get_srv_time_reenables_only_its_own total_seconds use_middle_proxy replies
    (is_time_skewed disable_middle_proxy : bool) :
  (disable_middle_proxy = true ->
   ts_disable_middle_proxy
     (get_srv_time total_seconds use_middle_proxy replies
        is_time_skewed disable_middle_proxy) = true)
  /\ (use_middle_proxy = false ->
      ts_disable_middle_proxy
        (get_srv_time total_seconds use_middle_proxy replies
           is_time_skewed disable_middle_proxy) = disable_middle_proxy)
  /\ (use_middle_proxy = true -> disable_middle_proxy = false -> is_time_skewed = false ->
      ts_disable_middle_proxy
        (get_srv_time total_seconds use_middle_proxy replies
           is_time_skewed disable_middle_proxy)
      = ts_is_time_skewed
          (get_srv_time total_seconds use_middle_proxy replies
             is_time_skewed disable_middle_proxy)).
Proof.
  unfold get_srv_time. split; [|split].
  - intros ->.
    apply (get_srv_time_loop_inv
             (fun st => ts_disable_middle_proxy st = true
                        /\ ts_want_to_reenable_advertising st = false)).
    + intros secs [s d w] [Hd Hw]. cbn in Hd, Hw. subst d w.
      unfold get_srv_time_date. cbn [ts_disable_middle_proxy ts_want_to_reenable_advertising].
      destruct (negb (Qle_bool secs MAX_TIME_SKEW)), use_middle_proxy; cbn; auto.
    + cbn. auto.
  - intros ->.
    apply (get_srv_time_loop_inv
             (fun st => ts_disable_middle_proxy st = disable_middle_proxy
                        /\ ts_want_to_reenable_advertising st = false)).
    + intros secs [s d w] [Hd Hw]. cbn in Hd, Hw. subst d w.
      unfold get_srv_time_date. cbn [ts_disable_middle_proxy ts_want_to_reenable_advertising].
      destruct (negb (Qle_bool secs MAX_TIME_SKEW)); cbn; auto.
    + cbn. auto.
  - intros -> -> ->.
    apply (get_srv_time_loop_inv
             (fun st => ts_disable_middle_proxy st = ts_is_time_skewed st
                        /\ ts_want_to_reenable_advertising st = ts_disable_middle_proxy st)).
    + intros secs [s d w] [Hd Hw]. cbn in Hd, Hw. subst d w.
      unfold get_srv_time_date. cbn [ts_disable_middle_proxy ts_want_to_reenable_advertising].
      destruct (negb (Qle_bool secs MAX_TIME_SKEW)), s; cbn; auto.
    + cbn. auto.
Qed.

(** ** The decrypting reader *)

Section CryptoReader.

(** AES in CTR and in CBC mode give as many bytes as they get. *)
Hypothesis decrypt_length :
  forall (d : C) (data : bytes), length (decrypt d data).1 = length data.

Lemma CryptoWrappedStreamReader_readexactly_run (r : CryptoWrappedStreamReader C) (n : Z) :
  0 < cr_block_size r ->
  0 <= n ->
  n + cr_block_size r <= len (cr_buf r) + len (cr_upstream r) ->
  exists data r' chunks,
    CryptoWrappedStreamReader_readexactly r n = Ret (data, r')
    /\ len data = n
    /\ cr_block_size r' = cr_block_size r
    /\ cr_upstream r = concat chunks ++ cr_upstream r'
    /\ Forall (fun chunk => len chunk mod cr_block_size r = 0) chunks
    /\ data ++ cr_buf r' = cr_buf r ++ (decrypt_each (cr_decryptor r) chunks).1
    /\ cr_decryptor r' = (decrypt_each (cr_decryptor r) chunks).2
    /\ len (cr_buf r') + len (cr_upstream r') = len (cr_buf r) + len (cr_upstream r) - n.
Proof using decrypt_length.
  intros Hbs Hn Hroom. unfold CryptoWrappedStreamReader_readexactly.
  destruct r as [up d bs buf]. cbn [cr_upstream cr_decryptor cr_block_size cr_buf] in *.
  case_decide as Hmore.
  - rewrite decide_False by lia.
    pose proof (Z.mod_pos_bound (- (n - len buf)) bs Hbs) as Hmod.
    set (aligned := n - len buf + (- (n - len buf)) mod bs).
    assert (aligned mod bs = 0) as Hal.
    { unfold aligned. rewrite Zplus_mod_idemp_r.
      replace (n - len buf + - (n - len buf)) with 0 by lia. apply Zmod_0_l. }
    assert (n - len buf <= aligned < n - len buf + bs) as Hab by (unfold aligned; lia).
    clearbody aligned. clear Hmod.
    unfold readexactly. rewrite decide_False by lia.
    rewrite decide_True by lia.
    cbn [mbind outcome_bind].
    pose proof (decrypt_length d (take (Z.to_nat aligned) up)) as Hpl.
    destruct (decrypt d (take (Z.to_nat aligned) up)) as [plain d'] eqn:Hdec.
    cbn [fst] in Hpl. cbn [mbind outcome_bind cr_buf cr_upstream cr_decryptor cr_block_size].
    assert (length (take (Z.to_nat aligned) up) = Z.to_nat aligned) as Htl.
    { rewrite length_take. unfold len in *. lia. }
    eexists _, _, [take (Z.to_nat aligned) up]. split; [reflexivity|].
    cbn [cr_buf cr_upstream cr_decryptor cr_block_size concat decrypt_each].
    rewrite Hdec. cbn [fst snd]. rewrite !app_nil_r.
    unfold slice_to, slice_from. rewrite !decide_True by lia.
    split.
    { unfold len. rewrite length_take, length_app. unfold len in *. lia. }
    split; [reflexivity|].
    split; [symmetry; apply take_drop|].
    split.
    { constructor; [|constructor]. unfold len. rewrite Htl.
      rewrite Z2Nat.id by lia. exact Hal. }
    split; [apply take_drop|]. split; [reflexivity|].
    unfold len. rewrite !length_drop, length_app. unfold len in *. lia.
  - cbn [mbind outcome_bind cr_buf cr_upstream cr_decryptor cr_block_size].
    eexists _, _, []. split; [reflexivity|].
    cbn [cr_buf cr_upstream cr_decryptor cr_block_size concat decrypt_each fst snd].
    unfold slice_to, slice_from. rewrite !decide_True by lia. rewrite app_nil_r.
    split.
    { unfold len. rewrite length_take. unfold len in *. lia. }
    split; [reflexivity|]. split; [reflexivity|]. split; [constructor|].
    split; [apply take_drop|]. split; [reflexivity|].
    unfold len. rewrite length_drop. unfold len in *. lia.
Qed.

Lemma decrypt_each_app (d : C) (xs ys : list bytes) :
  decrypt_each d (xs ++ ys)
  = ((decrypt_each d xs).1 ++ (decrypt_each (decrypt_each d xs).2 ys).1,
     (decrypt_each (decrypt_each d xs).2 ys).2).
Proof.
  revert d. induction xs as [|x xs IH]; intros d; cbn [app decrypt_each].
  - cbn [fst snd app]. destruct (decrypt_each d ys). reflexivity.
  - destruct (decrypt d x) as [plain d1]. rewrite IH.
    destruct (decrypt_each d1 xs) as [p1 d2]. cbn [fst snd].
    destruct (decrypt_each d2 ys) as [p2 d3]. cbn [fst snd].
    rewrite app_assoc. reflexivity.
Qed.

(** X23. A [CryptoWrappedStreamReader] over a length-preserving cipher is a
    faithful stream: asked for [ns] bytes in turn, with [block_size] bytes
    to spare upstream, every [readexactly] returns exactly the number of
    bytes asked for; the cipher is only ever given whole blocks, each
    upstream byte once and in order; and what was returned, followed by
    what is left in the buffer, is the old buffer followed by the
    plaintexts. *)
Theorem crypto_reader_stream (r : CryptoWrappedStreamReader C) (ns : list Z) :
  0 < cr_block_size r ->
  Forall (fun n => 0 <= n) ns ->
  sum_Z ns + cr_block_size r <= len (cr_buf r) + len (cr_upstream r) ->
  exists datas r' chunks,
    CryptoWrappedStreamReader_readexactly_each r ns = Ret (datas, r')
    /\ Forall2 (fun data n => len data = n) datas ns
    /\ cr_upstream r = concat chunks ++ cr_upstream r'
    /\ Forall (fun chunk => len chunk mod cr_block_size r = 0) chunks
    /\ concat datas ++ cr_buf r' = cr_buf r ++ (decrypt_each (cr_decryptor r) chunks).1
    /\ cr_decryptor r' = (decrypt_each (cr_decryptor r) chunks).2.
Proof using decrypt_length.
  revert r. induction ns as [|n ns IH]; intros r Hbs Hns Hroom.
  - exists [], r, []. cbn. rewrite app_nil_r. repeat split; constructor.
  - apply Forall_cons in Hns as [Hn Hns]. cbn [sum_Z foldr] in Hroom.
    fold (sum_Z ns) in Hroom.
    assert (0 <= sum_Z ns) as Hsum.
    { clear -Hns. induction Hns; cbn; [lia|]. fold (sum_Z l). lia. }
    destruct (CryptoWrappedStreamReader_readexactly_run r n Hbs Hn ltac:(lia))
      as (data & r1 & chunks1 & Hrun & Hlen & Hbs1 & Hup & Hal & Hcat & Hd & Hleft).
    destruct (IH r1) as (datas & r' & chunks2 & Hrun2 & Hlens & Hup2 & Hal2 & Hcat2 & Hd2);
      [lia | exact Hns | lia |].
    exists (data :: datas), r', (chunks1 ++ chunks2).
    cbn [CryptoWrappedStreamReader_readexactly_each].
    rewrite Hrun. cbn [mbind outcome_bind]. rewrite Hrun2. cbn [mbind outcome_bind].
    split; [reflexivity|].
    split; [constructor; assumption|].
    split; [rewrite concat_app, <- app_assoc, <- Hup2; exact Hup|].
    split; [apply Forall_app; split; [exact Hal | rewrite <- Hbs1; exact Hal2]|].
    rewrite decrypt_each_app. cbn [fst snd concat]. rewrite <- Hd.
    split; [|exact Hd2].
    rewrite <- app_assoc, Hcat2, !app_assoc. f_equal. exact Hcat.
Qed.

End CryptoReader.

(** ** The random source *)

Section RandomSource.
Variable super_getrandbits : nat -> Z.

(** AES in CTR mode gives as many bytes as it gets, and
    [random.Random.getrandbits(k)] is below [2 ** k]. *)
Hypothesis encrypt_length :
  forall (e : C) (data : bytes), length (encrypt e data).1 = length data.
Hypothesis super_getrandbits_range :
  forall i, 0 <= super_getrandbits i < 2 ^ 4096.

Lemma MyRandom_fill_run : forall (fuel : nat) (r : MyRandom C) (n : Z),
  n - len (mr_buffer r) <= 512 * Z.of_nat fuel ->
  exists r' m,
    MyRandom_fill fuel super_getrandbits r n = Some (Ret r')
    /\ n <= len (mr_buffer r')
    /\ mr_drawn r' = (mr_drawn r + m)%nat
    /\ mr_buffer r'
       = mr_buffer r
         ++ (encrypt_each (mr_encryptor r)
               ((fun i => rev (le_bytes 512 (super_getrandbits i)))
                  <$> seq (mr_drawn r) m)).1
    /\ mr_encryptor r'
       = (encrypt_each (mr_encryptor r)
            ((fun i => rev (le_bytes 512 (super_getrandbits i)))
               <$> seq (mr_drawn r) m)).2.
Proof using encrypt_length super_getrandbits_range.
  induction fuel as [|fuel IH]; intros r n Hfuel.
  - exists r, 0%nat. cbn [MyRandom_fill]. rewrite decide_False by lia.
    cbn. rewrite app_nil_r, Nat.add_0_r. repeat split; try reflexivity. lia.
  - cbn [MyRandom_fill]. case_decide as Hmore.
    + unfold int_to_bytes_be, int_to_bytes_le.
      rewrite decide_True
        by (change (256 ^ Z.of_nat 512) with (2 ^ 4096); apply super_getrandbits_range).
      cbn [mbind outcome_bind mret outcome_ret].
      pose proof (encrypt_length (mr_encryptor r)
                    (rev (le_bytes 512 (super_getrandbits (mr_drawn r))))) as Hq.
      destruct (encrypt (mr_encryptor r) _) as [q e] eqn:Henc. cbn [fst] in Hq.
      rewrite length_rev, length_le_bytes in Hq.
      destruct (IH {| mr_encryptor := e; mr_buffer := mr_buffer r ++ q;
                      mr_drawn := S (mr_drawn r) |} n)
        as (r' & m & Hrun & Hn & Hdr & Hbuf & Hcip).
      { cbn [mr_buffer]. unfold len in *. rewrite length_app. lia. }
      cbn [mr_buffer mr_drawn mr_encryptor] in *.
      exists r', (S m). split; [exact Hrun|]. split; [exact Hn|].
      split; [lia|].
      cbn [seq fmap list_fmap encrypt_each]. rewrite Henc.
      change (list_fmap _ _ ?f ?l) with (f <$> l).
      destruct (encrypt_each e _) as [rest e'] eqn:Hrest. cbn [fst snd] in *.
      split; [rewrite Hbuf, <- app_assoc; reflexivity | exact Hcip].
    + exists r, 0%nat. cbn. rewrite app_nil_r, Nat.add_0_r.
      repeat split; try reflexivity. lia.
Qed.

(** X24. Over a cipher that gives as many bytes as it gets,
    [MyRandom.getrandbytes(n)] returns exactly [n] bytes and never hands out
    a byte of its key stream twice: what it returns, followed by what it
    leaves in the buffer, is the old buffer followed by the encryptions of
    the 512-byte chunks it drew meanwhile; the loop ends within the turns
    that [n] bytes take. *)
Theorem getrandbytes_stream (fuel : nat) (r : MyRandom C) (n : Z) :
  0 <= n ->
  n - len (mr_buffer r) <= 512 * Z.of_nat fuel ->
  exists result r' m,
    MyRandom_getrandbytes fuel super_getrandbits r n = Some (Ret (result, r'))
    /\ len result = n
    /\ mr_drawn r' = (mr_drawn r + m)%nat
    /\ result ++ mr_buffer r'
       = mr_buffer r
         ++ (encrypt_each (mr_encryptor r)
               ((fun i => rev (le_bytes 512 (super_getrandbits i)))
                  <$> seq (mr_drawn r) m)).1
    /\ mr_encryptor r'
       = (encrypt_each (mr_encryptor r)
            ((fun i => rev (le_bytes 512 (super_getrandbits i)))
               <$> seq (mr_drawn r) m)).2.
Proof using encrypt_length super_getrandbits_range.
  intros Hn Hfuel.
  destruct (MyRandom_fill_run fuel r n Hfuel) as (r1 & m & Hrun & Hlen & Hdr & Hbuf & Hcip).
  unfold MyRandom_getrandbytes. rewrite Hrun.
  eexists _, _, m. split; [reflexivity|].
  cbn [mr_buffer mr_drawn mr_encryptor].
  unfold slice_to, slice_from. rewrite !decide_True by lia.
  split; [unfold len in *; rewrite length_take; lia|].
  split; [exact Hdr|]. split; [|exact Hcip].
  rewrite take_drop. exact Hbuf.
Qed.

(** X25. Over a cipher that gives as many bytes as it gets,
    [MyRandom.getrandbits(k)] returns an integer of at most [k] bits, as
    [random.Random] expects of the method it builds [randrange] on. *)
Theorem getrandbits_range (fuel : nat) (r : MyRandom C) (k : Z) :
  0 <= k ->
  (k + 7) / 8 - len (mr_buffer r) <= 512 * Z.of_nat fuel ->
  exists v r',
    MyRandom_getrandbits fuel super_getrandbits r k = Some (Ret (v, r'))
    /\ 0 <= v < 2 ^ k.
Proof using encrypt_length super_getrandbits_range.
  intros Hk Hfuel.
  assert (0 <= (k + 7) / 8) as Hnb by (apply Z.div_pos; lia).
  destruct (MyRandom_fill_run fuel r ((k + 7) / 8) Hfuel)
    as (r1 & m & Hrun & Hlen & _).
  unfold MyRandom_getrandbits, MyRandom_getrandbytes. rewrite Hrun.
  eexists _, _. split; [reflexivity|].
  unfold slice_to. rewrite decide_True by lia.
  set (b := take (Z.to_nat ((k + 7) / 8)) (mr_buffer r1)).
  assert (len b = (k + 7) / 8) as Hb.
  { unfold b, len in *. rewrite length_take. lia. }
  unfold int_from_bytes_be.
  pose proof (le_value_range (rev b)) as Hv.
  replace (len (rev b)) with ((k + 7) / 8) in Hv
    by (unfold len in *; rewrite length_rev; lia).
  set (nb := (k + 7) / 8) in *.
  assert (k <= nb * 8) as Hge.
  { unfold nb. pose proof (Z.mod_pos_bound (k + 7) 8 ltac:(lia)).
    pose proof (Z.div_mod (k + 7) 8 ltac:(lia)). lia. }
  rewrite Z.shiftr_div_pow2 by lia.
  split; [apply Z.div_pos; [lia | apply Z.pow_pos_nonneg; lia]|].
  apply Z.div_lt_upper_bound; [apply Z.pow_pos_nonneg; lia|].
  rewrite <- Z.pow_add_r by lia.
  replace (nb * 8 - k + k) with (8 * nb) by lia.
  rewrite Z.pow_mul_r by lia. change (2 ^ 8) with 256. lia.
Qed.

End RandomSource.

(** ** The PROXY protocol header *)

(** A version 2 header with the PROXY command, an address block of the
    family's layout and any TLVs after it. *)
Lemma proxy2_header_run readuntil_crlf int_of_str inet_ntop
    (v6 : bool) (fam_proto : byte) (len_bytes src dst sport dport tlv rest : bytes)
    (peer : string * Z) (addr : string) :
  let block := src ++ dst ++ sport ++ dport ++ tlv in
  Z.shiftr (b2z fam_proto) 4 = (if v6 then 2 else 1) ->
  length src = (if v6 then 16 else 4)%nat ->
  length dst = length src ->
  length sport = 2%nat ->
  length dport = 2%nat ->
  int_to_bytes_be (len block) 2 = Ret len_bytes ->
  inet_ntop v6 src = Ret addr ->
  ProxyProtocol.handle_proxy_protocol readuntil_crlf int_of_str inet_ntop
    (ProxyProtocol.PROXY2_SIGNATURE ++ [x21; fam_proto] ++ len_bytes ++ block ++ rest) peer
  = Ret (Some (addr, int_from_bytes_be sport), rest).
Proof.
  intros block Hfam Hsrc Hdst Hsport Hdport Hlen Hntop.
  assert (0 <= len block < 256 ^ Z.of_nat 2) as Hrange.
  { unfold int_to_bytes_be, int_to_bytes_le in Hlen. case_decide; [assumption|discriminate]. }
  destruct (int_from_to_bytes_be (len block) 2 Hrange) as [Hw Hr].
  rewrite Hw in Hlen. injection Hlen as <-.
  cbn [le_bytes rev app] in Hr |- *.
  set (hi := z2b (len block / 256 mod 256)) in *.
  set (lo := z2b (len block mod 256)) in *.
  unfold ProxyProtocol.handle_proxy_protocol, ProxyProtocol.PROXY2_SIGNATURE.
  change ([x0d; x0a; x0d; x0a; x00; x0d; x0a; x51; x55; x49; x54; x0a]
          ++ x21 :: fam_proto :: hi :: lo :: block ++ rest)
    with ([x0d; x0a; x0d; x0a; x00; x0d]
          ++ [x0a; x51; x55; x49; x54; x0a; x21; fam_proto; hi; lo] ++ block ++ rest).
  rewrite readexactly_app by reflexivity. cbn [mbind outcome_bind].
  change (startswith [x0d; x0a; x0d; x0a; x00; x0d] ProxyProtocol.PROXY_SIGNATURE)
    with false. cbv iota.
  rewrite readexactly_app by reflexivity. cbn [mbind outcome_bind app].
  rewrite startswith_true by reflexivity.
  cbn [ProxyProtocol.byte_at lookup list_lookup mbind outcome_bind].
  change (b2z x21) with 33. rewrite decide_False by (intros H; apply H; reflexivity).
  change (slice 14 16 _) with [hi; lo]. rewrite Hr.
  rewrite readexactly_app by reflexivity. cbn [mbind outcome_bind].
  rewrite decide_True by reflexivity.
  assert (length dst = (if v6 then 16 else 4)%nat) as Hdst' by congruence.
  assert (len block = len src + len dst + 4 + len tlv) as Hbl.
  { unfold block, len. rewrite !length_app. lia. }
  assert (slice 0 (length src) block = src) as Hs0.
  { unfold slice, block. rewrite drop_0, Nat.sub_0_r. apply take_app_length. }
  assert (slice (length src + length dst) (length src + length dst + 2) block = sport)
    as Hs1.
  { unfold slice, block.
    replace (length src + length dst + 2 - (length src + length dst))%nat with 2%nat by lia.
    rewrite drop_app_add', drop_app_length' by reflexivity.
    rewrite <- Hsport. apply take_app_length. }
  destruct v6; rewrite Hfam.
  - rewrite decide_False by discriminate. rewrite decide_True by reflexivity.
    rewrite decide_True by (unfold len in *; lia).
    rewrite Hsrc, Hdst' in *. cbn [Nat.add] in Hs1.
    rewrite Hs0, Hntop. cbn [mbind outcome_bind]. rewrite Hs1. reflexivity.
  - rewrite decide_True by reflexivity.
    rewrite decide_True by (unfold len in *; lia).
    rewrite Hsrc, Hdst' in *. cbn [Nat.add] in Hs1.
    rewrite Hs0, Hntop. cbn [mbind outcome_bind]. rewrite Hs1. reflexivity.
Qed.

(** Sixteen bytes that begin neither a version 1 nor a version 2 header. *)
Lemma no_proxy_header_run readuntil_crlf int_of_str inet_ntop
    (first rest : bytes) (peer : string * Z) :
  length first = 16%nat ->
  startswith first ProxyProtocol.PROXY_SIGNATURE = false ->
  startswith first ProxyProtocol.PROXY2_SIGNATURE = false ->
  ProxyProtocol.handle_proxy_protocol readuntil_crlf int_of_str inet_ntop
    (first ++ rest) peer
  = Ret (None, rest).
Proof.
  intros Hlen Hv1 Hv2. unfold ProxyProtocol.handle_proxy_protocol.
  rewrite <- (take_drop 6 first), <- app_assoc.
  rewrite readexactly_app
    by (unfold len, ProxyProtocol.PROXY_MIN_LEN; rewrite length_take; lia).
  cbn [mbind outcome_bind].
  replace (startswith (take 6 first) ProxyProtocol.PROXY_SIGNATURE) with false.
  2:{ rewrite <- Hv1. unfold startswith. cbn [length ProxyProtocol.PROXY_SIGNATURE].
      rewrite take_take. reflexivity. }
  rewrite readexactly_app
    by (unfold len, ProxyProtocol.PROXY_MIN_LEN, ProxyProtocol.PROXY2_MIN_LEN;
        rewrite length_drop; lia).
  cbn [mbind outcome_bind]. rewrite take_drop, Hv2. reflexivity.
Qed.

Lemma split_space_word (w : bytes) : forall word,
  x20 ∉ w -> ProxyProtocol.split_space word w = [word ++ w].
Proof.
  induction w as [|c w IH]; intros word Hw; cbn [ProxyProtocol.split_space].
  - rewrite app_nil_r. reflexivity.
  - rewrite decide_False by (intros ->; apply Hw; left).
    rewrite IH by (intros H; apply Hw; right; exact H).
    rewrite <- app_assoc. reflexivity.
Qed.

Lemma split_space_app (w b : bytes) : forall word,
  x20 ∉ w ->
  ProxyProtocol.split_space word (w ++ x20 :: b)
  = (word ++ w) :: ProxyProtocol.split_space [] b.
Proof.
  induction w as [|c w IH]; intros word Hw; cbn [app ProxyProtocol.split_space].
  - rewrite decide_True by reflexivity. rewrite app_nil_r. reflexivity.
  - rewrite decide_False by (intros ->; apply Hw; left).
    rewrite IH by (intros H; apply Hw; right; exact H).
    rewrite <- app_assoc. reflexivity.
Qed.

(** A version 1 header for TCP over IPv4 or IPv6: four words after the
    family. *)
Lemma proxy1_header_run readuntil_crlf int_of_str inet_ntop
    (proxy_fam src dst sport dport rest : bytes) (peer : string * Z)
    (addr port_str : string) (port : Z) :
  let line := proxy_fam ++ [x20] ++ src ++ [x20] ++ dst ++ [x20] ++ sport
              ++ [x20] ++ dport ++ [x0d; x0a] in
  proxy_fam ∈ [ProxyProtocol.PROXY_TCP4; ProxyProtocol.PROXY_TCP6] ->
  (x20 ∉ src) -> (x20 ∉ dst) -> (x20 ∉ sport) -> (x20 ∉ dport) ->
  readuntil_crlf (line ++ rest) = Ret (line, rest) ->
  ProxyProtocol.decode_ascii src = Ret addr ->
  ProxyProtocol.decode_ascii sport = Ret port_str ->
  int_of_str port_str = Ret port ->
  ProxyProtocol.handle_proxy_protocol readuntil_crlf int_of_str inet_ntop
    (ProxyProtocol.PROXY_SIGNATURE ++ line ++ rest) peer
  = Ret (Some (addr, port), rest).
Proof.
  intros line Hfam Hsrc Hdst Hsport Hdport Hread Haddr Hpstr Hport.
  unfold ProxyProtocol.handle_proxy_protocol.
  rewrite readexactly_app by reflexivity. cbn [mbind outcome_bind].
  rewrite startswith_true by reflexivity.
  rewrite Hread. cbn [mbind outcome_bind].
  assert (x20 ∉ proxy_fam) as Hf.
  { apply elem_of_cons in Hfam as [->|Hfam];
      [|apply list_elem_of_singleton in Hfam as ->];
      (intros H; repeat (apply elem_of_cons in H as [H|H]; [discriminate H|]);
       apply elem_of_nil in H; exact H). }
  assert (ProxyProtocol.PROXY_SIGNATURE ++ line
          = ([x50; x52; x4f; x58; x59] ++ x20 :: proxy_fam ++ x20 :: src ++ x20 :: dst
             ++ x20 :: sport ++ x20 :: dport) ++ [x0d; x0a]) as ->.
  { unfold line, ProxyProtocol.PROXY_SIGNATURE. cbn [app].
    repeat (rewrite <- app_assoc; cbn [app]). reflexivity. }
  rewrite length_app. cbn [length]. rewrite Nat.add_sub, take_app_length.
  rewrite split_space_app
    by (intros H; repeat (apply elem_of_cons in H as [H|H]; [discriminate H|]);
        apply elem_of_nil in H; exact H).
  rewrite !split_space_app by assumption.
  rewrite split_space_word by assumption. cbn [app].
  rewrite bool_decide_eq_true_2 by exact Hfam.
  rewrite Haddr. cbn [mbind outcome_bind]. rewrite Hpstr. cbn [mbind outcome_bind].
  rewrite Hport. reflexivity.
Qed.

(** ** The middle proxy on a host with an IPv6 address *)

Lemma setdefault_lookup_ne k k' v (d : gmap string MiddleProxy.pyval) :
  k <> k' -> MiddleProxy.setdefault k v d !! k' = d !! k'.
Proof.
  intros Hne. unfold MiddleProxy.setdefault.
  destruct (d !! k); [reflexivity|]. apply lookup_insert_ne. exact Hne.
Qed.

(** [init_config] gives [config["proxy"]] no key of its own that the file
    did not spell the same way: in particular none called [PREFER_IPV6]. *)
Lemma init_config_proxy_PREFER_IPV6 domain ad_tag_len period timeout has_ipv6 file proxy :
  MiddleProxy.init_config_proxy domain ad_tag_len period timeout has_ipv6 file = inr proxy ->
  proxy !! "PREFER_IPV6" = file !! "PREFER_IPV6".
Proof.
  unfold MiddleProxy.init_config_proxy.
  destruct (if MiddleProxy.pyval_truthy _ then _ else _) as [e|[]]; [discriminate|].
  intros Hrun. injection Hrun as <-.
  rewrite !setdefault_lookup_ne by discriminate. reflexivity.
Qed.

(** Without [caddy_reverse_proxy] in the file, [init_config] goes through. *)
Lemma init_config_proxy_runs domain ad_tag_len period timeout has_ipv6
    (file : gmap string MiddleProxy.pyval) :
  file !! "caddy_reverse_proxy" = None ->
  exists proxy,
    MiddleProxy.init_config_proxy domain ad_tag_len period timeout has_ipv6 file
    = inr proxy.
Proof.
  intros Hfile.
  assert (MiddleProxy.setdefault "caddy_reverse_proxy" (MiddleProxy.PyBool false) file
          !! "caddy_reverse_proxy" = Some (MiddleProxy.PyBool false)) as Hcaddy.
  { unfold MiddleProxy.setdefault. rewrite Hfile. apply lookup_insert_eq. }
  unfold MiddleProxy.init_config_proxy. cbv zeta. rewrite Hcaddy.
  cbn [default MiddleProxy.pyval_truthy]. eexists. reflexivity.
Qed.

(** X29. On a host for which an IPv6 address is known,
    [do_middleproxy_handshake] raises [KeyError] for the key [PREFER_IPV6]
    before it looks for a middle proxy, unless the configuration file
    itself has that key in its [proxy] table: [init_config] provides the
    default under the name [prefer_ipv6] only.  Without a known IPv6
    address the table is not looked at. *)
Theorem middleproxy_prefer_ipv6_key_error {conn : Type}
    domain ad_tag_len period timeout has_ipv6 (file proxy : gmap string MiddleProxy.pyval)
    (my_ip_info : MiddleProxy.ip_info) V4 V6 randbelow
    (get_connection : string -> Z -> MiddleProxy.error + conn) (dc_idx : Z) :
  MiddleProxy.init_config_proxy domain ad_tag_len period timeout has_ipv6 file = inr proxy ->
  file !! "PREFER_IPV6" = None ->
  (MiddleProxy.ip_truthy (MiddleProxy.ipv6 my_ip_info) = true ->
   MiddleProxy.do_middleproxy_handshake proxy my_ip_info V4 V6 randbelow get_connection
     dc_idx
   = inl (MiddleProxy.KeyError "PREFER_IPV6"))
  /\ (MiddleProxy.ip_truthy (MiddleProxy.ipv6 my_ip_info) = false ->
      forall proxy',
        MiddleProxy.do_middleproxy_handshake proxy my_ip_info V4 V6 randbelow
          get_connection dc_idx
        = MiddleProxy.do_middleproxy_handshake proxy' my_ip_info V4 V6 randbelow
            get_connection dc_idx).
Proof.
  intros Hinit Hfile.
  pose proof (init_config_proxy_PREFER_IPV6 _ _ _ _ _ _ _ Hinit) as Hkey.
  rewrite Hfile in Hkey. unfold MiddleProxy.do_middleproxy_handshake.
  split; intros ->; [rewrite Hkey; reflexivity|]. reflexivity.
Qed.
(** * Invariants of the proxy state *)

Lemma maintains_ret {A} I (a : A) : maintains I (mret a).
Proof. intros w r w' H. inversion H; subst. trivial. Qed.

Lemma maintains_lift {A} I (o : outcome A) : maintains I (lift o).
Proof. intros w r w' H. inversion H; subst. trivial. Qed.

Lemma maintains_get I : maintains I get_world.
Proof. intros w r w' H. inversion H; subst. trivial. Qed.

Lemma maintains_bind {A B} I (m : M A) (f : A -> M B) :
  maintains I m -> (forall a, maintains I (f a)) -> maintains I (m ≫= f).
Proof.
  intros Hm Hf w r w' H HI. apply bind_inv in H as [(e & H & _)|(a & w1 & H1 & H2)].
  - eapply Hm; eassumption.
  - eapply Hf; [eassumption|]. eapply Hm; eassumption.
Qed.

Lemma maintains_if {A} I (b : bool) (m1 m2 : M A) :
  maintains I m1 -> maintains I m2 -> maintains I (if b then m1 else m2).
Proof. destruct b; trivial. Qed.

Lemma maintains_decide {A} I (P : Prop) `{Decision P} (m1 m2 : M A) :
  maintains I m1 -> maintains I m2 -> maintains I (if decide P then m1 else m2).
Proof. destruct (decide P); trivial. Qed.

(** Takes a goal [maintains I m] apart along the shape of [m]. *)
Ltac maintains_steps :=
  repeat first
    [ match goal with
      | H : engine_steps _ ?I |- maintains ?I (set_clt_in _) => apply (step_clt_in _ _ H)
      | H : engine_steps _ ?I |- maintains ?I (set_stats _) => apply (step_stats _ _ H)
      | H : engine_steps _ ?I |- maintains ?I (set_last_clients_with_time_skew _) =>
          apply (step_skew _ _ H)
      | H : engine_steps _ ?I |- maintains ?I (set_last_clients_with_same_handshake _) =>
          apply (step_same _ _ H)
      | H : engine_steps _ ?I |- maintains ?I (emit _) => apply (step_emit _ _ H)
      | H : engine_steps _ ?I |- maintains ?I (remember_handshake _ _) =>
          apply (step_handshake _ _ H)
      | H : engine_steps _ ?I |- maintains ?I (remember_client_ip _ _) =>
          apply (step_client_ip _ _ H)
      end
    | apply maintains_ret
    | apply maintains_lift
    | apply maintains_get
    | apply maintains_bind; [|intros ?]
    | apply maintains_if
    | apply maintains_decide
    | match goal with
      | |- maintains _ (match ?x with _ => _ end) => destruct x
      | |- maintains _ (let '(_, _) := ?x in _) => destruct x
      end ].

Section Steps.

Context (cfg : config) (I : world -> Prop) (Hsteps : engine_steps cfg I).

Lemma maintains_update_stats k v : maintains I (update_stats k v).
Proof using Hsteps. unfold update_stats. maintains_steps. Qed.

Lemma maintains_clt_readexactly n : maintains I (clt_readexactly n).
Proof using Hsteps. unfold clt_readexactly. maintains_steps. Qed.

Lemma maintains_bad_client env h : maintains I (handle_bad_client cfg env h).
Proof using Hsteps.
  unfold handle_bad_client.
  apply maintains_bind; [apply maintains_update_stats|]. intros _. maintains_steps.
Qed.

Lemma maintains_read_tls_start expected acc : maintains I (read_tls_start expected acc).
Proof using Hsteps.
  revert acc. induction expected as [|e expected IH]; intros acc.
  - apply maintains_ret.
  - cbn [read_tls_start]. apply maintains_bind; [apply maintains_clt_readexactly|].
    intros b. apply maintains_decide; [apply maintains_ret | apply IH].
Qed.

Lemma maintains_fake_tls_accept env peer digest sl sid ext sec :
  maintains I (fake_tls_accept cfg env peer digest sl sid ext sec).
Proof using Hsteps. unfold fake_tls_accept. cbv zeta. maintains_steps. Qed.

Lemma maintains_fake_tls_users_loop env peer handshake sl sid ext users :
  maintains I (fake_tls_users_loop cfg env peer handshake sl sid ext users).
Proof using Hsteps.
  induction users as [|u users IH]; cbn [fake_tls_users_loop]; [apply maintains_ret|].
  apply maintains_if; [exact IH|].
  apply maintains_if.
  - apply maintains_bind; [|intros _; exact IH].
    unfold record_time_skew. maintains_steps.
  - apply maintains_fake_tls_accept.
Qed.

Lemma maintains_fake_tls_handshake env users handshake peer :
  maintains I (handle_fake_tls_handshake cfg env users handshake peer).
Proof using Hsteps.
  unfold handle_fake_tls_handshake.
  apply maintains_bind; [apply maintains_get|]. intros w0.
  apply maintains_decide; [maintains_steps|].
  destruct (handshake !! SESSION_ID_LEN_POS); [|apply maintains_lift].
  apply maintains_fake_tls_users_loop.
Qed.

Lemma maintains_handshake_users_loop peer tls handshake users :
  maintains I (handshake_users_loop cfg peer tls handshake users).
Proof using Hsteps.
  induction users as [|u users IH]; cbn [handshake_users_loop]; [apply maintains_ret|].
  destruct (decrypt _ handshake) as [decrypted decryptor].
  apply maintains_if; [exact IH|]. maintains_steps.
Qed.

Lemma maintains_obfuscated_handshake env users peer tls handshake :
  maintains I (handle_obfuscated_handshake cfg env users peer tls handshake).
Proof using Hsteps.
  unfold handle_obfuscated_handshake.
  apply maintains_bind; [apply maintains_get|]. intros w0.
  apply maintains_decide.
  - apply maintains_bind; [maintains_steps|]. intros _.
    apply maintains_bind; [apply maintains_bad_client|]. intros _. apply maintains_ret.
  - apply maintains_bind; [apply maintains_handshake_users_loop|].
    intros [cd|]; [apply maintains_ret|].
    apply maintains_bind; [apply maintains_bad_client|]. intros _. apply maintains_ret.
Qed.

Lemma maintains_probe env users peer :
  maintains I (probe_and_handshake cfg env users peer).
Proof using Hsteps.
  unfold probe_and_handshake.
  apply maintains_bind; [apply maintains_read_tls_start|].
  intros [is_tls handshake]. destruct is_tls.
  - apply maintains_bind; [apply maintains_clt_readexactly|]. intros rest.
    apply maintains_bind; [apply maintains_fake_tls_handshake|].
    intros [tls|].
    + apply maintains_bind; [apply maintains_get|]. intros w0.
      apply maintains_bind; [apply maintains_lift|]. intros [[hs buf] up].
      apply maintains_bind; [maintains_steps|]. intros _.
      apply maintains_obfuscated_handshake.
    + apply maintains_bind; [apply maintains_bad_client|]. intros _. apply maintains_ret.
  - apply maintains_bind; [apply maintains_bad_client|]. intros _. apply maintains_ret.
Qed.

(** Whatever the client sends, the handshake engine changes the state only
    by the steps listed in [engine_steps]. *)
Lemma maintains_handle_handshake env users :
  maintains I (handle_handshake cfg env users).
Proof using Hsteps.
  unfold handle_handshake. apply maintains_if; [apply maintains_ret|].
  apply maintains_bind.
  - apply maintains_if; [|apply maintains_ret].
    apply maintains_bind; [apply maintains_get|]. intros w0.
    apply maintains_bind; [apply maintains_lift|]. intros [peer rest].
    apply maintains_bind; [maintains_steps|]. intros _. apply maintains_ret.
  - intros [peer|]; [apply maintains_probe|].
    apply maintains_bind; [apply maintains_bad_client|]. intros _. apply maintains_ret.
Qed.

End Steps.

(** ** The two caches stay within their sizes *)

Lemma popitem_while_ok {K} (limit : Z) (d : list K) :
  limit > 0 -> NoDup d ->
  NoDup (popitem_while (length d) limit d)
  /\ len (popitem_while (length d) limit d) < limit.
Proof.
  intros Hl Hd. rewrite popitem_while_drop by lia. split.
  - eapply sublist_NoDup; [exact Hd | apply sublist_drop].
  - unfold len. rewrite length_drop. lia.
Qed.

Lemma od_set_ok `{EqDecision K} (limit : Z) (k : K) (d : list K) :
  NoDup d -> len d < limit -> NoDup (od_set k d) /\ len (od_set k d) <= limit.
Proof.
  intros Hd Hl. unfold od_set. case_decide as Hin.
  - split; [exact Hd | lia].
  - split.
    + apply NoDup_app. split; [exact Hd|]. split; [|apply NoDup_singleton].
      intros x Hx Hk. apply list_elem_of_singleton in Hk. subst x. exact (Hin Hx).
    + unfold len in *. rewrite length_app. cbn [length]. lia.
Qed.

Lemma caches_ok_steps cfg : engine_steps cfg (caches_ok cfg).
Proof.
  split; try (intros x w r w' H HI; inversion H; subst; exact HI).
  - intros fp w r w' H [[Hnd Hlen] Hips]. unfold remember_handshake in H.
    case_decide as Hl; [|inversion H; subst; exact (conj (conj Hnd Hlen) Hips)].
    inversion H; subst. split; [|exact Hips]. cbn [used_handshakes].
    destruct (popitem_while_ok (replay_check_len cfg) (used_handshakes w) Hl Hnd)
      as [Hnd' Hlen'].
    destruct (od_set_ok (replay_check_len cfg) fp _ Hnd' Hlen') as [Hnd2 Hlen2].
    split; [exact Hnd2 | intros _; exact Hlen2].
  - intros ip w r w' H [Hused [Hnd Hlen]]. unfold remember_client_ip in H.
    case_decide as Hl; [|inversion H; subst; exact (conj Hused (conj Hnd Hlen))].
    destruct (popitem_while_ok (client_ips_len cfg) (client_ips w) Hl Hnd)
      as [Hnd' Hlen'].
    cbv [mbind M_bind get_world] in H. case_decide as Hin.
    + inversion H; subst. split; [exact Hused|]. cbn [client_ips]. split.
      * apply NoDup_app. split; [exact Hnd'|]. split; [|apply NoDup_singleton].
        intros x Hx Hk. apply list_elem_of_singleton in Hk. subst x. exact (Hin Hx).
      * intros _. unfold len in *. rewrite length_app. cbn [length]. lia.
    + inversion H; subst. split; [exact Hused|]. cbn [client_ips].
      split; [exact Hnd' | intros _; lia].
Qed.

(** [serve_client] changes the state by counting and by emitting events. *)
Lemma maintains_serve_client cfg env users cd I :
  engine_steps cfg I -> (forall d, maintains I (set_user_stats d)) ->
  maintains I (serve_client cfg env users cd).
Proof.
  intros Hsteps Hus.
  assert (forall u k v, maintains I (update_user_stats u k v)) as Hupd.
  { intros u k v. unfold update_user_stats.
    apply maintains_bind; [apply maintains_get|]. intros w0. apply Hus. }
  unfold serve_client.
  apply maintains_bind; [apply Hupd|]. intros _.
  apply maintains_bind; [unfold do_tg_handshake; maintains_steps|]. intros tg_data.
  apply maintains_if; [apply maintains_ret|].
  apply maintains_if; [apply maintains_ret|].
  apply maintains_bind; [apply Hupd|]. intros _.
  apply maintains_bind.
  { intros w r w' H HI. rewrite user_limits_never_hit in H. inversion H; subst. exact HI. }
  intros [[tcp_limit_hit user_expired] user_data_quota_hit].
  apply maintains_bind.
  { apply maintains_if; [|apply maintains_ret].
    apply maintains_bind; [maintains_steps|]. intros _.
    unfold update_durations. apply (maintains_update_stats cfg I Hsteps). }
  intros _. apply maintains_bind; [apply Hupd|]. intros _. maintains_steps.
Qed.

Lemma maintains_handle_client cfg env users I :
  engine_steps cfg I -> (forall d, maintains I (set_user_stats d)) ->
  maintains I (handle_client cfg env users).
Proof.
  intros Hsteps Hus. unfold handle_client.
  apply maintains_bind; [apply (maintains_update_stats cfg I Hsteps)|]. intros _.
  apply maintains_bind; [apply (maintains_handle_handshake cfg I Hsteps)|].
  intros [cd|]; [|apply maintains_ret].
  apply maintains_serve_client; assumption.
Qed.

(** X9.  However a connection ends, [handle_client] leaves the replay cache
    and the client-address cache as it requires them: without duplicate
    keys and, when the configured size is positive, with at most
    [replay_check_len] and [client_ips_len] entries. *)
Theorem caches_stay_bounded cfg env users w r w' :
  handle_client cfg env users w = (r, w') ->
  caches_ok cfg w -> caches_ok cfg w'.
Proof.
  apply maintains_handle_client; [apply caches_ok_steps|].
  intros d w0 r0 w0' H HI. inversion H; subst. exact HI.
Qed.

(** ** Connections in progress *)

Lemma user_stats_steps cfg us : engine_steps cfg (fun w => user_stats w = us).
Proof.
  split; try (intros x w r w' H HI; inversion H; subst w'; exact HI).
  - intros fp w r w' H HI. unfold remember_handshake in H.
    case_decide; inversion H; subst w'; exact HI.
  - intros ip w r w' H HI. unfold remember_client_ip in H.
    case_decide; [|inversion H; subst w'; exact HI].
    cbv [mbind M_bind get_world] in H. case_decide; inversion H; subst w'; exact HI.
Qed.

Lemma user_stat_ext w1 w2 u k :
  user_stats w1 = user_stats w2 -> user_stat w1 u k = user_stat w2 u k.
Proof. intros H. unfold user_stat. rewrite H. reflexivity. Qed.

(** Between its two updates of [curr_connects], [serve_client] cannot fail. *)
Lemma serve_client_balanced cfg env users cd w r w' :
  serve_client cfg env users cd w = (r, w') ->
  r = Ret () /\ forall u, user_stat w' u "curr_connects" = user_stat w u "curr_connects".
Proof.
  unfold serve_client. intros H.
  destruct (update_user_stats_stat (cd_username cd) "connects" 1 w) as (w1 & H1 & Hs1).
  rewrite (bind_ret_l _ _ _ _ _ H1) in H.
  assert (forall u, user_stat w1 u "curr_connects" = user_stat w u "curr_connects") as Hc1.
  { intros u. rewrite Hs1, decide_False by (intros [_ ?]; discriminate). lia. }
  set (direct := negb (use_middle_proxy cfg) || disable_middle_proxy env) in *.
  assert (exists w2, do_tg_handshake env direct (cd_proto_tag cd) (cd_dc_idx cd) w1
                     = (Ret (tg_answers env), w2)
                     /\ user_stats w2 = user_stats w1) as (w2 & H2 & Hu2).
  { eexists. split; reflexivity. }
  rewrite (bind_ret_l _ _ _ _ _ H2) in H.
  assert (forall u, user_stat w2 u "curr_connects" = user_stat w u "curr_connects") as Hc2.
  { intros u. rewrite (user_stat_ext w2 w1) by exact Hu2. apply Hc1. }
  destruct (negb (tg_answers env)); [inversion H; subst; auto|].
  destruct (negb direct && _); [inversion H; subst; auto|].
  destruct (update_user_stats_stat (cd_username cd) "curr_connects" 1 w2)
    as (w3 & H3 & Hs3).
  rewrite (bind_ret_l _ _ _ _ _ H3) in H.
  rewrite (bind_ret_l _ _ _ _ _ (user_limits_never_hit users (cd_username cd) w3)) in H.
  cbn [negb andb] in H.
  assert (exists w4, (emit (Splice (cd_username cd));;
                      update_durations (session_duration env)) w3 = (Ret (), w4)
                     /\ user_stats w4 = user_stats w3) as (w4 & H4 & Hu4).
  { eexists. split; reflexivity. }
  rewrite (bind_ret_l _ _ _ _ _ H4) in H.
  destruct (update_user_stats_stat (cd_username cd) "curr_connects" (-1) w4)
    as (w5 & H5 & Hs5).
  rewrite (bind_ret_l _ _ _ _ _ H5) in H.
  inversion H; subst. split; [reflexivity|]. intros u.
  rewrite (user_stat_ext _ w5) by reflexivity.
  rewrite Hs5, (user_stat_ext w4 w3) by exact Hu4. rewrite Hs3, Hc2.
  case_decide; lia.
Qed.

(** X10.  However a connection ends, [handle_client] leaves every user's
    [curr_connects] as it found it: the handshake engine never touches the
    per-user counters, and [serve_client] takes back the one connection it
    counted. *)
Theorem curr_connects_balanced cfg env users w r w' :
  handle_client cfg env users w = (r, w') ->
  forall u, user_stat w' u "curr_connects" = user_stat w u "curr_connects".
Proof.
  unfold handle_client. intros H u.
  pose proof (user_stats_steps cfg (user_stats w)) as Hsteps.
  apply bind_inv in H as [(e & H & _)|([] & w1 & H1 & H)].
  { apply user_stat_ext.
    exact (maintains_update_stats _ _ Hsteps _ _ _ _ _ H eq_refl). }
  assert (user_stats w1 = user_stats w) as Hu1
    by exact (maintains_update_stats _ _ Hsteps _ _ _ _ _ H1 eq_refl).
  apply bind_inv in H as [(e & H & _)|(cd & w2 & H2 & H)].
  { apply user_stat_ext.
    exact (maintains_handle_handshake _ _ Hsteps _ _ _ _ _ H Hu1). }
  assert (user_stats w2 = user_stats w) as Hu2
    by exact (maintains_handle_handshake _ _ Hsteps _ _ _ _ _ H2 Hu1).
  destruct cd as [cd|].
  - apply serve_client_balanced in H as [_ H]. rewrite H.
    apply user_stat_ext, Hu2.
  - inversion H; subst. apply user_stat_ext, Hu2.
Qed.

(** ** Clients without a secret *)

Lemma fake_tls_users_loop_no_secret cfg env peer handshake sl sid ext users w :
  (forall u, u ∈ users -> digest_good (xored_digest (secret u) handshake) = false) ->
  fake_tls_users_loop cfg env peer handshake sl sid ext users w = (Ret None, w).
Proof.
  induction users as [|u users IH]; intros Hbad; [reflexivity|].
  cbn [fake_tls_users_loop].
  rewrite (Hbad u) by (apply list_elem_of_here). cbn [negb].
  apply IH. intros u' Hu'. apply Hbad. apply list_elem_of_further, Hu'.
Qed.

Lemma handle_fake_tls_handshake_no_secret cfg env users handshake peer w :
  (SESSION_ID_LEN_POS < length handshake)%nat ->
  (forall u, u ∈ users -> digest_good (xored_digest (secret u) handshake) = false) ->
  exists w',
    handle_fake_tls_handshake cfg env users handshake peer w = (Ret None, w')
    /\ clt_in w' = clt_in w /\ trace w' = trace w
    /\ used_handshakes w' = used_handshakes w /\ client_ips w' = client_ips w
    /\ stats w' = stats w /\ user_stats w' = user_stats w.
Proof.
  intros Hlen Hbad. unfold handle_fake_tls_handshake.
  cbv [mbind M_bind get_world]. case_decide as Hin.
  - eexists. split; [reflexivity|]. auto 10.
  - destruct (lookup_lt_is_Some_2 handshake SESSION_ID_LEN_POS Hlen) as [sl ->].
    rewrite fake_tls_users_loop_no_secret by exact Hbad.
    eexists. split; [reflexivity|]. auto 10.
Qed.

Lemma handle_bad_client_frame cfg env h w :
  client_ips (handle_bad_client cfg env h w).2 = client_ips w
  /\ user_stats (handle_bad_client cfg env h w).2 = user_stats w.
Proof.
  unfold handle_bad_client, update_stats. cbv [mbind M_bind get_world set_stats].
  destruct (is_closing env); [split; reflexivity|].
  destruct h; [destruct (mask cfg)|]; split; reflexivity.
Qed.

(** X11.  A client that sends a whole ClientHello (the 11-byte prefix, 517
    bytes in all) whose digest fits no user's secret is refused without a
    byte written to it: no ServerHello, no change of either cache or of the
    per-user counters; the client is counted as bad and handed, with its
    517 bytes, to [handle_bad_client] (the mask host when masking is on). *)
Theorem unknown_secret_refused cfg env users peer w tail rest :
  length (TLS_START_BYTES ++ tail) = TLS_HANDSHAKE_LEN ->
  clt_in w = (TLS_START_BYTES ++ tail) ++ rest ->
  (forall u, u ∈ users ->
     digest_good (xored_digest (secret u) (TLS_START_BYTES ++ tail)) = false) ->
  exists w',
    probe_and_handshake cfg env users peer w = (Ret None, w')
    /\ clt_in w' = rest
    /\ used_handshakes w' = used_handshakes w
    /\ client_ips w' = client_ips w
    /\ user_stats w' = user_stats w
    /\ stats w' = counter_add "connects_bad" 1 (stats w)
    /\ trace w'
       = trace w ++ (if is_closing env then []
                     else if mask cfg then [CoverTunnel (TLS_START_BYTES ++ tail)]
                          else [DrainClient]).
Proof.
  intros Hlen Hin Hbad. unfold probe_and_handshake.
  rewrite <- app_assoc in Hin.
  rewrite (bind_ret_l _ _ _ _ _ (read_tls_start_match _ [] _ _ Hin)).
  cbn [app].
  assert (Z.of_nat TLS_HANDSHAKE_LEN - len TLS_START_BYTES = len tail) as ->.
  { rewrite <- Hlen. unfold len. rewrite length_app. lia. }
  rewrite (bind_ret_l _ _ _ _ _
             (clt_readexactly_app tail rest (with_clt_in (tail ++ rest) w) eq_refl)).
  rewrite with_clt_in_twice.
  destruct (handle_fake_tls_handshake_no_secret cfg env users (TLS_START_BYTES ++ tail)
              peer (with_clt_in rest w))
    as (w1 & H1 & Hc1 & Ht1 & Hu1 & Hi1 & Hs1 & Hus1).
  { rewrite Hlen. vm_compute. lia. }
  { exact Hbad. }
  rewrite (bind_ret_l _ _ _ _ _ H1).
  destruct (handle_bad_client_run cfg env (Some (TLS_START_BYTES ++ tail)) w1)
    as (wb & Hbc & Hcb & Hub & Hsb & Htb & _).
  rewrite (bind_ret_l _ _ _ _ _ Hbc).
  destruct (handle_bad_client_frame cfg env (Some (TLS_START_BYTES ++ tail)) w1)
    as [Hib Husb].
  rewrite Hbc in Hib, Husb. cbn [snd] in Hib, Husb.
  exists wb. split; [reflexivity|].
  rewrite Hcb, Hc1, Hub, Hu1, Hsb, Hs1, Htb, Ht1, Hib, Hi1, Husb, Hus1.
  cbn [clt_in used_handshakes client_ips user_stats stats trace with_clt_in].
  auto 10.
Qed.

(** ** The ServerHello *)

Lemma get_tls_record_app (t : byte) (record rest : bytes) :
  len record < 65536 ->
  get_tls_record ([t] ++ [x03; x03] ++ rev (le_bytes 2 (len record)) ++ record ++ rest)
  = Ret ((b2z t, record), rest).
Proof.
  intros Hlen. unfold get_tls_record.
  destruct (int_from_to_bytes_be (len record) 2) as [_ Hr].
  { change (256 ^ Z.of_nat 2) with 65536. unfold len in *. lia. }
  rewrite readexactly_app by reflexivity. cbn [mbind outcome_bind lookup list_lookup].
  rewrite readexactly_app by reflexivity. cbn [mbind outcome_bind].
  rewrite decide_False by (intros H; apply H; reflexivity).
  rewrite readexactly_app
    by (unfold len; rewrite length_rev, length_le_bytes; reflexivity).
  cbn [mbind outcome_bind]. rewrite Hr.
  rewrite readexactly_app by reflexivity. reflexivity.
Qed.

(** A record is at most 65535 bytes long. *)
Lemma get_tls_record_length up t record rest :
  get_tls_record up = Ret ((t, record), rest) -> len record < 65536.
Proof.
  unfold get_tls_record.
  destruct (readexactly up 1) as [[first up1]|e] eqn:E1; cbn [mbind outcome_bind].
  2:{ destruct e; intros Hrun; inversion Hrun; subst; reflexivity. }
  destruct (first !! 0%nat) as [b|]; cbn [mbind outcome_bind]; [|discriminate].
  destruct (readexactly up1 2) as [[vers up2]|e] eqn:E2; cbn [mbind outcome_bind].
  2:{ destruct e; intros Hrun; inversion Hrun; subst; reflexivity. }
  case_decide; [intros Hrun; inversion Hrun; subst; reflexivity|].
  destruct (readexactly up2 2) as [[lb up3]|e] eqn:E3; cbn [mbind outcome_bind].
  2:{ destruct e; intros Hrun; inversion Hrun; subst; reflexivity. }
  destruct (readexactly up3 (int_from_bytes_be lb)) as [[rec up4]|e] eqn:E4;
    cbn [mbind outcome_bind].
  2:{ destruct e; intros Hrun; inversion Hrun; subst; reflexivity. }
  intros Hrun. inversion Hrun; subst.
  apply readexactly_inv in E3 as (_ & Hlb & _).
  apply readexactly_inv in E4 as (_ & Hrec & _).
  rewrite Hrec. unfold int_from_bytes_be.
  pose proof (le_value_range (rev lb)) as Hv.
  unfold len in *. rewrite length_rev in Hv.
  replace (Z.of_nat (length lb)) with 2 in Hv by lia.
  change (256 ^ 2) with 65536 in Hv. lia.
Qed.

Lemma get_encrypted_cert_length reply cert :
  get_encrypted_cert reply = Ret cert -> len cert < 65536.
Proof.
  unfold get_encrypted_cert.
  destruct (get_tls_record reply) as [[[t1 r1] up1]|]; cbn [mbind outcome_bind];
    [|discriminate].
  case_decide; [intros [= <-]; reflexivity|].
  destruct (get_tls_record up1) as [[[t2 r2] up2]|]; cbn [mbind outcome_bind];
    [|discriminate].
  case_decide; [intros [= <-]; reflexivity|].
  destruct (get_tls_record up2) as [[[t3 r3] up3]|] eqn:E3; cbn [mbind outcome_bind];
    [|discriminate].
  case_decide; [intros [= <-]; reflexivity|].
  intros [= <-]. eapply get_tls_record_length, E3.
Qed.

(** X14.  [fake_cert_len], drawn from [1024, 4096) at start, stays within
    [1024, 65536) through every turn of [get_mask_host_cert_len], whatever
    the mask host replies: a record shorter than [MIN_CERT_LEN] is not taken
    over and a TLS record has at most 65535 bytes. *)
Theorem fake_cert_len_bounded (fake_cert_len : Z) (reply cert : bytes) :
  MIN_CERT_LEN <= fake_cert_len < 65536 ->
  get_encrypted_cert reply = Ret cert ->
  MIN_CERT_LEN <= update_fake_cert_len fake_cert_len cert < 65536.
Proof.
  intros Hl Hc. apply get_encrypted_cert_length in Hc.
  unfold update_fake_cert_len. repeat case_decide; lia.
Qed.

(** The ServerHello as [fake_tls_accept] lays it out, before the digest is
    put in. *)
Lemma server_hello_layout (rl ml cd sl_sid_etc ccs_etc : bytes) :
  length rl = 2%nat -> length ml = 3%nat -> length cd = 32%nat ->
  let P :=
    (([x16] ++ TLS_VERS ++ rl) ++ [x02] ++ ml
       ++ (TLS_VERS ++ bytes_repeat [x00] (Z.of_nat DIGEST_LEN) ++ sl_sid_etc))
      ++ ccs_etc in
  let pkt := take DIGEST_POS P ++ cd ++ drop (DIGEST_POS + DIGEST_LEN) P in
  pkt = [x16] ++ [x03; x03] ++ rl ++ ([x02] ++ ml ++ [x03; x03] ++ cd ++ sl_sid_etc)
          ++ ccs_etc
  /\ slice DIGEST_POS (DIGEST_POS + DIGEST_LEN) pkt = cd
  /\ P = take DIGEST_POS pkt ++ replicate 32 x00
           ++ drop (DIGEST_POS + DIGEST_LEN) pkt.
Proof.
  intros Hrl Hml Hcd P pkt.
  destruct rl as [|r0 [|r1 [|]]]; try discriminate Hrl.
  destruct ml as [|m0 [|m1 [|m2 [|]]]]; try discriminate Hml.
  assert (P = [x16; x03; x03; r0; r1; x02; m0; m1; m2; x03; x03] ++ replicate 32 x00
                ++ sl_sid_etc ++ ccs_etc) as HP.
  { unfold P. rewrite <- !app_assoc. reflexivity. }
  assert (pkt = [x16; x03; x03; r0; r1; x02; m0; m1; m2; x03; x03] ++ cd
                  ++ sl_sid_etc ++ ccs_etc) as Hpkt.
  { unfold pkt. rewrite HP. reflexivity. }
  split; [|split].
  - rewrite Hpkt. rewrite <- !app_assoc. reflexivity.
  - rewrite Hpkt. unfold slice. cbn [app drop]. change (drop 0 ?l) with l.
    apply take_app_length'. rewrite Hcd. reflexivity.
  - rewrite HP, Hpkt.
    set (pre := [x16; x03; x03; r0; r1; x02; m0; m1; m2; x03; x03]).
    change (DIGEST_POS + DIGEST_LEN)%nat with (11 + 32)%nat.
    change DIGEST_POS with 11%nat.
    rewrite take_app_length' by reflexivity.
    rewrite drop_app_add' by reflexivity.
    rewrite drop_app_length' by (symmetry; exact Hcd). reflexivity.
Qed.

(** X15.  The ServerHello that [fake_tls_accept] writes to an accepted
    client is three TLS records, a handshake record (type 22), a
    ChangeCipherSpec (type 20) and one ApplicationData record (type 23) that
    holds exactly [http_data]: [get_encrypted_cert] reads it as a TLS 1.3
    reply with that certificate record.  Its bytes 11 to 43 are the HMAC,
    under the user's secret, of the client's digest followed by the same
    packet with zeroes in that place. *)
Theorem server_hello_wire_format cfg env peer digest sl sid ext sec w :
  len (http_data env) < 65536 -> len sid + len ext + 42 < 65536 ->
  (forall key m, length (hmac_sha256 key m) = 32%nat) ->
  exists pkt w',
    fake_tls_accept cfg env peer digest sl sid ext sec w
    = (Ret (Some {| ftr_buf := [] |}), w')
    /\ trace w' = trace w ++ [ClientWrite pkt]
    /\ get_encrypted_cert pkt = Ret (http_data env)
    /\ slice DIGEST_POS (DIGEST_POS + DIGEST_LEN) pkt
       = hmac_sha256 sec
           (digest ++ take DIGEST_POS pkt ++ replicate 32 x00
              ++ drop (DIGEST_POS + DIGEST_LEN) pkt).
Proof.
  intros Hhttp Hsize Hmac. unfold fake_tls_accept. cbv zeta.
  set (srv_hello :=
         (TLS_VERS ++ bytes_repeat [x00] (Z.of_nat DIGEST_LEN) ++ [sl] ++ sid)
           ++ TLS_CIPHERSUITE ++ [x00] ++ ext).
  assert (len srv_hello = 38 + len sid + len ext) as Hsrv.
  { unfold srv_hello. rewrite !len_app.
    change (len TLS_VERS) with 2. change (len TLS_CIPHERSUITE) with 2.
    change (len (bytes_repeat [x00] (Z.of_nat DIGEST_LEN))) with 32.
    change (len [sl]) with 1. change (len [x00]) with 1. lia. }
  assert (0 <= len sid /\ 0 <= len ext /\ 0 <= len (http_data env)) as (? & ? & ?)
    by (unfold len; lia).
  destruct (int_from_to_bytes_be (len srv_hello + 4) 2) as [Hrl _].
  { change (256 ^ Z.of_nat 2) with 65536. lia. }
  destruct (int_from_to_bytes_be (len srv_hello) 3) as [Hml _].
  { change (256 ^ Z.of_nat 3) with 16777216. lia. }
  destruct (int_from_to_bytes_be (len (http_data env)) 2) as [Hdl _].
  { change (256 ^ Z.of_nat 2) with 65536. lia. }
  rewrite Hrl. erewrite bind_ret_l by reflexivity.
  rewrite Hml. erewrite bind_ret_l by reflexivity.
  rewrite Hdl. erewrite bind_ret_l by reflexivity.
  set (rl := rev (le_bytes 2 (len srv_hello + 4))).
  set (ml := rev (le_bytes 3 (len srv_hello))).
  set (dl := rev (le_bytes 2 (len (http_data env)))).
  match goal with |- context [emit (ClientWrite ?p)] => set (pkt := p) end.
  assert (exists we, emit (ClientWrite pkt) w = (Ret (), we)
                     /\ trace we = trace w ++ [ClientWrite pkt])
    as (we & He & Hte) by (eexists; split; reflexivity).
  rewrite (bind_ret_l _ _ _ _ _ He).
  destruct (remember_handshake_run cfg (take DIGEST_HALFLEN digest) we)
    as (wh & Hh & Hth & _).
  rewrite (bind_ret_l _ _ _ _ _ Hh).
  destruct (remember_client_ip_run cfg peer.1 wh) as (wc & Hc & Htc & _).
  rewrite (bind_ret_l _ _ _ _ _ Hc).
  exists pkt, wc. split; [reflexivity|].
  split; [rewrite Htc, Hth, Hte; reflexivity|].
  set (tail1 := [sl] ++ sid ++ TLS_CIPHERSUITE ++ [x00] ++ ext).
  set (tail2 := TLS_CHANGE_CIPHER ++ TLS_APP_HTTP2_HDR ++ dl ++ http_data env).
  assert (exists P,
             pkt = take DIGEST_POS P ++ hmac_sha256 sec (digest ++ P)
                     ++ drop (DIGEST_POS + DIGEST_LEN) P
             /\ P = (([x16] ++ TLS_VERS ++ rl) ++ [x02] ++ ml
                       ++ (TLS_VERS ++ bytes_repeat [x00] (Z.of_nat DIGEST_LEN) ++ tail1))
                      ++ tail2) as (P & Hpkt & HP).
  { eexists. split; [reflexivity|].
    unfold srv_hello, tail1, tail2. rewrite <- !app_assoc. reflexivity. }
  destruct (server_hello_layout rl ml (hmac_sha256 sec (digest ++ P)) tail1 tail2)
    as (Hshape & Hslice & Hzero).
  { unfold rl. rewrite length_rev, length_le_bytes. reflexivity. }
  { unfold ml. rewrite length_rev, length_le_bytes. reflexivity. }
  { apply Hmac. }
  rewrite <- HP in Hshape, Hslice, Hzero. rewrite <- Hpkt in Hshape, Hslice, Hzero.
  split; [|rewrite Hslice, <- Hzero; reflexivity].
  rewrite Hshape. unfold get_encrypted_cert.
  set (body1 := [x02] ++ ml ++ [x03; x03] ++ hmac_sha256 sec (digest ++ P) ++ tail1).
  assert (len body1 = len srv_hello + 4) as Hbody.
  { unfold body1, tail1. rewrite !len_app, Hsrv. unfold ml, len.
    rewrite length_rev, length_le_bytes, Hmac. cbn [length].
    change (Z.of_nat (length TLS_CIPHERSUITE)) with 2. lia. }
  unfold rl. rewrite <- Hbody.
  rewrite get_tls_record_app by (rewrite Hbody; lia).
  cbn [mbind outcome_bind]. rewrite decide_False by (intros Hx; apply Hx; reflexivity).
  unfold tail2.
  change (TLS_CHANGE_CIPHER ++ ?t)
    with ([x14] ++ [x03; x03] ++ rev (le_bytes 2 (len [x01])) ++ [x01] ++ t).
  rewrite get_tls_record_app by (vm_compute; reflexivity).
  cbn [mbind outcome_bind]. rewrite decide_False by (intros Hx; apply Hx; reflexivity).
  unfold dl.
  change (TLS_APP_HTTP2_HDR ++ ?t) with ([x17] ++ [x03; x03] ++ t).
  rewrite <- (app_nil_r (http_data env)) at 2.
  rewrite get_tls_record_app by assumption.
  cbn [mbind outcome_bind]. rewrite decide_False by (intros Hx; apply Hx; reflexivity).
  reflexivity.
Qed.

(** ** The FakeTLS time window, end to end *)

Lemma remember_handshake_skew cfg fp w :
  last_clients_with_time_skew (remember_handshake cfg fp w).2
  = last_clients_with_time_skew w.
Proof. unfold remember_handshake. case_decide; reflexivity. Qed.

Lemma remember_client_ip_skew cfg ip w :
  last_clients_with_time_skew (remember_client_ip cfg ip w).2
  = last_clients_with_time_skew w.
Proof.
  unfold remember_client_ip. case_decide; [|reflexivity].
  cbv [mbind M_bind get_world]. case_decide; reflexivity.
Qed.

(** Accepting a client: the ServerHello goes out, the digest is remembered,
    the reader comes back; the table of skews is left alone. *)
Lemma fake_tls_accept_run cfg env peer digest sl sid ext sec w :
  len (http_data env) < 65536 -> len sid + len ext + 42 < 65536 ->
  exists pkt w',
    fake_tls_accept cfg env peer digest sl sid ext sec w
    = (Ret (Some {| ftr_buf := [] |}), w')
    /\ trace w' = trace w ++ [ClientWrite pkt]
    /\ take 3 pkt = [x16; x03; x03]
    /\ clt_in w' = clt_in w
    /\ last_clients_with_time_skew w' = last_clients_with_time_skew w
    /\ (take DIGEST_HALFLEN digest ∉ used_handshakes w ->
        used_handshakes w'
        = remembered cfg (take DIGEST_HALFLEN digest) (used_handshakes w)).
Proof.
  intros Hhttp Hsize. unfold fake_tls_accept. cbv zeta.
  set (srv_hello :=
         (TLS_VERS ++ bytes_repeat [x00] (Z.of_nat DIGEST_LEN) ++ [sl] ++ sid)
           ++ TLS_CIPHERSUITE ++ [x00] ++ ext).
  assert (len srv_hello = 38 + len sid + len ext) as Hsrv.
  { unfold srv_hello. rewrite !len_app.
    change (len TLS_VERS) with 2. change (len TLS_CIPHERSUITE) with 2.
    change (len (bytes_repeat [x00] (Z.of_nat DIGEST_LEN))) with 32.
    change (len [sl]) with 1. change (len [x00]) with 1. lia. }
  assert (0 <= len sid /\ 0 <= len ext /\ 0 <= len (http_data env)) as (? & ? & ?)
    by (unfold len; lia).
  destruct (int_from_to_bytes_be (len srv_hello + 4) 2) as [Hrl _].
  { change (256 ^ Z.of_nat 2) with 65536. lia. }
  destruct (int_from_to_bytes_be (len srv_hello) 3) as [Hml _].
  { change (256 ^ Z.of_nat 3) with 16777216. lia. }
  destruct (int_from_to_bytes_be (len (http_data env)) 2) as [Hdl _].
  { change (256 ^ Z.of_nat 2) with 65536. lia. }
  rewrite Hrl. erewrite bind_ret_l by reflexivity.
  rewrite Hml. erewrite bind_ret_l by reflexivity.
  rewrite Hdl. erewrite bind_ret_l by reflexivity.
  match goal with |- context [emit (ClientWrite ?p)] => set (pkt := p) end.
  assert (exists we, emit (ClientWrite pkt) w = (Ret (), we)
                     /\ trace we = trace w ++ [ClientWrite pkt]
                     /\ clt_in we = clt_in w
                     /\ used_handshakes we = used_handshakes w
                     /\ last_clients_with_time_skew we = last_clients_with_time_skew w)
    as (we & He & Hte & Hce & Hue & Hse)
    by (eexists; split; [reflexivity|]; auto).
  rewrite (bind_ret_l _ _ _ _ _ He).
  pose proof (remember_handshake_skew cfg (take DIGEST_HALFLEN digest) we) as Hsh.
  destruct (remember_handshake_run cfg (take DIGEST_HALFLEN digest) we)
    as (wh & Hh & Hth & Hch & Huh).
  rewrite Hh in Hsh. cbn [snd] in Hsh.
  rewrite (bind_ret_l _ _ _ _ _ Hh).
  pose proof (remember_client_ip_skew cfg peer.1 wh) as Hsc.
  destruct (remember_client_ip_run cfg peer.1 wh) as (wc & Hc & Htc & Hcc & Huc).
  rewrite Hc in Hsc. cbn [snd] in Hsc.
  rewrite (bind_ret_l _ _ _ _ _ Hc).
  exists pkt, wc. split; [reflexivity|].
  split; [rewrite Htc, Hth, Hte; reflexivity|].
  split.
  { unfold pkt. rewrite <- !app_assoc. reflexivity. }
  split; [rewrite Hcc, Hch, Hce; reflexivity|].
  split; [rewrite Hsc, Hsh, Hse; reflexivity|].
  intros Hfp. rewrite Huc. rewrite <- Hue. apply Huh. rewrite Hue. exact Hfp.
Qed.

(** C8.  For a user whose digest matches, with [T] the little-endian value
    of the last four bytes of the exclusive or.  When -20*60 < now - T <
    10*60, or [ignore_time_skew] is set, or [is_time_skewed] is set, or
    T < 86,400,000, the loop accepts the client for this user: it writes the
    ServerHello, remembers the digest, records no skew and returns the
    wrapped reader without trying another user.  Otherwise the client is not
    accepted for this user: the loop stores [(time.time() - T) // 60], taken
    on floats from the clock as it is read again, under the peer's IP,
    writes nothing and goes on to the next user. *)
Theorem fake_tls_time_window cfg env peer handshake sl sid ext user users w :
  let xored := xored_digest (secret user) handshake in
  let T := digest_timestamp xored in
  let digest := slice DIGEST_POS (DIGEST_POS + DIGEST_LEN) handshake in
  let accepted :=
    ((inject_Z (-20 * 60) < now env - inject_Z T)%Q
     /\ (now env - inject_Z T < inject_Z (10 * 60))%Q)
    \/ ignore_time_skew cfg = true \/ is_time_skewed env = true \/ T < 86400000 in
  digest_good xored = true ->
  (accepted ->
   len (http_data env) < 65536 -> len sid + len ext + 42 < 65536 ->
   exists pkt w',
     fake_tls_users_loop cfg env peer handshake sl sid ext (user :: users) w
     = (Ret (Some {| ftr_buf := [] |}), w')
     /\ trace w' = trace w ++ [ClientWrite pkt]
     /\ take 3 pkt = [x16; x03; x03]
     /\ clt_in w' = clt_in w
     /\ last_clients_with_time_skew w' = last_clients_with_time_skew w
     /\ (take DIGEST_HALFLEN digest ∉ used_handshakes w ->
         used_handshakes w'
         = remembered cfg (take DIGEST_HALFLEN digest) (used_handshakes w)))
  /\ (~ accepted ->
      exists w1,
        last_clients_with_time_skew w1
        = <[peer.1 := time_skew_minutes (now_skew env) T]>
            (last_clients_with_time_skew w)
        /\ used_handshakes w1 = used_handshakes w
        /\ trace w1 = trace w
        /\ clt_in w1 = clt_in w
        /\ fake_tls_users_loop cfg env peer handshake sl sid ext (user :: users) w
           = fake_tls_users_loop cfg env peer handshake sl sid ext users w1).
Proof.
  intros xored T digest accepted Hgood.
  assert (accepted <-> client_time_is_ok env T = true
                       \/ accept_bad_time cfg env T = true) as Hacc.
  { unfold accepted. rewrite client_time_is_ok_iff, accept_bad_time_iff.
    split; (intros [?|[?|[?|?]]]; [left|right; left|right; right; left|
                                  right; right; right]; assumption). }
  cbn [fake_tls_users_loop]. fold xored. rewrite Hgood. cbn [negb]. fold T.
  split.
  - intros Ha Hhttp Hsize. apply Hacc in Ha.
    assert (negb (client_time_is_ok env T) && negb (accept_bad_time cfg env T) = false)
      as ->.
    { destruct (client_time_is_ok env T), (accept_bad_time cfg env T);
        try reflexivity. destruct Ha; discriminate. }
    apply fake_tls_accept_run; assumption.
  - intros Hn.
    assert (client_time_is_ok env T = false) as ->
      by (destruct (client_time_is_ok env T); [exfalso; apply Hn, Hacc; auto|reflexivity]).
    assert (accept_bad_time cfg env T = false) as ->
      by (destruct (accept_bad_time cfg env T); [exfalso; apply Hn, Hacc; auto|reflexivity]).
    cbn [negb andb].
    destruct (record_time_skew_run env peer T w) as (w1 & H1 & Ht & Hc & Hu & Hs).
    exists w1. rewrite (bind_ret_l _ _ _ _ _ H1). auto.
Qed.

(** ** The handshake with a datacenter *)

(** What an accepted obfuscated handshake hands to [handle_client]. *)
Lemma handshake_users_loop_keys cfg peer tls handshake users w cd w' :
  handshake_users_loop cfg peer tls handshake users w = (Ret (Some cd), w') ->
  let enc_prekey_and_iv :=
    rev (slice SKIP_LEN (SKIP_LEN + PREKEY_LEN + IV_LEN) handshake) in
  exists user,
    user ∈ users
    /\ cd_username cd = name user
    /\ cd_proto_tag cd ∈ [PROTO_TAG_ABRIDGED; PROTO_TAG_INTERMEDIATE; PROTO_TAG_SECURE]
    /\ cd_encryptor cd
       = create_aes_ctr (sha256 (take PREKEY_LEN enc_prekey_and_iv ++ secret user))
           (int_from_bytes_be (drop PREKEY_LEN enc_prekey_and_iv))
    /\ cd_enc_key_and_iv cd
       = sha256 (take PREKEY_LEN enc_prekey_and_iv ++ secret user)
           ++ drop PREKEY_LEN enc_prekey_and_iv.
Proof.
  cbv zeta. revert w. induction users as [|user users IH]; intros w H; [discriminate|].
  cbn [handshake_users_loop] in H. cbv zeta in H.
  destruct (decrypt _ handshake) as [decrypted decryptor].
  destruct (bool_decide _) eqn:Etag; cbn [negb] in H.
  2:{ destruct (IH _ H) as (u & Hu & Hrest). exists u.
      split; [apply list_elem_of_further, Hu | exact Hrest]. }
  apply bool_decide_eq_true in Etag.
  match type of H with
  | context [remember_handshake cfg ?fp] =>
      destruct (remember_handshake_run cfg fp w) as (wh & Hh & _)
  end.
  rewrite (bind_ret_l _ _ _ _ _ Hh) in H.
  destruct (remember_client_ip_run cfg peer.1 wh) as (wc & Hc & _).
  rewrite (bind_ret_l _ _ _ _ _ Hc) in H.
  inversion H; subst. exists user. cbn [cd_username cd_proto_tag cd_encryptor
                                        cd_enc_key_and_iv].
  split; [apply list_elem_of_here|]. auto.
Qed.

Lemma set_slice_read (i j : nat) (v b : bytes) :
  (i <= length b)%nat -> slice i (i + length v) (set_slice i j v b) = v.
Proof.
  intros Hi. unfold slice, set_slice.
  rewrite drop_app_length' by (rewrite length_take; lia).
  replace (i + length v - i)%nat with (length v) by lia.
  apply take_app_length.
Qed.

(** X16.  In fast mode the cipher that decrypts what the datacenter sends
    is created from the very key and counter of the cipher that encrypts
    toward the client: [do_direct_handshake] puts the client's
    [enc_key + enc_iv], reversed, into the nonce and derives its decryptor
    from those nonce bytes reversed again. *)
Theorem fast_mode_shares_cipher cfg peer tls handshake users w cd w' rnd :
  handshake_users_loop cfg peer tls handshake users w = (Ret (Some cd), w') ->
  (forall m, length (sha256 m) = 32%nat) ->
  length handshake = HANDSHAKE_LEN -> length rnd = HANDSHAKE_LEN ->
  fast_mode cfg = true ->
  tl_decryptor (direct_handshake_for cfg rnd cd) = cd_encryptor cd.
Proof.
  intros Hrun Hsha Hhs Hrnd Hfast.
  destruct (handshake_users_loop_keys _ _ _ _ _ _ _ _ Hrun)
    as (user & _ & _ & Htag & Henc & Hkiv).
  set (pkiv := rev (slice SKIP_LEN (SKIP_LEN + PREKEY_LEN + IV_LEN) handshake)) in *.
  assert (length pkiv = 48%nat) as Hpkiv.
  { unfold pkiv, slice. rewrite length_rev, length_take, length_drop, Hhs.
    reflexivity. }
  set (key := sha256 (take PREKEY_LEN pkiv ++ secret user)) in *.
  set (iv := drop PREKEY_LEN pkiv) in *.
  assert (length (key ++ iv) = 48%nat) as Hlen.
  { unfold key, iv. rewrite length_app, Hsha, length_drop, Hpkiv. reflexivity. }
  assert (length (cd_proto_tag cd) = 4%nat) as Htaglen.
  { apply list_elem_of_In in Htag.
    destruct Htag as [<-|[<-|[<-|[]]]]; reflexivity. }
  unfold direct_handshake_for. rewrite Hfast, Hkiv, Henc.
  unfold direct_handshake_packet.
  assert (truthy (Some (key ++ iv)) = true) as ->.
  { destruct (key ++ iv); [discriminate Hlen | reflexivity]. }
  cbn [default from_option id].
  set (rnd1 := set_slice PROTO_TAG_POS (PROTO_TAG_POS + 4) (cd_proto_tag cd) rnd).
  assert (length rnd1 = 64%nat) as Hrnd1.
  { unfold rnd1, set_slice. rewrite !length_app, length_take, length_drop, Hrnd, Htaglen.
    reflexivity. }
  set (rnd2 := set_slice SKIP_LEN (SKIP_LEN + KEY_LEN + IV_LEN) (rev (key ++ iv)) rnd1).
  assert (slice SKIP_LEN (SKIP_LEN + KEY_LEN + IV_LEN) rnd2 = rev (key ++ iv)) as Hread.
  { unfold rnd2.
    replace (SKIP_LEN + KEY_LEN + IV_LEN)%nat
      with (SKIP_LEN + length (rev (key ++ iv)))%nat at 1
      by (rewrite length_rev, Hlen; reflexivity).
    apply set_slice_read. rewrite Hrnd1. vm_compute. lia. }
  rewrite Hread, rev_involutive.
  destruct (encrypt _ rnd2) as [encrypted encryptor]. cbn [tl_decryptor].
  assert (length key = KEY_LEN) as Hkey by apply Hsha.
  rewrite take_app_length' by (symmetry; exact Hkey).
  rewrite drop_app_length' by (symmetry; exact Hkey). reflexivity.
Qed.

Lemma draw_nonce_inv draws rnd :
  draw_nonce draws = Some rnd ->
  rnd ∈ draws
  /\ (take 1 rnd ∉ RESERVED_NONCE_FIRST_CHARS)
  /\ (take 4 rnd ∉ RESERVED_NONCE_BEGININGS)
  /\ (slice 4 8 rnd ∉ RESERVED_NONCE_CONTINUES).
Proof.
  induction draws as [|d draws IH]; [discriminate|]. cbn [draw_nonce].
  destruct (bool_decide (take 1 d ∈ _)) eqn:E1.
  { intros H. destruct (IH H) as [Hin Hrest]. split; [right; exact Hin | exact Hrest]. }
  destruct (bool_decide (take 4 d ∈ _)) eqn:E2.
  { intros H. destruct (IH H) as [Hin Hrest]. split; [right; exact Hin | exact Hrest]. }
  destruct (bool_decide (slice 4 8 d ∈ _)) eqn:E3.
  { intros H. destruct (IH H) as [Hin Hrest]. split; [right; exact Hin | exact Hrest]. }
  intros [= ->].
  apply bool_decide_eq_false in E1, E2, E3. split; [left|]. auto.
Qed.

(** The first eight bytes of the nonce go out as they were drawn. *)
Lemma direct_handshake_packet_head rnd proto_tag dec_key_and_iv :
  length rnd = HANDSHAKE_LEN ->
  take 8 (tl_sent (direct_handshake_packet rnd proto_tag dec_key_and_iv)) = take 8 rnd.
Proof.
  intros Hrnd. unfold direct_handshake_packet.
  set (rnd1 := set_slice PROTO_TAG_POS (PROTO_TAG_POS + 4) proto_tag rnd).
  assert (take 8 rnd1 = take 8 rnd /\ (8 <= length rnd1)%nat) as [H1 Hl1].
  { unfold rnd1, set_slice. split.
    - rewrite take_app_le by (rewrite length_take, Hrnd; vm_compute; lia).
      rewrite take_take. reflexivity.
    - rewrite length_app, length_take, Hrnd. vm_compute. lia. }
  set (rnd2 := if truthy dec_key_and_iv then _ else rnd1).
  assert (take 8 rnd2 = take 8 rnd /\ (8 <= length rnd2)%nat) as [H2 Hl2].
  { unfold rnd2. destruct (truthy dec_key_and_iv); [|split; assumption].
    unfold set_slice. change SKIP_LEN with 8%nat. split.
    - rewrite take_app_le by (rewrite length_take; lia).
      rewrite take_take. exact H1.
    - rewrite length_app, length_take. lia. }
  destruct (encrypt _ rnd2) as [encrypted encryptor]. cbn [tl_sent].
  rewrite take_app_le by (rewrite length_take; change PROTO_TAG_POS with 56%nat; lia).
  rewrite take_take. exact H2.
Qed.

(** X17.  The 64 bytes [do_direct_handshake] sends to a datacenter begin
    with the first eight bytes of the nonce it kept, in the clear and
    untouched by the protocol tag and the fast-mode key: they never begin
    with [ef], with HEAD, POST, GET and a space, with the INTERMEDIATE or
    SECURE tag or with the TLS prefix [16 03 01 02], and their bytes 4 to 8
    are never all zero. *)
Theorem direct_nonce_unreserved draws rnd proto_tag dec_key_and_iv :
  draw_nonce draws = Some rnd -> length rnd = HANDSHAKE_LEN ->
  let sent := tl_sent (direct_handshake_packet rnd proto_tag dec_key_and_iv) in
  take 8 sent = take 8 rnd
  /\ (take 1 sent ∉ RESERVED_NONCE_FIRST_CHARS)
  /\ (take 4 sent ∉ RESERVED_NONCE_BEGININGS)
  /\ (slice 4 8 sent ∉ RESERVED_NONCE_CONTINUES).
Proof.
  intros Hdraw Hlen sent.
  pose proof (direct_handshake_packet_head rnd proto_tag dec_key_and_iv Hlen) as Hhead.
  fold sent in Hhead.
  destruct (draw_nonce_inv _ _ Hdraw) as (_ & H1 & H4 & H48).
  assert (forall k, (k <= 8)%nat -> take k sent = take k rnd) as Htake.
  { intros k Hk. rewrite <- (Nat.min_l k 8) by exact Hk.
    rewrite <- !take_take, Hhead. reflexivity. }
  split; [exact Hhead|].
  rewrite (Htake 1%nat), (Htake 4%nat) by lia.
  split; [exact H1|]. split; [exact H4|].
  assert (slice 4 8 sent = slice 4 8 rnd) as ->; [|exact H48].
  unfold slice. change (8 - 4)%nat with 4%nat.
  rewrite !take_drop_commute. change (4 + 4)%nat with 8%nat.
  rewrite Hhead. reflexivity.
Qed.

End Engine.

(** * Instances: the theorems at concrete frames and connections *)

Local Open Scope Z_scope.

(** C4, as stated, fails in three places.  A changed padding byte still
    yields the payload; a changed length byte can yield the frame nested in
    the payload; and a sequence number outside 32 bits cannot be written. *)
Lemma full_framing_mutation_counterexample :
  (exists frame,
      MTProtoFrameStreamWriter_write {| fsw_upstream := []; fsw_seq_no := -2 |}
        sample_payload no_extra
      = Ret (PyNone, {| fsw_upstream := frame; fsw_seq_no := -1 |})
      /\ frame !! 20%nat = Some x04
      /\ MTProtoFrameStreamReader_read
           {| fsr_upstream := <[20%nat := x05]> frame; fsr_seq_no := -2 |}
         = Ret (sample_payload,
                {| fsr_upstream := [x05; x00; x00; x00; x04; x00; x00; x00;
                                    x04; x00; x00; x00];
                   fsr_seq_no := -1 |}))
  /\ (exists frame,
        MTProtoFrameStreamWriter_write {| fsw_upstream := []; fsw_seq_no := 16 |}
          nested_payload no_extra
        = Ret (PyNone, {| fsw_upstream := frame; fsw_seq_no := 17 |})
        /\ frame !! 0%nat = Some x18
        /\ MTProtoFrameStreamReader_read
             {| fsr_upstream := <[0%nat := x04]> frame; fsr_seq_no := 16 |}
           = Ret ([x00; x00; x00; x00],
                  {| fsr_upstream := drop 20 frame; fsr_seq_no := 17 |}))
  /\ MTProtoFrameStreamWriter_write
       {| fsw_upstream := ([] : bytes); fsw_seq_no := 2 ^ 31 |} sample_payload no_extra
     = Raise OverflowError.
Proof.
  split; [|split].
  - eexists. split; [vm_compute; reflexivity|]. split; vm_compute; reflexivity.
  - eexists. split; [vm_compute; reflexivity|]. split; vm_compute; reflexivity.
  - vm_compute. reflexivity.
Qed.

Lemma full_framing_roundtrip_witness :
  exists frame,
    MTProtoFrameStreamWriter_write {| fsw_upstream := []; fsw_seq_no := -2 |}
      sample_payload no_extra
    = Ret (PyNone, {| fsw_upstream := frame; fsw_seq_no := -2 + 1 |})
    /\ (exists k,
          MTProtoFrameStreamReader_read
            {| fsr_upstream := frame ++ []; fsr_seq_no := -2 |}
          = Ret (sample_payload,
                 {| fsr_upstream := bytes_repeat PADDING_FILLER k ++ [];
                    fsr_seq_no := -2 + 1 |}))
    /\ (forall (i : nat) (b b' : byte),
          (4 <= i < 12 + length sample_payload)%nat -> frame !! i = Some b -> b' <> b ->
          exists r',
            MTProtoFrameStreamReader_read
              {| fsr_upstream := <[i:=b']> frame ++ []; fsr_seq_no := -2 |}
            = Ret ([], r')).
Proof.
  apply (full_framing_roundtrip sample_payload (-2) []).
  - reflexivity.
  - vm_compute. discriminate.
  - lia.
Defined.

Lemma full_reader_skips_padding_witness :
  exists w1 w2 r1 r2,
    MTProtoFrameStreamWriter_write
      {| fsw_upstream := []; fsw_seq_no := -2 |} sample_payload no_extra = Ret (PyNone, w1)
    /\ MTProtoFrameStreamWriter_write w1 nested_payload no_extra = Ret (PyNone, w2)
    /\ MTProtoFrameStreamReader_read
         {| fsr_upstream := fsw_upstream w2; fsr_seq_no := -2 |}
       = Ret (sample_payload, r1)
    /\ MTProtoFrameStreamReader_read r1 = Ret (nested_payload, r2)
    /\ fsr_seq_no r2 = -2 + 2.
Proof.
  apply (proj2 full_reader_skips_padding sample_payload nested_payload (-2)).
  - reflexivity.
  - vm_compute. discriminate.
  - reflexivity.
  - vm_compute. discriminate.
  - lia.
Defined.

Lemma misaligned_writes_rejected_witness :
  let crypto : CryptoWrappedStreamWriter bytes unit :=
    {| cw_upstream := []; cw_encryptor := (); cw_block_size := 16 |} in
  let rpc : ProxyReqStreamWriter
              (MTProtoFrameStreamWriter (CryptoWrappedStreamWriter bytes unit)) :=
    {| prw_upstream := {| fsw_upstream := crypto; fsw_seq_no := 0 |};
       remote_ip_port := replicate 20 x00; our_ip_port := replicate 20 x00;
       out_conn_id := replicate 8 x00; proto_tag := PROTO_TAG_ABRIDGED |} in
  MTProtoCompactFrameStreamWriter_write ([] : bytes) [x01; x02; x03] no_extra
  = Ret (PyInt 0, [])
  /\ ProxyReqStreamWriter_write (replicate 16 xaa) rpc [x01; x02; x03] no_extra
     = Ret (PyInt 0, rpc)
  /\ CryptoWrappedStreamWriter_write crypto sample_payload no_extra
     = Ret (PyInt 0, crypto).
Proof.
  intros crypto rpc.
  destruct misaligned_writes_rejected as (Hcompact & Hrpc & Hcrypto).
  split; [|split].
  - apply Hcompact. vm_compute. discriminate.
  - apply Hrpc. vm_compute. discriminate.
  - apply Hcrypto; vm_compute; discriminate.
Defined.

Lemma proxy_req_flags_abridged_witness :
  ProxyReq_flags PROTO_TAG_ABRIDGED (replicate 8 x00 ++ sample_payload) no_extra
  = Z.lor 0x8 (Z.lor 0x1000 (Z.lor 0x20000 (Z.lor 0x40000000 0x2))).
Proof.
  apply (proxy_req_flags_abridged bytes _ (replicate 16 xaa)
           {| prw_upstream := []; remote_ip_port := replicate 20 x00;
              our_ip_port := replicate 20 x00; out_conn_id := replicate 8 x00;
              proto_tag := PROTO_TAG_ABRIDGED |}
           (replicate 8 x00 ++ sample_payload) no_extra).
  - reflexivity.
  - reflexivity.
  - reflexivity.
  - reflexivity.
  - vm_compute. reflexivity.
Defined.

Lemma middleproxy_key_and_iv_formula_witness :
  let derived :=
    get_middleproxy_aes_key_and_iv (zero_digest 16) (zero_digest 20)
      (replicate 16 x01) (replicate 16 x02) [x00; xf1; x53; x65]
      (Some [x26; xa2; x9a; x95]) [x38; xc7] [x43; x4c; x49; x45; x4e; x54]
      (Some [x07; x64; x33; xc6]) [xb8; x22] (replicate 64 x03) None None in
  derived
  = spec_middleproxy_key_and_iv (zero_digest 16) (zero_digest 20)
      (replicate 16 x01) (replicate 16 x02) [x00; xf1; x53; x65]
      [x26; xa2; x9a; x95] [x38; xc7] [x43; x4c; x49; x45; x4e; x54]
      [x07; x64; x33; xc6] [xb8; x22] (replicate 64 x03) None
  /\ length derived.1 = 32%nat /\ length derived.2 = 16%nat.
Proof.
  destruct (middleproxy_key_and_iv_formula (zero_digest 16) (zero_digest 20)
              (replicate 16 x01) (replicate 16 x02) [x00; xf1; x53; x65]
              [x38; xc7] [x43; x4c; x49; x45; x4e; x54] [xb8; x22] (replicate 64 x03)
              (Some [x26; xa2; x9a; x95]) (Some [x07; x64; x33; xc6]) None None)
    as (Hspec & _ & Hkey & Hiv).
  - intros m. reflexivity.
  - intros m. reflexivity.
  - split; [|split; [exact Hkey | exact Hiv]].
    apply Hspec; [reflexivity | reflexivity | discriminate | discriminate].
Defined.

(** C3.  A user allowed no connection ([max_tcp_conns] = 0) connects through
    FakeTLS; the relay runs all the same: the connection's Telegram events
    are the handshake with the DC and the splice, and the limit checks answer
    that no limit is hit. *)
Theorem user_limits_not_enforced :
  let run :=
    handle_client (fun _ _ => ()) (zero_digest 32) zero_hmac no_proxy_protocol
      sample_cfg (sample_env 1700000060) [sample_user]
      (sample_world [] sample_client) in
  run.1 = Ret ()
  /\ filter is_tg_event (trace run.2)
     = [TgHandshake true PROTO_TAG_ABRIDGED 2; Splice "tg"]
  /\ user_limits_hit [sample_user] "tg" run.2 = (Ret (false, false, false), run.2).
Proof.
  cbv zeta. split; [vm_compute; reflexivity|].
  split; [vm_compute; reflexivity|]. apply user_limits_never_hit.
Qed.

Lemma fake_tls_time_window_witness :
  let peer := ("198.51.100.7", 51000) in
  let w := sample_world [] [] in
  (exists pkt w',
     fake_tls_users_loop zero_hmac sample_cfg (sample_env 1700000060) peer sample_hello
       x20 (replicate 32 x07) [] [sample_user] w
     = (Ret (Some {| ftr_buf := [] |}), w')
     /\ trace w' = [ClientWrite pkt]
     /\ take 3 pkt = [x16; x03; x03]
     /\ last_clients_with_time_skew w' = ∅)
  /\ (exists w1,
        last_clients_with_time_skew w1 = <["198.51.100.7" := 60]> ∅
        /\ fake_tls_users_loop zero_hmac sample_cfg (sample_env 1700003600) peer
             sample_hello x20 (replicate 32 x07) [] [sample_user] w
           = fake_tls_users_loop zero_hmac sample_cfg (sample_env 1700003600) peer
               sample_hello x20 (replicate 32 x07) [] [] w1)
  /\ time_skew_minutes (1700000000 - (1 # 4194304)) 3860000000 = -36000000.
Proof.
  intros peer w. split; [|split].
  - destruct (proj1 (fake_tls_time_window zero_hmac sample_cfg (sample_env 1700000060)
                       peer sample_hello x20 (replicate 32 x07) [] sample_user [] w
                       ltac:(vm_compute; reflexivity)))
      as (pkt & w' & Hrun & Htrace & Hpkt & _ & Hskew & _).
    + left. split; vm_compute; reflexivity.
    + vm_compute. reflexivity.
    + vm_compute. reflexivity.
    + exists pkt, w'. split; [exact Hrun|]. split; [exact Htrace|].
      split; [exact Hpkt | exact Hskew].
  - destruct (proj2 (fake_tls_time_window zero_hmac sample_cfg (sample_env 1700003600)
                       peer sample_hello x20 (replicate 32 x07) [] sample_user [] w
                       ltac:(vm_compute; reflexivity)))
      as (w1 & Hskew & _ & _ & _ & Hloop).
    + intros [[_ H]|[H|[H|H]]]; vm_compute in H; discriminate.
    + exists w1. split; [|exact Hloop].
      rewrite Hskew. vm_compute. reflexivity.
  - vm_compute. reflexivity.
Defined.


Lemma replay_guard_witness :
  let env := sample_env 1700000060 in
  let fp_tls :=
    take DIGEST_HALFLEN (slice DIGEST_POS (DIGEST_POS + DIGEST_LEN) sample_hello) in
  let engine :=
    handle_handshake (fun _ _ => ()) (zero_digest 32) zero_hmac no_proxy_protocol
      sample_cfg env [sample_user] in
  let client :=
    handle_client (fun _ _ => ()) (zero_digest 32) zero_hmac no_proxy_protocol
      sample_cfg env [sample_user] in
  (exists w',
      handle_fake_tls_handshake zero_hmac sample_cfg env [sample_user] sample_hello
        ("198.51.100.7", 51000) (sample_world [fp_tls] [])
      = (Ret None, w'))
  /\ (exists cd wd,
        engine (sample_world [] sample_client) = (Ret (Some cd), wd)
        /\ used_handshakes wd
           = [fp_tls; slice SKIP_LEN (SKIP_LEN + PREKEY_LEN + IV_LEN) sample_inner]
        /\ tg_events wd = [])
  /\ (exists w0 cd wd,
        engine w0 = (Ret (Some cd), wd)
        /\ serve_client sample_cfg env [sample_user] cd wd
           = ((client (sample_world [] sample_client)).1,
              (client (sample_world [] sample_client)).2)).
Proof.
  intros env fp_tls engine client. subst engine client. cbv beta.
  pose proof (replay_guard (fun _ _ => ()) (zero_digest 32) zero_hmac no_proxy_protocol)
    as (Htls & _ & Hacc & Htg).
  split; [|split].
  - destruct (Htls sample_cfg env [sample_user] sample_hello ("198.51.100.7", 51000)
                (sample_world [fp_tls] [])) as [(w' & H & _) _].
    + vm_compute. left.
    + exists w'. exact H.
  - set (hs := handle_handshake _ _ _ _ _ _ _ _).
    assert (exists cd, hs.1 = Ret (Some cd)) as [cd Hcd]
      by (eexists; vm_compute; reflexivity).
    assert (hs = (Ret (Some cd), hs.2)) as Hhs
      by (rewrite <- Hcd; exact (surjective_pairing hs)).
    exists cd, hs.2. split; [exact Hhs|].
    destruct (Hacc sample_cfg env [sample_user] (sample_world [] sample_client)
                cd hs.2 Hhs)
      as (peer & hello & inner & buf & wa & wb & wc & _ & _ & _ & _ & _ & _ & _
          & _ & _ & _ & _ & Htgd).
    split; [vm_compute; reflexivity | exact Htgd].
  - set (run := handle_client _ _ _ _ _ _ _ _).
    destruct (Htg sample_cfg env [sample_user] (sample_world [] sample_client)
                run.1 run.2)
      as (w0 & cd & wd & _ & _ & _ & Hhs & Hserve).
    + exact (surjective_pairing run).
    + vm_compute. discriminate.
    + exists w0, cd, wd. split; [exact Hhs | exact Hserve].
Defined.

(** C2, as stated, fails: a client that sends a plain 64-byte obfuscated
    handshake, one the engine would accept for the configured user after
    FakeTLS, is left after its first byte and tunnelled to the mask host;
    nothing goes to Telegram. *)
Lemma plain_client_counterexample :
  let env := sample_env 1700000060 in
  let peer := ("198.51.100.7", 51000) in
  (exists cd w',
      handle_obfuscated_handshake (fun _ _ => ()) (zero_digest 32) sample_cfg env
        [sample_user] peer {| ftr_buf := [] |} sample_inner (sample_world [] [])
      = (Ret (Some cd), w')
      /\ cd_proto_tag cd = PROTO_TAG_ABRIDGED /\ cd_dc_idx cd = 2)
  /\ (let run :=
        handle_client (fun _ _ => ()) (zero_digest 32) zero_hmac no_proxy_protocol
          sample_cfg env [sample_user] (sample_world [] sample_inner) in
      run.1 = Ret ()
      /\ trace run.2 = [CoverTunnel [x01]]
      /\ clt_in run.2 = drop 1 sample_inner
      /\ used_handshakes run.2 = []).
Proof.
  intros env peer. split.
  - eexists _, _. split; [vm_compute; reflexivity|]. split; reflexivity.
  - cbv zeta. split; [|split; [|split]]; vm_compute; reflexivity.
Qed.

Lemma non_tls_client_rejected_witness :
  exists w',
    probe_and_handshake (fun _ _ => ()) (zero_digest 32) zero_hmac sample_cfg
      (sample_env 1700000060) [sample_user] ("198.51.100.7", 51000)
      (sample_world [] sample_inner)
    = (Ret None, w')
    /\ clt_in w' = drop 1 sample_inner
    /\ used_handshakes w' = []
    /\ trace w' = [CoverTunnel [x01]].
Proof.
  destruct (non_tls_client_rejected (fun _ _ => ()) (zero_digest 32) zero_hmac sample_cfg
              (sample_env 1700000060) [sample_user] ("198.51.100.7", 51000)
              (sample_world [] sample_inner) [] x01 (drop 1 sample_inner))
    as (w' & Hrun & Hin & Hused & _ & Htrace).
  - reflexivity.
  - reflexivity.
  - discriminate.
  - vm_compute. lia.
  - exists w'. split; [exact Hrun|]. split; [exact Hin|].
    split; [exact Hused|exact Htrace].
Defined.

(** ** Framing, record layer and relay at concrete messages *)

Lemma abridged_roundtrip_witness :
  exists frame,
    MTProtoCompactFrameStreamWriter_write [] sample_payload no_extra
    = Ret (PyNone, [] ++ frame)
    /\ len frame
       = len sample_payload + (if decide (len sample_payload / 4 < 0x7F) then 1 else 4)
    /\ MTProtoCompactFrameStreamReader_read (frame ++ [xff])
       = Ret (sample_payload, no_extra, [xff]).
Proof.
  apply (abridged_roundtrip [] sample_payload [xff]).
  - reflexivity.
  - vm_compute. reflexivity.
Defined.

Lemma intermediate_roundtrip_witness :
  MTProtoIntermediateFrameStreamWriter_write [] sample_payload no_extra
  = Ret (PyNone, [] ++ le_bytes 4 (len sample_payload) ++ sample_payload)
  /\ MTProtoIntermediateFrameStreamReader_read
       (le_bytes 4 (len sample_payload) ++ sample_payload ++ [xff])
     = Ret (sample_payload, no_extra, [xff]).
Proof.
  apply (intermediate_roundtrip [] sample_payload [xff]).
  vm_compute. discriminate.
Defined.

Lemma secure_roundtrip_witness :
  let frame := le_bytes 4 (len sample_payload + 3) ++ sample_payload ++ [xaa; xbb; xcc] in
  MTProtoSecureIntermediateFrameStreamWriter_write 3 [xaa; xbb; xcc] [] sample_payload
    no_extra
  = Ret (PyNone, [] ++ frame)
  /\ MTProtoSecureIntermediateFrameStreamReader_read (frame ++ [xff])
     = Ret (sample_payload, no_extra, [xff]).
Proof.
  apply (secure_roundtrip 3 [xaa; xbb; xcc] [] sample_payload [xff]).
  - lia.
  - reflexivity.
  - reflexivity.
  - vm_compute. discriminate.
Defined.

Lemma secure_reader_word_aligned_witness :
  len [x01; x02; x03; x04] mod 4 = 0.
Proof.
  apply (secure_reader_word_aligned
           ([x06; x00; x00; x00] ++ [x01; x02; x03; x04; x05; x06] ++ [xff])
           [x01; x02; x03; x04] [xff] no_extra).
  vm_compute. reflexivity.
Defined.

Lemma relay_accounting_witness :
  exists w',
    tg_connect_reader_to_writer (H := MTProtoCompactFrameStreamReader_reader) 2
      ([x02] ++ sample_payload ++ [x00; xff]) [] "tg" true (sample_world [] [])
    = (Ret (Some {| re_reader := [xff]; re_writer := [] ++ sample_payload;
                    re_eof := true |}), w')
    /\ forall u k,
         user_stat w' u k
         = user_stat (sample_world [] []) u k
           + (if decide (u = "tg" /\ k = "octets_from_client")
              then len (concat [sample_payload]) else 0)
           + (if decide (u = "tg" /\ k = "msgs_from_client")
              then len [sample_payload] else 0).
Proof.
  apply (relay_accounting (SR := MTProtoCompactFrameStreamReader_reader)
           ([x02] ++ sample_payload ++ [x00; xff]) [x00; xff] [xff]
           [] ([] ++ sample_payload) [sample_payload] true "tg" true 2
           (sample_world [] [])).
  - eapply relays_cons;
      [reflexivity | reflexivity | discriminate | reflexivity | apply relays_nil].
  - right. eexists. split; [reflexivity|]. split; reflexivity.
  - simpl. lia.
Defined.

Lemma middle_proxy_downlink_witness :
  exists tg_frame rd' clt_frame,
    MTProtoFrameStreamWriter_write {| fsw_upstream := []; fsw_seq_no := 0 |}
      (RPC_PROXY_ANS ++ replicate 4 x00 ++ replicate 8 x11 ++ sample_payload) no_extra
    = Ret (PyNone, {| fsw_upstream := tg_frame; fsw_seq_no := 0 + 1 |})
    /\ ProxyReqStreamReader_read (H := MTProtoFrameStreamReader_reader)
         {| fsr_upstream := tg_frame ++ []; fsr_seq_no := 0 |}
       = Ret (Data sample_payload, rd')
    /\ fsr_seq_no rd' = 0 + 1
    /\ MTProtoCompactFrameStreamWriter_write [] sample_payload no_extra
       = Ret (PyNone, [] ++ clt_frame)
    /\ MTProtoCompactFrameStreamReader_read (clt_frame ++ [])
       = Ret (sample_payload, no_extra, []).
Proof.
  apply (middle_proxy_downlink (replicate 4 x00) (replicate 8 x11) sample_payload 0
           [] [] []).
  - reflexivity.
  - reflexivity.
  - reflexivity.
  - vm_compute. discriminate.
  - lia.
Defined.

Lemma simple_ack_reaches_client_witness :
  let ack := {| QUICKACK_FLAG := false; SIMPLE_ACK := true |} in
  exists tg_frame rd',
    MTProtoFrameStreamWriter_write {| fsw_upstream := []; fsw_seq_no := 0 |}
      (RPC_SIMPLE_ACK ++ replicate 8 x11 ++ [x01; x02; x03; x04]) no_extra
    = Ret (PyNone, {| fsw_upstream := tg_frame; fsw_seq_no := 0 + 1 |})
    /\ ProxyReqStreamReader_read (H := MTProtoFrameStreamReader_reader)
         {| fsr_upstream := tg_frame ++ []; fsr_seq_no := 0 |}
       = Ret (DataExtra [x01; x02; x03; x04] ack, rd')
    /\ MTProtoCompactFrameStreamWriter_write [] [x01; x02; x03; x04] ack
       = Ret (PyNone, [] ++ rev [x01; x02; x03; x04])
    /\ MTProtoIntermediateFrameStreamWriter_write [] [x01; x02; x03; x04] ack
       = Ret (PyNone, [] ++ [x01; x02; x03; x04])
    /\ MTProtoSecureIntermediateFrameStreamWriter_write 2 [xaa; xbb] []
         [x01; x02; x03; x04] ack
       = Ret (PyNone, [] ++ [x01; x02; x03; x04]).
Proof.
  apply (simple_ack_reaches_client (replicate 8 x11) [x01; x02; x03; x04] 0 [] []
           2 [xaa; xbb]).
  - reflexivity.
  - reflexivity.
  - lia.
Defined.

Lemma middle_proxy_uplink_aligned_witness :
  exists frame,
    len frame mod 16 = 0
    /\ len sample_payload + len (replicate 16 xaa) + 80 <= len frame
       < len sample_payload + len (replicate 16 xaa) + 80 + 16
    /\ ProxyReqStreamWriter_write (replicate 16 xaa)
         {| prw_upstream :=
              {| fsw_upstream :=
                   {| cw_upstream := []; cw_encryptor := (); cw_block_size := 16 |};
                 fsw_seq_no := 0 |};
            remote_ip_port := replicate 20 x00; our_ip_port := replicate 20 x00;
            out_conn_id := replicate 8 x11; proto_tag := PROTO_TAG_ABRIDGED |}
         sample_payload no_extra
       = Ret (PyNone,
              {| prw_upstream :=
                   {| fsw_upstream :=
                        {| cw_upstream := [] ++ (encrypt () frame).1;
                           cw_encryptor := (encrypt () frame).2;
                           cw_block_size := 16 |};
                      fsw_seq_no := 0 + 1 |};
                 remote_ip_port := replicate 20 x00; our_ip_port := replicate 20 x00;
                 out_conn_id := replicate 8 x11; proto_tag := PROTO_TAG_ABRIDGED |}).
Proof.
  apply (middle_proxy_uplink_aligned (replicate 16 xaa) sample_payload []
           (replicate 20 x00) (replicate 20 x00) (replicate 8 x11) PROTO_TAG_ABRIDGED
           no_extra () 0).
  - reflexivity.
  - reflexivity.
  - vm_compute. reflexivity.
  - reflexivity.
  - reflexivity.
  - reflexivity.
  - vm_compute. reflexivity.
  - lia.
Defined.

Lemma gen_tls_client_hello_msg_length_witness :
  exists msg,
    gen_tls_client_hello_msg (replicate 32 x01) (replicate 32 x02) 5
      [x65; x78; x61; x6d; x70; x6c; x65; x2e; x6f; x72; x67]
    = Ret msg
    /\ len msg = 517
    /\ take 11 msg = TLS_START_BYTES
    /\ slice 11 43 msg = replicate 32 x01.
Proof.
  apply (proj1 (gen_tls_client_hello_msg_length (replicate 32 x01) (replicate 32 x02) 5
                  [x65; x78; x61; x6d; x70; x6c; x65; x2e; x6f; x72; x67]
                  ltac:(reflexivity) ltac:(reflexivity))).
  vm_compute. discriminate.
Defined.

(** ** The proxy state at concrete connections *)

Lemma caches_stay_bounded_witness :
  let cfg :=
    {| proxy_protocol := false; replay_check_len := 2; client_ips_len := 1;
       ignore_time_skew := false; use_middle_proxy := false; fast_mode := false;
       mask := true |} in
  let w :=
    {| used_handshakes := [[x00]; [x01]]; client_ips := ["192.0.2.1"];
       last_client_ips := ∅; last_clients_with_time_skew := ∅;
       last_clients_with_same_handshake := ∅; stats := ∅; user_stats := ∅;
       clt_in := sample_client; trace := [] |} in
  let run :=
    handle_client (fun _ _ => ()) (zero_digest 32) zero_hmac no_proxy_protocol
      cfg (sample_env 1700000060) [sample_user] w in
  caches_ok cfg run.2.
Proof.
  intros cfg w run.
  apply (caches_stay_bounded (fun _ _ => ()) (zero_digest 32) zero_hmac no_proxy_protocol
           cfg (sample_env 1700000060) [sample_user] w run.1 run.2).
  - exact (surjective_pairing run).
  - split; (split; [|intros _; vm_compute; discriminate]).
    + apply NoDup_cons. split; [|apply NoDup_singleton].
      intros H. apply list_elem_of_singleton in H. discriminate H.
    + apply NoDup_singleton.
Defined.

Lemma curr_connects_balanced_witness :
  let run :=
    handle_client (fun _ _ => ()) (zero_digest 32) zero_hmac no_proxy_protocol
      sample_cfg (sample_env 1700000060) [sample_user] (sample_world [] sample_client) in
  user_stat run.2 "tg" "connects" = 1
  /\ user_stat run.2 "tg" "curr_connects"
     = user_stat (sample_world [] sample_client) "tg" "curr_connects".
Proof.
  intros run. split; [vm_compute; reflexivity|].
  apply (curr_connects_balanced (fun _ _ => ()) (zero_digest 32) zero_hmac
           no_proxy_protocol sample_cfg (sample_env 1700000060) [sample_user]
           (sample_world [] sample_client) run.1 run.2).
  exact (surjective_pairing run).
Defined.

Lemma unknown_secret_refused_witness :
  exists w',
    probe_and_handshake (fun _ _ => ()) (zero_digest 32) zero_hmac sample_cfg
      (sample_env 1700000060) [sample_user] ("198.51.100.7", 51000)
      (sample_world [] ((TLS_START_BYTES ++ replicate 506 x01) ++ [xff]))
    = (Ret None, w')
    /\ clt_in w' = [xff]
    /\ used_handshakes w' = []
    /\ trace w' = [CoverTunnel (TLS_START_BYTES ++ replicate 506 x01)].
Proof.
  destruct (unknown_secret_refused (fun _ _ => ()) (zero_digest 32) zero_hmac sample_cfg
              (sample_env 1700000060) [sample_user] ("198.51.100.7", 51000)
              (sample_world [] ((TLS_START_BYTES ++ replicate 506 x01) ++ [xff]))
              (replicate 506 x01) [xff])
    as (w' & Hrun & Hin & Hused & _ & _ & _ & Htrace).
  - reflexivity.
  - reflexivity.
  - intros u Hu. apply list_elem_of_singleton in Hu. subst u. vm_compute. reflexivity.
  - exists w'. split; [exact Hrun|]. split; [exact Hin|].
    split; [exact Hused | exact Htrace].
Defined.

Lemma fake_cert_len_bounded_witness :
  MIN_CERT_LEN
  <= update_fake_cert_len 2000 (replicate 1500 x0a) < 65536.
Proof.
  apply (fake_cert_len_bounded 2000
           ([x16; x03; x03; x00; x01; x02] ++ [x14; x03; x03; x00; x01; x01]
              ++ [x17; x03; x03; x05; xdc] ++ replicate 1500 x0a)
           (replicate 1500 x0a)).
  - unfold MIN_CERT_LEN. lia.
  - vm_compute. reflexivity.
Defined.

Lemma server_hello_wire_format_witness :
  exists pkt w',
    fake_tls_accept zero_hmac sample_cfg (sample_env 1700000060)
      ("198.51.100.7", 51000) (replicate 32 x00) x20 (replicate 32 x07)
      (replicate 48 x00) (secret sample_user) (sample_world [] [])
    = (Ret (Some {| ftr_buf := [] |}), w')
    /\ trace w' = trace (sample_world [] []) ++ [ClientWrite pkt]
    /\ get_encrypted_cert pkt = Ret (http_data (sample_env 1700000060))
    /\ slice DIGEST_POS (DIGEST_POS + DIGEST_LEN) pkt
       = zero_hmac (secret sample_user)
           (replicate 32 x00 ++ take DIGEST_POS pkt ++ replicate 32 x00
              ++ drop (DIGEST_POS + DIGEST_LEN) pkt).
Proof.
  apply (server_hello_wire_format zero_hmac sample_cfg (sample_env 1700000060)
           ("198.51.100.7", 51000) (replicate 32 x00) x20 (replicate 32 x07)
           (replicate 48 x00) (secret sample_user) (sample_world [] [])).
  - vm_compute. reflexivity.
  - vm_compute. reflexivity.
  - intros key m. reflexivity.
Defined.

Lemma fast_mode_shares_cipher_witness :
  let cfg :=
    {| proxy_protocol := false; replay_check_len := 65536; client_ips_len := 131072;
       ignore_time_skew := false; use_middle_proxy := false; fast_mode := true;
       mask := true |} in
  exists cd w',
    handshake_users_loop (fun key iv => (key, iv)) (zero_digest 32) cfg
      ("198.51.100.7", 51000) {| ftr_buf := [] |} sample_inner [sample_user]
      (sample_world [] [])
    = (Ret (Some cd), w')
    /\ tl_decryptor
         (direct_handshake_for (fun key iv => (key, iv)) cfg (replicate 64 x33) cd)
       = cd_encryptor cd
    /\ cd_encryptor cd = (replicate 32 x00, int_from_bytes_be (replicate 16 x02)).
Proof.
  intros cfg.
  set (run := handshake_users_loop (fun key iv => (key, iv)) (zero_digest 32) cfg
                ("198.51.100.7", 51000) {| ftr_buf := [] |} sample_inner [sample_user]
                (sample_world [] [])).
  assert (exists cd, run.1 = Ret (Some cd)
                     /\ cd_encryptor cd
                        = (replicate 32 x00, int_from_bytes_be (replicate 16 x02)))
    as (cd & Hcd & Henc)
    by (eexists; split; vm_compute; reflexivity).
  assert (run = (Ret (Some cd), run.2)) as Hrun
    by (rewrite <- Hcd; exact (surjective_pairing run)).
  exists cd, run.2. split; [exact Hrun|]. split; [|exact Henc].
  apply (fast_mode_shares_cipher (fun key iv => (key, iv)) (zero_digest 32) cfg
           ("198.51.100.7", 51000) {| ftr_buf := [] |} sample_inner [sample_user]
           (sample_world [] []) cd run.2 (replicate 64 x33) Hrun).
  - intros m. reflexivity.
  - reflexivity.
  - reflexivity.
  - reflexivity.
Defined.

Lemma direct_nonce_unreserved_witness :
  let second := [x01; x02; x03; x04; x05; x06; x07; x08] ++ replicate 56 x33 in
  let sent :=
    tl_sent (direct_handshake_packet (fun key iv => (key, iv)) second
               PROTO_TAG_ABRIDGED None) in
  take 8 sent = take 8 second
  /\ (take 1 sent ∉ RESERVED_NONCE_FIRST_CHARS)
  /\ (take 4 sent ∉ RESERVED_NONCE_BEGININGS)
  /\ (slice 4 8 sent ∉ RESERVED_NONCE_CONTINUES).
Proof.
  intros second.
  apply (direct_nonce_unreserved (fun key iv => (key, iv))
           [[xef] ++ replicate 63 x33; second] second PROTO_TAG_ABRIDGED None).
  - vm_compute. reflexivity.
  - reflexivity.
Defined.

Lemma sample_pool_ok : pool_ok sample_pool.
Proof.
  intros key tasks Hkey. unfold sample_pool in Hkey. cbn [pools next_task] in *.
  apply lookup_singleton_Some in Hkey as [_ <-].
  split; [|split].
  - exact (NoDup_seq 0 3).
  - vm_compute. discriminate.
  - repeat constructor.
Qed.

Lemma sample_pool_fresh t : (next_task sample_pool <= t)%nat -> sample_task_state t = TaskPending.
Proof.
  cbn [sample_pool next_task]. intros Ht.
  do 3 (destruct t as [|t]; [lia|]). reflexivity.
Qed.

Lemma get_connection_first_usable_witness :
  match get_connection sample_task_state sample_pool_key sample_pool with
  | Ret (c, _) => c = Pooled 1
  | Raise _ => False
  end
  /\ exists c p',
    get_connection sample_task_state sample_pool_key sample_pool = Ret (c, p')
    /\ match c with
       | Pooled t =>
           (t ∉ default [] (pools p' !! sample_pool_key))
           /\ exists pre post,
                default [] (pools sample_pool !! sample_pool_key) = pre ++ t :: post
                /\ task_usable sample_task_state t
                /\ Forall (fun x => ~ task_usable sample_task_state x) pre
       | Opened =>
           Forall (fun x => ~ task_usable sample_task_state x)
             (default [] (pools sample_pool !! sample_pool_key))
       end.
Proof.
  split; [vm_compute; reflexivity|].
  apply (get_connection_first_usable sample_task_state sample_pool_key sample_pool
           sample_pool_ok sample_pool_fresh).
Defined.

Lemma get_connection_refills_pool_witness :
  exists c p',
    get_connection sample_task_state sample_pool_key sample_pool = Ret (c, p')
    /\ pool_ok p'
    /\ len (default [] (pools p' !! sample_pool_key)) = MAX_CONNS_IN_POOL
    /\ Forall (fun t => sample_task_state t = TaskPending
                        \/ sample_task_state t = TaskDone false)
         (default [] (pools p' !! sample_pool_key))
    /\ Forall (fun t => sample_task_state t = TaskPending
                        \/ (sample_task_state t = TaskDone false /\ c <> Pooled t)
                        -> t ∈ default [] (pools p' !! sample_pool_key))
         (default [] (pools sample_pool !! sample_pool_key))
    /\ forall key', key' <> sample_pool_key -> pools p' !! key' = pools sample_pool !! key'.
Proof.
  apply (get_connection_refills_pool sample_task_state sample_pool_key sample_pool
           sample_pool_ok sample_pool_fresh).
Defined.

(** ** Behind a balancer that speaks the PROXY protocol *)

Section BehindBalancer.
Context {C : Type} {cipher : Cipher C}.
Variable create_aes_ctr : bytes -> Z -> C.
Variable sha256 : bytes -> bytes.
Variable hmac_sha256 : bytes -> bytes -> bytes.
Variable readuntil_crlf : bytes -> outcome (bytes * bytes).
Variable int_of_str : string -> outcome Z.
Variable inet_ntop : bool -> bytes -> outcome string.

Lemma handle_handshake_proxy_peer cfg env users w (p0 peer : string * Z) (rest : bytes) :
  proxy_protocol cfg = true ->
  is_closing env = false ->
  peername env = Some p0 ->
  ProxyProtocol.handle_proxy_protocol readuntil_crlf int_of_str inet_ntop (clt_in w) p0
  = Ret (Some peer, rest) ->
  handle_handshake create_aes_ctr sha256 hmac_sha256
    (ProxyProtocol.handle_proxy_protocol readuntil_crlf int_of_str inet_ntop)
    cfg env users w
  = probe_and_handshake create_aes_ctr sha256 hmac_sha256 cfg env users peer
      (with_clt_in rest w).
Proof using Type.
  intros Hpp Hcl Hpeer Hrun. unfold handle_handshake.
  rewrite Hcl, Hpeer, Hpp. cbn [orb bool_decide decide_rel default].
  rewrite bool_decide_eq_false_2 by discriminate.
  cbv [mbind M_bind get_world lift set_clt_in mret M_ret id]. rewrite Hrun. reflexivity.
Qed.

(** X26. With [proxy_protocol] on, a connection that opens with a version 2
    header carrying the PROXY command and an IPv4 or IPv6 address block is
    handled from the first byte after the header (address block and TLVs
    skipped) exactly as a connection from the header's source address and
    source port: these, not the balancer's own address, are the peer of the
    handshake. *)
Theorem proxy_v2_header_sets_peer cfg env users w (p0 : string * Z)
    (v6 : bool) (fam_proto : byte) (len_bytes src dst sport dport tlv rest : bytes)
    (addr : string) :
  proxy_protocol cfg = true ->
  is_closing env = false ->
  peername env = Some p0 ->
  Z.shiftr (b2z fam_proto) 4 = (if v6 then 2 else 1) ->
  length src = (if v6 then 16 else 4)%nat ->
  length dst = length src ->
  length sport = 2%nat ->
  length dport = 2%nat ->
  int_to_bytes_be (len (src ++ dst ++ sport ++ dport ++ tlv)) 2 = Ret len_bytes ->
  inet_ntop v6 src = Ret addr ->
  clt_in w = ProxyProtocol.PROXY2_SIGNATURE ++ [x21; fam_proto] ++ len_bytes
             ++ (src ++ dst ++ sport ++ dport ++ tlv) ++ rest ->
  handle_handshake create_aes_ctr sha256 hmac_sha256
    (ProxyProtocol.handle_proxy_protocol readuntil_crlf int_of_str inet_ntop)
    cfg env users w
  = probe_and_handshake create_aes_ctr sha256 hmac_sha256 cfg env users
      (addr, int_from_bytes_be sport) (with_clt_in rest w).
Proof using Type.
  intros Hpp Hcl Hpeer Hfam Hsrc Hdst Hsport Hdport Hlen Hntop Hin.
  apply (handle_handshake_proxy_peer cfg env users w p0); try assumption.
  rewrite Hin.
  apply (proxy2_header_run readuntil_crlf int_of_str inet_ntop v6 fam_proto len_bytes
           src dst sport dport tlv rest p0 addr); assumption.
Qed.

(** X27. With [proxy_protocol] on, a connection that opens with the version 1
    line [PROXY TCP4 src dst sport dport] (or [TCP6]) is handled from the
    first byte after the line exactly as a connection from [src], port
    [sport]: the third word after the family is the port, the destination
    is not looked at. *)
Theorem proxy_v1_header_sets_peer cfg env users w (p0 : string * Z)
    (proxy_fam src dst sport dport rest : bytes) (addr port_str : string) (port : Z) :
  proxy_protocol cfg = true ->
  is_closing env = false ->
  peername env = Some p0 ->
  proxy_fam ∈ [ProxyProtocol.PROXY_TCP4; ProxyProtocol.PROXY_TCP6] ->
  (x20 ∉ src) -> (x20 ∉ dst) -> (x20 ∉ sport) -> (x20 ∉ dport) ->
  readuntil_crlf
    ((proxy_fam ++ [x20] ++ src ++ [x20] ++ dst ++ [x20] ++ sport ++ [x20] ++ dport
      ++ [x0d; x0a]) ++ rest)
  = Ret (proxy_fam ++ [x20] ++ src ++ [x20] ++ dst ++ [x20] ++ sport ++ [x20] ++ dport
         ++ [x0d; x0a], rest) ->
  ProxyProtocol.decode_ascii src = Ret addr ->
  ProxyProtocol.decode_ascii sport = Ret port_str ->
  int_of_str port_str = Ret port ->
  clt_in w = ProxyProtocol.PROXY_SIGNATURE
             ++ (proxy_fam ++ [x20] ++ src ++ [x20] ++ dst ++ [x20] ++ sport ++ [x20]
                 ++ dport ++ [x0d; x0a]) ++ rest ->
  handle_handshake create_aes_ctr sha256 hmac_sha256
    (ProxyProtocol.handle_proxy_protocol readuntil_crlf int_of_str inet_ntop)
    cfg env users w
  = probe_and_handshake create_aes_ctr sha256 hmac_sha256 cfg env users
      (addr, port) (with_clt_in rest w).
Proof using Type.
  intros Hpp Hcl Hpeer Hfam Hsrc Hdst Hsport Hdport Hread Haddr Hpstr Hport Hin.
  apply (handle_handshake_proxy_peer cfg env users w p0); try assumption.
  rewrite Hin. apply (proxy1_header_run _ _ _ _ _ _ _ _ _ p0 addr port_str port); assumption.
Qed.

(** X28. With [proxy_protocol] on, a connection whose first sixteen bytes
    begin neither a version 1 nor a version 2 header is dropped before any
    handshake: it is counted in [connects_all] and [connects_bad], what
    follows the sixteen bytes is read and thrown away, nothing is written
    to the client, nothing is sent to the mask host or to Telegram, and the
    caches and the per-user counters stay as they were (for a client that
    ends within [client_handshake_timeout], as [handle_client] is
    modelled). *)
Theorem proxy_header_required cfg env users w (p0 : string * Z) (first rest : bytes) :
  proxy_protocol cfg = true ->
  is_closing env = false ->
  peername env = Some p0 ->
  length first = 16%nat ->
  startswith first ProxyProtocol.PROXY_SIGNATURE = false ->
  startswith first ProxyProtocol.PROXY2_SIGNATURE = false ->
  clt_in w = first ++ rest ->
  exists w',
    handle_client create_aes_ctr sha256 hmac_sha256
      (ProxyProtocol.handle_proxy_protocol readuntil_crlf int_of_str inet_ntop)
      cfg env users w
    = (Ret (), w')
    /\ trace w' = trace w ++ [DrainClient]
    /\ clt_in w' = rest
    /\ stats w' = counter_add "connects_bad" 1 (counter_add "connects_all" 1 (stats w))
    /\ used_handshakes w' = used_handshakes w
    /\ client_ips w' = client_ips w
    /\ user_stats w' = user_stats w.
Proof using Type.
  intros Hpp Hcl Hpeer Hlen Hv1 Hv2 Hin. unfold handle_client, handle_handshake.
  rewrite Hcl, Hpeer, Hpp. cbn [orb default].
  rewrite bool_decide_eq_false_2 by discriminate.
  unfold update_stats, handle_bad_client. rewrite Hcl.
  cbv [mbind M_bind get_world lift set_clt_in set_stats mret M_ret id emit with_clt_in
       stats clt_in trace used_handshakes client_ips user_stats].
  destruct w as [uh ci lci lts lsh st us cin tr]. cbn [clt_in] in Hin. subst cin.
  rewrite no_proxy_header_run by assumption.
  eexists. split; [reflexivity|]. cbn. auto 10.
Qed.

End BehindBalancer.

Lemma init_config_secret_normalised_witness :
  init_config_secret sample_secret
  = replicate 27 char_0 ++ String.list_ascii_of_string "0beef".
Proof.
  apply (init_config_secret_normalised sample_secret); [reflexivity | vm_compute; lia].
Defined.

Lemma get_srv_time_reenables_only_its_own_witness :
  ts_disable_middle_proxy
    (get_srv_time (fun _ _ => Ret 3%Q) true [Ret sample_headers] false true) = true.
Proof.
  apply (proj1 (get_srv_time_reenables_only_its_own (fun _ _ => Ret 3%Q) true
                  [Ret sample_headers] false true)).
  reflexivity.
Defined.

Lemma crypto_reader_stream_witness :
  exists datas r' chunks,
    CryptoWrappedStreamReader_readexactly_each sample_crypto_reader [4; 20]
    = Ret (datas, r')
    /\ Forall2 (fun data n => len data = n) datas [4; 20]
    /\ cr_upstream sample_crypto_reader = concat chunks ++ cr_upstream r'
    /\ Forall (fun chunk => len chunk mod cr_block_size sample_crypto_reader = 0) chunks
    /\ concat datas ++ cr_buf r'
       = cr_buf sample_crypto_reader
         ++ (decrypt_each (cr_decryptor sample_crypto_reader) chunks).1
    /\ cr_decryptor r' = (decrypt_each (cr_decryptor sample_crypto_reader) chunks).2.
Proof.
  apply (crypto_reader_stream (C := bytes * Z) (cipher := KeyedFakeCipher)
           (fun _ _ => eq_refl) sample_crypto_reader [4; 20]).
  - reflexivity.
  - repeat constructor; lia.
  - vm_compute. discriminate.
Defined.

Lemma getrandbytes_stream_witness :
  exists result r' m,
    MyRandom_getrandbytes 1 (fun _ => 1) sample_random 16 = Some (Ret (result, r'))
    /\ len result = 16
    /\ mr_drawn r' = (mr_drawn sample_random + m)%nat
    /\ result ++ mr_buffer r'
       = mr_buffer sample_random
         ++ (encrypt_each (mr_encryptor sample_random)
               ((fun i => rev (le_bytes 512 ((fun _ => 1) i)))
                  <$> seq (mr_drawn sample_random) m)).1
    /\ mr_encryptor r'
       = (encrypt_each (mr_encryptor sample_random)
            ((fun i => rev (le_bytes 512 ((fun _ => 1) i)))
               <$> seq (mr_drawn sample_random) m)).2.
Proof.
  apply (getrandbytes_stream (C := bytes * Z) (cipher := KeyedFakeCipher)
           (fun _ => 1) (fun _ _ => eq_refl)
           (fun _ => conj (Z.le_0_1) eq_refl) 1 sample_random 16).
  - lia.
  - vm_compute. discriminate.
Defined.

Lemma getrandbits_range_witness :
  exists v r',
    MyRandom_getrandbits 1 (fun _ => 1) sample_random 10 = Some (Ret (v, r'))
    /\ 0 <= v < 2 ^ 10.
Proof.
  apply (getrandbits_range (C := bytes * Z) (cipher := KeyedFakeCipher)
           (fun _ => 1) (fun _ _ => eq_refl)
           (fun _ => conj (Z.le_0_1) eq_refl) 1 sample_random 10).
  - lia.
  - vm_compute. discriminate.
Defined.

Lemma proxy_v2_header_sets_peer_witness :
  handle_handshake (fun _ _ => ()) (zero_digest 32) zero_hmac
    (ProxyProtocol.handle_proxy_protocol sample_readuntil_crlf sample_int_of_str
       sample_inet_ntop)
    sample_balancer_cfg (sample_env 1700000060) [sample_user]
    (sample_world [] sample_proxy2_header)
  = probe_and_handshake (fun _ _ => ()) (zero_digest 32) zero_hmac
      sample_balancer_cfg (sample_env 1700000060) [sample_user]
      ("192.0.2.1"%string, int_from_bytes_be [xc0; x00])
      (with_clt_in [xef] (sample_world [] sample_proxy2_header)).
Proof.
  apply (proxy_v2_header_sets_peer (fun _ _ => ()) (zero_digest 32) zero_hmac
           sample_readuntil_crlf sample_int_of_str sample_inet_ntop
           sample_balancer_cfg (sample_env 1700000060) [sample_user]
           (sample_world [] sample_proxy2_header) ("198.51.100.7"%string, 51000)
           false x11 [x00; x0c] sample_proxy2_src sample_proxy2_dst
           [xc0; x00] [x01; xbb] [] [xef] "192.0.2.1"%string);
    reflexivity.
Defined.

Lemma proxy_v1_header_sets_peer_witness :
  handle_handshake (fun _ _ => ()) (zero_digest 32) zero_hmac
    (ProxyProtocol.handle_proxy_protocol sample_readuntil_crlf sample_int_of_str
       sample_inet_ntop)
    sample_balancer_cfg (sample_env 1700000060) [sample_user]
    (sample_world [] (ProxyProtocol.PROXY_SIGNATURE ++ sample_proxy1_line ++ [xef]))
  = probe_and_handshake (fun _ _ => ()) (zero_digest 32) zero_hmac
      sample_balancer_cfg (sample_env 1700000060) [sample_user]
      ("192.0.2.1"%string, 49152)
      (with_clt_in [xef]
         (sample_world [] (ProxyProtocol.PROXY_SIGNATURE ++ sample_proxy1_line ++ [xef]))).
Proof.
  apply (proxy_v1_header_sets_peer (fun _ _ => ()) (zero_digest 32) zero_hmac
           sample_readuntil_crlf sample_int_of_str sample_inet_ntop
           sample_balancer_cfg (sample_env 1700000060) [sample_user]
           (sample_world [] (ProxyProtocol.PROXY_SIGNATURE ++ sample_proxy1_line ++ [xef]))
           ("198.51.100.7"%string, 51000)
           ProxyProtocol.PROXY_TCP4 sample_proxy1_src sample_proxy1_dst
           sample_proxy1_sport sample_proxy1_dport [xef]
           "192.0.2.1"%string "49152"%string 49152);
    try reflexivity;
    try (intros H; repeat (apply elem_of_cons in H as [H|H]; [discriminate H|]);
         apply elem_of_nil in H; exact H).
  left.
Defined.

Lemma proxy_header_required_witness :
  exists w',
    handle_client (fun _ _ => ()) (zero_digest 32) zero_hmac
      (ProxyProtocol.handle_proxy_protocol sample_readuntil_crlf sample_int_of_str
         sample_inet_ntop)
      sample_balancer_cfg (sample_env 1700000060) [sample_user]
      (sample_world [] (take 16 sample_client ++ drop 16 sample_client))
    = (Ret (), w')
    /\ trace w' = trace (sample_world [] (take 16 sample_client ++ drop 16 sample_client))
                  ++ [DrainClient]
    /\ clt_in w' = drop 16 sample_client
    /\ stats w' = counter_add "connects_bad" 1
                    (counter_add "connects_all" 1
                       (stats (sample_world []
                                 (take 16 sample_client ++ drop 16 sample_client))))
    /\ used_handshakes w'
       = used_handshakes (sample_world [] (take 16 sample_client ++ drop 16 sample_client))
    /\ client_ips w'
       = client_ips (sample_world [] (take 16 sample_client ++ drop 16 sample_client))
    /\ user_stats w'
       = user_stats (sample_world [] (take 16 sample_client ++ drop 16 sample_client)).
Proof.
  apply (proxy_header_required (fun _ _ => ()) (zero_digest 32) zero_hmac
           sample_readuntil_crlf sample_int_of_str sample_inet_ntop
           sample_balancer_cfg (sample_env 1700000060) [sample_user]
           (sample_world [] (take 16 sample_client ++ drop 16 sample_client))
           ("198.51.100.7"%string, 51000) (take 16 sample_client) (drop 16 sample_client));
    reflexivity.
Defined.

Lemma middleproxy_prefer_ipv6_key_error_witness :
  exists proxy,
    MiddleProxy.init_config_proxy None 16 18000 10 true ∅ = inr proxy
    /\ MiddleProxy.do_middleproxy_handshake (conn := unit)
         proxy sample_ip_info ∅ ∅ (fun _ => 0%nat) (fun _ _ => inr ()) 2
       = inl (MiddleProxy.KeyError "PREFER_IPV6").
Proof.
  destruct (init_config_proxy_runs None 16 18000 10 true ∅ (lookup_empty _))
    as [proxy Hinit].
  exists proxy. split; [exact Hinit|].
  apply (middleproxy_prefer_ipv6_key_error (conn := unit) None 16 18000 10 true
           ∅ proxy sample_ip_info ∅ ∅ (fun _ => 0%nat) (fun _ _ => inr ()) 2
           Hinit (lookup_empty _)).
  reflexivity.
Defined.
